(** * A circular genome with transposable elements: [genome.py]

    Shallow embedding of the two realizations of the [Genome] interface,
    [ListGenome] (a Python list of tuples and two dicts) and
    [LinkedListGenome] (a circular doubly linked list of [Nucleotide]
    objects and a list of [TE] objects), followed by the properties of
    the specification that were checked against them.

    Python integers are unbounded, so every [int] is a [Z].  A method is
    a computation in a state-and-exception monad: it returns either a
    value or the exception that was raised, together with the state of
    the object at that moment (an exception does not roll back what the
    method had already mutated). *)

From Stdlib Require Import ZArith Lia Ascii String List Bool Sorted.
From stdpp Require Import base tactics option list numbers.
Import ListNotations.

Local Open Scope Z_scope.

(** ** Exceptions and the method monad *)

(** The exceptions that the source can raise.  None is raised by a
    [raise] statement of the genome classes themselves except the two
    [IndexError]s of [get_link_at_index]; the others come from Python's
    list indexing, dict lookup, [%] and attribute assignment. *)
Inductive exn : Type :=
  | IndexError (msg : string)
  | KeyError (key : Z)
  | ZeroDivisionError
  | AttributeError
  | TypeError.

Inductive outcome (A : Type) : Type :=
  | Ret (a : A)
  | Raise (e : exn).
Arguments Ret {A} a.
Arguments Raise {A} e.

Definition is_ret {A} (o : outcome A) : bool :=
  match o with Ret _ => true | Raise _ => false end.

Definition M (S A : Type) : Type := S -> outcome A * S.

Definition ret {S A} (a : A) : M S A := fun s => (Ret a, s).
Definition raise {S A} (e : exn) : M S A := fun s => (Raise e, s).
Definition bind {S A B} (m : M S A) (k : A -> M S B) : M S B :=
  fun s => match m s with
           | (Ret a, s') => k a s'
           | (Raise e, s') => (Raise e, s')
           end.
Definition gets {S A} (f : S -> A) : M S A := fun s => (Ret (f s), s).
Definition modify {S} (f : S -> S) : M S unit := fun s => (Ret tt, f s).

Declare Scope py_scope.
Delimit Scope py_scope with py.
Notation "x <- m ;; k" := (bind m (fun x => k))
  (at level 100, m at next level, right associativity) : py_scope.
Notation "m ;; k" := (bind m (fun _ => k))
  (at level 100, right associativity) : py_scope.

(** A [for] loop over a finite iterable: the body runs on each item in
    turn, and an exception leaves the loop at once. *)
Fixpoint for_each {S A} (xs : list A) (body : A -> M S unit) : M S unit :=
  match xs with
  | [] => ret tt
  | x :: xs' => bind (body x) (fun _ => for_each xs' body)
  end.

(** ** Python's built-in sequences and dicts *)

Module Py.

(** [range(start, stop)]: empty when [stop <= start]. *)
Definition range (start stop : Z) : list Z :=
  map (fun k : nat => start + Z.of_nat k) (seq 0 (Z.to_nat (stop - start))).

(** Index normalisation of [l[i]]: a negative [i] counts from the end. *)
Definition norm_index (n : nat) (i : Z) : option nat :=
  if (0 <=? i) && (i <? Z.of_nat n) then Some (Z.to_nat i)
  else if (- Z.of_nat n <=? i) && (i <? 0) then Some (Z.to_nat (i + Z.of_nat n))
  else None.

(** [l[i]], [None] standing for [IndexError]. *)
Definition getitem {A} (l : list A) (i : Z) : option A :=
  match norm_index (length l) i with
  | Some k => l !! k
  | None => None
  end.

(** [l[i] = v], [None] standing for [IndexError]. *)
Definition setitem {A} (l : list A) (i : Z) (v : A) : option (list A) :=
  match norm_index (length l) i with
  | Some k => Some (<[k := v]> l)
  | None => None
  end.

(** Bound normalisation of a slice [l[i:...]]: clipped, never an error. *)
Definition slice_index (n : nat) (i : Z) : nat :=
  if i <? 0 then Z.to_nat (Z.max 0 (i + Z.of_nat n))
  else Z.to_nat (Z.min i (Z.of_nat n)).

(** [l[i:i] = new]: the items of [new] are spliced in before index [i]. *)
Definition slice_insert {A} (l : list A) (i : Z) (new : list A) : list A :=
  let k := slice_index (length l) i in
  take k l ++ new ++ drop k l.

(** A [dict] with [int] keys.  Python dicts keep their keys in the
    order of first insertion, which [list(d)] exposes, so a dict is an
    association list in that order. *)
Definition dict (V : Type) : Type := list (Z * V).

Fixpoint dict_get {V} (d : dict V) (k : Z) : option V :=
  match d with
  | [] => None
  | (k', v) :: d' => if Z.eqb k' k then Some v else dict_get d' k
  end.

(** [k in d] *)
Definition dict_mem {V} (d : dict V) (k : Z) : bool :=
  match dict_get d k with Some _ => true | None => false end.

(** [d[k] = v]: an existing key keeps its place, a new one goes last. *)
Fixpoint dict_set {V} (d : dict V) (k : Z) (v : V) : dict V :=
  match d with
  | [] => [(k, v)]
  | (k', v') :: d' =>
      if Z.eqb k' k then (k', v) :: d' else (k', v') :: dict_set d' k v
  end.

(** What is left of [d] after [d.pop(k)]: [d] without the key [k]. *)
Fixpoint dict_remove {V} (d : dict V) (k : Z) : dict V :=
  match d with
  | [] => []
  | (k', v') :: d' =>
      if Z.eqb k' k then dict_remove d' k else (k', v') :: dict_remove d' k
  end.

(** [list(d)] *)
Definition dict_keys {V} (d : dict V) : list Z := map fst d.

End Py.

(** What a method of the interface hands back to its caller. *)
Inductive value : Type :=
  | VNone
  | VInt (z : Z)
  | VList (l : list Z)
  | VStr (s : string).

(** A call of one of the six public methods of [Genome]. *)
Inductive call : Type :=
  | Insert_te (pos length : Z)
  | Copy_te (te offset : Z)
  | Disable_te (te : Z)
  | Active_tes
  | Len
  | Str.

(** ** [class ListGenome] *)

Module ListGenome.

Record t : Type := mk {
  genome : list (ascii * Z);
  active_TEs : Py.dict (Z * Z);
  inactive_TEs : Py.dict (Z * Z);
  number_of_TEs : Z
}.

Definition set_genome (f : list (ascii * Z) -> list (ascii * Z)) (self : t) : t :=
  mk (f (genome self)) (active_TEs self) (inactive_TEs self) (number_of_TEs self).
Definition set_active_TEs (f : Py.dict (Z * Z) -> Py.dict (Z * Z)) (self : t) : t :=
  mk (genome self) (f (active_TEs self)) (inactive_TEs self) (number_of_TEs self).
Definition set_inactive_TEs (f : Py.dict (Z * Z) -> Py.dict (Z * Z)) (self : t) : t :=
  mk (genome self) (active_TEs self) (f (inactive_TEs self)) (number_of_TEs self).
Definition set_number_of_TEs (f : Z -> Z) (self : t) : t :=
  mk (genome self) (active_TEs self) (inactive_TEs self) (f (number_of_TEs self)).

(** [__init__] *)
Definition init (n : Z) : t :=
  mk (repeat ("-"%char, 0) (Z.to_nat n)) [] [] 0.

(** [self.genome[i]] *)
Definition genome_getitem (i : Z) : M t (ascii * Z) :=
  fun self => match Py.getitem (genome self) i with
              | Some x => (Ret x, self)
              | None => (Raise (IndexError "list index out of range"), self)
              end.

(** [self.genome[i] = x] *)
Definition genome_setitem (i : Z) (x : ascii * Z) : M t unit :=
  fun self => match Py.setitem (genome self) i x with
              | Some g => (Ret tt, set_genome (fun _ => g) self)
              | None => (Raise (IndexError "list assignment index out of range"), self)
              end.

(** [self.active_TEs[k]] *)
Definition active_TEs_getitem (k : Z) : M t (Z * Z) :=
  fun self => match Py.dict_get (active_TEs self) k with
              | Some r => (Ret r, self)
              | None => (Raise (KeyError k), self)
              end.

(** [disable_te]: the record is read before the membership test. *)
Definition disable_te (te : Z) : M t unit :=
  (r <- active_TEs_getitem te ;;
   let start_pos_of_te := fst r in
   let length_of_te := snd r in
   for_each (Py.range start_pos_of_te (start_pos_of_te + length_of_te))
            (fun n => genome_setitem n ("x"%char, te)) ;;
   present <- gets (fun self => Py.dict_mem (active_TEs self) te) ;;
   if present : bool then
     popped <- active_TEs_getitem te ;;
     modify (set_active_TEs (fun d => Py.dict_remove d te)) ;;
     modify (set_inactive_TEs (fun d => Py.dict_set d te popped))
   else ret tt)%py.

(** The collision test of [insert_te], on [nuc = self.genome[pos]]:
    [if nuc[0] == 'A': self.disable_te(nuc[1])]. *)
Definition collide (nuc : ascii * Z) : M t unit :=
  if Ascii.eqb (fst nuc) "A"%char then disable_te (snd nuc) else ret tt.

(** The last loop of [insert_te]: every active record that starts
    after [pos] moves right by [length]. *)
Definition shift_record (pos length : Z) (e : Z * (Z * Z)) : Z * (Z * Z) :=
  let '(k, (start, len)) := e in
  if pos <? start then (k, (start + length, len)) else e.

(** [insert_te]: the counter is advanced first, then [self.genome[pos]]
    is read. *)
Definition insert_te (pos length : Z) : M t Z :=
  (modify (set_number_of_TEs (fun c => c + 1)) ;;
   id <- gets number_of_TEs ;;
   let te := repeat ("A"%char, id) (Z.to_nat length) in
   nuc <- genome_getitem pos ;;
   collide nuc ;;
   modify (set_genome (fun g => Py.slice_insert g pos te)) ;;
   modify (set_active_TEs (fun d => Py.dict_set d id (pos, length))) ;;
   modify (set_active_TEs (map (shift_record pos length))) ;;
   ret id)%py.

(** [copy_te]: no test of the status, the record is read from
    [active_TEs] at once. *)
Definition copy_te (te offset : Z) : M t (option Z) :=
  (r <- active_TEs_getitem te ;;
   let start_position_original := fst r in
   let length := snd r in
   n <- gets (fun self => Z.of_nat (List.length (genome self))) ;;
   if n =? 0 then raise ZeroDivisionError
   else
     let start_position_new := (start_position_original + offset) mod n in
     id_new <- insert_te start_position_new length ;;
     ret (Some id_new))%py.

Definition active_tes (self : t) : list Z := Py.dict_keys (active_TEs self).

(** [__len__] *)
Definition len (self : t) : Z := Z.of_nat (List.length (genome self)).

(** [__str__] *)
Definition str (self : t) : string :=
  string_of_list_ascii (map fst (genome self)).

Definition option_value (o : option Z) : value :=
  match o with Some z => VInt z | None => VNone end.

Definition step (c : call) : M t value :=
  match c with
  | Insert_te pos length => (id <- insert_te pos length ;; ret (VInt id))%py
  | Copy_te te offset => (r <- copy_te te offset ;; ret (option_value r))%py
  | Disable_te te => (disable_te te ;; ret VNone)%py
  | Active_tes => gets (fun self => VList (active_tes self))
  | Len => gets (fun self => VInt (len self))
  | Str => gets (fun self => VStr (str self))
  end.

(** A caller that catches what a call raises and carries on. *)
Fixpoint run (cs : list call) (self : t) : list (outcome value) * t :=
  match cs with
  | [] => ([], self)
  | c :: cs' =>
      let '(o, self') := step c self in
      let '(os, self'') := run cs' self' in
      (o :: os, self'')
  end.

End ListGenome.

(** ** [class DoublyLinkedListSequence]

    A sequence object is a ring of [DoublyLink]s closed by the dummy link
    [head].  Every reader of the ring ([__str__], [__len__],
    [get_link_at_index]) walks it from [head.next] along [next] until it
    is back at [head], so the ring is represented by the list of the
    elements met on that walk, and a link by its place on it. *)

Module DoublyLinkedListSequence.

Inductive link : Type :=
  | Head
  | Link (index : nat).

Section Ring.
Context {E : Type}.

Definition t : Type := list E.

(** [insert_after(link, element)] *)
Definition insert_after (s : t) (l : link) (element : E) : t :=
  match l with
  | Head => element :: s
  | Link i => take (S i) s ++ element :: drop (S i) s
  end.

(** [__init__]: [head.prev] is set, not [head.previous], and no later
    statement updates it, so [self.head.prev] is [head] on every
    round of the loop and each element goes in right after [head]. *)
Definition init (seq : list E) : t :=
  fold_left (fun s element => insert_after s Head element) seq [].

(** [head.previous]: it is [None] as [DoublyLink(None, None, None)]
    leaves it until the first [insert_after(head, _)], whose
    [new_link.next.previous = new_link] stores the new link there;
    that link stays the last of the ring. *)
Definition head_previous (s : t) : option link :=
  match s with
  | [] => None
  | _ :: s' => Some (Link (List.length s'))
  end.

(** [__len__] *)
Definition len (s : t) : Z := Z.of_nat (List.length s).

(** [get_link_at_index] *)
Definition get_link_at_index (s : t) (index : Z) : outcome link :=
  if index <? 0 then Raise (IndexError "Negative Index")
  else match s !! Z.to_nat index with
       | Some _ => Ret (Link (Z.to_nat index))
       | None => Raise (IndexError "Index out of range")
       end.

(** [link.element] of a link that [get_link_at_index] returned *)
Definition element_of (s : t) (l : link) : option E :=
  match l with
  | Head => None
  | Link i => s !! i
  end.

(** [get_element_at_index] *)
Definition get_element_at_index (s : t) (index : Z) : outcome E :=
  match get_link_at_index s index with
  | Ret l => match element_of s l with
             | Some e => Ret e
             | None => Raise AttributeError
             end
  | Raise e => Raise e
  end.

(** [link.element = element] *)
Definition set_element (s : t) (l : link) (element : E) : t :=
  match l with
  | Head => s
  | Link i => <[i := element]> s
  end.

(** [set_at_index] *)
Definition set_at_index (s : t) (index : Z) (element : E) : outcome t :=
  match get_link_at_index s index with
  | Ret l => Ret (set_element s l element)
  | Raise e => Raise e
  end.

(** [insert_list_after_link(link, begin, end)], where [begin] and
    [end] are the first and the last link of the ring [chain]: the
    whole of [chain] is hooked in between [link] and [link.next]. *)
Definition insert_list_after_link (s : t) (l : link) (chain : t) : t :=
  match l with
  | Head => chain ++ s
  | Link i => take (S i) s ++ chain ++ drop (S i) s
  end.

End Ring.
Arguments t : clear implicits.

End DoublyLinkedListSequence.

(** ** [class LinkedListGenome] *)

Module LinkedListGenome.

Module DLL := DoublyLinkedListSequence.

(** [class Nucleotide]; [id] defaults to [None]. *)
Record Nucleotide : Type := mkNucleotide {
  symbol : ascii;
  id : option Z
}.

Inductive status : Type := active | inactive.

(** [class TE].  The field [seq] is left out: after [insert_te] has
    hooked its links into the genome it is never read again. *)
Record TE : Type := mkTE {
  te_id : Z;
  te_pos : Z;
  te_length : Z;
  te_status : status
}.

Record t : Type := mk {
  genome : DLL.t Nucleotide;
  tes : list TE
}.

Definition set_genome (f : DLL.t Nucleotide -> DLL.t Nucleotide) (self : t) : t :=
  mk (f (genome self)) (tes self).
Definition set_tes (f : list TE -> list TE) (self : t) : t :=
  mk (genome self) (f (tes self)).

(** [__init__] *)
Definition init (n : Z) : t :=
  mk (DLL.init (repeat (mkNucleotide "-"%char None) (Z.to_nat n))) [].

Definition lift {A} (f : DLL.t Nucleotide -> outcome A) : M t A :=
  fun self => (f (genome self), self).

(** [self.genome.set_at_index(index, element)] *)
Definition genome_set_at_index (index : Z) (element : Nucleotide) : M t unit :=
  fun self => match DLL.set_at_index (genome self) index element with
              | Ret g => (Ret tt, set_genome (fun _ => g) self)
              | Raise e => (Raise e, self)
              end.

(** [self.genome.get_element_at_index(index).symbol = c].  Every link
    holds a [Nucleotide] object of its own (each is made by a call of
    its own of the constructor), so the assignment shows at this
    position and nowhere else. *)
Definition genome_set_symbol_at_index (index : Z) (c : ascii) : M t unit :=
  fun self => match DLL.get_element_at_index (genome self) index with
              | Ret e => genome_set_at_index index (mkNucleotide c (id e)) self
              | Raise e => (Raise e, self)
              end.

(** [self.tes[i]] *)
Definition tes_getitem (i : Z) : M t TE :=
  fun self => match Py.getitem (tes self) i with
              | Some te => (Ret te, self)
              | None => (Raise (IndexError "list index out of range"), self)
              end.

(** [te.status = 'inactive'] for the object [te = self.tes[i]]; a [TE]
    object is in [tes] once. *)
Definition disable_record (te : TE) : TE :=
  mkTE (te_id te) (te_pos te) (te_length te) inactive.

Definition tes_set_inactive (i : Z) : M t unit :=
  fun self => match Py.norm_index (List.length (tes self)) i with
              | Some k => (Ret tt, set_tes (alter disable_record k) self)
              | None => (Raise (IndexError "list index out of range"), self)
              end.

(** The last loop of [insert_te]: [if te.pos > pos: te.pos += length] *)
Definition shift_record (pos length : Z) (te : TE) : TE :=
  if pos <? te_pos te
  then mkTE (te_id te) (te_pos te + length) (te_length te) (te_status te)
  else te.

Definition is_active (te : TE) : bool :=
  match te_status te with active => true | inactive => false end.

(** The sequence [seq] that [insert_te] builds for the TE [id]:
    [for _ in range(length): insert_after(seq.head, Nucleotide('A', id))] *)
Definition new_seq (id length : Z) : DLL.t Nucleotide :=
  fold_left (fun s _ => DLL.insert_after s DLL.Head (mkNucleotide "A"%char (Some id)))
            (Py.range 0 length) (DLL.init []).

(** The collision test of [insert_te], on
    [nucleotide = self.genome.get_element_at_index(pos)]: the record of
    the TE found there is not disabled through [disable_te] but by a
    loop of its own, which puts new [Nucleotide('x', id_old)] objects
    into the links. *)
Definition collide (nucleotide : Nucleotide) : M t unit :=
  (if Ascii.eqb (symbol nucleotide) "A"%char then
     id_old <- match id nucleotide with
               | Some k => ret k
               | None => raise TypeError
               end ;;
     te_old <- tes_getitem (id_old - 1) ;;
     for_each (Py.range (te_pos te_old) (te_pos te_old + te_length te_old))
              (fun index =>
                 genome_set_at_index index (mkNucleotide "x"%char (Some id_old))) ;;
     tes_set_inactive (id_old - 1)
   else ret tt)%py.

(** [insert_te].  With [length <= 0] the sequence [seq] stays empty, its
    [head.previous] is [None], and the first statement of
    [insert_list_after_link], [end.next = link.next], raises
    [AttributeError]. *)
Definition insert_te (pos length : Z) : M t Z :=
  (n_tes <- gets (fun self => Z.of_nat (List.length (tes self))) ;;
   let id := n_tes + 1 in
   let seq := new_seq id length in
   let te := mkTE id pos length active in
   nucleotide <- lift (fun g => DLL.get_element_at_index g pos) ;;
   collide nucleotide ;;
   link <- (if negb (pos =? 0)
            then lift (fun g => DLL.get_link_at_index g (pos - 1))
            else ret DLL.Head) ;;
   match DLL.head_previous seq with
   | None => raise AttributeError
   | Some _ => modify (set_genome (fun g => DLL.insert_list_after_link g link seq))
   end ;;
   modify (set_tes (fun l => l ++ [te])) ;;
   modify (set_tes (map (shift_record pos length))) ;;
   ret id)%py.

(** [copy_te] *)
Definition copy_te (te offset : Z) : M t (option Z) :=
  (let id := te in
   te <- tes_getitem (id - 1) ;;
   if is_active te then
     let start_pos_original := te_pos te in
     length_genome <- gets (fun self => DLL.len (genome self)) ;;
     if length_genome =? 0 then raise ZeroDivisionError
     else
       let start_pos_copy := (offset + start_pos_original) mod length_genome in
       id_new <- insert_te start_pos_copy (te_length te) ;;
       ret (Some id_new)
   else ret None)%py.

(** [disable_te]: no test of the status. *)
Definition disable_te (te : Z) : M t unit :=
  (let id := te in
   te <- tes_getitem (id - 1) ;;
   for_each (Py.range (te_pos te) (te_pos te + te_length te))
            (fun n => genome_set_symbol_at_index n "x"%char) ;;
   tes_set_inactive (id - 1))%py.

Definition active_tes (self : t) : list Z :=
  map te_id (filter (fun te => is_active te = true) (tes self)).

(** [__len__] *)
Definition len (self : t) : Z := DLL.len (genome self).

(** [__str__] *)
Definition str (self : t) : string :=
  string_of_list_ascii (map symbol (genome self)).

Definition option_value (o : option Z) : value :=
  match o with Some z => VInt z | None => VNone end.

Definition step (c : call) : M t value :=
  match c with
  | Insert_te pos length => (id <- insert_te pos length ;; ret (VInt id))%py
  | Copy_te te offset => (r <- copy_te te offset ;; ret (option_value r))%py
  | Disable_te te => (disable_te te ;; ret VNone)%py
  | Active_tes => gets (fun self => VList (active_tes self))
  | Len => gets (fun self => VInt (len self))
  | Str => gets (fun self => VStr (str self))
  end.

(** A caller that catches what a call raises and carries on. *)
Fixpoint run (cs : list call) (self : t) : list (outcome value) * t :=
  match cs with
  | [] => ([], self)
  | c :: cs' =>
      let '(o, self') := step c self in
      let '(os, self'') := run cs' self' in
      (o :: os, self'')
  end.

End LinkedListGenome.

(** ** Vocabulary of the specification *)

(** A TE record as the specification sees it: its id and its range
    [(start, length)]. *)
Definition record : Type := Z * (Z * Z).

(** Position [p] lies in the range [[start, start + length)]. *)
Definition in_range (r : Z * Z) (p : Z) : Prop :=
  fst r <= p < fst r + snd r.

(** Two ranges intersect on a circular genome of [n] positions: they
    hold two positions that are the same one modulo [n]. *)
Definition ranges_meet (n : Z) (r1 r2 : Z * Z) : Prop :=
  exists p q, in_range r1 p /\ in_range r2 q /\ p mod n = q mod n.

(** No two distinct records of [actives] have intersecting ranges. *)
Definition no_overlap (n : Z) (actives : list record) : Prop :=
  forall k1 r1 k2 r2,
    In (k1, r1) actives -> In (k2, r2) actives -> k1 <> k2 ->
    ~ ranges_meet n r1 r2.

(** Where a record that starts at [start] starts after an insertion of
    [length] positions at [pos]: [length] further when [start > pos]. *)
Definition shifted (pos length start : Z) : Z :=
  if pos <? start then start + length else start.

(** Where the symbol of position [i] is after an insertion of [length]
    positions before [pos]: [length] further when [i >= pos]. *)
Definition moved (pos length i : Z) : Z :=
  if i <? pos then i else i + length.

(** Of the records of [actives], only those of the TE [k] hold
    position [p]. *)
Definition only_covered_by (k p : Z) (actives : list record) : Prop :=
  forall j r, In (j, r) actives -> in_range r p -> j = k.

(** The TE [id] is among [actives] with the range [r], and no record of
    another TE of [actives] holds a position of [r]. *)
Definition sole_occupant (id : Z) (r : Z * Z) (actives : list record) : Prop :=
  In (id, r) actives /\
  forall j r', In (j, r') actives -> j <> id ->
               forall p, in_range r' p -> ~ in_range r p.

(** The sum of a list of integers. *)
Definition sum (ls : list Z) : Z := fold_right Z.add 0 ls.

Module ListGenomeSpec.
Import ListGenome.

(** The Active records: [active_TEs] holds exactly those. *)
Definition active_records (self : t) : list record := active_TEs self.

(** A TE record exists for [te]: it was created, and sits in one of
    the two dicts. *)
Definition known (self : t) (te : Z) : Prop :=
  Py.dict_mem (active_TEs self) te = true \/
  Py.dict_mem (inactive_TEs self) te = true.

(** The preconditions that section 4.1 of the specification puts on a
    call. *)
Definition precondition (c : call) (self : t) : Prop :=
  match c with
  | Insert_te pos length => 0 <= pos < len self /\ 1 <= length
  | Copy_te te _ => known self te
  | Disable_te te => known self te
  | _ => True
  end.

(** States that a caller can reach from a fresh genome by calls that
    meet their preconditions, whether they return or raise. *)
Inductive reachable : t -> Prop :=
  | reachable_init (n : Z) : 0 <= n -> reachable (init n)
  | reachable_step (c : call) (self : t) :
      reachable self -> precondition c self ->
      reachable (snd (step c self)).

(** The data model of section 3 of the specification, on [ListGenome]:
    the keys of [active_TEs] are distinct ids that the counter has
    handed out, no symbol carries an id beyond the counter, the range of
    every Active record lies in the genome, is not empty and holds the
    Active symbol of its TE at every position, and every Active symbol
    lies in the range of the Active record of its TE. *)
Record wf (self : t) : Prop := mk_wf {
  wf_keys : List.NoDup (Py.dict_keys (active_TEs self));
  wf_ids : forall k r, In (k, r) (active_TEs self) -> k <= number_of_TEs self;
  wf_tags : forall (i : nat) c k,
    genome self !! i = Some (c, k) -> k <= number_of_TEs self;
  wf_range : forall k start len0,
    In (k, (start, len0)) (active_TEs self) ->
    0 <= start /\ 1 <= len0 /\ start + len0 <= len self /\
    forall i, in_range (start, len0) i ->
              genome self !! Z.to_nat i = Some ("A"%char, k);
  wf_active : forall (i : nat) k,
    genome self !! i = Some ("A"%char, k) ->
    exists start len0,
      In (k, (start, len0)) (active_TEs self) /\
      in_range (start, len0) (Z.of_nat i)
}.

(** The record of a TE, whatever its status. *)
Definition record_of (self : t) (te : Z) : option (Z * Z) :=
  match Py.dict_get (active_TEs self) te with
  | Some r => Some r
  | None => Py.dict_get (inactive_TEs self) te
  end.

(** The symbol at position [i]. *)
Definition symbol_at (self : t) (i : Z) : option (ascii * Z) :=
  if i <? 0 then None else genome self !! Z.to_nat i.

(** The length that call [c] splices into the genome when it returns:
    for [insert_te] its argument, for [copy_te] the length of the record
    that is copied. *)
Definition spliced (c : call) (self : t) : option Z :=
  match c, fst (step c self) with
  | Insert_te _ length, Ret _ => Some length
  | Copy_te te _, Ret (VInt _) => snd <$> Py.dict_get (active_TEs self) te
  | _, _ => None
  end.

(** The lengths [l1 .. lk] of the insertions of a run. *)
Fixpoint insertions (cs : list call) (self : t) : list Z :=
  match cs with
  | [] => []
  | c :: cs' =>
      match spliced c self with
      | Some l => l :: insertions cs' (snd (step c self))
      | None => insertions cs' (snd (step c self))
      end
  end.

(** Every call of a run meets its precondition in the state that the
    calls before it have left. *)
Fixpoint preconditions_hold (cs : list call) (self : t) : Prop :=
  match cs with
  | [] => True
  | c :: cs' => precondition c self /\ preconditions_hold cs' (snd (step c self))
  end.

End ListGenomeSpec.

Module LinkedListGenomeSpec.
Import LinkedListGenome.

Definition record_of (te : TE) : record :=
  (te_id te, (te_pos te, te_length te)).

(** The Active records: the TEs of [tes] whose status is ['active']. *)
Definition active_records (self : t) : list record :=
  map record_of (filter (fun te => is_active te = true) (tes self)).

(** A TE record exists for [te]: ids are handed out as 1, 2, ... and
    the record of id [k] is [tes[k - 1]]. *)
Definition known (self : t) (te : Z) : Prop :=
  1 <= te <= Z.of_nat (List.length (tes self)).

Definition precondition (c : call) (self : t) : Prop :=
  match c with
  | Insert_te pos length => 0 <= pos < len self /\ 1 <= length
  | Copy_te te _ => known self te
  | Disable_te te => known self te
  | _ => True
  end.

Inductive reachable : t -> Prop :=
  | reachable_init (n : Z) : 0 <= n -> reachable (init n)
  | reachable_step (c : call) (self : t) :
      reachable self -> precondition c self ->
      reachable (snd (step c self)).

(** The TE of id [k] is [tes[k - 1]]: ids are handed out as
    [len(self.tes) + 1]. *)
Definition ids_in_order (self : t) : Prop :=
  forall (i : nat) (te : TE), tes self !! i = Some te -> te_id te = Z.of_nat i + 1.

(** The symbol at position [i]. *)
Definition symbol_at (self : t) (i : Z) : option Nucleotide :=
  if i <? 0 then None else genome self !! Z.to_nat i.

(** The length that call [c] splices into the genome when it returns:
    for [insert_te] its argument, for [copy_te] the length of the record
    that is copied. *)
Definition spliced (c : call) (self : t) : option Z :=
  match c, fst (step c self) with
  | Insert_te _ length, Ret _ => Some length
  | Copy_te te _, Ret (VInt _) => te_length <$> Py.getitem (tes self) (te - 1)
  | _, _ => None
  end.

(** The lengths [l1 .. lk] of the insertions of a run. *)
Fixpoint insertions (cs : list call) (self : t) : list Z :=
  match cs with
  | [] => []
  | c :: cs' =>
      match spliced c self with
      | Some l => l :: insertions cs' (snd (step c self))
      | None => insertions cs' (snd (step c self))
      end
  end.

(** Every call of a run meets its precondition in the state that the
    calls before it have left. *)
Fixpoint preconditions_hold (cs : list call) (self : t) : Prop :=
  match cs with
  | [] => True
  | c :: cs' => precondition c self /\ preconditions_hold cs' (snd (step c self))
  end.

End LinkedListGenomeSpec.

(** ** The two realizations side by side *)

Module Realizations.

(** The [Nucleotide] that stands for a tuple of [ListGenome]: the same
    symbol and the same id, except that an empty position carries the
    id 0 in a tuple and [None] in a [Nucleotide]. *)
Definition nucleotide_of (x : ascii * Z) : LinkedListGenome.Nucleotide :=
  LinkedListGenome.mkNucleotide (fst x)
    (if Ascii.eqb (fst x) "-"%char then None else Some (snd x)).

(** A [ListGenome] and a [LinkedListGenome] that hold the same genome:
    the same symbols with the same ids, as many TEs created, and the
    same Active records in the same order. *)
Record related (l : ListGenome.t) (k : LinkedListGenome.t) : Prop := mk_related {
  rel_genome : LinkedListGenome.genome k = map nucleotide_of (ListGenome.genome l);
  rel_count : Z.of_nat (List.length (LinkedListGenome.tes k)) = ListGenome.number_of_TEs l;
  rel_ids : LinkedListGenomeSpec.ids_in_order k;
  rel_active : LinkedListGenomeSpec.active_records k = ListGenome.active_TEs l
}.

(** A call that meets its precondition and, for [copy_te] and
    [disable_te], names a TE that is Active. *)
Definition on_active (c : call) (l : ListGenome.t) : Prop :=
  match c with
  | Insert_te pos length => 0 <= pos < ListGenome.len l /\ 1 <= length
  | Copy_te te _ => Py.dict_mem (ListGenome.active_TEs l) te = true
  | Disable_te te => Py.dict_mem (ListGenome.active_TEs l) te = true
  | _ => True
  end.

(** Every call of a run is such a call in the state that the calls
    before it have left. *)
Fixpoint all_on_active (cs : list call) (l : ListGenome.t) : Prop :=
  match cs with
  | [] => True
  | c :: cs' => on_active c l /\ all_on_active cs' (snd (ListGenome.step c l))
  end.

End Realizations.

(** ** [class DoublyLink], [insert_after] and
    [class DoublyLinkedListSequence], link by link

    The same class as in [DoublyLinkedListSequence] above, now with its
    links as objects in a heap and its methods as the assignments to
    [previous], [next] and [element] that the source makes.  A [while]
    loop gets a bound on its rounds and gives [None] when it has used
    them up. *)

Module Heap.

Section Objects.
Context {E : Type}.

(** An object of [class DoublyLink].  [previous] and [next] hold the
    address of a link or Python's [None]; [prev] is the attribute that
    [DoublyLinkedListSequence.__init__] adds to its head and that no
    other link has. *)
Record DoublyLink : Type := mkLink {
  element : option E;
  previous : option nat;
  next : option nat;
  prev : option nat
}.

(** The objects made so far, each at the address at which it was made. *)
Abbreviation heap := (list DoublyLink).

Definition set_element (v : option E) (o : DoublyLink) : DoublyLink :=
  mkLink v (previous o) (next o) (prev o).
Definition set_previous (v : option nat) (o : DoublyLink) : DoublyLink :=
  mkLink (element o) v (next o) (prev o).
Definition set_next (v : option nat) (o : DoublyLink) : DoublyLink :=
  mkLink (element o) (previous o) v (prev o).
Definition set_prev (v : option nat) (o : DoublyLink) : DoublyLink :=
  mkLink (element o) (previous o) (next o) v.

(** The object that [r] refers to, read to get one of its attributes;
    an attribute of [None] is an [AttributeError]. *)
Definition deref (r : option nat) : M heap DoublyLink :=
  fun h => match r with
           | Some a => match h !! a with
                       | Some o => (Ret o, h)
                       | None => (Raise AttributeError, h)
                       end
           | None => (Raise AttributeError, h)
           end.

(** [r.attr = v], where [f] sets the attribute. *)
Definition assign (r : option nat) (f : DoublyLink -> DoublyLink) : M heap unit :=
  fun h => match r with
           | Some a => match h !! a with
                       | Some o => (Ret tt, alter f a h)
                       | None => (Raise AttributeError, h)
                       end
           | None => (Raise AttributeError, h)
           end.

(** [DoublyLink(element, previous, next)] *)
Definition new (element : option E) (previous next : option nat) : M heap nat :=
  fun h => (Ret (List.length h), h ++ [mkLink element previous next None]).

(** [insert_after(link, element)] *)
Definition insert_after (link : option nat) (element : E) : M heap unit :=
  (o <- deref link ;;
   new_link <- new (Some element) link (next o) ;;
   n <- deref (Some new_link) ;;
   assign (previous n) (set_next (Some new_link)) ;;
   n' <- deref (Some new_link) ;;
   assign (next n') (set_previous (Some new_link)))%py.

(** [DoublyLinkedListSequence.__init__]; the object is its [head].  The
    loop reads [self.head.prev], the attribute set two lines above, and
    not [self.head.previous]. *)
Definition init (seq : list E) : M heap nat :=
  (head <- new None None None ;;
   assign (Some head) (set_prev (Some head)) ;;
   assign (Some head) (set_next (Some head)) ;;
   for_each seq (fun element =>
     o <- deref (Some head) ;;
     match prev o with
     | Some p => insert_after (Some p) element
     | None => raise AttributeError
     end) ;;
   ret head)%py.

(** The loop of [__str__]: [while link is not self.head] *)
Fixpoint str_loop (str_of : option E -> string) (fuel : nat) (h : heap)
    (head : nat) (link : option nat) (lst : list string)
    : option (outcome (list string)) :=
  match fuel with
  | O => None
  | S fuel' =>
      if decide (link = Some head) then Some (Ret lst)
      else match fst (deref link h) with
           | Ret o => str_loop str_of fuel' h head (next o)
                               (lst ++ [str_of (element o)])
           | Raise e => Some (Raise e)
           end
  end.

(** [__str__], with [str_of] for [str(link.element)] *)
Definition str (str_of : option E -> string) (fuel : nat) (h : heap) (head : nat)
    : option (outcome string) :=
  match fst (deref (Some head) h) with
  | Ret o => match str_loop str_of fuel h head (next o) [] with
             | Some (Ret lst) => Some (Ret (String.concat "" lst))
             | Some (Raise e) => Some (Raise e)
             | None => None
             end
  | Raise e => Some (Raise e)
  end.

(** The loop of [__len__] *)
Fixpoint len_loop (fuel : nat) (h : heap) (head : nat) (link : option nat) (len : Z)
    : option (outcome Z) :=
  match fuel with
  | O => None
  | S fuel' =>
      if decide (link = Some head) then Some (Ret len)
      else match fst (deref link h) with
           | Ret o => len_loop fuel' h head (next o) (len + 1)
           | Raise e => Some (Raise e)
           end
  end.

(** [__len__] *)
Definition len (fuel : nat) (h : heap) (head : nat) : option (outcome Z) :=
  match fst (deref (Some head) h) with
  | Ret o => len_loop fuel h head (next o) 0
  | Raise e => Some (Raise e)
  end.

(** The loop of [get_link_at_index] *)
Fixpoint get_link_loop (fuel : nat) (h : heap) (head : nat) (link : option nat)
    (index : Z) : option (outcome (option nat)) :=
  match fuel with
  | O => None
  | S fuel' =>
      if decide (link = Some head)
      then Some (Raise (IndexError "Index out of range"))
      else if index =? 0 then Some (Ret link)
      else match fst (deref link h) with
           | Ret o => get_link_loop fuel' h head (next o) (index - 1)
           | Raise e => Some (Raise e)
           end
  end.

(** [get_link_at_index] *)
Definition get_link_at_index (fuel : nat) (h : heap) (head : nat) (index : Z)
    : option (outcome (option nat)) :=
  if index <? 0 then Some (Raise (IndexError "Negative Index"))
  else match fst (deref (Some head) h) with
       | Ret o => get_link_loop fuel h head (next o) index
       | Raise e => Some (Raise e)
       end.

(** [get_element_at_index] *)
Definition get_element_at_index (fuel : nat) (h : heap) (head : nat) (index : Z)
    : option (outcome (option E)) :=
  match get_link_at_index fuel h head index with
  | Some (Ret link) => match fst (deref link h) with
                       | Ret o => Some (Ret (element o))
                       | Raise e => Some (Raise e)
                       end
  | Some (Raise e) => Some (Raise e)
  | None => None
  end.

(** [set_at_index] *)
Definition set_at_index (fuel : nat) (head : nat) (index : Z) (element : E) (h : heap)
    : option (outcome unit * heap) :=
  match get_link_at_index fuel h head index with
  | Some (Ret link) => Some (assign link (set_element (Some element)) h)
  | Some (Raise e) => Some (Raise e, h)
  | None => None
  end.

(** [insert_list_after_link(link, begin, end)]; in [end.next = link.next]
    the right-hand side is evaluated first. *)
Definition insert_list_after_link (link begin end_ : option nat) : M heap unit :=
  (o <- deref link ;;
   assign end_ (set_next (next o)) ;;
   e <- deref end_ ;;
   assign (next e) (set_previous end_) ;;
   assign begin (set_previous link) ;;
   b <- deref begin ;;
   assign (previous b) (set_next begin))%py.

(** *** What a well-formed sequence is *)

Definition next_is (h : heap) (a b : nat) : Prop :=
  next <$> h !! a = Some (Some b).
Definition previous_is (h : heap) (b a : nat) : Prop :=
  previous <$> h !! b = Some (Some a).

(** Every link of [path] is in relation [R] with the one after it. *)
Fixpoint chained (R : nat -> nat -> Prop) (path : list nat) : Prop :=
  match path with
  | [] => True
  | a :: rest => match rest with
                 | [] => True
                 | b :: _ => R a b /\ chained R rest
                 end
  end.

(** Each link of [path] has the one after it as its [next]. *)
Definition forward (h : heap) (path : list nat) : Prop :=
  chained (next_is h) path.

(** Each link of [path] but the first has the one before it as its
    [previous]. *)
Definition backward (h : heap) (path : list nat) : Prop :=
  chained (fun a b => previous_is h b a) path.

(** [head] and [links] form a ring: the links are distinct objects,
    [next] leads from [head] through [links] and back to [head], and
    so does [previous] the other way round, unless there is no link at
    all: the [head] of an empty sequence keeps the [previous] that its
    constructor gave it, [None]. *)
Record ring (h : heap) (head : nat) (links : list nat) : Prop := mk_ring {
  ring_nodup : NoDup (head :: links);
  ring_forward : forward h (head :: links ++ [head]);
  ring_backward : links <> [] -> backward h (head :: links ++ [head]);
  ring_empty : links = [] -> previous <$> h !! head = Some None
}.

(** The elements of the links [links]. *)
Definition elements (h : heap) (links : list nat) : list (option E) :=
  map (fun a => h !! a ≫= element) links.

(** The link that stands for a link of the list model. *)
Definition link_at (head : nat) (links : list nat)
    (l : DoublyLinkedListSequence.link) : option nat :=
  match l with
  | DoublyLinkedListSequence.Head => Some head
  | DoublyLinkedListSequence.Link i => links !! i
  end.

(** How many links of the sequence come before the place right after
    the link [l]. *)
Definition cut_after (l : DoublyLinkedListSequence.link) : nat :=
  match l with
  | DoublyLinkedListSequence.Head => 0
  | DoublyLinkedListSequence.Link i => S i
  end.

End Objects.
Arguments DoublyLink : clear implicits.

(** [str(link.element)] for the links of a genome: [Nucleotide.__str__]
    returns the symbol, and the element of a head is [None]. *)
Definition str_of_element (o : option LinkedListGenome.Nucleotide) : string :=
  match o with
  | Some n => String (LinkedListGenome.symbol n) EmptyString
  | None => "None"
  end.

End Heap.

(** ** What every run keeps *)

Module Invariants.

(** The records [tes'] continue the records [tes]: every record of
    [tes] is still there, at its index, with its id and its length,
    and it is Inactive if it was. *)
Definition continues (tes tes' : list LinkedListGenome.TE) : Prop :=
  forall (i : nat) (te : LinkedListGenome.TE),
    tes !! i = Some te ->
    exists te', tes' !! i = Some te' /\
                LinkedListGenome.te_id te' = LinkedListGenome.te_id te /\
                LinkedListGenome.te_length te' = LinkedListGenome.te_length te /\
                (LinkedListGenome.te_status te = LinkedListGenome.inactive ->
                 LinkedListGenome.te_status te' = LinkedListGenome.inactive).

(** The three symbols that a genome is written in. *)
Definition is_symbol (c : ascii) : Prop :=
  c = "-"%char \/ c = "A"%char \/ c = "x"%char.

(** On [ListGenome], the ids of the records are ids that the counter
    has handed out, the keys of [active_TEs] are in increasing order,
    and no id is a key of both dicts. *)
Record counted (self : ListGenome.t) : Prop := mk_counted {
  counted_counter : 0 <= ListGenome.number_of_TEs self;
  counted_active :
    Forall (fun k => 1 <= k <= ListGenome.number_of_TEs self)
           (Py.dict_keys (ListGenome.active_TEs self));
  counted_inactive :
    Forall (fun k => 1 <= k <= ListGenome.number_of_TEs self)
           (Py.dict_keys (ListGenome.inactive_TEs self));
  counted_sorted :
    StronglySorted Z.lt (Py.dict_keys (ListGenome.active_TEs self));
  counted_apart :
    forall k, In k (Py.dict_keys (ListGenome.active_TEs self)) ->
              ~ In k (Py.dict_keys (ListGenome.inactive_TEs self))
}.

(** On [LinkedListGenome], every Active symbol carries the id of a
    record, and the range of every record starts at a position that is
    not negative, is not empty and ends in the genome. *)
Record linked_wf (self : LinkedListGenome.t) : Prop := mk_linked_wf {
  lwf_tags :
    Forall (fun e =>
              LinkedListGenome.symbol e = "A"%char ->
              exists k, LinkedListGenome.id e = Some k /\
                        1 <= k <= Z.of_nat (List.length (LinkedListGenome.tes self)))
           (LinkedListGenome.genome self);
  lwf_ranges :
    Forall (fun te =>
              0 <= LinkedListGenome.te_pos te /\
              1 <= LinkedListGenome.te_length te /\
              LinkedListGenome.te_pos te + LinkedListGenome.te_length te
              <= LinkedListGenome.len self)
           (LinkedListGenome.tes self)
}.

End Invariants.

(** ** The insertions of a run of valid calls *)

Module Insertions.

(** The precondition of [insert_te] in the words of section 4.1 of the
    specification, on a genome of [n] positions: [0 <= pos < n], where
    on an empty genome [pos = 0] is the only legal position, and
    [length >= 1]. *)
Definition legal_insert_te (n pos length : Z) : Prop :=
  (0 <= pos < n \/ (n = 0 /\ pos = 0)) /\ 1 <= length.

(** The length that a call inserts when it is made with its
    precondition met: for [insert_te] its [length], whatever comes of
    the call; for a [copy_te] that returns an id, the length of the
    record that is copied. *)
Definition list_inserted (c : call) (self : ListGenome.t) : option Z :=
  match c with
  | Insert_te _ length => Some length
  | Copy_te te _ =>
      match fst (ListGenome.step c self) with
      | Ret (VInt _) => snd <$> Py.dict_get (ListGenome.active_TEs self) te
      | _ => None
      end
  | _ => None
  end.

Fixpoint list_insertions (cs : list call) (self : ListGenome.t) : list Z :=
  match cs with
  | [] => []
  | c :: cs' =>
      match list_inserted c self with
      | Some l => l :: list_insertions cs' (snd (ListGenome.step c self))
      | None => list_insertions cs' (snd (ListGenome.step c self))
      end
  end.

Definition linked_inserted (c : call) (self : LinkedListGenome.t) : option Z :=
  match c with
  | Insert_te _ length => Some length
  | Copy_te te _ =>
      match fst (LinkedListGenome.step c self) with
      | Ret (VInt _) =>
          LinkedListGenome.te_length <$> Py.getitem (LinkedListGenome.tes self) (te - 1)
      | _ => None
      end
  | _ => None
  end.

Fixpoint linked_insertions (cs : list call) (self : LinkedListGenome.t) : list Z :=
  match cs with
  | [] => []
  | c :: cs' =>
      match linked_inserted c self with
      | Some l => l :: linked_insertions cs' (snd (LinkedListGenome.step c self))
      | None => linked_insertions cs' (snd (LinkedListGenome.step c self))
      end
  end.

End Insertions.

(** ** Reasoning about the monad and the Python primitives *)

Lemma bind_ret_l {S A B} (m : M S A) (k : A -> M S B) (s s' : S) (a : A) :
  m s = (Ret a, s') -> bind m k s = k a s'.
Proof. unfold bind. intros ->. reflexivity. Qed.

Lemma bind_raise_l {S A B} (m : M S A) (k : A -> M S B) (s s' : S) (e : exn) :
  m s = (Raise e, s') -> bind m k s = (Raise e, s').
Proof. unfold bind. intros ->. reflexivity. Qed.

(** Unfolds the monad in the goal. *)
Ltac monad_unfold :=
  unfold bind, ret, raise, gets, modify in *; cbn beta iota in *.

Lemma norm_index_nonneg (n : nat) (i : Z) :
  0 <= i < Z.of_nat n -> Py.norm_index n i = Some (Z.to_nat i).
Proof.
  intros H. unfold Py.norm_index.
  destruct (Z.leb_spec 0 i), (Z.ltb_spec i (Z.of_nat n)); simpl; try lia; reflexivity.
Qed.

Lemma norm_index_negative (n : nat) (i : Z) :
  - Z.of_nat n <= i < 0 -> Py.norm_index n i = Some (Z.to_nat (i + Z.of_nat n)).
Proof.
  intros H. unfold Py.norm_index.
  destruct (Z.leb_spec 0 i); simpl; try lia.
  destruct (Z.leb_spec (- Z.of_nat n) i), (Z.ltb_spec i 0); simpl; try lia; reflexivity.
Qed.

Lemma norm_index_out (n : nat) (i : Z) :
  i < - Z.of_nat n \/ Z.of_nat n <= i -> Py.norm_index n i = None.
Proof.
  intros H. unfold Py.norm_index.
  destruct (Z.leb_spec 0 i), (Z.ltb_spec i (Z.of_nat n)),
    (Z.leb_spec (- Z.of_nat n) i), (Z.ltb_spec i 0); simpl; try lia; reflexivity.
Qed.

Lemma norm_index_lt (n : nat) (i : Z) (k : nat) :
  Py.norm_index n i = Some k -> (k < n)%nat.
Proof.
  unfold Py.norm_index.
  destruct (Z.leb_spec 0 i), (Z.ltb_spec i (Z.of_nat n)),
    (Z.leb_spec (- Z.of_nat n) i), (Z.ltb_spec i 0); simpl;
    intros [= <-]; lia.
Qed.

(** [l[-1]] and [l[len(l) - 1]] are the same item. *)
Lemma norm_index_last (n : nat) :
  Py.norm_index n (0 - 1) = Py.norm_index n (Z.of_nat n - 1).
Proof.
  destruct n as [|n].
  - reflexivity.
  - rewrite norm_index_negative by lia. rewrite norm_index_nonneg by lia.
    f_equal; lia.
Qed.

Lemma getitem_last {A} (l : list A) :
  l <> [] -> Py.getitem l (0 - 1) = list.last l.
Proof.
  intros Hl. unfold Py.getitem.
  destruct l as [|x l]; [done|].
  rewrite norm_index_negative by (simpl length; lia).
  rewrite last_lookup. f_equal. simpl length. lia.
Qed.

(** ** Loops *)

(** What every round of a loop keeps, the loop keeps, whether it runs to
    its end or is left by an exception. *)
Lemma for_each_invariant {S A} (P : S -> Prop) (xs : list A) (body : A -> M S unit) :
  (forall x s, P s -> P (snd (body x s))) ->
  forall s, P s -> P (snd (for_each xs body s)).
Proof.
  intros Hbody. induction xs as [|x xs IH]; intros s Hs; simpl.
  - done.
  - unfold bind. specialize (Hbody x s Hs).
    destruct (body x s) as [[[]|e] s']; simpl in *; auto.
Qed.

Lemma length_range (start stop : Z) :
  List.length (Py.range start stop) = Z.to_nat (stop - start).
Proof. unfold Py.range. by rewrite length_map, length_seq. Qed.

Lemma elem_of_range (start stop i : Z) :
  In i (Py.range start stop) <-> start <= i < stop.
Proof.
  unfold Py.range. rewrite in_map_iff. split.
  - intros (k & <- & Hk). apply in_seq in Hk. lia.
  - intros H. exists (Z.to_nat (i - start)). split; [lia|].
    apply in_seq. lia.
Qed.

(** A loop whose body succeeds on every item of the iterable runs to its
    end. *)
Lemma for_each_ret {S A} (P : S -> Prop) (xs : list A) (body : A -> M S unit) :
  (forall x s, In x xs -> P s -> fst (body x s) = Ret tt /\ P (snd (body x s))) ->
  forall s, P s -> fst (for_each xs body s) = Ret tt /\ P (snd (for_each xs body s)).
Proof.
  induction xs as [|x xs IH]; intros Hbody s Hs; simpl.
  - done.
  - unfold bind. destruct (Hbody x s (or_introl eq_refl) Hs) as [Hret HP].
    destruct (body x s) as [o s']; simpl in *. subst o.
    apply IH; [|done]. intros y t Hy. apply Hbody. by right.
Qed.

(** ** Frame properties of the item assignments *)

Section ListFrame.
Import ListGenome.

Lemma genome_setitem_frame (i : Z) (x : ascii * Z) (self : t) :
  let self' := snd (genome_setitem i x self) in
  active_TEs self' = active_TEs self /\
  inactive_TEs self' = inactive_TEs self /\
  number_of_TEs self' = number_of_TEs self /\
  List.length (genome self') = List.length (genome self).
Proof.
  unfold genome_setitem, Py.setitem.
  destruct (Py.norm_index _ _); simpl; [|done].
  by rewrite length_insert.
Qed.

(** The loop of [disable_te] touches the symbols only, and keeps their
    number. *)
Lemma flip_loop_frame (ns : list Z) (x : ascii * Z) (self : t) :
  let self' := snd (for_each ns (fun n => genome_setitem n x) self) in
  active_TEs self' = active_TEs self /\
  inactive_TEs self' = inactive_TEs self /\
  number_of_TEs self' = number_of_TEs self /\
  List.length (genome self') = List.length (genome self).
Proof.
  apply (for_each_invariant (fun s =>
    active_TEs s = active_TEs self /\ inactive_TEs s = inactive_TEs self /\
    number_of_TEs s = number_of_TEs self /\
    List.length (genome s) = List.length (genome self))); [|done].
  intros n s (H1 & H2 & H3 & H4).
  destruct (genome_setitem_frame n x s) as (F1 & F2 & F3 & F4).
  repeat split; congruence.
Qed.

End ListFrame.

Section LinkedFrame.
Import LinkedListGenome.

Lemma genome_set_at_index_frame (index : Z) (element : Nucleotide) (self : t) :
  let self' := snd (genome_set_at_index index element self) in
  tes self' = tes self /\
  List.length (genome self') = List.length (genome self).
Proof.
  unfold genome_set_at_index, DLL.set_at_index, DLL.get_link_at_index.
  destruct (index <? 0); simpl; [done|].
  destruct (genome self !! Z.to_nat index); simpl; [|done].
  by rewrite length_insert.
Qed.

Lemma genome_set_symbol_at_index_frame (index : Z) (c : ascii) (self : t) :
  let self' := snd (genome_set_symbol_at_index index c self) in
  tes self' = tes self /\
  List.length (genome self') = List.length (genome self).
Proof.
  unfold genome_set_symbol_at_index.
  destruct (DLL.get_element_at_index _ _); simpl; [|done].
  apply genome_set_at_index_frame.
Qed.

(** The two flipping loops touch the nucleotides only, and keep their
    number. *)
Lemma set_loop_frame (ns : list Z) (element : Nucleotide) (self : t) :
  let self' := snd (for_each ns (fun n => genome_set_at_index n element) self) in
  tes self' = tes self /\
  List.length (genome self') = List.length (genome self).
Proof.
  apply (for_each_invariant (fun s =>
    tes s = tes self /\ List.length (genome s) = List.length (genome self)));
    [|done].
  intros n s (H1 & H2).
  destruct (genome_set_at_index_frame n element s) as (F1 & F2).
  split; congruence.
Qed.

Lemma symbol_loop_frame (ns : list Z) (c : ascii) (self : t) :
  let self' := snd (for_each ns (fun n => genome_set_symbol_at_index n c) self) in
  tes self' = tes self /\
  List.length (genome self') = List.length (genome self).
Proof.
  apply (for_each_invariant (fun s =>
    tes s = tes self /\ List.length (genome s) = List.length (genome self)));
    [|done].
  intros n s (H1 & H2).
  destruct (genome_set_symbol_at_index_frame n c s) as (F1 & F2).
  split; congruence.
Qed.

End LinkedFrame.

(** ** Unknown and out-of-range arguments *)

Section LinkedLookup.
Import LinkedListGenome.

Lemma tes_getitem_state (i : Z) (self self' : t) (o : outcome TE) :
  tes_getitem i self = (o, self') -> self' = self.
Proof.
  unfold tes_getitem. destruct (Py.getitem _ _); by intros [= _ <-].
Qed.

(** [self.tes[0 - 1]] is the last TE of the list. *)
Lemma tes_getitem_minus_one (self : t) :
  tes self <> [] ->
  exists te, list.last (tes self) = Some te /\
             tes_getitem (0 - 1) self = (Ret te, self).
Proof.
  intros Hne. unfold tes_getitem. rewrite getitem_last by done.
  destruct (list.last (tes self)) as [te|] eqn:Hlast.
  - exists te. done.
  - apply last_None in Hlast. done.
Qed.

Lemma tes_getitem_newest (self : t) :
  tes_getitem (0 - 1) self =
  tes_getitem (Z.of_nat (List.length (tes self)) - 1) self.
Proof. unfold tes_getitem, Py.getitem. by rewrite norm_index_last. Qed.

End LinkedLookup.

(** ** Runs *)

Lemma list_run_cons (c : call) (cs : list call) (self : ListGenome.t) :
  ListGenome.run (c :: cs) self =
  (fst (ListGenome.step c self) :: fst (ListGenome.run cs (snd (ListGenome.step c self))),
   snd (ListGenome.run cs (snd (ListGenome.step c self)))).
Proof.
  simpl. destruct (ListGenome.step c self) as [o self']. simpl.
  by destruct (ListGenome.run cs self').
Qed.

Lemma linked_run_cons (c : call) (cs : list call) (self : LinkedListGenome.t) :
  LinkedListGenome.run (c :: cs) self =
  (fst (LinkedListGenome.step c self)
     :: fst (LinkedListGenome.run cs (snd (LinkedListGenome.step c self))),
   snd (LinkedListGenome.run cs (snd (LinkedListGenome.step c self)))).
Proof.
  simpl. destruct (LinkedListGenome.step c self) as [o self']. simpl.
  by destruct (LinkedListGenome.run cs self').
Qed.

Lemma list_reachable_run (cs : list call) (self : ListGenome.t) :
  ListGenomeSpec.reachable self ->
  ListGenomeSpec.preconditions_hold cs self ->
  ListGenomeSpec.reachable (snd (ListGenome.run cs self)).
Proof.
  revert self. induction cs as [|c cs IH]; intros self Hr Hp.
  - done.
  - destruct Hp as [Hc Hcs]. rewrite list_run_cons. simpl.
    apply IH; [|done]. by constructor.
Qed.

Lemma linked_reachable_run (cs : list call) (self : LinkedListGenome.t) :
  LinkedListGenomeSpec.reachable self ->
  LinkedListGenomeSpec.preconditions_hold cs self ->
  LinkedListGenomeSpec.reachable (snd (LinkedListGenome.run cs self)).
Proof.
  revert self. induction cs as [|c cs IH]; intros self Hr Hp.
  - done.
  - destruct Hp as [Hc Hcs]. rewrite linked_run_cons. simpl.
    apply IH; [|done]. by constructor.
Qed.

(** ** [copy_te] *)

(** [ListGenome.copy_te] of an id that is not a key of [active_TEs],
    created or not, raises [KeyError] before it has changed anything. *)
Lemma list_copy_te_not_active (self : ListGenome.t) (te offset : Z) :
  Py.dict_get (ListGenome.active_TEs self) te = None ->
  ListGenome.copy_te te offset self = (Raise (KeyError te), self).
Proof.
  intros H. unfold ListGenome.copy_te, bind, ListGenome.active_TEs_getitem.
  by rewrite H.
Qed.

(** [LinkedListGenome.copy_te] of a TE whose status is ['inactive']
    returns [None] and changes nothing. *)
Lemma linked_copy_te_inactive (self : LinkedListGenome.t) (te offset : Z)
    (r : LinkedListGenome.TE) :
  Py.getitem (LinkedListGenome.tes self) (te - 1) = Some r ->
  LinkedListGenome.is_active r = false ->
  LinkedListGenome.copy_te te offset self = (Ret None, self).
Proof.
  intros Hget Hr. unfold LinkedListGenome.copy_te, bind, LinkedListGenome.tes_getitem.
  by rewrite Hget, Hr.
Qed.

(** [LinkedListGenome.copy_te] of an id above the number of TEs raises
    [IndexError] and changes nothing. *)
Lemma linked_copy_te_unknown (self : LinkedListGenome.t) (te offset : Z) :
  Z.of_nat (List.length (LinkedListGenome.tes self)) < te ->
  LinkedListGenome.copy_te te offset self =
  (Raise (IndexError "list index out of range"), self).
Proof.
  intros H. unfold LinkedListGenome.copy_te, bind, LinkedListGenome.tes_getitem,
    Py.getitem.
  by rewrite norm_index_out by lia.
Qed.

(** ** Closed facts about concrete runs *)

(** Settles a closed arithmetic or membership fact by evaluation. *)
Ltac evaluate :=
  vm_compute; repeat split;
  first [ reflexivity | discriminate | exact I
        | (left; reflexivity) | (right; reflexivity)
        | intros; discriminate ].

(** ** [disable_te] *)

(** [ListGenome.disable_te] of an id that is not a key of [active_TEs]
    raises [KeyError] at its first statement. *)
Lemma list_disable_te_not_active (self : ListGenome.t) (te : Z) :
  Py.dict_get (ListGenome.active_TEs self) te = None ->
  ListGenome.disable_te te self = (Raise (KeyError te), self).
Proof.
  intros H. unfold ListGenome.disable_te, bind, ListGenome.active_TEs_getitem.
  by rewrite H.
Qed.

(** ** Dicts *)

Lemma dict_get_set_eq {V} (d : Py.dict V) (k : Z) (v : V) :
  Py.dict_get (Py.dict_set d k v) k = Some v.
Proof.
  induction d as [|[k' v'] d IH]; simpl.
  - by rewrite Z.eqb_refl.
  - destruct (Z.eqb_spec k' k) as [->|Hne]; simpl.
    + by rewrite Z.eqb_refl.
    + by destruct (Z.eqb_spec k' k).
Qed.

Lemma dict_get_set_ne {V} (d : Py.dict V) (k k' : Z) (v : V) :
  k <> k' -> Py.dict_get (Py.dict_set d k v) k' = Py.dict_get d k'.
Proof.
  intros Hne. induction d as [|[k0 v0] d IH]; simpl.
  - by destruct (Z.eqb_spec k k').
  - destruct (Z.eqb_spec k0 k) as [->|Hk0]; simpl.
    + by destruct (Z.eqb_spec k k').
    + by rewrite IH.
Qed.

Lemma dict_get_remove_eq {V} (d : Py.dict V) (k : Z) :
  Py.dict_get (Py.dict_remove d k) k = None.
Proof.
  induction d as [|[k' v'] d IH]; simpl; [done|].
  destruct (Z.eqb_spec k' k) as [->|Hne]; simpl; [done|].
  by destruct (Z.eqb_spec k' k).
Qed.

Lemma dict_get_remove_ne {V} (d : Py.dict V) (k k' : Z) :
  k <> k' -> Py.dict_get (Py.dict_remove d k) k' = Py.dict_get d k'.
Proof.
  intros Hne. induction d as [|[k0 v0] d IH]; simpl; [done|].
  destruct (Z.eqb_spec k0 k) as [->|Hk0]; simpl.
  - by destruct (Z.eqb_spec k k').
  - by rewrite IH.
Qed.

Lemma dict_get_map {V} (f : Z * V -> Z * V) (g : Z -> V -> V) (d : Py.dict V) (k : Z) :
  (forall k' v, f (k', v) = (k', g k' v)) ->
  Py.dict_get (map f d) k = g k <$> Py.dict_get d k.
Proof.
  intros Hf. induction d as [|[k' v'] d IH]; simpl; [done|].
  rewrite Hf. destruct (Z.eqb_spec k' k) as [->|Hne]; simpl; done.
Qed.

(** ** The methods of [ListGenome], statement by statement *)

Section ListMethods.
Import ListGenome.

Lemma list_eta (self : t) :
  self = mk (genome self) (active_TEs self) (inactive_TEs self) (number_of_TEs self).
Proof. by destruct self. Qed.

(** [disable_te]: the lookup, the loop, then the move of the record from
    one dict to the other. *)
Lemma list_disable_te_unfold (te : Z) (self : t) :
  disable_te te self =
  match Py.dict_get (active_TEs self) te with
  | None => (Raise (KeyError te), self)
  | Some r =>
      match for_each (Py.range (fst r) (fst r + snd r))
                     (fun n => genome_setitem n ("x"%char, te)) self with
      | (Ret _, self1) =>
          (Ret tt, mk (genome self1) (Py.dict_remove (active_TEs self) te)
                      (Py.dict_set (inactive_TEs self) te r) (number_of_TEs self))
      | (Raise e, self1) => (Raise e, self1)
      end
  end.
Proof.
  unfold disable_te, bind at 1, active_TEs_getitem at 1.
  destruct (Py.dict_get (active_TEs self) te) as [r|] eqn:Hr; [|done].
  unfold bind at 1.
  pose proof (flip_loop_frame (Py.range (fst r) (fst r + snd r))
                ("x"%char, te) self) as (F1 & F2 & F3 & F4).
  destruct (for_each _ _ self) as [[[]|e] self1]; [|done].
  simpl in F1, F2, F3, F4.
  unfold bind, gets, modify, active_TEs_getitem, Py.dict_mem.
  rewrite F1, Hr. unfold set_active_TEs, set_inactive_TEs. simpl.
  rewrite F1, Hr. simpl. by rewrite F1, F2, F3.
Qed.

(** [insert_te]: the counter, the read of [self.genome[pos]], the
    collision, then the splice and the update of the records. *)
Lemma list_insert_te_unfold (pos length : Z) (self : t) :
  insert_te pos length self =
  let self1 := set_number_of_TEs (fun c => c + 1) self in
  let id := number_of_TEs self + 1 in
  match Py.getitem (genome self) pos with
  | None => (Raise (IndexError "list index out of range"), self1)
  | Some nuc =>
      match collide nuc self1 with
      | (Ret _, self2) =>
          (Ret id,
           mk (Py.slice_insert (genome self2) pos
                 (repeat ("A"%char, id) (Z.to_nat length)))
              (map (shift_record pos length)
                 (Py.dict_set (active_TEs self2) id (pos, length)))
              (inactive_TEs self2) (number_of_TEs self2))
      | (Raise e, self2) => (Raise e, self2)
      end
  end.
Proof.
  unfold insert_te, bind, gets, modify, genome_getitem, collide. simpl.
  destruct (Py.getitem (genome self) pos) as [nuc|]; [|done].
  match goal with |- context [match ?m with (_, _) => _ end] =>
    destruct m as [[[]|e] self2] end; done.
Qed.

(** Whatever [disable_te] does, the genome keeps its length and the
    counter its value. *)
Lemma list_disable_te_frame (te : Z) (self : t) :
  let self' := snd (disable_te te self) in
  List.length (genome self') = List.length (genome self) /\
  number_of_TEs self' = number_of_TEs self.
Proof.
  rewrite list_disable_te_unfold.
  destruct (Py.dict_get _ _) as [r|]; [|done].
  pose proof (flip_loop_frame (Py.range (fst r) (fst r + snd r))
                ("x"%char, te) self) as (F1 & F2 & F3 & F4).
  destruct (for_each _ _ self) as [[[]|e] self1]; simpl in *; done.
Qed.

Lemma list_collide_frame (nuc : ascii * Z) (self : t) :
  let self' := snd (collide nuc self) in
  List.length (genome self') = List.length (genome self) /\
  number_of_TEs self' = number_of_TEs self.
Proof.
  unfold collide. destruct (Ascii.eqb _ _); [|done].
  apply list_disable_te_frame.
Qed.

Lemma length_slice_insert {A} (l new : list A) (i : Z) :
  List.length (Py.slice_insert l i new) = (List.length l + List.length new)%nat.
Proof.
  unfold Py.slice_insert. rewrite !length_app, length_take, length_drop. lia.
Qed.

(** [insert_te] lengthens the genome by the [length] items of [te] when
    it returns, and not at all when it raises. *)
Lemma list_insert_te_len (pos length : Z) (self : t) :
  let '(o, self') := insert_te pos length self in
  len self' = len self + (if is_ret o then Z.max 0 length else 0).
Proof.
  rewrite list_insert_te_unfold. cbv zeta.
  destruct (Py.getitem (genome self) pos) as [nuc|]; [|simpl; unfold len; simpl; lia].
  pose proof (list_collide_frame nuc (set_number_of_TEs (fun c => c + 1) self))
    as [F1 F2].
  destruct (collide nuc _) as [[[]|e] self2]; simpl in *; unfold len; simpl.
  - rewrite length_slice_insert, repeat_length, F1. lia.
  - rewrite F1. lia.
Qed.

(** [copy_te]: the lookup in [active_TEs], the modulo, then [insert_te]. *)
Lemma list_copy_te_unfold (te offset : Z) (self : t) :
  copy_te te offset self =
  match Py.dict_get (active_TEs self) te with
  | None => (Raise (KeyError te), self)
  | Some r =>
      if len self =? 0 then (Raise ZeroDivisionError, self)
      else match insert_te ((fst r + offset) mod len self) (snd r) self with
           | (Ret id_new, self') => (Ret (Some id_new), self')
           | (Raise e, self') => (Raise e, self')
           end
  end.
Proof.
  unfold copy_te, bind, gets, active_TEs_getitem, raise, ret, len.
  destruct (Py.dict_get (active_TEs self) te) as [r|]; [|done].
  destruct (_ =? 0); [done|].
  by destruct (insert_te _ _ self) as [[id_new|e] self'].
Qed.

End ListMethods.

(** ** The methods of [LinkedListGenome], statement by statement *)

Section LinkedMethods.
Import LinkedListGenome.

Lemma dll_init_nil {E} : DLL.init (E := E) [] = [].
Proof. reflexivity. Qed.

Lemma repeat_middle {A} (x : A) (n : nat) (acc : list A) :
  repeat x n ++ x :: acc = x :: repeat x n ++ acc.
Proof. induction n as [|n IH]; simpl; congruence. Qed.

(** The [length] nucleotides of a new TE are all the same, so the order
    in which [insert_after] stacks them does not show. *)
Lemma new_seq_repeat (id length : Z) :
  new_seq id length = repeat (mkNucleotide "A"%char (Some id)) (Z.to_nat length).
Proof.
  unfold new_seq, Py.range. rewrite Z.sub_0_r, dll_init_nil.
  generalize (Z.to_nat length) as n. intros n.
  assert (forall (xs : list Z) acc,
    fold_left (fun s _ => DLL.insert_after s DLL.Head (mkNucleotide "A"%char (Some id)))
      xs acc = repeat (mkNucleotide "A"%char (Some id)) (List.length xs) ++ acc) as H.
  { induction xs as [|x xs IH]; intros acc; simpl; [done|].
    by rewrite IH, repeat_middle. }
  rewrite H, app_nil_r. by rewrite length_map, length_seq.
Qed.

(** A fresh genome: [n] empty nucleotides. *)
Lemma init_genome (n : Z) :
  genome (init n) = repeat (mkNucleotide "-"%char None) (Z.to_nat n).
Proof.
  unfold init, DLL.init. simpl.
  generalize (Z.to_nat n) as k. intros k.
  assert (forall (m : nat) acc,
    fold_left (fun s element => DLL.insert_after s DLL.Head element)
      (repeat (mkNucleotide "-"%char None) m) acc
    = repeat (mkNucleotide "-"%char None) m ++ acc) as H.
  { induction m as [|m IH]; intros acc; simpl; [done|].
    by rewrite IH, repeat_middle. }
  by rewrite H, app_nil_r.
Qed.

Lemma head_previous_new_seq (id length : Z) :
  DLL.head_previous (new_seq id length) = None <-> length <= 0.
Proof.
  rewrite new_seq_repeat. destruct (Z.to_nat length) as [|n] eqn:Hn; simpl.
  - split; [lia|done].
  - split; [done|lia].
Qed.

Lemma linked_eta (self : t) : self = mk (genome self) (tes self).
Proof. by destruct self. Qed.

Lemma tes_set_inactive_frame (i : Z) (self : t) :
  let self' := snd (tes_set_inactive i self) in
  genome self' = genome self /\
  List.length (tes self') = List.length (tes self).
Proof.
  unfold tes_set_inactive. destruct (Py.norm_index _ _); simpl; [|done].
  by rewrite length_alter.
Qed.

(** Whatever the collision test does, the genome and the list of TEs
    keep their lengths. *)
Lemma linked_collide_frame (nucleotide : Nucleotide) (self : t) :
  let self' := snd (collide nucleotide self) in
  List.length (genome self') = List.length (genome self) /\
  List.length (tes self') = List.length (tes self).
Proof.
  intros self'. assert (self' = snd (collide nucleotide self)) as Hs by done.
  clearbody self'. revert Hs.
  unfold collide. destruct (Ascii.eqb _ _); [|by intros ->].
  unfold bind at 1. destruct (id nucleotide) as [k|]; [|by intros ->].
  unfold ret at 1. unfold bind at 1.
  destruct (tes_getitem (k - 1) self) as [[te_old|e] self0] eqn:Hget;
    apply tes_getitem_state in Hget as ->; [|by intros ->].
  unfold bind.
  pose proof (set_loop_frame
    (Py.range (te_pos te_old) (te_pos te_old + te_length te_old))
    (mkNucleotide "x"%char (Some k)) self) as [F1 F2].
  destruct (for_each _ _ self) as [[[]|e] self1]; simpl in F1, F2;
    [|intros ->; simpl; split; congruence].
  destruct (tes_set_inactive_frame (k - 1) self1) as [G1 G2].
  intros ->. simpl in *. split; congruence.
Qed.

(** [insert_te]: the read of the nucleotide at [pos], the collision,
    the search of the link before [pos], then the splice and the update
    of the records. *)
Lemma linked_insert_te_unfold (pos length : Z) (self : t) :
  insert_te pos length self =
  let id := Z.of_nat (List.length (tes self)) + 1 in
  match DLL.get_element_at_index (genome self) pos with
  | Raise e => (Raise e, self)
  | Ret nucleotide =>
      match collide nucleotide self with
      | (Raise e, self1) => (Raise e, self1)
      | (Ret _, self1) =>
          match (if negb (pos =? 0)
                 then DLL.get_link_at_index (genome self1) (pos - 1)
                 else Ret DLL.Head) with
          | Raise e => (Raise e, self1)
          | Ret link =>
              match DLL.head_previous (new_seq id length) with
              | None => (Raise AttributeError, self1)
              | Some _ =>
                  (Ret id,
                   mk (DLL.insert_list_after_link (genome self1) link (new_seq id length))
                      (map (shift_record pos length)
                         (tes self1 ++ [mkTE id pos length active])))
              end
          end
      end
  end.
Proof.
  unfold insert_te, bind, gets, modify, lift, ret, raise. simpl.
  destruct (DLL.get_element_at_index (genome self) pos) as [nucleotide|e]; [|done].
  destruct (collide nucleotide self) as [[[]|e] self1]; [|done].
  destruct (negb (pos =? 0)).
  - destruct (DLL.get_link_at_index (genome self1) (pos - 1)) as [link|e]; [|done].
    by destruct (DLL.head_previous _).
  - by destruct (DLL.head_previous _).
Qed.

Lemma length_insert_list_after_link {E} (s chain : DLL.t E) (l : DLL.link) :
  List.length (DLL.insert_list_after_link s l chain)
  = (List.length s + List.length chain)%nat.
Proof.
  destruct l as [|i]; simpl.
  - rewrite length_app. lia.
  - rewrite !length_app, length_take, length_drop. lia.
Qed.

(** [insert_te] lengthens the genome by [length] nucleotides when it
    returns, and not at all when it raises. *)
Lemma linked_insert_te_len (pos length : Z) (self : t) :
  let '(o, self') := insert_te pos length self in
  len self' = len self + (if is_ret o then Z.max 0 length else 0).
Proof.
  rewrite linked_insert_te_unfold. cbv zeta. unfold len, DLL.len.
  destruct (DLL.get_element_at_index (genome self) pos) as [nucleotide|e];
    [|simpl; lia].
  pose proof (linked_collide_frame nucleotide self) as [F1 F2].
  destruct (collide nucleotide self) as [[[]|e] self1]; simpl in F1, F2;
    [|simpl; lia].
  destruct (if negb (pos =? 0) then _ else _) as [link|e]; [|simpl; lia].
  destruct (DLL.head_previous _); simpl; [|lia].
  rewrite length_insert_list_after_link, new_seq_repeat, repeat_length. lia.
Qed.

(** Whatever [disable_te] does, the genome and the list of TEs keep
    their lengths. *)
Lemma linked_disable_te_frame (te : Z) (self : t) :
  let self' := snd (disable_te te self) in
  List.length (genome self') = List.length (genome self) /\
  List.length (tes self') = List.length (tes self).
Proof.
  intros self'. assert (self' = snd (disable_te te self)) as Hs by done.
  clearbody self'. revert Hs.
  unfold disable_te, bind.
  destruct (tes_getitem (te - 1) self) as [[r|e] self0] eqn:Hget;
    apply tes_getitem_state in Hget as ->; [|by intros ->].
  pose proof (symbol_loop_frame (Py.range (te_pos r) (te_pos r + te_length r))
                "x"%char self) as [F1 F2].
  destruct (for_each _ _ self) as [[[]|e] self1]; simpl in F1, F2;
    [|intros ->; simpl; split; congruence].
  destruct (tes_set_inactive_frame (te - 1) self1) as [G1 G2].
  intros ->. simpl in *. split; congruence.
Qed.

(** [copy_te]: the lookup in [tes], the test of the status, the modulo,
    then [insert_te]. *)
Lemma linked_copy_te_unfold (te offset : Z) (self : t) :
  copy_te te offset self =
  match Py.getitem (tes self) (te - 1) with
  | None => (Raise (IndexError "list index out of range"), self)
  | Some r =>
      if is_active r then
        if len self =? 0 then (Raise ZeroDivisionError, self)
        else match insert_te ((offset + te_pos r) mod len self) (te_length r) self with
             | (Ret id_new, self') => (Ret (Some id_new), self')
             | (Raise e, self') => (Raise e, self')
             end
      else (Ret None, self)
  end.
Proof.
  unfold copy_te, bind, gets, tes_getitem, raise, ret, len.
  destruct (Py.getitem (tes self) (te - 1)) as [r|]; [|done].
  destruct (is_active r); [|done].
  destruct (_ =? 0); [done|].
  by destruct (insert_te _ _ self) as [[id_new|e] self'].
Qed.

End LinkedMethods.

(** ** The length of the genome *)

Section ListLength.
Import ListGenome ListGenomeSpec.

(** A call lengthens the genome by what it splices in (nothing for a
    [length] below 0, whose [range] is empty), and by nothing when it
    raises or is no insertion. *)
Lemma list_step_len (c : call) (self : t) :
  len (snd (step c self)) =
  len self + match spliced c self with Some l => Z.max 0 l | None => 0 end.
Proof.
  unfold spliced. destruct c as [pos length|te offset|te| | |]; simpl.
  - unfold bind. pose proof (list_insert_te_len pos length self) as H.
    destruct (insert_te pos length self) as [[id|e] self']; simpl in *; lia.
  - unfold bind. rewrite list_copy_te_unfold.
    destruct (Py.dict_get (active_TEs self) te) as [[start length]|]; simpl;
      [|lia].
    destruct (len self =? 0); simpl; [lia|].
    match goal with |- context [insert_te ?p ?l self] =>
      pose proof (list_insert_te_len p l self) as H;
      destruct (insert_te p l self) as [[id|e] self'] end; simpl in *; lia.
  - unfold bind. destruct (list_disable_te_frame te self) as [H _].
    destruct (disable_te te self) as [[[]|e] self']; simpl in *;
      unfold len; lia.
  - lia.
  - lia.
  - lia.
Qed.

Lemma list_run_len (cs : list call) (self : t) :
  len (snd (run cs self)) = len self + sum (map (Z.max 0) (insertions cs self)).
Proof.
  revert self. induction cs as [|c cs IH]; intros self.
  - simpl. lia.
  - rewrite list_run_cons. simpl snd. rewrite IH, list_step_len.
    simpl insertions. destruct (spliced c self); simpl; lia.
Qed.

Lemma list_len_init (n : Z) : 0 <= n -> len (init n) = n.
Proof. intros H. unfold len, init. simpl. rewrite repeat_length. lia. Qed.

End ListLength.

Section LinkedLength.
Import LinkedListGenome LinkedListGenomeSpec.

Lemma linked_step_len (c : call) (self : t) :
  len (snd (step c self)) =
  len self + match spliced c self with Some l => Z.max 0 l | None => 0 end.
Proof.
  unfold spliced. destruct c as [pos length|te offset|te| | |]; simpl.
  - unfold bind. pose proof (linked_insert_te_len pos length self) as H.
    destruct (insert_te pos length self) as [[id|e] self']; simpl in *; lia.
  - unfold bind. rewrite linked_copy_te_unfold.
    destruct (Py.getitem (tes self) (te - 1)) as [r|]; simpl; [|lia].
    destruct (is_active r); simpl; [|lia].
    destruct (len self =? 0); simpl; [lia|].
    match goal with |- context [insert_te ?p ?l self] =>
      pose proof (linked_insert_te_len p l self) as H;
      destruct (insert_te p l self) as [[id|e] self'] end; simpl in *; lia.
  - unfold bind. destruct (linked_disable_te_frame te self) as [H _].
    destruct (disable_te te self) as [[[]|e] self']; simpl in *;
      unfold len, DLL.len; lia.
  - lia.
  - lia.
  - lia.
Qed.

Lemma linked_run_len (cs : list call) (self : t) :
  len (snd (run cs self)) = len self + sum (map (Z.max 0) (insertions cs self)).
Proof.
  revert self. induction cs as [|c cs IH]; intros self.
  - simpl. lia.
  - rewrite linked_run_cons. simpl snd. rewrite IH, linked_step_len.
    simpl insertions. destruct (spliced c self); simpl; lia.
Qed.

Lemma linked_len_init (n : Z) : 0 <= n -> len (init n) = n.
Proof.
  intros H. unfold len, DLL.len. rewrite init_genome, repeat_length. lia.
Qed.

End LinkedLength.

Lemma sum_max_valid (ls : list Z) :
  Forall (fun l => 1 <= l) ls -> sum (map (Z.max 0) ls) = sum ls.
Proof.
  induction 1 as [|l ls Hl _ IH]; simpl; [done|]. rewrite IH. lia.
Qed.

(** ** The records of the TEs across [insert_te] *)

Section ListRecords.
Import ListGenome ListGenomeSpec.

(** A collision test that returns has either left both dicts alone or
    moved one record, as it was, from [active_TEs] to [inactive_TEs]. *)
Lemma list_collide_dicts (nuc : ascii * Z) (self self2 : t) :
  collide nuc self = (Ret tt, self2) ->
  (active_TEs self2 = active_TEs self /\ inactive_TEs self2 = inactive_TEs self) \/
  (exists r, Py.dict_get (active_TEs self) (snd nuc) = Some r /\
             active_TEs self2 = Py.dict_remove (active_TEs self) (snd nuc) /\
             inactive_TEs self2 = Py.dict_set (inactive_TEs self) (snd nuc) r).
Proof.
  unfold collide. destruct (Ascii.eqb _ _).
  - rewrite list_disable_te_unfold.
    destruct (Py.dict_get (active_TEs self) (snd nuc)) as [r|]; [|done].
    destruct (for_each _ _ self) as [[[]|e] self1]; [|done].
    intros [= <-]. right. by exists r.
  - intros [= <-]. by left.
Qed.

Lemma list_shift_record_eq (pos length k : Z) (r : Z * Z) :
  shift_record pos length (k, r) = (k, (shifted pos length (fst r), snd r)).
Proof.
  destruct r as [start len]. unfold shift_record, shifted. simpl.
  by destruct (pos <? start).
Qed.

Lemma list_insert_te_records (pos length id : Z) (self self' : t) :
  insert_te pos length self = (Ret id, self') ->
  id = number_of_TEs self + 1 /\
  Py.dict_get (active_TEs self') id = Some (pos, length) /\
  (forall te start len,
      te <> id ->
      Py.dict_get (active_TEs self) te = Some (start, len) ->
      Py.dict_get (active_TEs self') te = Some (shifted pos length start, len) \/
      (Py.dict_get (active_TEs self') te = None /\
       Py.dict_get (inactive_TEs self') te = Some (start, len))) /\
  (forall te r,
      Py.dict_get (active_TEs self) te = None ->
      Py.dict_get (inactive_TEs self) te = Some r ->
      Py.dict_get (inactive_TEs self') te = Some r).
Proof.
  rewrite list_insert_te_unfold. cbv zeta.
  destruct (Py.getitem (genome self) pos) as [nuc|]; [|done].
  destruct (collide nuc _) as [[[]|e] self2] eqn:Hc; [|done].
  intros [= <- <-]. simpl.
  split; [done|].
  set (id := number_of_TEs self + 1).
  assert (forall te, Py.dict_get
            (map (shift_record pos length)
               (Py.dict_set (active_TEs self2) id (pos, length))) te
          = (fun r => (shifted pos length (fst r), snd r))
              <$> Py.dict_get (Py.dict_set (active_TEs self2) id (pos, length)) te)
    as Hmap.
  { intros te. apply (dict_get_map _ (fun _ r => (shifted pos length (fst r), snd r))).
    intros k' v. apply list_shift_record_eq. }
  split.
  { rewrite Hmap, dict_get_set_eq. simpl. unfold shifted.
    by rewrite Z.ltb_irrefl. }
  apply list_collide_dicts in Hc as [[Ha Hi]|(r & Hr & Ha & Hi)];
    simpl in *.
  - split.
    + intros te start len Hte Hget. left.
      rewrite Hmap, dict_get_set_ne by done. by rewrite Ha, Hget.
    + intros te r _ Hget. by rewrite Hi.
  - split.
    + intros te start len Hte Hget.
      rewrite Hmap, dict_get_set_ne by done. rewrite Ha, Hi.
      destruct (Z.eq_dec (snd nuc) te) as [<-|Hne].
      * right. rewrite dict_get_remove_eq, dict_get_set_eq.
        split; [done|]. congruence.
      * left. rewrite dict_get_remove_ne by done. by rewrite Hget.
    + intros te r' Hnone Hget. rewrite Hi.
      rewrite dict_get_set_ne; [done|]. congruence.
Qed.

End ListRecords.

Section LinkedRecords.
Import LinkedListGenome LinkedListGenomeSpec.

(** The start of a record after the last loop of [insert_te]. *)
Lemma linked_shift_record_fields (pos length : Z) (te : TE) :
  let te' := shift_record pos length te in
  te_id te' = te_id te /\ te_length te' = te_length te /\
  te_status te' = te_status te /\
  te_pos te' = shifted pos length (te_pos te).
Proof.
  unfold shift_record, shifted. by destruct (pos <? te_pos te).
Qed.

(** The collision test changes no record but for the status of one. *)
Lemma linked_collide_tes (nucleotide : Nucleotide) (self self1 : t) :
  collide nucleotide self = (Ret tt, self1) ->
  tes self1 = tes self \/
  exists k, tes self1 = alter disable_record k (tes self).
Proof.
  unfold collide. destruct (Ascii.eqb _ _); [|intros [= <-]; by left].
  unfold bind at 1. destruct (id nucleotide) as [k|]; [|done].
  unfold ret at 1. unfold bind at 1.
  destruct (tes_getitem (k - 1) self) as [[te_old|e] self0] eqn:Hget;
    apply tes_getitem_state in Hget as ->; [|done].
  unfold bind.
  pose proof (set_loop_frame
    (Py.range (te_pos te_old) (te_pos te_old + te_length te_old))
    (mkNucleotide "x"%char (Some k)) self) as [F1 F2].
  destruct (for_each _ _ self) as [[[]|e] self1']; simpl in F1, F2; [|done].
  unfold tes_set_inactive.
  destruct (Py.norm_index _ _) as [i|]; [|done].
  intros [= <-]. right. exists i. simpl. by rewrite F1.
Qed.

Lemma linked_insert_te_records (pos length id : Z) (self self' : t) :
  insert_te pos length self = (Ret id, self') ->
  id = Z.of_nat (List.length (tes self)) + 1 /\
  tes self' !! List.length (tes self) = Some (mkTE id pos length active) /\
  List.length (tes self') = S (List.length (tes self)) /\
  (forall (i : nat) (te : TE),
      tes self !! i = Some te ->
      exists te', tes self' !! i = Some te' /\
                  te_id te' = te_id te /\ te_length te' = te_length te /\
                  te_pos te' = shifted pos length (te_pos te)).
Proof.
  rewrite linked_insert_te_unfold. cbv zeta.
  destruct (DLL.get_element_at_index (genome self) pos) as [nucleotide|e]; [|done].
  pose proof (linked_collide_frame nucleotide self) as [_ Flen].
  destruct (collide nucleotide self) as [[[]|e] self1] eqn:Hc; [|done].
  simpl in Flen.
  destruct (if negb (pos =? 0) then _ else _) as [link|e]; [|done].
  destruct (DLL.head_previous _); [|done].
  intros [= <- <-]. simpl.
  split; [done|]. split; [|split].
  - rewrite list_lookup_fmap, lookup_app_r by lia.
    rewrite Flen, Nat.sub_diag. simpl.
    unfold shift_record. simpl. by rewrite Z.ltb_irrefl.
  - rewrite length_map, length_app. simpl. lia.
  - intros i te Hi.
    assert (exists te1, tes self1 !! i = Some te1 /\
              te_id te1 = te_id te /\ te_length te1 = te_length te /\
              te_pos te1 = te_pos te) as (te1 & H1 & Hid & Hlen & Hpos).
    { apply linked_collide_tes in Hc as [->|[k ->]]; [by exists te|].
      destruct (decide (k = i)) as [->|Hne].
      - exists (disable_record te). by rewrite list_lookup_alter_eq, Hi.
      - exists te. by rewrite list_lookup_alter_ne. }
    exists (shift_record pos length te1).
    rewrite list_lookup_fmap, lookup_app_l by (by eapply lookup_lt_Some).
    rewrite H1. simpl.
    destruct (linked_shift_record_fields pos length te1) as (G1 & G2 & _ & G4).
    simpl in *. repeat split; congruence.
Qed.

End LinkedRecords.

(** ** Calls that are rejected *)

Lemma linked_insert_te_out_of_range (self : LinkedListGenome.t) (pos length : Z) :
  pos < 0 \/ LinkedListGenome.len self <= pos ->
  exists msg,
    LinkedListGenome.insert_te pos length self = (Raise (IndexError msg), self).
Proof.
  intros Hpos. rewrite linked_insert_te_unfold. cbv zeta.
  unfold LinkedListGenome.DLL.get_element_at_index,
    LinkedListGenome.DLL.get_link_at_index.
  destruct (Z.ltb_spec pos 0) as [Hneg|Hnn]; [by eexists|].
  destruct Hpos as [Hpos|Hpos]; [lia|].
  unfold LinkedListGenome.len, LinkedListGenome.DLL.len in Hpos.
  destruct (_ !! Z.to_nat pos) eqn:E; [|by eexists].
  apply lookup_lt_Some in E. lia.
Qed.

Lemma list_insert_te_out_of_range (self : ListGenome.t) (pos length : Z) :
  pos < - ListGenome.len self \/ ListGenome.len self <= pos ->
  ListGenome.insert_te pos length self =
  (Raise (IndexError "list index out of range"),
   ListGenome.set_number_of_TEs (fun c => c + 1) self).
Proof.
  intros Hpos. rewrite list_insert_te_unfold. cbv zeta.
  unfold Py.getitem. by rewrite norm_index_out.
Qed.

Lemma linked_disable_te_unknown (self : LinkedListGenome.t) (te : Z) :
  Z.of_nat (List.length (LinkedListGenome.tes self)) < te ->
  LinkedListGenome.disable_te te self =
  (Raise (IndexError "list index out of range"), self).
Proof.
  intros H. unfold LinkedListGenome.disable_te, bind, LinkedListGenome.tes_getitem,
    Py.getitem.
  by rewrite norm_index_out by lia.
Qed.

(** ** Splicing and flipping, position by position *)

Lemma repeat_replicate {A} (x : A) (n : nat) : repeat x n = replicate n x.
Proof. induction n as [|n IH]; simpl; congruence. Qed.

Lemma lookup_repeat {A} (x : A) (n i : nat) :
  (i < n)%nat -> repeat x n !! i = Some x.
Proof. intros H. rewrite repeat_replicate. by apply lookup_replicate_2. Qed.

(** The list [l] with [new] spliced in before index [p]: the items
    before [p] stay, those of [new] follow, and those from [p] on come
    [length new] places later. *)
Lemma lookup_splice {A} (l new : list A) (p i : nat) :
  (p <= List.length l)%nat ->
  (take p l ++ new ++ drop p l) !! i =
  if decide (i < p)%nat then l !! i
  else if decide (i < p + List.length new)%nat then new !! (i - p)%nat
       else l !! (i - List.length new)%nat.
Proof.
  intros Hp. destruct (decide (i < p)%nat) as [Hi|Hi].
  - rewrite lookup_app_l by (rewrite length_take; lia).
    by apply lookup_take_lt.
  - rewrite lookup_app_r by (rewrite length_take; lia).
    rewrite length_take_le by done.
    destruct (decide (i < p + List.length new)%nat) as [Hi'|Hi'].
    + by rewrite lookup_app_l by lia.
    + rewrite lookup_app_r by lia. rewrite lookup_drop. f_equal. lia.
Qed.

Lemma slice_index_nonneg (n : nat) (i : Z) :
  0 <= i <= Z.of_nat n -> Py.slice_index n i = Z.to_nat i.
Proof.
  intros H. unfold Py.slice_index.
  destruct (Z.ltb_spec i 0); [lia|]. f_equal. lia.
Qed.

Section ListFlip.
Import ListGenome ListGenomeSpec.

(** The loop of [disable_te] over positions that are all in the genome:
    it runs to its end, puts [x] at each of them and leaves the other
    symbols and the rest of the state alone. *)
Lemma list_flip_loop_ok (ns : list Z) (x : ascii * Z) (self : t) :
  (forall n, In n ns -> 0 <= n < len self) ->
  exists g',
    for_each ns (fun n => genome_setitem n x) self
      = (Ret tt, mk g' (active_TEs self) (inactive_TEs self) (number_of_TEs self)) /\
    List.length g' = List.length (genome self) /\
    (forall i : nat, In (Z.of_nat i) ns -> g' !! i = Some x) /\
    (forall i : nat, ~ In (Z.of_nat i) ns -> g' !! i = genome self !! i).
Proof.
  revert self. induction ns as [|n ns IH]; intros self Hns.
  - exists (genome self). simpl. unfold ret. rewrite <- list_eta. done.
  - assert (0 <= n < len self) as Hn by (apply Hns; by left).
    unfold len in Hn.
    destruct (IH (set_genome (fun _ => <[Z.to_nat n := x]> (genome self)) self))
      as (g' & Hloop & Hlen & Hin & Hout).
    { intros m Hm. unfold len. simpl. rewrite length_insert.
      apply Hns. by right. }
    exists g'. simpl in *. rewrite length_insert in Hlen.
    split; [|split; [done|split]].
    + unfold bind, genome_setitem, Py.setitem.
      by rewrite norm_index_nonneg by done.
    + intros i [Hi|Hi]; [|by apply Hin].
      destruct (in_dec Z.eq_dec (Z.of_nat i) ns) as [Hi'|Hi']; [by apply Hin|].
      rewrite Hout by done. subst n. rewrite Nat2Z.id.
      apply list_lookup_insert_eq. lia.
    + intros i Hi. rewrite Hout by tauto.
      apply list_lookup_insert_ne. intros <-. apply Hi. left. lia.
Qed.

End ListFlip.

(** ** The collision rule on [ListGenome] *)

Section ListCollision.
Import ListGenome ListGenomeSpec.

Lemma list_symbol_at_nonneg (self : t) (i : Z) :
  0 <= i -> symbol_at self i = genome self !! Z.to_nat i.
Proof. intros H. unfold symbol_at. by destruct (Z.ltb_spec i 0); [lia|]. Qed.

Lemma list_getitem_symbol_at (self : t) (i : Z) :
  0 <= i < len self -> Py.getitem (genome self) i = symbol_at self i.
Proof.
  intros H. unfold Py.getitem. rewrite norm_index_nonneg by done.
  by rewrite list_symbol_at_nonneg by lia.
Qed.

(** [disable_te] of an Active TE whose range lies in the genome: it
    returns, every symbol of the range is [('x', te)], the others are
    as before, and the record has gone from [active_TEs] to
    [inactive_TEs]. *)
Lemma list_disable_te_ok (te start len0 : Z) (self : t) :
  Py.dict_get (active_TEs self) te = Some (start, len0) ->
  0 <= start -> start + len0 <= len self ->
  exists g',
    disable_te te self
      = (Ret tt, mk g' (Py.dict_remove (active_TEs self) te)
                    (Py.dict_set (inactive_TEs self) te (start, len0))
                    (number_of_TEs self)) /\
    List.length g' = List.length (genome self) /\
    (forall i, in_range (start, len0) i -> g' !! Z.to_nat i = Some ("x"%char, te)) /\
    (forall i, 0 <= i -> ~ in_range (start, len0) i ->
               g' !! Z.to_nat i = genome self !! Z.to_nat i).
Proof.
  intros Hrec Hstart Hend. rewrite list_disable_te_unfold, Hrec. simpl fst; simpl snd.
  destruct (list_flip_loop_ok (Py.range start (start + len0)) ("x"%char, te) self)
    as (g' & Hloop & Hlen & Hin & Hout).
  { intros n Hn. apply elem_of_range in Hn. lia. }
  exists g'. rewrite Hloop. simpl.
  split; [done|]. split; [done|]. split.
  - intros i Hi. unfold in_range in Hi. simpl in Hi. apply Hin.
    apply elem_of_range. lia.
  - intros i Hi0 Hi. apply Hout. rewrite elem_of_range.
    unfold in_range in Hi. simpl in Hi. lia.
Qed.

Lemma In_dict_set {V} (d : Py.dict V) (k j : Z) (v w : V) :
  In (j, w) (Py.dict_set d k v) -> j <> k -> In (j, w) d.
Proof.
  intros Hin Hne. induction d as [|[k' v'] d IH]; simpl in *.
  - destruct Hin as [[= <- <-]|[]]. done.
  - destruct (Z.eqb_spec k' k) as [->|Hk].
    + destruct Hin as [[= <- <-]|Hin]; [done|by right].
    + destruct Hin as [Hin|Hin]; [by left|]. right. by apply IH.
Qed.

Lemma In_dict_set_same {V} (d : Py.dict V) (k : Z) (v : V) :
  In (k, v) (Py.dict_set d k v).
Proof.
  induction d as [|[k' v'] d IH]; simpl; [by left|].
  destruct (Z.eqb_spec k' k) as [->|Hk]; [by left|by right].
Qed.

Lemma In_dict_remove {V} (d : Py.dict V) (k j : Z) (w : V) :
  In (j, w) (Py.dict_remove d k) -> In (j, w) d /\ j <> k.
Proof.
  induction d as [|[k' v'] d IH]; simpl; [done|].
  destruct (Z.eqb_spec k' k) as [->|Hk].
  - intros Hin. apply IH in Hin as [Hin Hne]. split; [by right|done].
  - intros [[= <- <-]|Hin]; [split; [by left|done]|].
    apply IH in Hin as [Hin Hne]. split; [by right|done].
Qed.

(** An insertion at [pos] leaves a range that does not hold [pos], once
    its start is shifted, clear of the new range. *)
Lemma shifted_range_clear (pos length start len0 p : Z) :
  0 <= length ->
  ~ in_range (start, len0) pos ->
  in_range (shifted pos length start, len0) p ->
  ~ in_range (pos, length) p.
Proof.
  unfold in_range, shifted. simpl. intros Hl Hpos Hp.
  destruct (Z.ltb_spec pos start); lia.
Qed.

End ListCollision.

(** The symbols after a splice, in terms of positions. *)
Lemma lookup_slice_insert_moved {A} (g new : list A) (pos i : Z) :
  0 <= pos <= Z.of_nat (List.length g) -> 0 <= i ->
  Py.slice_insert g pos new !! Z.to_nat (moved pos (Z.of_nat (List.length new)) i)
  = g !! Z.to_nat i.
Proof.
  intros Hpos Hi. unfold Py.slice_insert. rewrite slice_index_nonneg by done.
  rewrite lookup_splice by lia. unfold moved.
  destruct (Z.ltb_spec i pos).
  - destruct (decide _); [done|lia].
  - destruct (decide _); [lia|]. destruct (decide _); [lia|]. f_equal. lia.
Qed.

Lemma lookup_slice_insert_new {A} (g new : list A) (pos i : Z) :
  0 <= pos <= Z.of_nat (List.length g) ->
  pos <= i < pos + Z.of_nat (List.length new) ->
  Py.slice_insert g pos new !! Z.to_nat i = new !! Z.to_nat (i - pos).
Proof.
  intros Hpos Hi. unfold Py.slice_insert. rewrite slice_index_nonneg by done.
  rewrite lookup_splice by lia.
  destruct (decide _); [lia|]. destruct (decide _); [|lia]. f_equal. lia.
Qed.

Lemma moved_nonneg (pos length i : Z) :
  0 <= length -> 0 <= i -> 0 <= moved pos length i.
Proof. unfold moved. destruct (i <? pos); lia. Qed.

Section ListCollisionRule.
Import ListGenome ListGenomeSpec.

(** The collision rule of [ListGenome.insert_te]. *)
Lemma list_insert_te_collision (self : t) (pos length k start len0 : Z) :
  0 <= pos < len self -> 1 <= length ->
  symbol_at self pos = Some ("A"%char, k) ->
  Py.dict_get (active_TEs self) k = Some (start, len0) ->
  0 <= start -> start + len0 <= len self ->
  k <= number_of_TEs self ->
  let id := number_of_TEs self + 1 in
  exists self',
    insert_te pos length self = (Ret id, self') /\
    (forall i, in_range (start, len0) i ->
               symbol_at self' (moved pos length i) = Some ("x"%char, k)) /\
    Py.dict_get (active_TEs self') k = None /\
    Py.dict_get (inactive_TEs self') k = Some (start, len0) /\
    Py.dict_get (active_TEs self') id = Some (pos, length) /\
    (forall i, in_range (pos, length) i -> symbol_at self' i = Some ("A"%char, id)) /\
    (only_covered_by k pos (active_records self) ->
     sole_occupant id (pos, length) (active_records self')) /\
    (forall i, 0 <= i < len self -> ~ in_range (start, len0) i ->
               symbol_at self' (moved pos length i) = symbol_at self i) /\
    len self' = len self + length.
Proof.
  intros Hpos Hlength Hsym Hrec Hstart Hend Hk id.
  rewrite list_insert_te_unfold. cbv zeta.
  rewrite list_getitem_symbol_at, Hsym by done.
  unfold collide. simpl fst; simpl snd. rewrite Ascii.eqb_refl.
  set (self1 := set_number_of_TEs (fun c => c + 1) self).
  destruct (list_disable_te_ok k start len0 self1) as (g' & Hdis & Hlen & Hin & Hout);
    [done..|].
  cbn [fst snd]. rewrite Hdis. subst self1. simpl in Hlen, Hout |- *.
  fold id.
  set (te := repeat ("A"%char, id) (Z.to_nat length)).
  assert (Z.of_nat (List.length te) = length) as Hte
    by (unfold te; rewrite repeat_length; lia).
  assert (0 <= pos <= Z.of_nat (List.length g')) as Hpos'
    by (rewrite Hlen; unfold len in Hpos; lia).
  assert (forall j, Py.dict_get
            (map (shift_record pos length)
               (Py.dict_set (Py.dict_remove (active_TEs self) k) id (pos, length))) j
          = (fun r => (shifted pos length (fst r), snd r))
              <$> Py.dict_get
                    (Py.dict_set (Py.dict_remove (active_TEs self) k) id (pos, length)) j)
    as Hmap.
  { intros j. apply (dict_get_map _ (fun _ r => (shifted pos length (fst r), snd r))).
    intros k' v. apply list_shift_record_eq. }
  eexists. split; [reflexivity|]. simpl.
  split; [|split; [|split; [|split; [|split; [|split; [|split]]]]]].
  - intros i Hi.
    assert (0 <= i) by (unfold in_range in Hi; simpl in Hi; lia).
    rewrite list_symbol_at_nonneg by (apply moved_nonneg; lia). simpl.
    rewrite <- Hte at 1. rewrite lookup_slice_insert_moved by done.
    by apply Hin.
  - rewrite Hmap, dict_get_set_ne by (unfold id; lia).
    by rewrite dict_get_remove_eq.
  - apply dict_get_set_eq.
  - rewrite Hmap, dict_get_set_eq. simpl. unfold shifted.
    by rewrite Z.ltb_irrefl.
  - intros i Hi. unfold in_range in Hi. simpl in Hi.
    rewrite list_symbol_at_nonneg by lia. simpl.
    rewrite lookup_slice_insert_new by lia.
    apply lookup_repeat. lia.
  - intros Honly. unfold sole_occupant, active_records. simpl. split.
    + apply in_map_iff. exists (id, (pos, length)). split.
      * rewrite list_shift_record_eq. simpl. unfold shifted.
        by rewrite Z.ltb_irrefl.
      * apply In_dict_set_same.
    + intros j r' Hj Hne p Hp.
      apply in_map_iff in Hj as ([j0 r0] & Heq & Hj).
      rewrite list_shift_record_eq in Heq. injection Heq as -> <-.
      apply In_dict_set in Hj; [|done].
      apply In_dict_remove in Hj as [Hj Hjk].
      eapply (shifted_range_clear pos length (fst r0) (snd r0)); [lia| |done].
      intros Hcov. apply Hjk. apply (Honly j r0); [done|].
      by destruct r0.
  - intros i Hi Hnot.
    rewrite list_symbol_at_nonneg by (apply moved_nonneg; lia). simpl.
    rewrite <- Hte at 1. rewrite lookup_slice_insert_moved by lia.
    rewrite list_symbol_at_nonneg by lia.
    apply Hout; [lia|done].
  - unfold len. simpl. rewrite length_slice_insert, Hlen. lia.
Qed.

End ListCollisionRule.

(** ** The collision rule on [LinkedListGenome] *)

Section LinkedCollisionRule.
Import LinkedListGenome LinkedListGenomeSpec.

Lemma linked_symbol_at_nonneg (self : t) (i : Z) :
  0 <= i -> symbol_at self i = genome self !! Z.to_nat i.
Proof. intros H. unfold symbol_at. by destruct (Z.ltb_spec i 0); [lia|]. Qed.

Lemma get_link_at_index_ok {E} (s : DLL.t E) (index : Z) :
  0 <= index < DLL.len s ->
  DLL.get_link_at_index s index = Ret (DLL.Link (Z.to_nat index)).
Proof.
  intros H. unfold DLL.get_link_at_index, DLL.len in *.
  destruct (Z.ltb_spec index 0); [lia|].
  destruct (s !! Z.to_nat index) eqn:E1; [done|].
  apply lookup_ge_None_1 in E1. lia.
Qed.

Lemma get_element_at_index_ok {E} (s : DLL.t E) (index : Z) (e : E) :
  0 <= index -> s !! Z.to_nat index = Some e ->
  DLL.get_element_at_index s index = Ret e.
Proof.
  intros H He. unfold DLL.get_element_at_index.
  rewrite get_link_at_index_ok.
  - simpl. by rewrite He.
  - apply lookup_lt_Some in He. unfold DLL.len. lia.
Qed.

(** Hooking a chain in after the link before position [pos], or after
    the head when [pos] is 0, is the splice before [pos]. *)
Lemma insert_list_after_link_slice {E} (s chain : DLL.t E) (pos : Z) :
  0 <= pos <= DLL.len s ->
  DLL.insert_list_after_link s
    (if negb (pos =? 0) then DLL.Link (Z.to_nat (pos - 1)) else DLL.Head) chain
  = Py.slice_insert s pos chain.
Proof.
  intros H. unfold Py.slice_insert, DLL.len in *.
  rewrite slice_index_nonneg by done.
  destruct (Z.eqb_spec pos 0) as [->|Hne]; simpl.
  - by rewrite drop_0.
  - replace (S (Z.to_nat (pos - 1))) with (Z.to_nat pos) by lia. done.
Qed.

(** The loop of the collision test over positions that are all in the
    genome. *)
Lemma linked_set_loop_ok (ns : list Z) (x : Nucleotide) (self : t) :
  (forall n, In n ns -> 0 <= n < len self) ->
  exists g',
    for_each ns (fun n => genome_set_at_index n x) self = (Ret tt, mk g' (tes self)) /\
    List.length g' = List.length (genome self) /\
    (forall i : nat, In (Z.of_nat i) ns -> g' !! i = Some x) /\
    (forall i : nat, ~ In (Z.of_nat i) ns -> g' !! i = genome self !! i).
Proof.
  revert self. induction ns as [|n ns IH]; intros self Hns.
  - exists (genome self). simpl. unfold ret. rewrite <- linked_eta. done.
  - assert (0 <= n < len self) as Hn by (apply Hns; by left).
    destruct (IH (set_genome (fun _ => <[Z.to_nat n := x]> (genome self)) self))
      as (g' & Hloop & Hlen & Hin & Hout).
    { intros m Hm. unfold len, DLL.len. simpl. rewrite length_insert.
      apply Hns. by right. }
    exists g'. simpl in *. rewrite length_insert in Hlen.
    split; [|split; [done|split]].
    + unfold bind, genome_set_at_index, DLL.set_at_index.
      by rewrite get_link_at_index_ok by done.
    + intros i [Hi|Hi]; [|by apply Hin].
      destruct (in_dec Z.eq_dec (Z.of_nat i) ns) as [Hi'|Hi']; [by apply Hin|].
      rewrite Hout by done. subst n. rewrite Nat2Z.id.
      apply list_lookup_insert_eq. unfold len, DLL.len in Hn. lia.
    + intros i Hi. rewrite Hout by tauto.
      apply list_lookup_insert_ne. intros <-. apply Hi. left. lia.
Qed.

(** The collision test on an Active symbol of the TE [k] whose record
    has its range in the genome. *)
Lemma linked_collide_ok (self : t) (k : Z) (te_old : TE) :
  1 <= k -> tes self !! Z.to_nat (k - 1) = Some te_old ->
  0 <= te_pos te_old -> te_pos te_old + te_length te_old <= len self ->
  exists g',
    collide (mkNucleotide "A"%char (Some k)) self
      = (Ret tt, mk g' (alter disable_record (Z.to_nat (k - 1)) (tes self))) /\
    List.length g' = List.length (genome self) /\
    (forall i, in_range (te_pos te_old, te_length te_old) i ->
               g' !! Z.to_nat i = Some (mkNucleotide "x"%char (Some k))) /\
    (forall i, 0 <= i -> ~ in_range (te_pos te_old, te_length te_old) i ->
               g' !! Z.to_nat i = genome self !! Z.to_nat i).
Proof.
  intros Hk Hold Hstart Hend.
  assert (Z.to_nat (k - 1) < List.length (tes self))%nat as Hlt
    by (by eapply lookup_lt_Some).
  destruct (linked_set_loop_ok
              (Py.range (te_pos te_old) (te_pos te_old + te_length te_old))
              (mkNucleotide "x"%char (Some k)) self)
    as (g' & Hloop & Hlen & Hin & Hout).
  { intros n Hn. apply elem_of_range in Hn. lia. }
  exists g'. split; [|split; [done|split]].
  - unfold collide. simpl. unfold bind at 1, ret at 1.
    unfold bind at 1, tes_getitem, Py.getitem.
    rewrite norm_index_nonneg by lia. rewrite Hold.
    unfold bind. rewrite Hloop. unfold tes_set_inactive. simpl.
    by rewrite norm_index_nonneg by lia.
  - intros i Hi. unfold in_range in Hi. simpl in Hi. apply Hin.
    apply elem_of_range. lia.
  - intros i Hi0 Hi. apply Hout. rewrite elem_of_range.
    unfold in_range in Hi. simpl in Hi. lia.
Qed.

End LinkedCollisionRule.

Section LinkedCollisionRuleMain.
Import LinkedListGenome LinkedListGenomeSpec.

Lemma record_of_shift (pos length : Z) (te : TE) :
  record_of (shift_record pos length te)
  = (te_id te, (shifted pos length (te_pos te), te_length te)).
Proof.
  unfold record_of.
  destruct (linked_shift_record_fields pos length te) as (-> & -> & _ & ->). done.
Qed.

Lemma is_active_shift (pos length : Z) (te : TE) :
  is_active (shift_record pos length te) = is_active te.
Proof.
  unfold is_active.
  destruct (linked_shift_record_fields pos length te) as (_ & _ & -> & _). done.
Qed.

(** The collision rule of [LinkedListGenome.insert_te]. *)
Lemma linked_insert_te_collision (self : t) (pos length k : Z) (te_old : TE) :
  0 <= pos < len self -> 1 <= length ->
  symbol_at self pos = Some (mkNucleotide "A"%char (Some k)) ->
  1 <= k -> tes self !! Z.to_nat (k - 1) = Some te_old ->
  0 <= te_pos te_old -> te_pos te_old + te_length te_old <= len self ->
  let id := Z.of_nat (List.length (tes self)) + 1 in
  let range_old := (te_pos te_old, te_length te_old) in
  exists self',
    insert_te pos length self = (Ret id, self') /\
    (forall i, in_range range_old i ->
               symbol_at self' (moved pos length i)
               = Some (mkNucleotide "x"%char (Some k))) /\
    (exists te', tes self' !! Z.to_nat (k - 1) = Some te' /\
                 te_status te' = inactive /\ te_id te' = te_id te_old /\
                 te_length te' = te_length te_old) /\
    tes self' !! List.length (tes self) = Some (mkTE id pos length active) /\
    (forall i, in_range (pos, length) i ->
               symbol_at self' i = Some (mkNucleotide "A"%char (Some id))) /\
    (ids_in_order self -> only_covered_by k pos (active_records self) ->
     sole_occupant id (pos, length) (active_records self')) /\
    (forall i, 0 <= i < len self -> ~ in_range range_old i ->
               symbol_at self' (moved pos length i) = symbol_at self i) /\
    len self' = len self + length.
Proof.
  intros Hpos Hlength Hsym Hk Hold Hstart Hend id range_old.
  assert (Z.to_nat (k - 1) < List.length (tes self))%nat as Hlt
    by (by eapply lookup_lt_Some).
  rewrite linked_symbol_at_nonneg in Hsym by lia.
  rewrite linked_insert_te_unfold. cbv zeta.
  rewrite (get_element_at_index_ok _ _ _ (proj1 Hpos) Hsym).
  destruct (linked_collide_ok self k te_old) as (g' & Hcol & Hlen & Hin & Hout);
    [done..|].
  rewrite Hcol. simpl genome. simpl tes.
  assert (0 <= pos <= DLL.len g') as Hpos'
    by (unfold DLL.len; rewrite Hlen; unfold len, DLL.len in Hpos; lia).
  assert ((if negb (pos =? 0) then DLL.get_link_at_index g' (pos - 1) else Ret DLL.Head)
          = Ret (if negb (pos =? 0) then DLL.Link (Z.to_nat (pos - 1)) else DLL.Head))
    as ->.
  { destruct (Z.eqb_spec pos 0); simpl; [done|].
    apply get_link_at_index_ok. lia. }
  fold id.
  destruct (DLL.head_previous (new_seq id length)) eqn:Hprev.
  2: { apply head_previous_new_seq in Hprev. lia. }
  rewrite insert_list_after_link_slice by done.
  rewrite new_seq_repeat.
  set (seq := repeat (mkNucleotide "A"%char (Some id)) (Z.to_nat length)).
  assert (Z.of_nat (List.length seq) = length) as Hseq
    by (unfold seq; rewrite repeat_length; lia).
  unfold DLL.len in Hpos'.
  eexists. split; [reflexivity|].
  split; [|split; [|split; [|split; [|split; [|split]]]]].
  - intros i Hi.
    assert (0 <= i) by (unfold range_old, in_range in Hi; simpl in Hi; lia).
    rewrite linked_symbol_at_nonneg by (apply moved_nonneg; lia). simpl.
    rewrite <- Hseq at 1. rewrite lookup_slice_insert_moved by done.
    by apply Hin.
  - exists (shift_record pos length (disable_record te_old)). simpl.
    rewrite list_lookup_fmap, lookup_app_l by (by rewrite length_alter).
    rewrite list_lookup_alter_eq, Hold. simpl.
    split; [done|].
    destruct (linked_shift_record_fields pos length (disable_record te_old))
      as (-> & -> & -> & _). done.
  - simpl. rewrite list_lookup_fmap, lookup_app_r by (by rewrite length_alter).
    rewrite length_alter, Nat.sub_diag. simpl.
    unfold shift_record. simpl. by rewrite Z.ltb_irrefl.
  - intros i Hi. unfold in_range in Hi. simpl in Hi.
    rewrite linked_symbol_at_nonneg by lia. simpl.
    rewrite lookup_slice_insert_new by lia.
    apply lookup_repeat. lia.
  - intros Hids Honly. unfold sole_occupant, active_records. simpl. split.
    + apply in_map_iff. exists (mkTE id pos length active). split; [done|].
      apply list_elem_of_In, list_elem_of_filter. split; [done|].
      apply list_elem_of_In, in_map_iff. exists (mkTE id pos length active).
      split.
      * unfold shift_record. simpl. by rewrite Z.ltb_irrefl.
      * apply in_or_app. right. by left.
    + intros j r' Hj Hne p Hp.
      apply in_map_iff in Hj as (te' & Heq & Hj).
      apply list_elem_of_In, list_elem_of_filter in Hj as [Hact Hj].
      apply list_elem_of_In, in_map_iff in Hj as (te1 & <- & Hj).
      rewrite record_of_shift in Heq. injection Heq as <- <-.
      rewrite is_active_shift in Hact.
      apply in_app_or in Hj as [Hj|[<-|[]]]; [|done].
      apply list_elem_of_In, list_elem_of_lookup in Hj as [i Hi].
      destruct (decide (Z.to_nat (k - 1) = i)) as [<-|Hik].
      { rewrite list_lookup_alter_eq, Hold in Hi. injection Hi as <-. done. }
      rewrite list_lookup_alter_ne in Hi by done.
      eapply (shifted_range_clear pos length (te_pos te1) (te_length te1));
        [lia| |done].
      intros Hcov. apply Hik.
      assert (te_id te1 = k) as Hid.
      { apply (Honly (te_id te1) (te_pos te1, te_length te1)); [|done].
        apply in_map_iff. exists te1. split; [done|].
        apply list_elem_of_In, list_elem_of_filter. split; [done|].
        apply list_elem_of_lookup. by exists i. }
      apply Hids in Hi. lia.
  - intros i Hi Hnot.
    rewrite linked_symbol_at_nonneg by (apply moved_nonneg; lia). simpl.
    rewrite <- Hseq at 1. rewrite lookup_slice_insert_moved by lia.
    rewrite linked_symbol_at_nonneg by lia.
    apply Hout; [lia|done].
  - unfold len, DLL.len. simpl. rewrite length_slice_insert, Hlen. lia.
Qed.

End LinkedCollisionRuleMain.

(** ** The data model is kept by [ListGenome] *)

Lemma dict_get_In {V} (d : Py.dict V) (k : Z) (v : V) :
  Py.dict_get d k = Some v -> In (k, v) d.
Proof.
  induction d as [|[k' v'] d IH]; simpl; [done|].
  destruct (Z.eqb_spec k' k) as [->|Hne].
  - intros [= ->]. by left.
  - intros H. right. by apply IH.
Qed.

Lemma In_dict_keys {V} (d : Py.dict V) (k : Z) (v : V) :
  In (k, v) d -> In k (Py.dict_keys d).
Proof. intros H. apply in_map_iff. by exists (k, v). Qed.

Lemma In_dict_get {V} (d : Py.dict V) (k : Z) (v : V) :
  List.NoDup (Py.dict_keys d) -> In (k, v) d -> Py.dict_get d k = Some v.
Proof.
  induction d as [|[k' v'] d IH]; simpl; [done|].
  intros Hnd Hin. apply List.NoDup_cons_iff in Hnd as [Hk' Hnd].
  destruct Hin as [[= -> ->]|Hin].
  - by rewrite Z.eqb_refl.
  - destruct (Z.eqb_spec k' k) as [->|Hne]; [|by apply IH].
    exfalso. apply Hk'. by eapply In_dict_keys.
Qed.

Lemma In_dict_remove_2 {V} (d : Py.dict V) (k j : Z) (w : V) :
  In (j, w) d -> j <> k -> In (j, w) (Py.dict_remove d k).
Proof.
  intros Hin Hne. induction d as [|[k' v'] d IH]; simpl in *; [done|].
  destruct (Z.eqb_spec k' k) as [->|Hk].
  - destruct Hin as [[= <- <-]|Hin]; [done|by apply IH].
  - destruct Hin as [Hin|Hin]; [by left|]. right. by apply IH.
Qed.

Lemma NoDup_dict_remove {V} (d : Py.dict V) (k : Z) :
  List.NoDup (Py.dict_keys d) -> List.NoDup (Py.dict_keys (Py.dict_remove d k)).
Proof.
  induction d as [|[k' v'] d IH]; simpl; [intros; constructor|].
  intros Hnd. apply List.NoDup_cons_iff in Hnd as [Hk' Hnd].
  destruct (Z.eqb_spec k' k) as [->|Hk]; [by apply IH|].
  simpl. apply List.NoDup_cons_iff. split; [|by apply IH].
  intros Hin. apply Hk'. apply in_map_iff in Hin as ([j w] & <- & Hin).
  apply In_dict_remove in Hin as [Hin _]. by eapply In_dict_keys.
Qed.

(** A key that is not in the dict goes last. *)
Lemma dict_set_fresh {V} (d : Py.dict V) (k : Z) (v : V) :
  ~ In k (Py.dict_keys d) -> Py.dict_set d k v = d ++ [(k, v)].
Proof.
  induction d as [|[k' v'] d IH]; simpl; [done|].
  intros Hk. destruct (Z.eqb_spec k' k) as [->|Hne]; [tauto|].
  rewrite IH; [done|tauto].
Qed.

Lemma dict_keys_shift (pos length : Z) (d : Py.dict (Z * Z)) :
  Py.dict_keys (map (ListGenome.shift_record pos length) d) = Py.dict_keys d.
Proof.
  unfold Py.dict_keys. rewrite map_map. apply map_ext.
  intros [k r]. by rewrite list_shift_record_eq.
Qed.

Lemma lookup_repeat_Some {A} (x y : A) (n i : nat) :
  repeat x n !! i = Some y -> y = x /\ (i < n)%nat.
Proof. rewrite repeat_replicate. apply lookup_replicate_1. Qed.

Section ListInvariant.
Import ListGenome ListGenomeSpec.

(** Flipping the range of an Active record and taking the record out of
    [active_TEs] keeps the data model. *)
Lemma wf_flip (g g' : list (ascii * Z)) (a i i' : Py.dict (Z * Z))
    (n te s L : Z) :
  wf (mk g a i n) ->
  In (te, (s, L)) a ->
  List.length g' = List.length g ->
  (forall j, in_range (s, L) j -> g' !! Z.to_nat j = Some ("x"%char, te)) ->
  (forall j, 0 <= j -> ~ in_range (s, L) j -> g' !! Z.to_nat j = g !! Z.to_nat j) ->
  wf (mk g' (Py.dict_remove a te) i' n).
Proof.
  intros [Hkeys Hids Htags Hrange Hactive] Hte Hlen Hin Hout.
  unfold len in *. simpl in *.
  destruct (Hrange te s L Hte) as (Hs0 & HL & Hs1 & Hsym).
  constructor; unfold len; simpl.
  - by apply NoDup_dict_remove.
  - intros k r Hk. apply In_dict_remove in Hk as [Hk _]. by eapply Hids.
  - intros j c k Hj.
    destruct (decide (s <= Z.of_nat j < s + L)) as [Hjin|Hjout].
    + rewrite <- (Nat2Z.id j), (Hin (Z.of_nat j)) in Hj by done.
      injection Hj as <- <-. by eapply Hids.
    + rewrite <- (Nat2Z.id j), (Hout (Z.of_nat j)) in Hj by (done || lia).
      rewrite Nat2Z.id in Hj. by eapply Htags.
  - intros k start len0 Hk. apply In_dict_remove in Hk as [Hk Hne].
    destruct (Hrange k start len0 Hk) as (H0 & H1 & H2 & Hsymk).
    split; [done|]. split; [done|]. split; [lia|].
    intros p Hp. rewrite Hout.
    + by apply Hsymk.
    + unfold in_range in Hp. simpl in Hp. lia.
    + intros Hps. apply Hsym in Hps. apply Hsymk in Hp. congruence.
  - intros j k Hj.
    destruct (decide (s <= Z.of_nat j < s + L)) as [Hjin|Hjout].
    + rewrite <- (Nat2Z.id j), (Hin (Z.of_nat j)) in Hj by done. done.
    + rewrite <- (Nat2Z.id j), (Hout (Z.of_nat j)) in Hj by (done || lia).
      rewrite Nat2Z.id in Hj.
      destruct (Hactive j k Hj) as (start & len0 & Hk & Hjk).
      exists start, len0. split; [|done].
      apply In_dict_remove_2; [done|]. intros ->.
      apply In_dict_get in Hk; [|done]. apply In_dict_get in Hte; [|done].
      rewrite Hk in Hte. injection Hte as -> ->. done.
Qed.

(** Splicing a new TE in before a position whose symbol is not Active,
    recording it and shifting the records behind it keeps the data
    model. *)
Lemma wf_splice (g : list (ascii * Z)) (a i : Py.dict (Z * Z)) (n pos length : Z) :
  wf (mk g a i n) ->
  0 <= pos < Z.of_nat (List.length g) -> 1 <= length ->
  (forall k, g !! Z.to_nat pos <> Some ("A"%char, k)) ->
  wf (mk (Py.slice_insert g pos (repeat ("A"%char, n + 1) (Z.to_nat length)))
         (map (shift_record pos length) (Py.dict_set a (n + 1) (pos, length)))
         i (n + 1)).
Proof.
  intros [Hkeys Hids Htags Hrange Hactive] Hpos Hlength Hfree.
  unfold len in *. simpl in *.
  assert (~ In (n + 1) (Py.dict_keys a)) as Hfresh.
  { intros Hin. apply in_map_iff in Hin as ([k r] & Heq & Hin). simpl in Heq.
    subst k. apply Hids in Hin. lia. }
  rewrite dict_set_fresh by done.
  set (new := repeat ("A"%char, n + 1) (Z.to_nat length)).
  assert (Z.of_nat (List.length new) = length) as Hnew
    by (unfold new; rewrite repeat_length; lia).
  assert (forall k s L, In (k, (s, L)) a -> ~ in_range (s, L) pos) as Hclear.
  { intros k s L Hk Hcov. destruct (Hrange _ _ _ Hk) as (_ & _ & _ & Hsym).
    apply (Hfree k). by apply Hsym. }
  assert (forall j : nat,
    Py.slice_insert g pos new !! j =
    if decide (j < Z.to_nat pos)%nat then g !! j
    else if decide (j < Z.to_nat pos + List.length new)%nat
         then new !! (j - Z.to_nat pos)%nat
         else g !! (j - List.length new)%nat) as Hlookup.
  { intros j. unfold Py.slice_insert. rewrite slice_index_nonneg by lia.
    apply lookup_splice. lia. }
  constructor; unfold len; simpl.
  - rewrite dict_keys_shift. unfold Py.dict_keys. rewrite map_app. simpl.
    apply List.NoDup_app; [done|repeat constructor; by intros []|].
    intros k Hk [<-|[]]. done.
  - intros k r Hk. apply in_map_iff in Hk as ([k0 r0] & Heq & Hk).
    rewrite list_shift_record_eq in Heq. injection Heq as <- <-.
    apply in_app_or in Hk as [Hk|[[= <- <-]|[]]]; [|lia].
    apply Hids in Hk. lia.
  - intros j c k Hj. rewrite Hlookup in Hj.
    destruct (decide _); [apply Htags in Hj; lia|].
    destruct (decide _); [|apply Htags in Hj; lia].
    apply lookup_repeat_Some in Hj as [[= -> ->] _]. lia.
  - intros k start len0 Hk. apply in_map_iff in Hk as ([k0 [s L]] & Heq & Hk).
    rewrite list_shift_record_eq in Heq. simpl in Heq. injection Heq as <- <- <-.
    rewrite length_slice_insert.
    apply in_app_or in Hk as [Hk|[[= <- <- <-]|[]]].
    + destruct (Hrange _ _ _ Hk) as (H0 & H1 & H2 & Hsym).
      pose proof (Hclear _ _ _ Hk) as Hnot.
      unfold in_range in Hnot. simpl in Hnot.
      unfold shifted. destruct (Z.ltb_spec pos s) as [Hlt|Hge].
      * split; [lia|]. split; [done|]. split; [lia|].
        intros p Hp. unfold in_range in Hp. simpl in Hp.
        replace p with (moved pos (Z.of_nat (List.length new)) (p - length))
          by (unfold moved; destruct (Z.ltb_spec (p - length) pos); lia).
        rewrite lookup_slice_insert_moved by lia.
        apply Hsym. unfold in_range. simpl. lia.
      * split; [done|]. split; [done|]. split; [lia|].
        intros p Hp. unfold in_range in Hp. simpl in Hp.
        replace p with (moved pos (Z.of_nat (List.length new)) p)
          by (unfold moved; destruct (Z.ltb_spec p pos); lia).
        rewrite lookup_slice_insert_moved by lia.
        apply Hsym. unfold in_range. simpl. lia.
    + unfold shifted. rewrite Z.ltb_irrefl.
      split; [lia|]. split; [done|]. split; [lia|].
      intros p Hp. unfold in_range in Hp. simpl in Hp.
      rewrite lookup_slice_insert_new by lia.
      apply lookup_repeat. lia.
  - intros j k Hj. rewrite Hlookup in Hj.
    destruct (decide (j < Z.to_nat pos)%nat) as [Hj1|Hj1].
    { destruct (Hactive j k Hj) as (s & L & Hk & Hjk).
      pose proof (Hclear _ _ _ Hk) as Hnot.
      unfold in_range in Hnot, Hjk. simpl in Hnot, Hjk.
      exists s, L. split; [|done].
      apply in_map_iff. exists (k, (s, L)). split; [|apply in_or_app; by left].
      rewrite list_shift_record_eq. simpl. unfold shifted.
      destruct (Z.ltb_spec pos s); [lia|done]. }
    destruct (decide (j < Z.to_nat pos + List.length new)%nat) as [Hj2|Hj2].
    { apply lookup_repeat_Some in Hj as [[= ->] _].
      exists pos, length. split.
      - apply in_map_iff. exists (n + 1, (pos, length)).
        split; [|apply in_or_app; right; by left].
        rewrite list_shift_record_eq. simpl. unfold shifted.
        by rewrite Z.ltb_irrefl.
      - unfold in_range. simpl. lia. }
    destruct (Hactive _ k Hj) as (s & L & Hk & Hjk).
    pose proof (Hclear _ _ _ Hk) as Hnot.
    unfold in_range in Hnot, Hjk. simpl in Hnot, Hjk.
    exists (s + length), L. split.
    + apply in_map_iff. exists (k, (s, L)). split; [|apply in_or_app; by left].
      rewrite list_shift_record_eq. simpl. unfold shifted.
      destruct (Z.ltb_spec pos s); [done|lia].
    + unfold in_range. simpl. lia.
Qed.

End ListInvariant.

Section ListReachable.
Import ListGenome ListGenomeSpec.

Lemma list_wf_init (n : Z) : wf (init n).
Proof.
  constructor; unfold len; simpl.
  - constructor.
  - intros k r [].
  - intros i c k Hi. apply lookup_repeat_Some in Hi as [[= -> ->] _]. done.
  - intros k start len0 [].
  - intros i k Hi. by apply lookup_repeat_Some in Hi as [[=] _].
Qed.

(** In a state of the data model, an Active symbol names a record of
    [active_TEs] that meets what the collision rule asks of it. *)
Lemma list_wf_active_symbol (self : t) (pos k : Z) :
  wf self -> symbol_at self pos = Some ("A"%char, k) ->
  exists start len0,
    Py.dict_get (active_TEs self) k = Some (start, len0) /\
    in_range (start, len0) pos /\
    0 <= start /\ start + len0 <= len self /\
    k <= number_of_TEs self /\
    only_covered_by k pos (active_records self).
Proof.
  intros Hwf Hsym. unfold symbol_at in Hsym.
  destruct (Z.ltb_spec pos 0) as [|Hpos]; [done|].
  destruct (wf_active self Hwf _ _ Hsym) as (start & len0 & Hk & Hin).
  rewrite Z2Nat.id in Hin by done.
  destruct (wf_range self Hwf _ _ _ Hk) as (H0 & H1 & H2 & _).
  exists start, len0.
  split; [apply In_dict_get; [apply (wf_keys self Hwf)|done]|].
  split; [done|]. split; [done|]. split; [done|].
  split; [by eapply (wf_ids self Hwf)|].
  intros j [s L] Hj Hcov.
  destruct (wf_range self Hwf _ _ _ Hj) as (_ & _ & _ & Hsymj).
  apply Hsymj in Hcov. congruence.
Qed.

(** A valid [insert_te] on a state of the data model returns the next
    id and leaves a state of the data model. *)
Lemma list_wf_insert_te (self : t) (pos length : Z) :
  wf self -> 0 <= pos < len self -> 1 <= length ->
  fst (insert_te pos length self) = Ret (number_of_TEs self + 1) /\
  wf (snd (insert_te pos length self)).
Proof.
  intros Hwf Hpos Hlength.
  rewrite list_insert_te_unfold. cbv zeta.
  rewrite list_getitem_symbol_at by done.
  destruct (symbol_at self pos) as [[c k]|] eqn:Hsym.
  2: { unfold symbol_at in Hsym. destruct (Z.ltb_spec pos 0); [lia|].
       apply lookup_ge_None_1 in Hsym. unfold len in Hpos. lia. }
  unfold collide. cbn [fst snd].
  destruct (Ascii.eqb_spec c "A"%char) as [->|Hc].
  - destruct (list_wf_active_symbol self pos k Hwf Hsym)
      as (start & len0 & Hrec & Hin & Hs0 & Hs1 & _ & _).
    destruct (list_disable_te_ok k start len0
                (set_number_of_TEs (fun c => c + 1) self))
      as (g' & Hdis & Hlen & Hflip & Hout); [done..|].
    rewrite Hdis. simpl in *. split; [done|].
    apply wf_splice; [|unfold len in Hpos; lia|done|].
    + apply (wf_flip (genome self) g' (active_TEs self) (inactive_TEs self)
               _ (number_of_TEs self) k start len0);
        [by rewrite <- list_eta|by apply dict_get_In|done..].
    + intros k'. by rewrite Hflip.
  - unfold ret. simpl. split; [done|].
    apply wf_splice; [by rewrite <- list_eta|done|done|].
    intros k'. unfold symbol_at in Hsym.
    destruct (Z.ltb_spec pos 0); [lia|]. rewrite Hsym. congruence.
Qed.

(** [disable_te] keeps the data model, on an Active TE and on any other
    id, for which it raises at once. *)
Lemma list_wf_disable_te (self : t) (te : Z) :
  wf self -> wf (snd (disable_te te self)).
Proof.
  intros Hwf.
  destruct (Py.dict_get (active_TEs self) te) as [[start len0]|] eqn:Hrec.
  - pose proof (dict_get_In _ _ _ Hrec) as Hin.
    destruct (wf_range self Hwf _ _ _ Hin) as (H0 & H1 & H2 & _).
    destruct (list_disable_te_ok te start len0 self)
      as (g' & Hdis & Hlen & Hflip & Hout); [done..|].
    rewrite Hdis. simpl.
    apply (wf_flip (genome self) g' (active_TEs self) (inactive_TEs self)
             _ (number_of_TEs self) te start len0);
      [by rewrite <- list_eta|done..].
  - by rewrite list_disable_te_not_active.
Qed.

(** [copy_te] keeps the data model: on an Active TE it is a valid
    [insert_te], on any other id it raises at once. *)
Lemma list_wf_copy_te (self : t) (te offset : Z) :
  wf self -> wf (snd (copy_te te offset self)).
Proof.
  intros Hwf. rewrite list_copy_te_unfold.
  destruct (Py.dict_get (active_TEs self) te) as [[start len0]|] eqn:Hrec; [|done].
  pose proof (dict_get_In _ _ _ Hrec) as Hin.
  destruct (wf_range self Hwf _ _ _ Hin) as (H0 & H1 & H2 & _).
  destruct (Z.eqb_spec (len self) 0) as [Hz|Hnz]; [done|].
  cbn [fst snd].
  destruct (list_wf_insert_te self ((start + offset) mod len self) len0 Hwf)
    as [_ Hwf']; [apply Z.mod_pos_bound; lia|done|].
  by destruct (insert_te _ _ self) as [[id_new|e] self'].
Qed.

Lemma list_wf_step (c : call) (self : t) :
  wf self -> precondition c self -> wf (snd (step c self)).
Proof.
  intros Hwf Hpre. destruct c as [pos length|te offset|te| | |]; simpl.
  - destruct Hpre as [Hpos Hlength].
    destruct (list_wf_insert_te self pos length Hwf Hpos Hlength) as [_ Hwf'].
    unfold bind. by destruct (insert_te pos length self) as [[id|e] self'].
  - pose proof (list_wf_copy_te self te offset Hwf) as Hwf'.
    unfold bind. by destruct (copy_te te offset self) as [[r|e] self'].
  - pose proof (list_wf_disable_te self te Hwf) as Hwf'.
    unfold bind. by destruct (disable_te te self) as [[[]|e] self'].
  - done.
  - done.
  - done.
Qed.

(** Every state that valid calls reach from a fresh [ListGenome] is a
    state of the data model. *)
Lemma list_reachable_wf (self : t) : reachable self -> wf self.
Proof.
  induction 1 as [n Hn|c self Hreach IH Hpre].
  - apply list_wf_init.
  - by apply list_wf_step.
Qed.

(** In a state of the data model no two Active ranges intersect. *)
Lemma list_wf_no_overlap (self : t) :
  wf self -> no_overlap (len self) (active_records self).
Proof.
  intros Hwf k1 [s1 L1] k2 [s2 L2] H1 H2 Hne (p & q & Hp & Hq & Hpq).
  destruct (wf_range self Hwf _ _ _ H1) as (A0 & A1 & A2 & Asym).
  destruct (wf_range self Hwf _ _ _ H2) as (B0 & B1 & B2 & Bsym).
  pose proof (Asym p Hp) as Ap. pose proof (Bsym q Hq) as Bq.
  unfold in_range in Hp, Hq. simpl in Hp, Hq.
  rewrite !Z.mod_small in Hpq by lia. subst q. congruence.
Qed.

(** On [ListGenome] the Active ranges never intersect in a state that
    valid calls can reach. *)
Lemma list_reachable_no_overlap (self : t) :
  reachable self -> no_overlap (len self) (active_records self).
Proof. intros H. by apply list_wf_no_overlap, list_reachable_wf. Qed.

(** On [ListGenome] a valid [insert_te] never fails in a state that
    valid calls can reach. *)
Lemma list_reachable_insert_te_returns (self : t) (pos length : Z) :
  reachable self -> 0 <= pos < len self -> 1 <= length ->
  fst (insert_te pos length self) = Ret (number_of_TEs self + 1).
Proof.
  intros H Hpos Hlength.
  by apply list_wf_insert_te; [apply list_reachable_wf|..].
Qed.

End ListReachable.

(** ** The two realizations step by step *)

Lemma map_slice_insert {A B} (f : A -> B) (g new : list A) (pos : Z) :
  map f (Py.slice_insert g pos new) = Py.slice_insert (map f g) pos (map f new).
Proof.
  unfold Py.slice_insert. rewrite length_map, !map_app.
  by rewrite <- firstn_map, <- skipn_map.
Qed.

Lemma dict_remove_fresh {V} (d : Py.dict V) (k : Z) :
  ~ In k (Py.dict_keys d) -> Py.dict_remove d k = d.
Proof.
  induction d as [|[k' v'] d IH]; simpl; [done|].
  intros Hk. destruct (Z.eqb_spec k' k) as [->|Hne]; [tauto|].
  rewrite IH; [done|tauto].
Qed.

Section LinkedRecordsLists.
Import LinkedListGenome LinkedListGenomeSpec.

Lemma filter_active_shift (pos length : Z) (l : list TE) :
  filter (fun te => is_active te = true) (map (shift_record pos length) l)
  = map (shift_record pos length) (filter (fun te => is_active te = true) l).
Proof.
  induction l as [|te l IH]; simpl; [done|].
  rewrite !filter_cons, is_active_shift, IH.
  by destruct (decide (is_active te = true)).
Qed.

Lemma record_of_shift_list (pos length : Z) (l : list TE) :
  map record_of (map (shift_record pos length) l)
  = map (ListGenome.shift_record pos length) (map record_of l).
Proof.
  rewrite !map_map. apply map_ext. intros te.
  rewrite record_of_shift. unfold record_of. by rewrite list_shift_record_eq.
Qed.

(** The records that are Active once the TE at index [idx] is disabled,
    in a list whose ids count up from [base]. *)
Lemma active_records_alter (l : list TE) (idx : nat) (base : Z) :
  (forall (i : nat) te, l !! i = Some te -> te_id te = Z.of_nat i + base) ->
  map record_of (filter (fun te => is_active te = true) (alter disable_record idx l))
  = Py.dict_remove (map record_of (filter (fun te => is_active te = true) l))
                   (Z.of_nat idx + base).
Proof.
  revert idx base. induction l as [|te l IH]; intros idx base Hids; [done|].
  assert (te_id te = base) as Hte by (rewrite (Hids 0%nat te); [lia|done]).
  assert (forall (i : nat) te', l !! i = Some te' -> te_id te' = Z.of_nat i + (base + 1))
    as Hids'.
  { intros i te' Hi. rewrite (Hids (S i) te' Hi). lia. }
  assert (forall k, k <= base ->
            ~ In k (Py.dict_keys
                      (map record_of (filter (fun te => is_active te = true) l))))
    as Hfresh.
  { intros k Hk Hin. apply in_map_iff in Hin as ([j r] & <- & Hin).
    apply in_map_iff in Hin as (te' & Heq & Hin).
    apply list_elem_of_In, list_elem_of_filter in Hin as [_ Hin].
    apply list_elem_of_lookup in Hin as [i Hi]. apply Hids' in Hi.
    unfold record_of in Heq. injection Heq as <- _. simpl in Hk. lia. }
  assert (forall r rest k,
            Py.dict_remove ((te_id te, r) :: rest : Py.dict (Z * Z)) k
            = if base =? k then Py.dict_remove rest k
              else (te_id te, r) :: Py.dict_remove rest k) as Hstep.
  { intros r rest k. simpl. by rewrite Hte. }
  destruct idx as [|idx].
  - change (alter disable_record 0%nat (te :: l)) with (disable_record te :: l).
    rewrite !filter_cons. change (is_active (disable_record te)) with false.
    destruct (decide (false = true)) as [|_]; [done|].
    change (Z.of_nat 0 + base) with base.
    destruct (decide (is_active te = true)).
    + change (map record_of (te :: ?x)) with (record_of te :: map record_of x).
      unfold record_of at 2. rewrite Hstep, Z.eqb_refl.
      rewrite dict_remove_fresh; [done|]. apply Hfresh. lia.
    + rewrite dict_remove_fresh; [done|]. apply Hfresh. lia.
  - change (alter disable_record (S idx) (te :: l))
      with (te :: alter disable_record idx l).
    rewrite !filter_cons.
    replace (Z.of_nat (S idx) + base) with (Z.of_nat idx + (base + 1)) by lia.
    destruct (decide (is_active te = true)).
    + change (map record_of (te :: ?x)) with (record_of te :: map record_of x).
      unfold record_of at 1 3. rewrite Hstep.
      destruct (Z.eqb_spec base (Z.of_nat idx + (base + 1))); [lia|].
      f_equal. by apply IH.
    + by apply IH.
Qed.

End LinkedRecordsLists.

Section LinkedSymbolLoop.
Import LinkedListGenome LinkedListGenomeSpec.

(** The loop of [disable_te] over positions that are all in the genome:
    each of them gets the symbol [c] and keeps its id. *)
Lemma linked_symbol_loop_ok (ns : list Z) (c : ascii) (self : t) :
  (forall n, In n ns -> 0 <= n < len self) ->
  exists g',
    for_each ns (fun n => genome_set_symbol_at_index n c) self
      = (Ret tt, mk g' (tes self)) /\
    List.length g' = List.length (genome self) /\
    (forall i : nat, In (Z.of_nat i) ns ->
       g' !! i = (fun e => mkNucleotide c (id e)) <$> genome self !! i) /\
    (forall i : nat, ~ In (Z.of_nat i) ns -> g' !! i = genome self !! i).
Proof.
  revert self. induction ns as [|n ns IH]; intros self Hns.
  - exists (genome self). simpl. unfold ret. rewrite <- linked_eta. done.
  - assert (0 <= n < len self) as Hn by (apply Hns; by left).
    unfold len, DLL.len in Hn.
    destruct (genome self !! Z.to_nat n) as [e|] eqn:He.
    2: { apply lookup_ge_None_1 in He. lia. }
    destruct (IH (set_genome
                    (fun _ => <[Z.to_nat n := mkNucleotide c (id e)]> (genome self))
                    self))
      as (g' & Hloop & Hlen & Hin & Hout).
    { intros m Hm. unfold len, DLL.len. simpl. rewrite length_insert.
      apply Hns. by right. }
    exists g'. simpl in *. rewrite length_insert in Hlen.
    split; [|split; [done|split]].
    + unfold bind, genome_set_symbol_at_index.
      rewrite (get_element_at_index_ok _ _ e) by (lia || done).
      unfold genome_set_at_index, DLL.set_at_index.
      by rewrite get_link_at_index_ok by (unfold DLL.len; lia).
    + intros i Hi.
      destruct (decide (Z.to_nat n = i)) as [<-|Hni].
      * destruct (in_dec Z.eq_dec (Z.of_nat (Z.to_nat n)) ns) as [Hi'|Hi'].
        -- rewrite Hin by done. rewrite list_lookup_insert_eq by lia.
           by rewrite He.
        -- rewrite Hout by done. rewrite list_lookup_insert_eq by lia.
           by rewrite He.
      * destruct Hi as [Hi|Hi]; [lia|].
        rewrite Hin by done. by rewrite list_lookup_insert_ne.
    + intros i Hi. rewrite Hout by tauto.
      apply list_lookup_insert_ne. intros <-. apply Hi. left. lia.
Qed.

End LinkedSymbolLoop.

Section Simulation.
Import Realizations.

Lemma nucleotide_of_flipped (te : Z) :
  nucleotide_of ("x"%char, te) = LinkedListGenome.mkNucleotide "x"%char (Some te).
Proof. reflexivity. Qed.

Lemma nucleotide_of_active (te : Z) :
  nucleotide_of ("A"%char, te) = LinkedListGenome.mkNucleotide "A"%char (Some te).
Proof. reflexivity. Qed.

(** Two genomes that were the same before the range [(s, L)] was
    flipped in both are the same after. *)
Lemma flipped_genomes (gl gl' : list (ascii * Z))
    (gk' : list LinkedListGenome.Nucleotide) (te s L : Z) :
  List.length gl' = List.length gl -> List.length gk' = List.length gl ->
  (forall j, in_range (s, L) j -> gl' !! Z.to_nat j = Some ("x"%char, te)) ->
  (forall j, 0 <= j -> ~ in_range (s, L) j -> gl' !! Z.to_nat j = gl !! Z.to_nat j) ->
  (forall j, in_range (s, L) j ->
     gk' !! Z.to_nat j = Some (LinkedListGenome.mkNucleotide "x"%char (Some te))) ->
  (forall j, 0 <= j -> ~ in_range (s, L) j ->
     gk' !! Z.to_nat j = map nucleotide_of gl !! Z.to_nat j) ->
  gk' = map nucleotide_of gl'.
Proof.
  intros Hl Hk Hlin Hlout Hkin Hkout. apply list_eq. intros j.
  rewrite list_lookup_fmap. rewrite <- (Nat2Z.id j).
  destruct (decide (in_range (s, L) (Z.of_nat j))) as [Hj|Hj].
  - by rewrite Hkin, Hlin.
  - rewrite Hkout, Hlout by (done || lia). by rewrite list_lookup_fmap.
Qed.

(** The record of an Active TE of [ListGenome] is, on a related
    [LinkedListGenome], the Active TE at index [te - 1] of [tes]. *)
Lemma related_record (l : ListGenome.t) (k : LinkedListGenome.t) (te s L : Z) :
  related l k -> In (te, (s, L)) (ListGenome.active_TEs l) ->
  1 <= te /\
  LinkedListGenome.tes k !! Z.to_nat (te - 1)
  = Some (LinkedListGenome.mkTE te s L LinkedListGenome.active).
Proof.
  intros [Hg Hc Hids Hact] Hin. rewrite <- Hact in Hin.
  apply in_map_iff in Hin as (r & Heq & Hin).
  apply list_elem_of_In, list_elem_of_filter in Hin as [Hr Hin].
  apply list_elem_of_lookup in Hin as [i Hi].
  pose proof (Hids i r Hi) as Hid.
  destruct r as [rid rpos rlen rstatus]. unfold LinkedListGenomeSpec.record_of in Heq.
  simpl in *. injection Heq as -> -> ->.
  unfold LinkedListGenome.is_active in Hr. simpl in Hr.
  destruct rstatus; [|done].
  split; [lia|]. rewrite <- Hi. f_equal. lia.
Qed.

End Simulation.

Section SimulationSteps.
Import Realizations.

(** Disabling an Active TE, by [disable_te] or by the collision test of
    [insert_te], does the same on both sides: given the flipped symbols
    [gl'] of [ListGenome], [LinkedListGenome] ends with the same symbols
    and with the record at index [te - 1] disabled. *)
Lemma sim_flip (l : ListGenome.t) (k : LinkedListGenome.t) (te s L : Z)
    (gl' : list (ascii * Z)) :
  ListGenomeSpec.wf l -> related l k ->
  In (te, (s, L)) (ListGenome.active_TEs l) ->
  List.length gl' = List.length (ListGenome.genome l) ->
  (forall j, in_range (s, L) j -> gl' !! Z.to_nat j = Some ("x"%char, te)) ->
  (forall j, 0 <= j -> ~ in_range (s, L) j ->
     gl' !! Z.to_nat j = ListGenome.genome l !! Z.to_nat j) ->
  let k1 := LinkedListGenome.mk (map nucleotide_of gl')
              (alter LinkedListGenome.disable_record (Z.to_nat (te - 1))
                 (LinkedListGenome.tes k)) in
  LinkedListGenome.collide (LinkedListGenome.mkNucleotide "A"%char (Some te)) k
    = (Ret tt, k1) /\
  LinkedListGenome.disable_te te k = (Ret tt, k1) /\
  forall i',
    related (ListGenome.mk gl' (Py.dict_remove (ListGenome.active_TEs l) te) i'
               (ListGenome.number_of_TEs l)) k1.
Proof.
  intros Hwf Hrel Hin Hlen Hlin Hlout k1.
  destruct (related_record l k te s L Hrel Hin) as [Hte Hrec].
  destruct (ListGenomeSpec.wf_range l Hwf _ _ _ Hin) as (H0 & H1 & H2 & Hsym).
  pose proof Hrel as [Hg Hc Hids Hact].
  assert (LinkedListGenome.len k = ListGenome.len l) as Hlenk.
  { unfold LinkedListGenome.len, LinkedListGenome.DLL.len, ListGenome.len.
    by rewrite Hg, length_map. }
  split; [|split].
  - destruct (linked_collide_ok k te _ Hte Hrec) as (gk' & Hcol & Hklen & Hkin & Hkout);
      simpl; [lia..|].
    rewrite Hcol. unfold k1. do 2 f_equal.
    apply (flipped_genomes (ListGenome.genome l) gl' gk' te s L); try done.
    + by rewrite Hklen, Hg, length_map.
    + intros j Hj0 Hj. rewrite <- Hg. by apply Hkout.
  - unfold LinkedListGenome.disable_te, bind, LinkedListGenome.tes_getitem, Py.getitem.
    rewrite norm_index_nonneg by (apply lookup_lt_Some in Hrec; lia).
    rewrite Hrec. simpl.
    destruct (linked_symbol_loop_ok (Py.range s (s + L)) "x"%char k)
      as (gk' & Hloop & Hklen & Hkin & Hkout).
    { intros n Hn. apply elem_of_range in Hn. lia. }
    rewrite Hloop. unfold LinkedListGenome.tes_set_inactive. simpl.
    rewrite norm_index_nonneg by (apply lookup_lt_Some in Hrec; lia).
    unfold k1, LinkedListGenome.set_tes. simpl. do 2 f_equal.
    apply (flipped_genomes (ListGenome.genome l) gl' gk' te s L); try done.
    + by rewrite Hklen, Hg, length_map.
    + intros j Hj.
      assert (0 <= j) as Hj0 by (unfold in_range in Hj; simpl in Hj; lia).
      rewrite Hkin
        by (rewrite Z2Nat.id by done; apply elem_of_range;
            unfold in_range in Hj; simpl in Hj; lia).
      by rewrite Hg, list_lookup_fmap, (Hsym j Hj).
    + intros j Hj0 Hj. rewrite <- Hg. apply Hkout.
      rewrite elem_of_range. unfold in_range in Hj. simpl in Hj. lia.
  - intros i'. subst k1. constructor; simpl.
    + done.
    + by rewrite length_alter.
    + intros i r Hi. simpl in Hi.
      destruct (decide (Z.to_nat (te - 1) = i)) as [<-|Hne].
      * rewrite list_lookup_alter_eq, Hrec in Hi. injection Hi as <-.
        simpl. lia.
      * rewrite list_lookup_alter_ne in Hi by done. by apply Hids.
    + unfold LinkedListGenomeSpec.active_records. simpl.
      rewrite (active_records_alter _ _ 1) by done.
      unfold LinkedListGenomeSpec.active_records in Hact. rewrite Hact.
      f_equal. lia.
Qed.

(** Splicing the new TE in and recording it does the same on both
    sides. *)
Lemma sim_splice (g : list (ascii * Z)) (a i : Py.dict (Z * Z)) (n pos length : Z)
    (tes : list LinkedListGenome.TE) :
  ListGenomeSpec.wf (ListGenome.mk g a i n) ->
  related (ListGenome.mk g a i n) (LinkedListGenome.mk (map nucleotide_of g) tes) ->
  related
    (ListGenome.mk
       (Py.slice_insert g pos (repeat ("A"%char, n + 1) (Z.to_nat length)))
       (map (ListGenome.shift_record pos length) (Py.dict_set a (n + 1) (pos, length)))
       i (n + 1))
    (LinkedListGenome.mk
       (Py.slice_insert (map nucleotide_of g) pos
          (repeat (LinkedListGenome.mkNucleotide "A"%char (Some (n + 1)))
                  (Z.to_nat length)))
       (map (LinkedListGenome.shift_record pos length)
          (tes ++ [LinkedListGenome.mkTE (n + 1) pos length LinkedListGenome.active]))).
Proof.
  intros Hwf [Hg Hc Hids Hact]. simpl in *.
  assert (~ In (n + 1) (Py.dict_keys a)) as Hfresh.
  { intros Hin. apply in_map_iff in Hin as ([j r] & Heq & Hin). simpl in Heq.
    subst j. apply (ListGenomeSpec.wf_ids _ Hwf) in Hin. simpl in Hin. lia. }
  constructor; simpl.
  - rewrite map_slice_insert. f_equal.
    generalize (Z.to_nat length). intros m.
    induction m as [|m IH]; simpl; [done|]. by rewrite IH.
  - rewrite length_map, length_app. simpl. lia.
  - intros j r Hj. simpl in Hj. rewrite list_lookup_fmap in Hj.
    destruct ((tes ++ _) !! j) as [r0|] eqn:Hr0; [|done].
    injection Hj as <-.
    destruct (linked_shift_record_fields pos length r0) as (-> & _).
    apply lookup_app_Some in Hr0 as [Hr0|[Hge Hr0]].
    + by apply Hids.
    + destruct (j - List.length tes)%nat as [|j'] eqn:Hj'; [|done].
      injection Hr0 as <-. simpl. lia.
  - unfold LinkedListGenomeSpec.active_records in *. simpl in *.
    rewrite filter_active_shift, record_of_shift_list, list.filter_app.
    rewrite map_app, Hact, dict_set_fresh by done.
    done.
Qed.

End SimulationSteps.

Section SimulationCalls.
Import Realizations.

(** [LinkedListGenome.insert_te] at a valid position with a valid
    length, once its collision test has returned. *)
Lemma linked_insert_te_ok (k k1 : LinkedListGenome.t) (pos length : Z)
    (nucleotide : LinkedListGenome.Nucleotide) :
  0 <= pos < LinkedListGenome.len k -> 1 <= length ->
  LinkedListGenome.genome k !! Z.to_nat pos = Some nucleotide ->
  LinkedListGenome.collide nucleotide k = (Ret tt, k1) ->
  let id := Z.of_nat (List.length (LinkedListGenome.tes k)) + 1 in
  LinkedListGenome.insert_te pos length k =
  (Ret id,
   LinkedListGenome.mk
     (Py.slice_insert (LinkedListGenome.genome k1) pos
        (repeat (LinkedListGenome.mkNucleotide "A"%char (Some id)) (Z.to_nat length)))
     (map (LinkedListGenome.shift_record pos length)
        (LinkedListGenome.tes k1
           ++ [LinkedListGenome.mkTE id pos length LinkedListGenome.active]))).
Proof.
  intros Hpos Hlength Hnuc Hcol id.
  rewrite linked_insert_te_unfold. cbv zeta.
  rewrite (get_element_at_index_ok _ _ _ (proj1 Hpos) Hnuc), Hcol.
  pose proof (linked_collide_frame nucleotide k) as [Flen _].
  rewrite Hcol in Flen. simpl in Flen.
  assert (0 <= pos <= LinkedListGenome.DLL.len (LinkedListGenome.genome k1)) as Hpos'.
  { unfold LinkedListGenome.DLL.len. rewrite Flen.
    unfold LinkedListGenome.len, LinkedListGenome.DLL.len in Hpos. lia. }
  assert ((if negb (pos =? 0)
           then LinkedListGenome.DLL.get_link_at_index
                  (LinkedListGenome.genome k1) (pos - 1)
           else Ret LinkedListGenome.DLL.Head)
          = Ret (if negb (pos =? 0)
                 then LinkedListGenome.DLL.Link (Z.to_nat (pos - 1))
                 else LinkedListGenome.DLL.Head)) as ->.
  { destruct (Z.eqb_spec pos 0); simpl; [done|].
    apply get_link_at_index_ok. lia. }
  fold id.
  destruct (LinkedListGenome.DLL.head_previous (LinkedListGenome.new_seq id length))
    eqn:Hprev.
  2: { apply head_previous_new_seq in Hprev. lia. }
  by rewrite insert_list_after_link_slice, new_seq_repeat by done.
Qed.

Lemma related_eta (l : ListGenome.t) (k : LinkedListGenome.t) :
  related l k ->
  k = LinkedListGenome.mk (map nucleotide_of (ListGenome.genome l))
        (LinkedListGenome.tes k).
Proof. intros [Hg _ _ _]. rewrite <- Hg. apply linked_eta. Qed.

Lemma related_len (l : ListGenome.t) (k : LinkedListGenome.t) :
  related l k -> LinkedListGenome.len k = ListGenome.len l.
Proof.
  intros [Hg _ _ _].
  unfold LinkedListGenome.len, LinkedListGenome.DLL.len, ListGenome.len.
  by rewrite Hg, length_map.
Qed.

(** A valid [insert_te] returns the same id on both sides and leaves
    them related. *)
Lemma sim_insert_te (l : ListGenome.t) (k : LinkedListGenome.t) (pos length : Z) :
  ListGenomeSpec.wf l -> related l k ->
  0 <= pos < ListGenome.len l -> 1 <= length ->
  fst (LinkedListGenome.insert_te pos length k)
    = fst (ListGenome.insert_te pos length l) /\
  related (snd (ListGenome.insert_te pos length l))
          (snd (LinkedListGenome.insert_te pos length k)).
Proof.
  intros Hwf Hrel Hpos Hlength.
  pose proof (related_len l k Hrel) as Hlenk.
  pose proof Hrel as [Hg Hc Hids Hact].
  rewrite list_insert_te_unfold. cbv zeta.
  rewrite list_getitem_symbol_at by done.
  destruct (ListGenomeSpec.symbol_at l pos) as [[c k0]|] eqn:Hsym.
  2: { unfold ListGenomeSpec.symbol_at in Hsym. destruct (Z.ltb_spec pos 0); [lia|].
       apply lookup_ge_None_1 in Hsym. unfold ListGenome.len in Hpos. lia. }
  assert (ListGenome.genome l !! Z.to_nat pos = Some (c, k0)) as Hsym'
    by (by rewrite <- list_symbol_at_nonneg by lia).
  assert (LinkedListGenome.genome k !! Z.to_nat pos = Some (nucleotide_of (c, k0)))
    as Hnuc by (by rewrite Hg, list_lookup_fmap, Hsym').
  unfold ListGenome.collide. cbn [fst snd].
  destruct (Ascii.eqb_spec c "A"%char) as [->|Hc'].
  - destruct (list_wf_active_symbol l pos k0 Hwf Hsym)
      as (s & L & Hrec & Hin & Hs0 & Hs1 & _ & _).
    pose proof (dict_get_In _ _ _ Hrec) as HinA.
    destruct (list_disable_te_ok k0 s L
                (ListGenome.set_number_of_TEs (fun c => c + 1) l))
      as (gl' & Hdis & Hlen & Hflip & Hout); [done..|].
    rewrite Hdis. simpl in Hlen, Hout |- *.
    destruct (sim_flip l k k0 s L gl' Hwf Hrel HinA Hlen Hflip Hout)
      as (Hcol & _ & Hrel1).
    rewrite (linked_insert_te_ok k _ pos length _ ltac:(lia) Hlength Hnuc Hcol).
    simpl. rewrite Hc. split; [done|].
    apply sim_splice; [|apply Hrel1].
    apply (wf_flip (ListGenome.genome l) gl' (ListGenome.active_TEs l)
             (ListGenome.inactive_TEs l) _ (ListGenome.number_of_TEs l) k0 s L);
      [by rewrite <- list_eta|done..].
  - assert (LinkedListGenome.collide (nucleotide_of (c, k0)) k = (Ret tt, k)) as Hcol.
    { unfold LinkedListGenome.collide. simpl.
      by destruct (Ascii.eqb_spec c "A"%char). }
    rewrite (linked_insert_te_ok k _ pos length _ ltac:(lia) Hlength Hnuc Hcol).
    unfold ret. simpl. rewrite Hc, Hg. split; [done|].
    apply sim_splice; [by rewrite <- list_eta|].
    rewrite <- list_eta, <- Hg, <- linked_eta. done.
Qed.

End SimulationCalls.

Section SimulationRuns.
Import Realizations.

Lemma dict_mem_get {V} (d : Py.dict V) (k : Z) :
  Py.dict_mem d k = true -> exists v, Py.dict_get d k = Some v.
Proof. unfold Py.dict_mem. destruct (Py.dict_get d k) as [v|]; [by exists v|done]. Qed.

(** [disable_te] of an Active TE returns on both sides and leaves them
    related. *)
Lemma sim_disable_te (l : ListGenome.t) (k : LinkedListGenome.t) (te : Z) :
  ListGenomeSpec.wf l -> related l k ->
  Py.dict_mem (ListGenome.active_TEs l) te = true ->
  fst (LinkedListGenome.disable_te te k) = fst (ListGenome.disable_te te l) /\
  related (snd (ListGenome.disable_te te l)) (snd (LinkedListGenome.disable_te te k)).
Proof.
  intros Hwf Hrel Hmem. apply dict_mem_get in Hmem as [[s L] Hrec].
  pose proof (dict_get_In _ _ _ Hrec) as Hin.
  destruct (ListGenomeSpec.wf_range l Hwf _ _ _ Hin) as (H0 & H1 & H2 & _).
  destruct (list_disable_te_ok te s L l) as (gl' & Hdis & Hlen & Hflip & Hout);
    [done..|].
  destruct (sim_flip l k te s L gl' Hwf Hrel Hin Hlen Hflip Hout)
    as (_ & Hdisk & Hrel1).
  rewrite Hdis, Hdisk. simpl. split; [done|]. apply Hrel1.
Qed.

(** [copy_te] of an Active TE returns the same id on both sides and
    leaves them related. *)
Lemma sim_copy_te (l : ListGenome.t) (k : LinkedListGenome.t) (te offset : Z) :
  ListGenomeSpec.wf l -> related l k ->
  Py.dict_mem (ListGenome.active_TEs l) te = true ->
  fst (LinkedListGenome.copy_te te offset k) = fst (ListGenome.copy_te te offset l) /\
  related (snd (ListGenome.copy_te te offset l))
          (snd (LinkedListGenome.copy_te te offset k)).
Proof.
  intros Hwf Hrel Hmem. apply dict_mem_get in Hmem as [[s L] Hrec].
  pose proof (dict_get_In _ _ _ Hrec) as Hin.
  destruct (ListGenomeSpec.wf_range l Hwf _ _ _ Hin) as (H0 & H1 & H2 & _).
  destruct (related_record l k te s L Hrel Hin) as [Hte Hreck].
  rewrite list_copy_te_unfold, linked_copy_te_unfold, Hrec.
  unfold Py.getitem.
  rewrite norm_index_nonneg by (apply lookup_lt_Some in Hreck; lia).
  rewrite Hreck. cbn [fst snd LinkedListGenome.is_active LinkedListGenome.te_status
                       LinkedListGenome.te_pos LinkedListGenome.te_length].
  rewrite (related_len l k Hrel), (Z.add_comm offset s).
  destruct (Z.eqb_spec (ListGenome.len l) 0) as [Hz|Hnz]; [lia|].
  destruct (sim_insert_te l k ((s + offset) mod ListGenome.len l) L Hwf Hrel)
    as [Hfst Hrel'];
    [apply Z.mod_pos_bound; lia|done|].
  destruct (ListGenome.insert_te _ _ l) as [[idl|el] l'],
           (LinkedListGenome.insert_te _ _ k) as [[idk|ek] k'];
    simpl in *; try done.
  - by injection Hfst as ->.
  - by injection Hfst as ->.
Qed.

Lemma related_active_tes (l : ListGenome.t) (k : LinkedListGenome.t) :
  related l k -> LinkedListGenome.active_tes k = ListGenome.active_tes l.
Proof.
  intros [_ _ _ Hact].
  unfold ListGenome.active_tes, Py.dict_keys, LinkedListGenome.active_tes.
  rewrite <- Hact. unfold LinkedListGenomeSpec.active_records.
  rewrite map_map. done.
Qed.

Lemma related_str (l : ListGenome.t) (k : LinkedListGenome.t) :
  related l k -> LinkedListGenome.str k = ListGenome.str l.
Proof.
  intros [Hg _ _ _]. unfold LinkedListGenome.str, ListGenome.str.
  rewrite Hg, map_map. done.
Qed.

(** A call on Active TEs returns the same value, or raises the same
    exception, on both sides and leaves them related. *)
Lemma sim_step (c : call) (l : ListGenome.t) (k : LinkedListGenome.t) :
  ListGenomeSpec.wf l -> related l k -> on_active c l ->
  fst (LinkedListGenome.step c k) = fst (ListGenome.step c l) /\
  related (snd (ListGenome.step c l)) (snd (LinkedListGenome.step c k)).
Proof.
  intros Hwf Hrel Hc. destruct c as [pos length|te offset|te| | |]; simpl.
  - destruct Hc as [Hpos Hlength].
    destruct (sim_insert_te l k pos length Hwf Hrel Hpos Hlength) as [Hfst Hrel'].
    unfold bind.
    destruct (ListGenome.insert_te _ _ l) as [[idl|el] l'],
             (LinkedListGenome.insert_te _ _ k) as [[idk|ek] k'];
      simpl in *; try done; by injection Hfst as ->.
  - destruct (sim_copy_te l k te offset Hwf Hrel Hc) as [Hfst Hrel'].
    unfold bind.
    destruct (ListGenome.copy_te _ _ l) as [[rl|el] l'],
             (LinkedListGenome.copy_te _ _ k) as [[rk|ek] k'];
      simpl in *; try done; by injection Hfst as ->.
  - destruct (sim_disable_te l k te Hwf Hrel Hc) as [Hfst Hrel'].
    unfold bind.
    destruct (ListGenome.disable_te _ l) as [[[]|el] l'],
             (LinkedListGenome.disable_te _ k) as [[[]|ek] k'];
      simpl in *; try done; by injection Hfst as ->.
  - split; [|done]. by rewrite (related_active_tes l k).
  - split; [|done]. by rewrite (related_len l k).
  - split; [|done]. by rewrite (related_str l k).
Qed.

Lemma on_active_precondition (c : call) (l : ListGenome.t) :
  on_active c l -> ListGenomeSpec.precondition c l.
Proof. destruct c; simpl; try done; intros H; by left. Qed.

Lemma sim_run (cs : list call) (l : ListGenome.t) (k : LinkedListGenome.t) :
  ListGenomeSpec.wf l -> related l k -> all_on_active cs l ->
  fst (LinkedListGenome.run cs k) = fst (ListGenome.run cs l) /\
  related (snd (ListGenome.run cs l)) (snd (LinkedListGenome.run cs k)).
Proof.
  revert l k. induction cs as [|c cs IH]; intros l k Hwf Hrel Hcs.
  - done.
  - destruct Hcs as [Hc Hcs].
    destruct (sim_step c l k Hwf Hrel Hc) as [Hfst Hrel'].
    rewrite list_run_cons, linked_run_cons. simpl.
    destruct (IH _ _ (list_wf_step c l Hwf (on_active_precondition c l Hc)) Hrel' Hcs)
      as [Hfsts Hrels].
    split; [by rewrite Hfst, Hfsts|done].
Qed.

Lemma related_init (n : Z) : related (ListGenome.init n) (LinkedListGenome.init n).
Proof.
  constructor.
  - rewrite init_genome. simpl.
    generalize (Z.to_nat n). intros m.
    induction m as [|m IH]; simpl; [done|]. by rewrite IH.
  - done.
  - intros i te Hi. done.
  - done.
Qed.

(** The two realizations agree on every run of calls that meet their
    preconditions and apply [copy_te] and [disable_te] to Active TEs
    only: call by call they return the same values, and at the end they
    have the same length, the same string and the same Active TEs. *)
Lemma realizations_agree_on_active (n : Z) (cs : list call) :
  all_on_active cs (ListGenome.init n) ->
  let l := snd (ListGenome.run cs (ListGenome.init n)) in
  let k := snd (LinkedListGenome.run cs (LinkedListGenome.init n)) in
  fst (LinkedListGenome.run cs (LinkedListGenome.init n))
    = fst (ListGenome.run cs (ListGenome.init n)) /\
  LinkedListGenome.len k = ListGenome.len l /\
  LinkedListGenome.str k = ListGenome.str l /\
  LinkedListGenome.active_tes k = ListGenome.active_tes l.
Proof.
  intros Hcs l k.
  destruct (sim_run cs _ _ (list_wf_init n) (related_init n) Hcs) as [Hfst Hrel].
  split; [done|].
  split; [by apply related_len|].
  split; [by apply related_str|by apply related_active_tes].
Qed.

(** No call of such a run raises. *)
Lemma list_run_on_active_returns (cs : list call) (l : ListGenome.t) :
  ListGenomeSpec.wf l -> all_on_active cs l ->
  Forall (fun o => is_ret o = true) (fst (ListGenome.run cs l)).
Proof.
  revert l. induction cs as [|c cs IH]; intros l Hwf Hcs.
  - constructor.
  - destruct Hcs as [Hc Hcs]. rewrite list_run_cons. simpl.
    constructor.
    + destruct c as [pos length|te offset|te| | |]; simpl in *; try done.
      * destruct Hc as [Hpos Hlength].
        destruct (list_wf_insert_te l pos length Hwf Hpos Hlength) as [Hret _].
        unfold bind. destruct (ListGenome.insert_te pos length l) as [[id|e] l'];
          simpl in *; done.
      * apply dict_mem_get in Hc as [[s L] Hrec].
        pose proof (dict_get_In _ _ _ Hrec) as Hin.
        destruct (ListGenomeSpec.wf_range l Hwf _ _ _ Hin) as (H0 & H1 & H2 & _).
        unfold bind. rewrite list_copy_te_unfold, Hrec. cbn [fst snd].
        destruct (Z.eqb_spec (ListGenome.len l) 0) as [Hz|Hnz]; [lia|].
        destruct (list_wf_insert_te l ((s + offset) mod ListGenome.len l) L Hwf)
          as [Hret _]; [apply Z.mod_pos_bound; lia|done|].
        destruct (ListGenome.insert_te _ _ l) as [[id|e] l']; simpl in *; done.
      * apply dict_mem_get in Hc as [[s L] Hrec].
        pose proof (dict_get_In _ _ _ Hrec) as Hin.
        destruct (ListGenomeSpec.wf_range l Hwf _ _ _ Hin) as (H0 & H1 & H2 & _).
        destruct (list_disable_te_ok te s L l) as (gl' & Hdis & _); [done..|].
        unfold bind. by rewrite Hdis.
    + apply IH; [|done]. apply list_wf_step; [done|].
      by apply on_active_precondition.
Qed.

End SimulationRuns.

(** ** What holds as long as every call is on Active TEs *)

Section OnActive.
Import Realizations.

Lemma list_wf_run (cs : list call) (l : ListGenome.t) :
  ListGenomeSpec.wf l -> all_on_active cs l ->
  ListGenomeSpec.wf (snd (ListGenome.run cs l)).
Proof.
  revert l. induction cs as [|c cs IH]; intros l Hwf Hcs; [done|].
  destruct Hcs as [Hc Hcs]. rewrite list_run_cons. simpl.
  apply IH; [|done]. apply list_wf_step; [done|].
  by apply on_active_precondition.
Qed.

(** On [LinkedListGenome] the Active ranges do not intersect after a
    run in which [copy_te] and [disable_te] were applied to Active TEs
    only. *)
Lemma linked_no_overlap_on_active (n : Z) (cs : list call) :
  all_on_active cs (ListGenome.init n) ->
  let k := snd (LinkedListGenome.run cs (LinkedListGenome.init n)) in
  no_overlap (LinkedListGenome.len k) (LinkedListGenomeSpec.active_records k).
Proof.
  intros Hcs k.
  destruct (sim_run cs _ _ (list_wf_init n) (related_init n) Hcs) as [_ Hrel].
  pose proof (list_wf_run cs _ (list_wf_init n) Hcs) as Hwf.
  unfold k. rewrite (related_len _ _ Hrel), (rel_active _ _ Hrel).
  by apply list_wf_no_overlap.
Qed.

(** What the collision rule asks of the state holds on [ListGenome] in
    every state that valid calls can reach. *)
Lemma list_reachable_collision_hypotheses (self : ListGenome.t) (pos k : Z) :
  ListGenomeSpec.reachable self ->
  ListGenomeSpec.symbol_at self pos = Some ("A"%char, k) ->
  exists start len0,
    Py.dict_get (ListGenome.active_TEs self) k = Some (start, len0) /\
    in_range (start, len0) pos /\
    0 <= start /\ start + len0 <= ListGenome.len self /\
    k <= ListGenome.number_of_TEs self /\
    only_covered_by k pos (ListGenomeSpec.active_records self).
Proof.
  intros Hreach. by apply list_wf_active_symbol, list_reachable_wf.
Qed.

(** And on a [LinkedListGenome] that is related to a [ListGenome] of
    the data model. *)
Lemma linked_related_collision_hypotheses (l : ListGenome.t)
    (k : LinkedListGenome.t) (pos te : Z) :
  ListGenomeSpec.wf l -> related l k ->
  LinkedListGenomeSpec.symbol_at k pos
    = Some (LinkedListGenome.mkNucleotide "A"%char (Some te)) ->
  exists te_old,
    1 <= te /\
    LinkedListGenome.tes k !! Z.to_nat (te - 1) = Some te_old /\
    in_range (LinkedListGenome.te_pos te_old, LinkedListGenome.te_length te_old) pos /\
    0 <= LinkedListGenome.te_pos te_old /\
    LinkedListGenome.te_pos te_old + LinkedListGenome.te_length te_old
      <= LinkedListGenome.len k /\
    LinkedListGenomeSpec.ids_in_order k /\
    only_covered_by te pos (LinkedListGenomeSpec.active_records k).
Proof.
  intros Hwf Hrel Hsym.
  pose proof Hrel as [Hg Hc Hids Hact].
  assert (ListGenomeSpec.symbol_at l pos = Some ("A"%char, te)) as Hsyml.
  { unfold LinkedListGenomeSpec.symbol_at in Hsym.
    unfold ListGenomeSpec.symbol_at.
    destruct (pos <? 0); [done|].
    rewrite Hg, list_lookup_fmap in Hsym.
    destruct (ListGenome.genome l !! Z.to_nat pos) as [[c i]|]; [|done].
    injection Hsym as Hc' Hi. unfold nucleotide_of in Hc', Hi. simpl in *.
    subst c. simpl in Hi. by injection Hi as ->. }
  destruct (list_wf_active_symbol l pos te Hwf Hsyml)
    as (s & L & Hrec & Hin & Hs0 & Hs1 & _ & Honly).
  destruct (related_record l k te s L Hrel (dict_get_In _ _ _ Hrec)) as [Hte Hreck].
  exists (LinkedListGenome.mkTE te s L LinkedListGenome.active). simpl.
  rewrite (related_len l k Hrel), Hact. done.
Qed.

End OnActive.

(** ** [disable_te] twice *)

Section DisableTwice.

(** On [ListGenome], a [disable_te] that follows a [disable_te] of the
    same TE that returned raises [KeyError], and changes nothing. *)
Lemma list_disable_te_twice (self self1 : ListGenome.t) (te : Z) :
  ListGenome.disable_te te self = (Ret tt, self1) ->
  ListGenome.disable_te te self1 = (Raise (KeyError te), self1).
Proof.
  rewrite list_disable_te_unfold.
  destruct (Py.dict_get (ListGenome.active_TEs self) te) as [r|]; [|done].
  destruct (for_each _ _ self) as [[[]|e] self0]; [|done].
  intros [= <-]. apply list_disable_te_not_active. simpl.
  apply dict_get_remove_eq.
Qed.

Import LinkedListGenome.

(** A symbol loop that has run to its end was over positions of the
    genome. *)
Lemma linked_symbol_loop_bounds (ns : list Z) (c : ascii) (self self' : t) :
  for_each ns (fun n => genome_set_symbol_at_index n c) self = (Ret tt, self') ->
  forall n, In n ns -> 0 <= n < len self.
Proof.
  revert self. induction ns as [|m ns IH]; intros self Hloop n Hn; [done|].
  simpl in Hloop. unfold bind in Hloop.
  pose proof (genome_set_symbol_at_index_frame m c self) as [_ Flen].
  destruct (genome_set_symbol_at_index m c self) as [[[]|e] self0] eqn:Hbody;
    [|done].
  simpl in Flen.
  destruct Hn as [<-|Hn].
  - unfold genome_set_symbol_at_index, DLL.get_element_at_index,
      DLL.get_link_at_index in Hbody.
    destruct (Z.ltb_spec m 0); [done|].
    destruct (genome self !! Z.to_nat m) eqn:Hm; [|done].
    apply lookup_lt_Some in Hm. unfold len, DLL.len. lia.
  - specialize (IH self0 Hloop n Hn). unfold len, DLL.len in *. lia.
Qed.

(** On [LinkedListGenome], [disable_te] twice is [disable_te] once. *)
Lemma linked_disable_te_twice (self self1 : t) (te : Z) :
  disable_te te self = (Ret tt, self1) ->
  disable_te te self1 = (Ret tt, self1).
Proof.
  unfold disable_te, bind at 1, tes_getitem at 1, Py.getitem.
  destruct (Py.norm_index (List.length (tes self)) (te - 1)) as [idx|] eqn:Hidx;
    [|done].
  destruct (tes self !! idx) as [r|] eqn:Hr; [|done].
  unfold bind at 1.
  destruct (for_each _ _ self) as [[[]|e] self0] eqn:Hloop; [|done].
  pose proof (linked_symbol_loop_bounds _ _ _ _ Hloop) as Hbounds.
  destruct (linked_symbol_loop_ok _ "x"%char self Hbounds)
    as (g' & Hloop' & Hlen & Hin & Hout).
  rewrite Hloop in Hloop'. injection Hloop' as ->.
  unfold tes_set_inactive. simpl. rewrite Hidx.
  intros Heq. injection Heq as Heq. subst self1.
  unfold bind, tes_getitem, Py.getitem, set_tes. simpl.
  rewrite length_alter, Hidx, list_lookup_alter_eq, Hr. simpl.
  destruct (linked_symbol_loop_ok (Py.range (te_pos r) (te_pos r + te_length r))
              "x"%char (mk g' (alter disable_record idx (tes self))))
    as (g'' & Hloop2 & Hlen2 & Hin2 & Hout2).
  { intros n Hn. unfold len, DLL.len. simpl. rewrite Hlen. by apply Hbounds. }
  rewrite Hloop2. unfold tes_set_inactive. simpl.
  rewrite length_alter, Hidx. f_equal. unfold set_tes. simpl. f_equal.
  - apply list_eq. intros i. simpl in *.
    destruct (in_dec Z.eq_dec (Z.of_nat i)
                (Py.range (te_pos r) (te_pos r + te_length r))) as [Hi|Hi].
    + rewrite Hin2 by done. rewrite !Hin by done.
      by destruct (genome self !! i).
    + by rewrite Hout2.
  - apply list_eq. intros i.
    destruct (decide (idx = i)) as [<-|Hne].
    + rewrite !list_lookup_alter_eq. by destruct (tes self !! idx).
    + by rewrite !list_lookup_alter_ne.
Qed.

End DisableTwice.

(** * The linked sequence, link by link *)

(** ** Paths of links *)

Lemma chained_cons (R : nat -> nat -> Prop) (a b : nat) (rest : list nat) :
  Heap.chained R (a :: b :: rest) <-> R a b /\ Heap.chained R (b :: rest).
Proof. reflexivity. Qed.

Lemma chained_app (R : nat -> nat -> Prop) (xs ys : list nat) (a : nat) :
  Heap.chained R (xs ++ a :: ys) <->
  Heap.chained R (xs ++ [a]) /\ Heap.chained R (a :: ys).
Proof.
  induction xs as [|x xs IH].
  - simpl. tauto.
  - destruct xs as [|x' xs].
    + simpl. destruct ys; tauto.
    + change ((x :: x' :: xs) ++ a :: ys) with (x :: x' :: (xs ++ a :: ys)).
      change ((x :: x' :: xs) ++ [a]) with (x :: x' :: (xs ++ [a])).
      rewrite !chained_cons.
      change (x' :: xs ++ a :: ys) with ((x' :: xs) ++ a :: ys).
      change (x' :: xs ++ [a]) with ((x' :: xs) ++ [a]).
      rewrite IH. tauto.
Qed.

(** A path stays one when the relation is kept on its edges. *)
Lemma chained_impl (R R' : nat -> nat -> Prop) (path : list nat) :
  (forall a b, In a (removelast path) -> In b (tl path) -> R a b -> R' a b) ->
  Heap.chained R path -> Heap.chained R' path.
Proof.
  induction path as [|a rest IH]; intros Himpl Hpath; [done|].
  destruct rest as [|b rest]; [done|].
  rewrite chained_cons in *. destruct Hpath as [Hab Hrest]. split.
  - apply Himpl; [by left|by left|done].
  - apply IH; [|done]. intros x y Hx Hy. apply Himpl.
    + right. exact Hx.
    + right. exact Hy.
Qed.

Lemma In_removelast {A} (x : A) (l : list A) :
  In x (removelast l) -> In x l.
Proof.
  induction l as [|a [|b l] IH]; simpl; [done..|].
  intros [->|H]; [by left|]. right. by apply IH.
Qed.

Lemma removelast_snoc {A} (l : list A) (x : A) : removelast (l ++ [x]) = l.
Proof. apply removelast_last. Qed.

(** Which links of a ring that is cut in two are which. *)
Lemma ring_cut_links (head link s : nat) (before after pre post : list nat) :
  NoDup (head :: before ++ after) ->
  head :: before = pre ++ [link] ->
  after ++ [head] = s :: post ->
  (forall a, In a pre -> In a (head :: before ++ after) /\ a <> link) /\
  (forall a, In a after -> In a (head :: before ++ after) /\ a <> link) /\
  (forall a, In a before -> In a (head :: before ++ after) /\ a <> s) /\
  (forall a, In a post -> In a (head :: before ++ after) /\ a <> s).
Proof.
  intros Hnd Hl Hs.
  assert (forall x, x ∈ head :: before <-> x ∈ pre ++ [link]) as Hl'
    by (intros; by rewrite Hl).
  assert (forall x, x ∈ after ++ [head] <-> x ∈ s :: post) as Hs'
    by (intros; by rewrite Hs).
  assert (NoDup (pre ++ [link])) as Hndl.
  { rewrite <- Hl. rewrite app_comm_cons in Hnd.
    by apply list.NoDup_app in Hnd as [Hnd _]. }
  assert (NoDup (s :: post)) as Hnds.
  { rewrite <- Hs. apply list.NoDup_app.
    apply list.NoDup_cons in Hnd as [Hh Hnd].
    apply list.NoDup_app in Hnd as (_ & _ & Hnd).
    split; [done|]. split; [|apply NoDup_singleton].
    intros x Hx [->|[]%elem_of_nil]%elem_of_cons. apply Hh.
    apply elem_of_app. by right. }
  apply list.NoDup_cons in Hnd as [Hh Hnd].
  apply list.NoDup_app in Hnd as (Hndb & Hba & Hnda).
  apply list.NoDup_app in Hndl as (_ & Hprel & _).
  apply list.NoDup_cons in Hnds as [Hsp _].
  setoid_rewrite <- list_elem_of_In.
  setoid_rewrite elem_of_cons in Hl'.
  setoid_rewrite elem_of_app in Hl'.
  setoid_rewrite elem_of_cons in Hl'.
  setoid_rewrite elem_of_cons in Hs'.
  setoid_rewrite elem_of_app in Hs'.
  setoid_rewrite elem_of_cons in Hs'.
  setoid_rewrite elem_of_nil in Hl'.
  setoid_rewrite elem_of_nil in Hs'.
  setoid_rewrite elem_of_cons in Hprel.
  setoid_rewrite elem_of_nil in Hprel.
  rewrite elem_of_app in Hh.
  setoid_rewrite elem_of_cons.
  setoid_rewrite elem_of_app.
  split; [|split; [|split]]; intros a Ha; split.
  - destruct (proj2 (Hl' a) (or_introl Ha)) as [->|Hb]; auto.
  - intros ->. apply (Hprel link); auto.
  - auto.
  - intros ->.
    destruct (proj2 (Hl' link) (or_intror (or_introl eq_refl))) as [Hb|Hb].
    + subst link. apply Hh. by right.
    + by apply (Hba link).
  - auto.
  - intros ->. destruct (proj2 (Hs' s) (or_introl eq_refl)) as [Ha'|[Ha'|[]]].
    + by apply (Hba s).
    + subst s. apply Hh. by left.
  - destruct (proj2 (Hs' a) (or_intror Ha)) as [Ha'|[->|[]]]; auto.
  - intros ->. auto.
Qed.

(** ** Attributes after an assignment *)

Section HeapFacts.
Context {E : Type}.
Import Heap.

Lemma lookup_alter_same_field {A} (proj : DoublyLink E -> A)
    (f : DoublyLink E -> DoublyLink E) (a j : nat) (h : list (DoublyLink E)) :
  (forall o, proj (f o) = proj o) ->
  proj <$> alter f a h !! j = proj <$> h !! j.
Proof.
  intros Hf. destruct (decide (a = j)) as [->|Hne].
  - rewrite list_lookup_alter_eq. destruct (h !! j); simpl; [|done].
    by rewrite Hf.
  - by rewrite list_lookup_alter_ne.
Qed.

Lemma lookup_alter_other_field {A} (proj : DoublyLink E -> A)
    (f : DoublyLink E -> DoublyLink E) (a j : nat) (h : list (DoublyLink E)) :
  a <> j -> proj <$> alter f a h !! j = proj <$> h !! j.
Proof. intros Hne. by rewrite list_lookup_alter_ne. Qed.

Lemma next_alter_set_next (v : option nat) (a : nat) (h : list (DoublyLink E)) (o : DoublyLink E) :
  h !! a = Some o -> next <$> alter (set_next v) a h !! a = Some v.
Proof. intros Ho. by rewrite list_lookup_alter_eq, Ho. Qed.

Lemma previous_alter_set_previous (v : option nat) (a : nat) (h : list (DoublyLink E))
    (o : DoublyLink E) :
  h !! a = Some o -> previous <$> alter (set_previous v) a h !! a = Some v.
Proof. intros Ho. by rewrite list_lookup_alter_eq, Ho. Qed.

Lemma element_alter_set_element (v : option E) (a : nat) (h : list (DoublyLink E))
    (o : DoublyLink E) :
  h !! a = Some o -> element <$> alter (set_element v) a h !! a = Some v.
Proof. intros Ho. by rewrite list_lookup_alter_eq, Ho. Qed.

Lemma assign_ok (a : nat) (f : DoublyLink E -> DoublyLink E) (h : list (DoublyLink E))
    (o : DoublyLink E) :
  h !! a = Some o -> assign (Some a) f h = (Ret tt, alter f a h).
Proof. intros Ho. unfold assign. by rewrite Ho. Qed.

Lemma deref_ok (a : nat) (h : list (DoublyLink E)) (o : DoublyLink E) :
  h !! a = Some o -> deref (Some a) h = (Ret o, h).
Proof. intros Ho. unfold deref. by rewrite Ho. Qed.

Lemma fmap_Some_inv {A B} (f : A -> B) (x : option A) (y : B) :
  f <$> x = Some y -> exists o, x = Some o /\ f o = y.
Proof. destruct x as [o|]; [|done]. intros [= <-]. by exists o. Qed.

(** Every link of a ring but the last of the path has a [next], so it
    is an object of the heap. *)
Lemma forward_next (h : list (DoublyLink E)) (pre post : list nat) (a b : nat) :
  forward h (pre ++ a :: b :: post) -> next_is h a b.
Proof.
  unfold forward. rewrite chained_app, chained_cons. tauto.
Qed.

(** The path of a ring, cut where something is to be hooked in. *)
Lemma ring_path (head : nat) (before after pre post : list nat) (link s : nat) :
  head :: before = pre ++ [link] ->
  after ++ [head] = s :: post ->
  head :: (before ++ after) ++ [head] = pre ++ link :: s :: post.
Proof.
  intros Hl Hs.
  change (head :: (before ++ after) ++ [head])
    with ((head :: before ++ after) ++ [head]).
  rewrite app_comm_cons, Hl, <- !app_assoc, Hs. done.
Qed.

(** Hooking the path [mid] into a ring between [link] and the link [s]
    after it: what the heap has to look like afterwards. *)
Lemma ring_splice (h h' : list (DoublyLink E)) (head : nat)
    (before after mid : list nat)
    (pre post midt midi : list nat) (link s b e : nat) :
  ring h head (before ++ after) ->
  head :: before = pre ++ [link] ->
  after ++ [head] = s :: post ->
  mid = b :: midt -> mid = midi ++ [e] ->
  NoDup (head :: before ++ mid ++ after) ->
  forward h' mid -> backward h' mid ->
  next_is h' link b -> next_is h' e s ->
  previous_is h' s e -> previous_is h' b link ->
  (forall a, In a (head :: before ++ after) -> a <> link ->
             next <$> h' !! a = next <$> h !! a) ->
  (forall a, In a (head :: before ++ after) -> a <> s ->
             previous <$> h' !! a = previous <$> h !! a) ->
  ring h' head (before ++ mid ++ after).
Proof.
  intros [Hnd Hfw Hbw Hempty] Hl Hs Hb He Hnd' Hfm Hbm Hlb Hes Hse Hbl Hfn Hfp.
  pose proof (ring_path head before after pre post link s Hl Hs) as Hpath.
  assert (head :: (before ++ mid ++ after) ++ [head]
          = pre ++ link :: mid ++ s :: post) as Hpath'.
  { transitivity ((head :: before) ++ mid ++ after ++ [head]).
    - simpl. by rewrite <- !app_assoc.
    - rewrite Hl, Hs. by rewrite <- app_assoc. }
  destruct (ring_cut_links head link s before after pre post Hnd Hl Hs)
    as (F1 & F2 & F3 & F4).
  rewrite Hpath in Hfw. unfold forward in Hfw.
  apply chained_app in Hfw as [Hfw1 Hfw2].
  apply chained_cons in Hfw2 as [_ Hfw2].
  assert (removelast (s :: post) = after) as Hrl
    by (by rewrite <- Hs, removelast_snoc).
  assert (tl (pre ++ [link]) = before) as Htl by (by rewrite <- Hl).
  constructor.
  - exact Hnd'.
  - rewrite Hpath'. unfold forward. apply chained_app. split.
    + eapply chained_impl; [|exact Hfw1].
      intros a b' Ha _ Hab. rewrite removelast_snoc in Ha.
      unfold next_is. destruct (F1 a Ha). by rewrite Hfn.
    + replace (link :: mid ++ s :: post)
        with (link :: b :: midt ++ s :: post) by (by rewrite Hb).
      apply chained_cons. split; [exact Hlb|].
      replace (b :: midt ++ s :: post) with (mid ++ s :: post)
        by (by rewrite Hb).
      apply chained_app. split.
      * rewrite He, <- app_assoc. simpl. apply chained_app.
        rewrite <- He. split; [exact Hfm|]. simpl. done.
      * eapply chained_impl; [|exact Hfw2].
        intros a b' Ha _ Hab. rewrite Hrl in Ha.
        unfold next_is. destruct (F2 a Ha). by rewrite Hfn.
  - intros _. rewrite Hpath'. unfold backward. apply chained_app. split.
    + destruct pre as [|p pre']; [done|].
      assert (before ++ after <> []) as Hne.
      { injection Hl as _ ->. by destruct pre'. }
      specialize (Hbw Hne). rewrite Hpath in Hbw.
      apply chained_app in Hbw as [Hbw1 _].
      eapply chained_impl; [|exact Hbw1].
      intros a b' _ Hb' Hab. rewrite Htl in Hb'.
      unfold previous_is. destruct (F3 b' Hb'). by rewrite Hfp.
    + replace (link :: mid ++ s :: post)
        with (link :: b :: midt ++ s :: post) by (by rewrite Hb).
      apply chained_cons. split; [exact Hbl|].
      replace (b :: midt ++ s :: post) with (mid ++ s :: post)
        by (by rewrite Hb).
      apply chained_app. split.
      * rewrite He, <- app_assoc. simpl. apply chained_app.
        rewrite <- He. split; [exact Hbm|]. simpl. done.
      * destruct post as [|q post']; [done|].
        assert (before ++ after <> []) as Hne.
        { destruct after as [|x after']; [done|]. by destruct before. }
        specialize (Hbw Hne). rewrite Hpath in Hbw.
        apply chained_app in Hbw as [_ Hbw2].
        apply chained_cons in Hbw2 as [_ Hbw2].
        eapply chained_impl; [|exact Hbw2].
        intros a b' _ Hb' Hab. simpl in Hb'.
        unfold previous_is. destruct (F4 b' Hb'). by rewrite Hfp.
  - intros Hnil. apply app_eq_nil in Hnil as [_ Hnil].
    apply app_eq_nil in Hnil as [Hnil _]. by rewrite Hb in Hnil.
Qed.

End HeapFacts.

(** ** Walking along a ring *)

Section HeapWalks.
Context {E : Type}.
Import Heap.

Lemma chained_step (R : nat -> nat -> Prop) (a z : nat) (l : list nat) :
  chained R (a :: l ++ [z]) ->
  R a (hd z (l ++ [z])) /\ chained R (l ++ [z]).
Proof. destruct l; simpl; tauto. Qed.

Lemma next_is_deref (h : list (DoublyLink E)) (a b : nat) :
  next_is h a b ->
  exists o, h !! a = Some o /\ next o = Some b /\ deref (Some a) h = (Ret o, h).
Proof.
  intros (o & Ho & Hn)%fmap_Some_inv. exists o.
  split; [done|]. split; [done|]. by apply deref_ok.
Qed.

Lemma ring_head_next (h : list (DoublyLink E)) (head : nat) (links : list nat) :
  ring h head links ->
  exists o, deref (Some head) h = (Ret o, h) /\
            next o = Some (hd head (links ++ [head])) /\
            ~ In head links /\ forward h (links ++ [head]).
Proof.
  intros [Hnd Hfw _ _]. apply chained_step in Hfw as [Hn Hfw].
  apply next_is_deref in Hn as (o & _ & Hn & Ho). exists o.
  split; [done|]. split; [done|]. split; [|done].
  apply list.NoDup_cons in Hnd as [Hh _]. by rewrite <- list_elem_of_In.
Qed.

Lemma len_loop_walk (h : list (DoublyLink E)) (head : nat) (links : list nat) :
  ~ In head links -> forward h (links ++ [head]) ->
  forall (fuel : nat) (acc : Z), (List.length links < fuel)%nat ->
  len_loop fuel h head (Some (hd head (links ++ [head]))) acc
  = Some (Ret (acc + Z.of_nat (List.length links))).
Proof.
  induction links as [|a rest IH]; intros Hh Hfw fuel acc Hfuel.
  - destruct fuel as [|fuel]; [simpl in Hfuel; lia|]. simpl.
    rewrite decide_True by done. do 2 f_equal. lia.
  - destruct fuel as [|fuel]; [simpl in Hfuel; lia|].
    change ((a :: rest) ++ [head]) with (a :: rest ++ [head]) in *.
    apply chained_step in Hfw as [Hn Hfw].
    apply next_is_deref in Hn as (o & _ & Hn & Ho).
    cbn [len_loop hd]. rewrite decide_False by (intros [= ->]; apply Hh; by left).
    rewrite Ho. cbn [fst]. rewrite Hn.
    rewrite IH; [|intros Hin; apply Hh; by right|done|simpl in Hfuel; lia].
    do 2 f_equal. simpl List.length. lia.
Qed.

Lemma str_loop_walk (str_of : option E -> string) (h : list (DoublyLink E))
    (head : nat) (links : list nat) :
  ~ In head links -> forward h (links ++ [head]) ->
  forall (fuel : nat) (lst : list string), (List.length links < fuel)%nat ->
  str_loop str_of fuel h head (Some (hd head (links ++ [head]))) lst
  = Some (Ret (lst ++ map str_of (elements h links))).
Proof.
  induction links as [|a rest IH]; intros Hh Hfw fuel lst Hfuel.
  - destruct fuel as [|fuel]; [simpl in Hfuel; lia|]. simpl.
    rewrite decide_True by done. by rewrite app_nil_r.
  - destruct fuel as [|fuel]; [simpl in Hfuel; lia|].
    change ((a :: rest) ++ [head]) with (a :: rest ++ [head]) in *.
    apply chained_step in Hfw as [Hn Hfw].
    apply next_is_deref in Hn as (o & Hlook & Hn & Ho).
    cbn [str_loop hd]. rewrite decide_False by (intros [= ->]; apply Hh; by left).
    rewrite Ho. cbn [fst]. rewrite Hn.
    rewrite IH; [|intros Hin; apply Hh; by right|done|simpl in Hfuel; lia].
    unfold elements. simpl map. rewrite Hlook. simpl.
    by rewrite <- app_assoc.
Qed.

Lemma get_link_loop_walk (h : list (DoublyLink E)) (head : nat) (links : list nat) :
  ~ In head links -> forward h (links ++ [head]) ->
  forall (fuel : nat) (index : Z), (List.length links < fuel)%nat -> 0 <= index ->
  get_link_loop fuel h head (Some (hd head (links ++ [head]))) index
  = Some (match links !! Z.to_nat index with
          | Some a => Ret (Some a)
          | None => Raise (IndexError "Index out of range")
          end).
Proof.
  induction links as [|a rest IH]; intros Hh Hfw fuel index Hfuel Hindex.
  - destruct fuel as [|fuel]; [simpl in Hfuel; lia|]. simpl.
    by rewrite decide_True by done.
  - destruct fuel as [|fuel]; [simpl in Hfuel; lia|].
    change ((a :: rest) ++ [head]) with (a :: rest ++ [head]) in *.
    apply chained_step in Hfw as [Hn Hfw].
    apply next_is_deref in Hn as (o & _ & Hn & Ho).
    cbn [get_link_loop hd].
    rewrite decide_False by (intros [= ->]; apply Hh; by left).
    destruct (index =? 0) eqn:H0.
    + apply Z.eqb_eq in H0. by subst index.
    + apply Z.eqb_neq in H0. rewrite Ho. cbn [fst]. rewrite Hn.
      rewrite IH; [|intros Hin; apply Hh; by right|done|simpl in Hfuel; lia|lia].
      replace (Z.to_nat index) with (S (Z.to_nat (index - 1))) by lia.
      done.
Qed.

End HeapWalks.

(** ** [insert_after] on a ring *)

Section HeapInsert.
Context {E : Type}.
Import Heap.

Lemma chained_In (R : nat -> nat -> Prop) (path : list nat) (a : nat) :
  chained R path -> In a (removelast path) -> exists b, R a b.
Proof.
  induction path as [|x rest IH]; [done|].
  destruct rest as [|y rest]; [done|].
  rewrite chained_cons. intros [Hxy Hrest] Ha.
  change (removelast (x :: y :: rest)) with (x :: removelast (y :: rest)) in Ha.
  destruct Ha as [<-|Ha]; [by exists y|]. by apply IH.
Qed.

(** The links of a ring are objects of the heap. *)
Lemma ring_lookup (h : list (DoublyLink E)) (head : nat) (links : list nat) (a : nat) :
  ring h head links -> In a (head :: links) -> (a < List.length h)%nat.
Proof.
  intros [_ Hfw _ _] Ha.
  destruct (chained_In _ _ a Hfw) as (b & Hb).
  { change (head :: links ++ [head]) with ((head :: links) ++ [head]).
    by rewrite removelast_snoc. }
  apply fmap_Some_inv in Hb as (o & Ho & _). by apply lookup_lt_Some in Ho.
Qed.

Lemma elements_ext (h h' : list (DoublyLink E)) (links : list nat) :
  (forall a, In a links -> element <$> h' !! a = element <$> h !! a) ->
  elements h' links = elements h links.
Proof.
  intros Hel. unfold elements. apply map_ext_in. intros a Ha.
  specialize (Hel a Ha). destruct (h' !! a), (h !! a); simpl in *; congruence.
Qed.

Lemma elements_app (h : list (DoublyLink E)) (xs ys : list nat) :
  elements h (xs ++ ys) = elements h xs ++ elements h ys.
Proof. unfold elements. apply map_app. Qed.

(** What [insert_after(link, x)] does to the heap. *)
Lemma insert_after_run (h : list (DoublyLink E)) (link s : nat) (x : E)
    (o : DoublyLink E) :
  h !! link = Some o -> next o = Some s -> (s < List.length h)%nat ->
  insert_after (Some link) x h
  = (Ret tt,
     alter (set_previous (Some (List.length h))) s
       (alter (set_next (Some (List.length h))) link
          (h ++ [mkLink (Some x) (Some link) (Some s) None]))).
Proof.
  intros Ho Hn Hs. unfold insert_after.
  pose proof (lookup_lt_Some _ _ _ Ho) as Hlink.
  set (n := List.length h). set (h1 := h ++ [mkLink (Some x) (Some link) (Some s) None]).
  assert (h1 !! n = Some (mkLink (Some x) (Some link) (Some s) None)) as Hnew.
  { unfold h1, n. by rewrite list_lookup_middle. }
  assert (h1 !! link = Some o) as Ho1.
  { unfold h1. by rewrite lookup_app_l. }
  rewrite (bind_ret_l _ _ h h o) by (by apply deref_ok).
  rewrite (bind_ret_l _ _ h h1 n) by (unfold new; by rewrite Hn).
  rewrite (bind_ret_l _ _ h1 h1 (mkLink (Some x) (Some link) (Some s) None))
    by (by apply deref_ok).
  cbn [previous next].
  rewrite (bind_ret_l _ _ h1 (alter (set_next (Some n)) link h1) tt)
    by (by apply (assign_ok link _ h1 o)).
  assert (alter (set_next (Some n)) link h1 !! n
          = Some (mkLink (Some x) (Some link) (Some s) None)) as Hnew2.
  { rewrite list_lookup_alter_ne by (unfold n; lia). done. }
  rewrite (bind_ret_l _ _ _ _ _ (deref_ok _ _ _ Hnew2)).
  cbn [next].
  destruct (alter (set_next (Some n)) link h1 !! s) as [os|] eqn:Hos.
  - by apply (assign_ok s _ _ os).
  - apply lookup_ge_None_1 in Hos. rewrite length_alter in Hos.
    unfold h1 in Hos. rewrite length_app in Hos. simpl in Hos. lia.
Qed.

(** [insert_after(link, x)] on a link of a ring puts one new link, with
    element [x], right after [link], and leaves every element as it
    was. *)
Lemma insert_after_ring (h : list (DoublyLink E)) (head : nat)
    (before after pre post : list nat) (link s : nat) (x : E) :
  ring h head (before ++ after) ->
  head :: before = pre ++ [link] ->
  after ++ [head] = s :: post ->
  exists h',
    insert_after (Some link) x h = (Ret tt, h') /\
    List.length h' = S (List.length h) /\
    ring h' head (before ++ List.length h :: after) /\
    element <$> h' !! List.length h = Some (Some x) /\
    (forall a, (a < List.length h)%nat ->
               element <$> h' !! a = element <$> h !! a /\
               prev <$> h' !! a = prev <$> h !! a) /\
    (forall a, a <> link -> a <> s -> (a < List.length h)%nat ->
               h' !! a = h !! a).
Proof.
  intros Hring Hl Hs.
  pose proof (ring_path head before after pre post link s Hl Hs) as Hpath.
  pose proof (ring_forward _ _ _ Hring) as Hfw. rewrite Hpath in Hfw.
  apply forward_next in Hfw.
  apply fmap_Some_inv in Hfw as (o & Ho & Hn).
  assert (forall a, In a (head :: before ++ after) -> (a < List.length h)%nat)
    as Hlt by (intros a Ha; by apply (ring_lookup h head (before ++ after))).
  assert (In s (head :: before ++ after)) as Hsin.
  { assert (In s (after ++ [head])) as Hin by (rewrite Hs; by left).
    apply in_app_or in Hin as [Hin|[<-|[]]]; [|by left].
    right. apply in_or_app. by right. }
  pose proof (Hlt s Hsin) as Hslt.
  pose proof (lookup_lt_Some _ _ _ Ho) as Hllt.
  set (n := List.length h) in *.
  set (h1 := h ++ [mkLink (Some x) (Some link) (Some s) None]).
  set (h2 := alter (set_next (Some n)) link h1).
  set (h' := alter (set_previous (Some n)) s h2).
  assert (h1 !! n = Some (mkLink (Some x) (Some link) (Some s) None)) as Hnew.
  { unfold h1, n. by rewrite list_lookup_middle. }
  assert (forall a, (a < n)%nat -> h1 !! a = h !! a) as Hold.
  { intros a Ha. unfold h1. by rewrite lookup_app_l. }
  assert (h' !! n = Some (mkLink (Some x) (Some link) (Some s) None)) as Hnew'.
  { unfold h', h2. rewrite !list_lookup_alter_ne by lia. done. }
  exists h'. split; [by apply (insert_after_run h link s x o)|].
  split.
  { unfold h', h2, h1. rewrite !length_alter, length_app. simpl. lia. }
  split.
  { change (n :: after) with ([n] ++ after).
    apply (ring_splice h h' head before after [n] pre post [] [] link s n n);
      try done.
    - assert (~ In n (head :: before ++ after)) as Hfresh.
      { intros Hin. apply Hlt in Hin. lia. }
      pose proof (ring_nodup _ _ _ Hring) as Hnd.
      apply list.NoDup_cons in Hnd as [Hh Hnd].
      apply list.NoDup_app in Hnd as (Hndb & Hba & Hnda).
      rewrite list_elem_of_In in Hh.
      apply list.NoDup_cons. rewrite list_elem_of_In. split.
      + intros [Hin|[Hin|Hin]%in_app_or]%in_app_or.
        * apply Hh, in_or_app. by left.
        * destruct Hin as [Hin|[]]. apply Hfresh. left. done.
        * apply Hh, in_or_app. by right.
      + apply list.NoDup_app. split; [done|]. split.
        * intros a Ha [Hin|Hin]%list_elem_of_In%in_app_or.
          -- destruct Hin as [Hin|[]]. subst a. apply Hfresh.
             right. apply in_or_app. left. by apply list_elem_of_In.
          -- by apply (Hba a), list_elem_of_In.
        * apply list.NoDup_app. split; [apply NoDup_singleton|].
          split; [|done]. intros a Ha Hin.
          apply list_elem_of_In in Ha. destruct Ha as [Ha|[]]. subst a.
          apply Hfresh. right. apply in_or_app. right.
          by apply list_elem_of_In.
    - unfold next_is, h'.
      rewrite (lookup_alter_same_field next) by done.
      unfold h2. apply (next_alter_set_next _ _ _ o). by rewrite Hold.
    - unfold next_is. by rewrite Hnew'.
    - unfold previous_is, h'.
      destruct (h2 !! s) as [os|] eqn:Hos.
      + by apply (previous_alter_set_previous _ _ _ os).
      + apply lookup_ge_None_1 in Hos. unfold h2, h1 in Hos.
        rewrite length_alter, length_app in Hos. simpl in Hos. lia.
    - unfold previous_is. by rewrite Hnew'.
    - intros a Ha Hne. unfold h'.
      rewrite (lookup_alter_same_field next) by done. unfold h2.
      rewrite (lookup_alter_other_field next) by done.
      rewrite Hold; [done|]. by apply Hlt.
    - intros a Ha Hne. unfold h'.
      rewrite (lookup_alter_other_field previous) by done. unfold h2.
      rewrite (lookup_alter_same_field previous) by done.
      rewrite Hold; [done|]. by apply Hlt. }
  split; [by rewrite Hnew'|].
  split.
  - intros a Ha. unfold h', h2.
    rewrite !(lookup_alter_same_field element), !(lookup_alter_same_field prev)
      by done.
    by rewrite Hold.
  - intros a Hal Has Ha. unfold h', h2.
    rewrite !list_lookup_alter_ne by done. by apply Hold.
Qed.

End HeapInsert.

(** ** [DoublyLinkedListSequence.__init__], link by link *)

Section HeapInit.
Context {E : Type}.
Import Heap.

Lemma rev_seq_S (a k : nat) :
  rev (List.seq a (S k)) = (a + k)%nat :: rev (List.seq a k).
Proof. by rewrite seq_S, rev_app_distr. Qed.

(** The list model of [__init__] makes the reversed sequence. *)
Lemma list_init_rev (seq : list E) : DoublyLinkedListSequence.init seq = rev seq.
Proof.
  unfold DoublyLinkedListSequence.init.
  assert (forall acc : list E,
    fold_left (fun s element =>
      DoublyLinkedListSequence.insert_after s DoublyLinkedListSequence.Head element)
      seq acc = rev seq ++ acc) as H.
  { induction seq as [|x seq IH]; intros acc; simpl; [done|].
    by rewrite IH, <- app_assoc. }
  by rewrite H, app_nil_r.
Qed.

(** The loop of [__init__]: after [k] rounds the links are the [k]
    objects made after the head, the newest first. *)
Lemma init_loop (head : nat) (seq : list E) :
  forall (k : nat) (h : list (DoublyLink E)),
  ring h head (rev (List.seq (S head) k)) ->
  List.length h = (S head + k)%nat ->
  prev <$> h !! head = Some (Some head) ->
  exists h',
    for_each seq (fun element =>
      o <- deref (Some head) ;;
      match prev o with
      | Some p => insert_after (Some p) element
      | None => raise AttributeError
      end)%py h = (Ret tt, h') /\
    List.length h' = (S head + k + List.length seq)%nat /\
    ring h' head (rev (List.seq (S head) (k + List.length seq))) /\
    elements h' (rev (List.seq (S head) (k + List.length seq)))
    = map Some (rev seq) ++ elements h (rev (List.seq (S head) k)) /\
    (seq <> [] -> k = 0%nat -> previous <$> h' !! head = Some (Some (S head))) /\
    (forall a, (a < head)%nat -> h' !! a = h !! a).
Proof.
  induction seq as [|x seq IH]; intros k h Hring Hlen Hprev.
  - exists h. simpl. rewrite !Nat.add_0_r. done.
  - set (links := rev (List.seq (S head) k)) in *.
    destruct (links ++ [head]) as [|s post] eqn:Hs;
      [by destruct links|].
    destruct (insert_after_ring h head [] links [] post head s x)
      as (h1 & Hrun & Hlen1 & Hring1 & Hnew & Hel & Hframe); [done..|].
    apply fmap_Some_inv in Hprev as (o & Ho & Hp).
    assert (In s (links ++ [head])) as Hsin by (rewrite Hs; by left).
    assert (head <= s)%nat as Hsge.
    { apply in_app_or in Hsin as [Hin|[<-|[]]]; [|lia].
      unfold links in Hin. apply in_rev, in_seq in Hin. lia. }
    simpl in Hring1. rewrite Hlen in Hring1, Hnew.
    rewrite <- rev_seq_S in Hring1.
    destruct (IH (S k) h1) as (h' & Hrun' & Hlen' & Hring' & Helems & Hback & Hfr).
    { done. }
    { lia. }
    { destruct (Hel head) as [_ ->]; [lia|]. by rewrite Ho; simpl; rewrite Hp. }
    exists h'. split.
    { cbn [for_each]. rewrite (bind_ret_l _ _ h h1 tt); [done|].
      rewrite (bind_ret_l _ _ h h o) by (by apply deref_ok).
      by rewrite Hp. }
    cbn [List.length].
    replace (k + S (List.length seq))%nat with (S k + List.length seq)%nat
      by lia.
    split; [lia|]. split; [done|]. split.
    { rewrite Helems, rev_seq_S. fold links.
      change (elements h1 ((S head + k)%nat :: links))
        with ((h1 !! (S head + k)%nat ≫= element) :: elements h1 links).
      apply fmap_Some_inv in Hnew as (on & -> & Hon). simpl. rewrite Hon.
      rewrite (elements_ext h h1 links).
      - simpl rev. rewrite map_app, <- app_assoc. done.
      - intros a Ha. apply Hel.
        apply (ring_lookup h head links); [done|]. by right. }
    split.
    { intros _ ->. destruct seq as [|y seq].
      - simpl in Hrun'. injection Hrun' as <-.
        pose proof (ring_backward _ _ _ Hring1) as Hbw.
        simpl in Hbw. destruct Hbw as [_ [Hbw _]]; [done|]. exact Hbw.
      - pose proof (ring_backward _ _ _ Hring') as Hbw.
        simpl List.length in Hbw.
        replace (1 + S (List.length seq))%nat with (S (S (List.length seq)))
          in Hbw by lia.
        rewrite rev_seq_S in Hbw.
        specialize (Hbw ltac:(done)).
        unfold backward in Hbw.
        change (head :: ((S head + S (List.length seq))%nat
                  :: rev (List.seq (S head) (S (List.length seq)))) ++ [head])
          with ((head :: (S head + S (List.length seq))%nat
                  :: rev (List.seq (S head) (S (List.length seq)))) ++ [head])
          in Hbw.
        simpl List.seq in Hbw. simpl rev in Hbw.
        rewrite !app_comm_cons in Hbw. rewrite <- app_assoc in Hbw.
        apply chained_app in Hbw as [_ Hbw]. simpl in Hbw. tauto. }
    intros a Ha. rewrite Hfr by done. apply Hframe; lia.
Qed.

End HeapInit.

Section HeapInitRing.
Context {E : Type}.
Import Heap.

(** [DoublyLinkedListSequence(seq)] makes a head and one link for each
    element of [seq], and the links come in the reverse of the order of
    [seq]. *)
Lemma init_ring (seq : list E) (h : list (DoublyLink E)) :
  let head := List.length h in
  let links := rev (List.seq (S head) (List.length seq)) in
  exists h',
    init seq h = (Ret head, h') /\
    List.length h' = (S head + List.length seq)%nat /\
    ring h' head links /\
    elements h' links = map Some (rev seq) /\
    (seq <> [] -> previous <$> h' !! head = Some (Some (S head))) /\
    (forall a, (a < head)%nat -> h' !! a = h !! a).
Proof.
  intros head links.
  set (h0 := h ++ [mkLink None None None None]).
  set (h1 := alter (set_prev (Some head)) head h0).
  set (h2 := alter (set_next (Some head)) head h1).
  assert (h0 !! head = Some (mkLink None None None None)) as H0
    by (unfold h0, head; by rewrite list_lookup_middle).
  assert (h1 !! head = Some (mkLink None None None (Some head))) as H1
    by (unfold h1; by rewrite list_lookup_alter_eq, H0).
  assert (h2 !! head = Some (mkLink None None (Some head) (Some head))) as H2
    by (unfold h2; by rewrite list_lookup_alter_eq, H1).
  assert (List.length h2 = S head) as Hlen2.
  { unfold h2, h1, h0. rewrite !length_alter, length_app. simpl. lia. }
  destruct (init_loop head seq 0 h2) as (h' & Hrun & Hlen & Hring & Hel & Hback & Hfr).
  { constructor.
    - apply NoDup_singleton.
    - simpl. split; [|done]. unfold next_is. by rewrite H2.
    - done.
    - intros _. by rewrite H2. }
  { lia. }
  { by rewrite H2. }
  exists h'. simpl in Hlen, Hring, Hel. rewrite app_nil_r in Hel.
  split.
  { unfold init.
    rewrite (bind_ret_l _ _ h h0 head) by done.
    rewrite (bind_ret_l _ _ h0 h1 tt) by (by apply (assign_ok head _ h0 _ H0)).
    rewrite (bind_ret_l _ _ h1 h2 tt) by (by apply (assign_ok head _ h1 _ H1)).
    by rewrite (bind_ret_l _ _ h2 h' tt). }
  split; [lia|]. split; [done|]. split; [done|]. split.
  { intros Hne. by apply Hback. }
  intros a Ha. rewrite Hfr by done. unfold h2, h1.
  rewrite !list_lookup_alter_ne by lia. unfold h0. by rewrite lookup_app_l.
Qed.

End HeapInitRing.

(** ** The methods of the sequence on a ring *)

Section HeapMethods.
Context {E : Type}.
Import Heap.

(** A ring stays one when no [next] and no [previous] changes. *)
Lemma ring_ext (h h' : list (DoublyLink E)) (head : nat) (links : list nat) :
  (forall a, next <$> h' !! a = next <$> h !! a) ->
  (forall a, previous <$> h' !! a = previous <$> h !! a) ->
  ring h head links -> ring h' head links.
Proof.
  intros Hn Hp [Hnd Hfw Hbw He]. constructor.
  - done.
  - eapply chained_impl; [|exact Hfw]. intros a b _ _. unfold next_is.
    by rewrite Hn.
  - intros Hne. eapply chained_impl; [|exact (Hbw Hne)].
    intros a b _ _. unfold previous_is. by rewrite Hp.
  - intros Hnil. rewrite Hp. by apply He.
Qed.

Lemma len_ring (h : list (DoublyLink E)) (head : nat) (links : list nat)
    (fuel : nat) :
  ring h head links -> (List.length links < fuel)%nat ->
  len fuel h head = Some (Ret (Z.of_nat (List.length links))).
Proof.
  intros (o & Ho & Hn & Hh & Hfw)%ring_head_next Hfuel.
  unfold len. rewrite Ho. cbn [fst]. rewrite Hn.
  by rewrite (len_loop_walk h head links Hh Hfw).
Qed.

Lemma str_ring (str_of : option E -> string) (h : list (DoublyLink E))
    (head : nat) (links : list nat) (fuel : nat) :
  ring h head links -> (List.length links < fuel)%nat ->
  str str_of fuel h head
  = Some (Ret (String.concat "" (map str_of (elements h links)))).
Proof.
  intros (o & Ho & Hn & Hh & Hfw)%ring_head_next Hfuel.
  unfold str. rewrite Ho. cbn [fst]. rewrite Hn.
  by rewrite (str_loop_walk str_of h head links Hh Hfw).
Qed.

Lemma get_link_ring (h : list (DoublyLink E)) (head : nat) (links : list nat)
    (fuel : nat) (index : Z) :
  ring h head links -> (List.length links < fuel)%nat ->
  get_link_at_index fuel h head index
  = Some (if index <? 0 then Raise (IndexError "Negative Index")
          else match links !! Z.to_nat index with
               | Some a => Ret (Some a)
               | None => Raise (IndexError "Index out of range")
               end).
Proof.
  intros (o & Ho & Hn & Hh & Hfw)%ring_head_next Hfuel.
  unfold get_link_at_index. destruct (index <? 0) eqn:Hneg; [done|].
  apply Z.ltb_ge in Hneg. rewrite Ho. cbn [fst]. rewrite Hn.
  by rewrite (get_link_loop_walk h head links Hh Hfw).
Qed.

(** The links and the elements of a sequence are as many. *)
Lemma elements_length (h : list (DoublyLink E)) (links : list nat)
    (s : list E) :
  elements h links = map Some s -> List.length links = List.length s.
Proof.
  intros Hel. apply (f_equal (@List.length _)) in Hel.
  unfold elements in Hel. by rewrite !length_map in Hel.
Qed.

(** The link at a position holds the element at that position. *)
Lemma elements_lookup (h : list (DoublyLink E)) (head : nat)
    (links : list nat) (s : list E) (i a : nat) :
  ring h head links -> elements h links = map Some s ->
  links !! i = Some a ->
  exists o e, h !! a = Some o /\ s !! i = Some e /\ element o = Some e.
Proof.
  intros Hring Hel Ha.
  assert (In a (head :: links)) as Hin.
  { right. apply list_elem_of_In. by eapply list_elem_of_lookup_2. }
  apply (ring_lookup h head links a Hring) in Hin.
  destruct (h !! a) as [o|] eqn:Ho;
    [|apply lookup_ge_None_1 in Ho; lia].
  apply (f_equal (fun l => l !! i)) in Hel.
  unfold elements in Hel. rewrite !list_lookup_fmap, Ha in Hel.
  simpl in Hel. rewrite Ho in Hel. simpl in Hel.
  destruct (s !! i) as [e|] eqn:He; [|done].
  exists o, e. simpl in Hel. split; [done|]. split; [done|]. congruence.
Qed.

(** [get_link_at_index] on the heap and on the list model. *)
Lemma get_link_refines (h : list (DoublyLink E)) (head : nat)
    (links : list nat) (s : list E) (fuel : nat) (index : Z) :
  ring h head links -> elements h links = map Some s ->
  (List.length links < fuel)%nat ->
  get_link_at_index fuel h head index
  = Some (match DoublyLinkedListSequence.get_link_at_index s index with
          | Ret l => Ret (link_at head links l)
          | Raise e => Raise e
          end).
Proof.
  intros Hring Hel Hfuel. rewrite (get_link_ring h head links) by done.
  unfold DoublyLinkedListSequence.get_link_at_index.
  unfold DoublyLinkedListSequence.t.
  destruct (index <? 0); [done|]. f_equal.
  pose proof (elements_length _ _ _ Hel) as Hlen.
  destruct (links !! Z.to_nat index) as [a|] eqn:Ha.
  - destruct (elements_lookup h head links s _ a Hring Hel Ha)
      as (o & e & _ & -> & _). simpl. by rewrite Ha.
  - apply lookup_ge_None_1 in Ha.
    rewrite lookup_ge_None_2 by lia. done.
Qed.

(** [get_element_at_index] on the heap and on the list model. *)
Lemma get_element_refines (h : list (DoublyLink E)) (head : nat)
    (links : list nat) (s : list E) (fuel : nat) (index : Z) :
  ring h head links -> elements h links = map Some s ->
  (List.length links < fuel)%nat ->
  get_element_at_index fuel h head index
  = Some (match DoublyLinkedListSequence.get_element_at_index s index with
          | Ret e => Ret (Some e)
          | Raise e => Raise e
          end).
Proof.
  intros Hring Hel Hfuel. unfold get_element_at_index.
  rewrite (get_link_ring h head links) by done.
  unfold DoublyLinkedListSequence.get_element_at_index,
    DoublyLinkedListSequence.get_link_at_index.
  unfold DoublyLinkedListSequence.t.
  destruct (index <? 0); [done|].
  pose proof (elements_length _ _ _ Hel) as Hlen.
  destruct (links !! Z.to_nat index) as [a|] eqn:Ha.
  - destruct (elements_lookup h head links s _ a Hring Hel Ha)
      as (o & e & Ho & He & Hoe).
    rewrite He. simpl. unfold DoublyLinkedListSequence.t.
    rewrite He, Ho. simpl. by rewrite Hoe.
  - apply lookup_ge_None_1 in Ha.
    rewrite lookup_ge_None_2 by lia. done.
Qed.

(** [set_at_index] on the heap and on the list model: the element at
    the index is replaced, and nothing else of the sequence changes. *)
Lemma set_at_index_refines (h : list (DoublyLink E)) (head : nat)
    (links : list nat) (s : list E) (fuel : nat) (index : Z) (x : E) :
  ring h head links -> elements h links = map Some s ->
  (List.length links < fuel)%nat ->
  match DoublyLinkedListSequence.set_at_index s index x with
  | Ret s' =>
      exists h', set_at_index fuel head index x h = Some (Ret tt, h') /\
                 ring h' head links /\ elements h' links = map Some s' /\
                 List.length h' = List.length h /\
                 (forall a, ~ In a links -> h' !! a = h !! a)
  | Raise e => set_at_index fuel head index x h = Some (Raise e, h)
  end.
Proof.
  intros Hring Hel Hfuel. unfold set_at_index.
  rewrite (get_link_ring h head links) by done.
  unfold DoublyLinkedListSequence.set_at_index,
    DoublyLinkedListSequence.get_link_at_index.
  unfold DoublyLinkedListSequence.t.
  destruct (index <? 0); [done|].
  pose proof (elements_length _ _ _ Hel) as Hlen.
  destruct (links !! Z.to_nat index) as [a|] eqn:Ha.
  - destruct (elements_lookup h head links s _ a Hring Hel Ha)
      as (o & e & Ho & He & Hoe).
    rewrite He. exists (alter (set_element (Some x)) a h).
    split; [by rewrite (assign_ok a _ h o)|]. split.
    { apply (ring_ext h); [| |done]; intros a'.
      - by apply (lookup_alter_same_field next).
      - by apply (lookup_alter_same_field previous). }
    split.
    { simpl. rewrite list_fmap_insert. fold (fmap (M := list) Some s).
      change (Some <$> s) with (map Some s). rewrite <- Hel.
      apply list_eq. intros j. unfold elements.
      destruct (decide (j = Z.to_nat index)) as [->|Hne].
      - rewrite list_lookup_insert_eq
          by (rewrite length_map; by eapply lookup_lt_Some).
        rewrite list_lookup_fmap, Ha. simpl.
        by rewrite list_lookup_alter_eq, Ho.
      - rewrite list_lookup_insert_ne by done.
        rewrite !list_lookup_fmap.
        destruct (links !! j) as [a'|] eqn:Ha'; [|done]. simpl.
        rewrite list_lookup_alter_ne; [done|].
        intros <-. apply Hne.
        pose proof (ring_nodup _ _ _ Hring) as Hnd.
        apply list.NoDup_cons in Hnd as [_ Hnd].
        by apply (NoDup_lookup links j (Z.to_nat index) a). }
    split; [by rewrite length_alter|].
    intros a' Hnin. rewrite list_lookup_alter_ne; [done|].
    intros <-. apply Hnin, list_elem_of_In. by eapply list_elem_of_lookup_2.
  - apply lookup_ge_None_1 in Ha.
    rewrite lookup_ge_None_2 by lia. done.
Qed.

End HeapMethods.

(** ** [insert_list_after_link] on two rings *)

Section HeapSplice.
Context {E : Type}.
Import Heap.

Lemma assign_lt (a : nat) (f : DoublyLink E -> DoublyLink E)
    (h : list (DoublyLink E)) :
  (a < List.length h)%nat -> assign (Some a) f h = (Ret tt, alter f a h).
Proof.
  intros Ha. destruct (h !! a) as [o|] eqn:Ho.
  - by apply (assign_ok a f h o).
  - apply lookup_ge_None_1 in Ho. lia.
Qed.

Lemma deref_set_next (a : nat) (v : option nat) (h : list (DoublyLink E)) :
  (a < List.length h)%nat ->
  exists o, deref (Some a) (alter (set_next v) a h)
            = (Ret o, alter (set_next v) a h) /\ next o = v.
Proof.
  intros Ha. destruct (h !! a) as [o|] eqn:Ho.
  - exists (set_next v o). split; [|done]. apply deref_ok.
    by rewrite list_lookup_alter_eq, Ho.
  - apply lookup_ge_None_1 in Ho. lia.
Qed.

Lemma deref_set_previous (a : nat) (v : option nat) (h : list (DoublyLink E)) :
  (a < List.length h)%nat ->
  exists o, deref (Some a) (alter (set_previous v) a h)
            = (Ret o, alter (set_previous v) a h) /\ previous o = v.
Proof.
  intros Ha. destruct (h !! a) as [o|] eqn:Ho.
  - exists (set_previous v o). split; [|done]. apply deref_ok.
    by rewrite list_lookup_alter_eq, Ho.
  - apply lookup_ge_None_1 in Ho. lia.
Qed.

Lemma next_after_set_next (a : nat) (v : option nat) (h : list (DoublyLink E)) :
  (a < List.length h)%nat -> next <$> alter (set_next v) a h !! a = Some v.
Proof.
  intros Ha. destruct (h !! a) as [o|] eqn:Ho.
  - by apply (next_alter_set_next v a h o).
  - apply lookup_ge_None_1 in Ho. lia.
Qed.

Lemma previous_after_set_previous (a : nat) (v : option nat)
    (h : list (DoublyLink E)) :
  (a < List.length h)%nat ->
  previous <$> alter (set_previous v) a h !! a = Some v.
Proof.
  intros Ha. destruct (h !! a) as [o|] eqn:Ho.
  - by apply (previous_alter_set_previous v a h o).
  - apply lookup_ge_None_1 in Ho. lia.
Qed.

(** What [insert_list_after_link(link, begin, end)] does to the heap. *)
Lemma insert_list_after_link_run (h : list (DoublyLink E)) (link s b e : nat)
    (o : DoublyLink E) :
  h !! link = Some o -> next o = Some s ->
  (s < List.length h)%nat -> (b < List.length h)%nat ->
  (e < List.length h)%nat ->
  insert_list_after_link (Some link) (Some b) (Some e) h
  = (Ret tt,
     alter (set_next (Some b)) link
       (alter (set_previous (Some link)) b
          (alter (set_previous (Some e)) s
             (alter (set_next (Some s)) e h)))).
Proof.
  intros Ho Hn Hs Hb He. unfold insert_list_after_link.
  pose proof (lookup_lt_Some _ _ _ Ho) as Hlink.
  rewrite (bind_ret_l _ _ h h o) by (by apply deref_ok). rewrite Hn.
  set (h1 := alter (set_next (Some s)) e h).
  rewrite (bind_ret_l _ _ h h1 tt) by (by apply assign_lt).
  destruct (deref_set_next e (Some s) h He) as (oe & Hoe & Hnoe).
  rewrite (bind_ret_l _ _ h1 h1 oe) by done. rewrite Hnoe.
  assert (List.length h1 = List.length h) as Hl1
    by (unfold h1; by rewrite length_alter).
  set (h2 := alter (set_previous (Some e)) s h1).
  rewrite (bind_ret_l _ _ h1 h2 tt) by (apply assign_lt; lia).
  assert (List.length h2 = List.length h) as Hl2
    by (unfold h2; by rewrite length_alter).
  set (h3 := alter (set_previous (Some link)) b h2).
  rewrite (bind_ret_l _ _ h2 h3 tt) by (apply assign_lt; lia).
  assert (List.length h3 = List.length h) as Hl3
    by (unfold h3; by rewrite length_alter).
  destruct (deref_set_previous b (Some link) h2) as (ob & Hob & Hpob); [lia|].
  rewrite (bind_ret_l _ _ h3 h3 ob) by done. rewrite Hpob.
  apply assign_lt. lia.
Qed.

(** The first and the last link of a ring, as its head has them. *)
Lemma ring_head_fields (h : list (DoublyLink E)) (head : nat)
    (mid midt midi : list nat) (b e : nat) :
  ring h head mid -> mid = b :: midt -> mid = midi ++ [e] ->
  next_is h head b /\ previous_is h head e /\
  forward h mid /\ backward h mid.
Proof.
  intros [_ Hfw Hbw _] Hb He.
  assert (mid <> []) as Hne by (by rewrite Hb).
  specialize (Hbw Hne). unfold forward, backward in *.
  assert (head :: mid ++ [head] = (head :: midi) ++ e :: [head]) as P1.
  { rewrite He. simpl. by rewrite <- app_assoc. }
  assert (head :: mid ++ [head] = head :: b :: midt ++ [head]) as P2
    by (by rewrite Hb).
  assert (b :: midt ++ [head] = midi ++ e :: [head]) as P3.
  { change (b :: midt ++ [head]) with ((b :: midt) ++ [head]).
    rewrite <- Hb, He. by rewrite <- app_assoc. }
  split; [rewrite P2 in Hfw; by apply (proj1 (chained_cons _ _ _ _)) in Hfw as [Hfw _]|].
  split.
  { rewrite P1 in Hbw. apply chained_app in Hbw as [_ Hbw].
    by apply (proj1 (chained_cons _ _ _ _)) in Hbw as [Hbw _]. }
  rewrite P2 in Hfw, Hbw.
  apply (proj1 (chained_cons _ _ _ _)) in Hfw as [_ Hfw].
  apply (proj1 (chained_cons _ _ _ _)) in Hbw as [_ Hbw].
  rewrite P3 in Hfw, Hbw.
  apply chained_app in Hfw as [Hfw _]. apply chained_app in Hbw as [Hbw _].
  by rewrite He.
Qed.

(** [insert_list_after_link(link, begin, end)], with [begin] and [end]
    the first and the last link of a second ring, hooks the links of
    that ring in after [link], in their order, and changes no
    element. *)
Lemma insert_list_after_link_ring (h : list (DoublyLink E)) (head head2 : nat)
    (before after mid pre post midt midi : list nat) (link s b e : nat) :
  ring h head (before ++ after) ->
  ring h head2 mid ->
  head :: before = pre ++ [link] ->
  after ++ [head] = s :: post ->
  mid = b :: midt -> mid = midi ++ [e] ->
  NoDup (head :: before ++ mid ++ after) ->
  exists h',
    insert_list_after_link (Some link) (Some b) (Some e) h = (Ret tt, h') /\
    List.length h' = List.length h /\
    ring h' head (before ++ mid ++ after) /\
    (forall a, element <$> h' !! a = element <$> h !! a) /\
    (forall a, a <> link -> a <> s -> a <> b -> a <> e -> h' !! a = h !! a).
Proof.
  intros Hring Hring2 Hl Hs Hb He Hnd.
  pose proof (ring_path head before after pre post link s Hl Hs) as Hpath.
  pose proof (ring_forward _ _ _ Hring) as Hfw. rewrite Hpath in Hfw.
  apply forward_next in Hfw.
  apply fmap_Some_inv in Hfw as (o & Ho & Hn).
  assert (forall a, In a (head :: before ++ after) -> (a < List.length h)%nat)
    as Hlt by (intros a Ha; by apply (ring_lookup h head (before ++ after))).
  assert (forall a, In a mid -> (a < List.length h)%nat) as Hlt2.
  { intros a Ha. apply (ring_lookup h head2 mid); [done|]. by right. }
  assert (In s (head :: before ++ after)) as Hsin.
  { assert (In s (after ++ [head])) as Hin by (rewrite Hs; by left).
    apply in_app_or in Hin as [Hin|[<-|[]]]; [|by left].
    right. apply in_or_app. by right. }
  assert (In link (head :: before ++ after)) as Hlin.
  { assert (In link (head :: before)) as Hin.
    { rewrite Hl. apply in_or_app. right. by left. }
    destruct Hin as [<-|Hin]; [by left|]. right. apply in_or_app. by left. }
  assert (In b mid) as Hbin by (rewrite Hb; by left).
  assert (In e mid) as Hein by (rewrite He; apply in_or_app; right; by left).
  assert (forall a c, In a (head :: before ++ after) -> In c mid -> a <> c)
    as Hdisj.
  { intros a c Ha Hc <-.
    apply list.NoDup_cons in Hnd as [Hh Hnd].
    apply list.NoDup_app in Hnd as (_ & Hbm & Hnd).
    apply list.NoDup_app in Hnd as (_ & Hma & _).
    rewrite list_elem_of_In in Hh.
    destruct Ha as [<-|[Ha|Ha]%in_app_or].
    - apply Hh, in_or_app. right. apply in_or_app. by left.
    - apply (Hbm a); [by apply list_elem_of_In|].
      apply list_elem_of_In, in_or_app. by left.
    - apply (Hma a); by apply list_elem_of_In. }
  assert (NoDup mid) as Hndm.
  { apply list.NoDup_cons in Hnd as [_ Hnd].
    apply list.NoDup_app in Hnd as (_ & _ & Hnd).
    by apply list.NoDup_app in Hnd as (Hnd & _ & _). }
  destruct (ring_head_fields h head2 mid midt midi b e Hring2 Hb He)
    as (_ & _ & Hfm & Hbm).
  set (h1 := alter (set_next (Some s)) e h).
  set (h2 := alter (set_previous (Some e)) s h1).
  set (h3 := alter (set_previous (Some link)) b h2).
  set (h' := alter (set_next (Some b)) link h3).
  assert (List.length h' = List.length h) as Hlen
    by (unfold h', h3, h2, h1; by rewrite !length_alter).
  exists h'. split.
  { apply (insert_list_after_link_run h link s b e o); auto. }
  split; [done|]. split.
  { apply (ring_splice h h' head before after mid pre post midt midi link s b e);
      try done.
    - unfold forward. eapply chained_impl; [|exact Hfm].
      intros a c Ha _ Hac. unfold next_is, h', h3, h2, h1.
      assert (a <> e) as Hae.
      { intros ->. rewrite He, removelast_snoc in Ha.
        rewrite He in Hndm. apply list.NoDup_app in Hndm as (_ & Hndm & _).
        apply (Hndm e); [by apply list_elem_of_In|]. by left. }
      assert (a <> link) as Hal.
      { intros ->. by apply (Hdisj link link Hlin (In_removelast _ _ Ha)). }
      rewrite (lookup_alter_other_field next) by done.
      rewrite !(lookup_alter_same_field next) by done.
      by rewrite (lookup_alter_other_field next) by done.
    - unfold backward. eapply chained_impl; [|exact Hbm].
      intros a c _ Hc Hac. unfold previous_is, h', h3, h2, h1.
      assert (In c mid) as Hcin by (rewrite Hb; by right; rewrite Hb in Hc).
      assert (c <> b) as Hcb.
      { intros ->. rewrite Hb in Hc. simpl in Hc. rewrite Hb in Hndm.
        apply list.NoDup_cons in Hndm as [Hndm _].
        by apply Hndm, list_elem_of_In. }
      assert (c <> s) as Hcs.
      { intros ->. by apply (Hdisj s s Hsin Hcin). }
      rewrite (lookup_alter_same_field previous) by done.
      rewrite !(lookup_alter_other_field previous) by done.
      by rewrite (lookup_alter_same_field previous) by done.
    - unfold next_is, h'. apply next_after_set_next.
      unfold h3, h2, h1. rewrite !length_alter. by apply Hlt.
    - unfold next_is, h', h3, h2.
      rewrite (lookup_alter_other_field next)
        by (by apply (Hdisj link e)).
      rewrite !(lookup_alter_same_field next) by done.
      apply next_after_set_next. by apply Hlt2.
    - unfold previous_is, h', h3.
      rewrite (lookup_alter_same_field previous) by done.
      rewrite (lookup_alter_other_field previous)
        by (intros Hbs; by apply (Hdisj s b Hsin Hbin)).
      apply previous_after_set_previous.
      unfold h1. rewrite length_alter. by apply Hlt.
    - unfold previous_is, h'.
      rewrite (lookup_alter_same_field previous) by done.
      apply previous_after_set_previous.
      unfold h2, h1. rewrite !length_alter. by apply Hlt2.
    - intros a Ha Hne. unfold h', h3, h2, h1.
      rewrite (lookup_alter_other_field next) by done.
      rewrite !(lookup_alter_same_field next) by done.
      rewrite (lookup_alter_other_field next); [done|].
      intros <-. by apply (Hdisj e e Ha Hein).
    - intros a Ha Hne. unfold h', h3, h2, h1.
      rewrite (lookup_alter_same_field previous) by done.
      rewrite (lookup_alter_other_field previous)
        by (intros <-; by apply (Hdisj b b Ha Hbin)).
      rewrite (lookup_alter_other_field previous) by done.
      by rewrite (lookup_alter_same_field previous) by done. }
  split.
  - intros a. unfold h', h3, h2, h1.
    by rewrite !(lookup_alter_same_field element) by done.
  - intros a Hal Has Hab Hae. unfold h', h3, h2, h1.
    by rewrite !list_lookup_alter_ne by done.
Qed.

(** With [None] for [end], as the [head.previous] of an empty sequence
    is, [insert_list_after_link] raises [AttributeError] at its first
    assignment and changes nothing. *)
Lemma insert_list_after_link_none (h : list (DoublyLink E)) (link : nat)
    (begin : option nat) :
  (link < List.length h)%nat ->
  insert_list_after_link (Some link) begin None h = (Raise AttributeError, h).
Proof.
  intros Hlink. unfold insert_list_after_link.
  destruct (h !! link) as [o|] eqn:Ho;
    [|apply lookup_ge_None_1 in Ho; lia].
  by rewrite (bind_ret_l _ _ h h o) by (by apply deref_ok).
Qed.

End HeapSplice.

(** ** The heap and the list model *)

Section HeapRefines.
Context {E : Type}.
Import Heap.

Lemma list_insert_after_cut {A} (xs : list A) (l : DoublyLinkedListSequence.link)
    (x : A) :
  DoublyLinkedListSequence.insert_after xs l x
  = take (cut_after l) xs ++ x :: drop (cut_after l) xs.
Proof. by destruct l. Qed.

Lemma list_insert_list_cut {A} (xs chain : list A)
    (l : DoublyLinkedListSequence.link) :
  DoublyLinkedListSequence.insert_list_after_link xs l chain
  = take (cut_after l) xs ++ chain ++ drop (cut_after l) xs.
Proof. by destruct l. Qed.

(** The link [l] is the last of the head and the links before the
    cut. *)
Lemma link_cut (head : nat) (links : list nat)
    (l : DoublyLinkedListSequence.link) (link : nat) :
  link_at head links l = Some link ->
  exists pre s post,
    head :: take (cut_after l) links = pre ++ [link] /\
    drop (cut_after l) links ++ [head] = s :: post.
Proof.
  intros Hl.
  assert (exists pre, head :: take (cut_after l) links = pre ++ [link])
    as [pre Hpre].
  { destruct l as [|i]; simpl in Hl.
    - injection Hl as <-. by exists [].
    - exists (head :: take i links). simpl cut_after.
      by rewrite (take_S_r links i link). }
  destruct (drop (cut_after l) links ++ [head]) as [|s post] eqn:Hs.
  - by destruct (drop (cut_after l) links).
  - by exists pre, s, post.
Qed.

Lemma elements_take (h : list (DoublyLink E)) (links : list nat) (s : list E)
    (k : nat) :
  elements h links = map Some s ->
  elements h (take k links) = map Some (take k s).
Proof.
  intros Hel. unfold elements in *.
  by rewrite <- !firstn_map, Hel.
Qed.

Lemma elements_drop (h : list (DoublyLink E)) (links : list nat) (s : list E)
    (k : nat) :
  elements h links = map Some s ->
  elements h (drop k links) = map Some (drop k s).
Proof.
  intros Hel. unfold elements in *.
  by rewrite <- !skipn_map, Hel.
Qed.

(** Distinct links stay distinct when other links come in between. *)
Lemma NoDup_interleave (head : nat) (before after mid : list nat) :
  NoDup (head :: before ++ after) -> NoDup mid ->
  (forall a, In a mid -> ~ In a (head :: before ++ after)) ->
  NoDup (head :: before ++ mid ++ after).
Proof.
  intros Hnd Hmid Hdisj.
  apply list.NoDup_cons in Hnd as [Hh Hnd].
  apply list.NoDup_app in Hnd as (Hb & Hba & Ha).
  rewrite list_elem_of_In in Hh.
  apply list.NoDup_cons. rewrite list_elem_of_In. split.
  - intros [Hin|[Hin|Hin]%in_app_or]%in_app_or.
    + apply Hh, in_or_app. by left.
    + apply (Hdisj head Hin). by left.
    + apply Hh, in_or_app. by right.
  - apply list.NoDup_app. split; [done|]. split.
    + intros a Hab [Hin|Hin]%list_elem_of_In%in_app_or.
      * apply (Hdisj a Hin). right. apply in_or_app. left.
        by apply list_elem_of_In.
      * by apply (Hba a), list_elem_of_In.
    + apply list.NoDup_app. split; [done|]. split; [|done].
      intros a Ham Hin. apply list_elem_of_In in Ham.
      apply (Hdisj a Ham). right. apply in_or_app. right.
      by apply list_elem_of_In.
Qed.

(** [insert_after] on the heap and on the list model. *)
Lemma insert_after_refines (h : list (DoublyLink E)) (head : nat)
    (links : list nat) (s : list E) (l : DoublyLinkedListSequence.link)
    (link : nat) (x : E) :
  ring h head links -> elements h links = map Some s ->
  link_at head links l = Some link ->
  exists h',
    insert_after (Some link) x h = (Ret tt, h') /\
    List.length h' = S (List.length h) /\
    ring h' head
      (DoublyLinkedListSequence.insert_after links l (List.length h)) /\
    elements h'
      (DoublyLinkedListSequence.insert_after links l (List.length h))
    = map Some (DoublyLinkedListSequence.insert_after s l x) /\
    (forall a, (a < List.length h)%nat -> ~ In a (head :: links) ->
               h' !! a = h !! a).
Proof.
  intros Hring Hel Hl.
  destruct (link_cut head links l link Hl) as (pre & s0 & post & Hpre & Hpost).
  set (k := cut_after l) in *.
  assert (links = take k links ++ drop k links) as Hlinks
    by (by rewrite take_drop).
  rewrite Hlinks in Hring.
  destruct (insert_after_ring h head (take k links) (drop k links) pre post
              link s0 x Hring Hpre Hpost)
    as (h' & Hrun & Hlen & Hring' & Hnew & Hkeep & Hframe).
  rewrite <- Hlinks in Hring.
  assert (forall a, In a (take k links) -> In a links) as Hin_take.
  { intros a Ha. rewrite Hlinks. apply in_or_app. by left. }
  assert (forall a, In a (drop k links) -> In a links) as Hin_drop.
  { intros a Ha. rewrite Hlinks. apply in_or_app. by right. }
  exists h'. rewrite !list_insert_after_cut. fold k.
  split; [done|]. split; [done|]. split; [done|]. split.
  - rewrite elements_app.
    change (elements h' (List.length h :: drop k links))
      with ((h' !! List.length h ≫= element) :: elements h' (drop k links)).
    apply fmap_Some_inv in Hnew as (on & -> & Hon). simpl. rewrite Hon.
    assert (forall xs, (forall a, In a xs -> In a links) ->
                       elements h' xs = elements h xs) as Hsame.
    { intros xs Hxs. apply elements_ext. intros a Ha. apply Hkeep.
      apply (ring_lookup h head links); [done|]. right. by apply Hxs. }
    rewrite !Hsame.
    + rewrite (elements_take h links s), (elements_drop h links s) by done.
      by rewrite map_app.
    + done.
    + done.
  - intros a Ha Hnin. apply Hframe; [| |done].
    + intros ->. apply Hnin.
      assert (In link (head :: take k links)) as Hin
        by (rewrite Hpre; apply in_or_app; right; by left).
      destruct Hin as [<-|Hin]; [by left|]. right. by apply Hin_take.
    + intros ->. apply Hnin.
      assert (In s0 (drop k links ++ [head])) as Hin
        by (rewrite Hpost; by left).
      apply in_app_or in Hin as [Hin|[<-|[]]]; [|by left]. right.
      by apply Hin_drop.
Qed.

End HeapRefines.

Section HeapSpliceRefines.
Context {E : Type}.
Import Heap.

Lemma list_snoc_cases {A} (l : list A) :
  l = [] \/ exists l' x, l = l' ++ [x].
Proof.
  induction l as [|a l IH] using rev_ind; [by left|]. right. by exists l, a.
Qed.

(** [insert_list_after_link(link, seq.head.next, seq.head.previous)], as
    [insert_te] calls it, on the heap and on the list model: the links
    of the second sequence come in after [link]; when that sequence is
    empty its [head.previous] is [None] and the call raises
    [AttributeError] before it has changed anything. *)
Lemma insert_list_after_link_refines (h : list (DoublyLink E))
    (head head2 : nat) (links mid : list nat) (s chain : list E)
    (l : DoublyLinkedListSequence.link) (link : nat) (o2 : DoublyLink E) :
  ring h head links -> elements h links = map Some s ->
  link_at head links l = Some link ->
  ring h head2 mid -> elements h mid = map Some chain ->
  (forall a, In a mid -> ~ In a (head :: links)) ->
  h !! head2 = Some o2 ->
  match chain with
  | [] =>
      insert_list_after_link (Some link) (next o2) (previous o2) h
      = (Raise AttributeError, h)
  | _ :: _ =>
      exists h',
        insert_list_after_link (Some link) (next o2) (previous o2) h
        = (Ret tt, h') /\
        List.length h' = List.length h /\
        ring h' head
          (DoublyLinkedListSequence.insert_list_after_link links l mid) /\
        elements h'
          (DoublyLinkedListSequence.insert_list_after_link links l mid)
        = map Some (DoublyLinkedListSequence.insert_list_after_link s l chain) /\
        (~ In head2 (head :: links) -> h' !! head2 = Some o2)
  end.
Proof.
  intros Hring Hel Hl Hring2 Hel2 Hdisj Ho2.
  pose proof (elements_length _ _ _ Hel2) as Hlen2.
  assert (link < List.length h)%nat as Hlink.
  { apply (ring_lookup h head links); [done|].
    destruct l as [|i]; simpl in Hl.
    - injection Hl as <-. by left.
    - right. apply list_elem_of_In. by eapply list_elem_of_lookup_2. }
  destruct chain as [|c chain].
  - destruct mid; [|done].
    pose proof (ring_empty _ _ _ Hring2 eq_refl) as Hp.
    rewrite Ho2 in Hp. injection Hp as ->.
    by apply insert_list_after_link_none.
  - destruct mid as [|b midt] eqn:Hb; [done|]. rewrite <- Hb in *.
    destruct (list_snoc_cases mid) as [Hnil|(midi & e & He)];
      [by rewrite Hb in Hnil|].
    destruct (ring_head_fields h head2 mid midt midi b e Hring2 Hb He)
      as (Hnb & Hpe & _ & _).
    unfold next_is in Hnb. unfold previous_is in Hpe.
    rewrite Ho2 in Hnb, Hpe. injection Hnb as ->. injection Hpe as ->.
    destruct (link_cut head links l link Hl) as (pre & s0 & post & Hpre & Hpost).
    set (k := cut_after l) in *.
    assert (links = take k links ++ drop k links) as Hlinks
      by (by rewrite take_drop).
    assert (NoDup mid) as Hndm.
    { pose proof (ring_nodup _ _ _ Hring2) as Hnd.
      by apply list.NoDup_cons in Hnd as [_ Hnd]. }
    assert (NoDup (head :: take k links ++ mid ++ drop k links)) as Hnd.
    { apply NoDup_interleave; [|done|].
      - rewrite <- Hlinks. by apply (ring_nodup h).
      - by rewrite <- Hlinks. }
    rewrite Hlinks in Hring.
    destruct (insert_list_after_link_ring h head head2 (take k links)
                (drop k links) mid pre post midt midi link s0 b e
                Hring Hring2 Hpre Hpost Hb He Hnd)
      as (h' & Hrun & Hlen & Hring' & Hkeep & Hframe).
    exists h'. rewrite !list_insert_list_cut. fold k.
    split; [done|]. split; [done|]. split; [done|]. split.
    { rewrite !elements_app.
      rewrite !(elements_ext h h') by (intros; apply Hkeep).
      rewrite (elements_take h links s), (elements_drop h links s) by done.
      by rewrite Hel2, !map_app. }
    intros Hhead2. rewrite <- Ho2.
    pose proof (ring_nodup _ _ _ Hring2) as Hnd2.
    apply list.NoDup_cons in Hnd2 as [Hnd2 _]. rewrite list_elem_of_In in Hnd2.
    assert (forall a, In a (head :: take k links) -> In a (head :: links))
      as Hin_take.
    { intros a [<-|Ha]; [by left|]. right. rewrite Hlinks.
      apply in_or_app. by left. }
    apply Hframe.
    + intros ->. apply Hhead2, Hin_take. rewrite Hpre.
      apply in_or_app. right. by left.
    + intros ->. apply Hhead2.
      assert (In s0 (drop k links ++ [head])) as Hin by (rewrite Hpost; by left).
      apply in_app_or in Hin as [Hin|[<-|[]]]; [|by left].
      right. rewrite Hlinks. apply in_or_app. by right.
    + intros ->. apply Hnd2. rewrite Hb. by left.
    + intros ->. apply Hnd2. rewrite He. apply in_or_app. right. by left.
Qed.

End HeapSpliceRefines.

(** * Further properties of the code *)

(** ** The linked sequence *)

(** Proves that a heap given in full holds a ring. *)
Ltac ring_evaluate :=
  constructor;
  [ repeat (apply NoDup_cons_2 || apply NoDup_nil_2);
    rewrite list_elem_of_In; vm_compute; intuition discriminate
  | vm_compute; repeat split
  | let H := fresh in
    intros H;
    first [ exfalso; apply H; reflexivity | clear H; vm_compute; repeat split ]
  | intros; first [discriminate | vm_compute; reflexivity] ].

Lemma concat_symbols (s : list LinkedListGenome.Nucleotide) :
  String.concat "" (map (fun e => Heap.str_of_element (Some e)) s)
  = string_of_list_ascii (map LinkedListGenome.symbol s).
Proof.
  induction s as [|e s IH]; [done|].
  cbn [map string_of_list_ascii]. rewrite <- IH.
  destruct (map (fun e0 => Heap.str_of_element (Some e0)) s); done.
Qed.

(** X1.  [DoublyLinkedListSequence(seq)] allocates a head and, after it,
    one link for each element of [seq], and leaves the objects that
    were there as they were.  Head and links form a ring in which the
    links come in the reverse of the order of [seq], since every element
    is inserted right after the head: the elements read from the head
    on are [seq] reversed, which is what the list model of [__init__]
    gives.  [head.previous] is [None] for an empty [seq] and the link
    made first otherwise. *)
Theorem X1_sequence_init_reverses {E : Type} (seq : list E)
    (h : list (Heap.DoublyLink E)) :
  let head := List.length h in
  let links := rev (List.seq (S head) (List.length seq)) in
  exists h',
    Heap.init seq h = (Ret head, h') /\
    Heap.ring h' head links /\
    Heap.elements h' links = map Some (rev seq) /\
    DoublyLinkedListSequence.init seq = rev seq /\
    Heap.previous <$> h' !! head
      = Some (match seq with [] => None | _ :: _ => Some (S head) end) /\
    (forall a, (a < head)%nat -> h' !! a = h !! a).
Proof.
  intros head links.
  destruct (init_ring seq h) as (h' & Hrun & _ & Hring & Hel & Hprev & Hframe).
  exists h'. split; [done|]. split; [done|]. split; [done|].
  split; [apply list_init_rev|]. split; [|done].
  destruct seq as [|x seq].
  - by apply (Heap.ring_empty _ _ _ Hring).
  - by apply Hprev.
Qed.

(** X2.  On a well-formed sequence [__len__] ends and returns the number
    of links, which is the length of the list that the sequence stands
    for. *)
Theorem X2_len_counts_links {E : Type} (h : list (Heap.DoublyLink E))
    (head : nat) (links : list nat) (s : list E) (fuel : nat) :
  Heap.ring h head links -> Heap.elements h links = map Some s ->
  (List.length links < fuel)%nat ->
  Heap.len fuel h head = Some (Ret (DoublyLinkedListSequence.len s)).
Proof.
  intros Hring Hel Hfuel. rewrite (len_ring h head links) by done.
  unfold DoublyLinkedListSequence.len.
  by rewrite (elements_length _ _ _ Hel).
Qed.

(** The sequence made from [[1; 2; 3]] in an empty heap. *)
Lemma X2_witness :
  let h := snd (Heap.init [1; 2; 3] []) in
  Heap.ring h 0 [3; 2; 1]%nat /\
  Heap.elements h [3; 2; 1]%nat = map Some [3; 2; 1] /\
  Heap.len 4 h 0 = Some (Ret 3).
Proof.
  intros h.
  assert (Heap.ring h 0 [3; 2; 1]%nat) as Hring by ring_evaluate.
  assert (Heap.elements h [3; 2; 1]%nat = map Some [3; 2; 1]) as Hel
    by reflexivity.
  split; [exact Hring|]. split; [exact Hel|].
  apply (X2_len_counts_links h 0 [3; 2; 1]%nat [3; 2; 1] 4 Hring Hel).
  simpl. lia.
Defined.

(** X3.  On a well-formed sequence of nucleotides [__str__] ends and
    returns the symbols of the elements in the order of the links, the
    string that [LinkedListGenome.__str__] returns in the list model. *)
Theorem X3_str_joins_symbols (h : list (Heap.DoublyLink LinkedListGenome.Nucleotide))
    (head : nat) (links : list nat) (s : list LinkedListGenome.Nucleotide)
    (tes : list LinkedListGenome.TE) (fuel : nat) :
  Heap.ring h head links -> Heap.elements h links = map Some s ->
  (List.length links < fuel)%nat ->
  Heap.str Heap.str_of_element fuel h head
  = Some (Ret (LinkedListGenome.str (LinkedListGenome.mk s tes))).
Proof.
  intros Hring Hel Hfuel.
  rewrite (str_ring Heap.str_of_element h head links) by done.
  rewrite Hel, map_map. by rewrite concat_symbols.
Qed.

(** A sequence of three nucleotides. *)
Lemma X3_witness :
  let nucleotides := [LinkedListGenome.mkNucleotide "-"%char None;
                      LinkedListGenome.mkNucleotide "A"%char (Some 1);
                      LinkedListGenome.mkNucleotide "x"%char (Some 2)] in
  let h := snd (Heap.init nucleotides []) in
  Heap.ring h 0 [3; 2; 1]%nat /\
  Heap.elements h [3; 2; 1]%nat = map Some (rev nucleotides) /\
  Heap.str Heap.str_of_element 4 h 0 = Some (Ret "xA-"%string).
Proof.
  intros nucleotides h.
  assert (Heap.ring h 0 [3; 2; 1]%nat) as Hring by ring_evaluate.
  assert (Heap.elements h [3; 2; 1]%nat = map Some (rev nucleotides)) as Hel
    by reflexivity.
  split; [exact Hring|]. split; [exact Hel|].
  apply (X3_str_joins_symbols h 0 [3; 2; 1]%nat (rev nucleotides) [] 4 Hring Hel).
  simpl. lia.
Defined.

(** X4.  On a well-formed sequence [get_link_at_index] ends.  It raises
    [IndexError('Negative Index')] for a negative index, returns the
    link at the index when there is one, and raises
    [IndexError('Index out of range')] otherwise: it does what the list
    model does, link for link. *)
Theorem X4_get_link_at_index_refines {E : Type} (h : list (Heap.DoublyLink E))
    (head : nat) (links : list nat) (s : list E) (fuel : nat) (index : Z) :
  Heap.ring h head links -> Heap.elements h links = map Some s ->
  (List.length links < fuel)%nat ->
  Heap.get_link_at_index fuel h head index
  = Some (match DoublyLinkedListSequence.get_link_at_index s index with
          | Ret l => Ret (Heap.link_at head links l)
          | Raise e => Raise e
          end) /\
  (index < 0 ->
   Heap.get_link_at_index fuel h head index
   = Some (Raise (IndexError "Negative Index"))) /\
  (0 <= index < Z.of_nat (List.length links) ->
   exists a, links !! Z.to_nat index = Some a /\
             Heap.get_link_at_index fuel h head index = Some (Ret (Some a))) /\
  (Z.of_nat (List.length links) <= index ->
   Heap.get_link_at_index fuel h head index
   = Some (Raise (IndexError "Index out of range"))).
Proof.
  intros Hring Hel Hfuel.
  split; [by apply get_link_refines|].
  rewrite (get_link_ring h head links) by done.
  split; [|split].
  - intros Hneg. by rewrite (proj2 (Z.ltb_lt index 0)) by done.
  - intros Hin. rewrite (proj2 (Z.ltb_ge index 0)) by lia.
    destruct (links !! Z.to_nat index) as [a|] eqn:Ha.
    + by exists a.
    + apply lookup_ge_None_1 in Ha. lia.
  - intros Hout. rewrite (proj2 (Z.ltb_ge index 0)) by lia.
    by rewrite lookup_ge_None_2 by lia.
Qed.

Lemma X4_witness :
  let h := snd (Heap.init [1; 2; 3] []) in
  Heap.ring h 0 [3; 2; 1]%nat /\
  Heap.elements h [3; 2; 1]%nat = map Some [3; 2; 1] /\
  Heap.get_link_at_index 4 h 0 1 = Some (Ret (Some 2%nat)) /\
  Heap.get_link_at_index 4 h 0 3 = Some (Raise (IndexError "Index out of range")).
Proof.
  intros h.
  assert (Heap.ring h 0 [3; 2; 1]%nat) as Hring by ring_evaluate.
  assert (Heap.elements h [3; 2; 1]%nat = map Some [3; 2; 1]) as Hel
    by reflexivity.
  split; [exact Hring|]. split; [exact Hel|]. split.
  - apply (X4_get_link_at_index_refines h 0 [3; 2; 1]%nat [3; 2; 1] 4 1 Hring Hel).
    simpl. lia.
  - apply (X4_get_link_at_index_refines h 0 [3; 2; 1]%nat [3; 2; 1] 4 3 Hring Hel);
      simpl; lia.
Defined.

(** X5.  On a well-formed sequence [get_element_at_index] ends and gives
    what the list model gives: the element at the index, or the
    [IndexError] of [get_link_at_index]. *)
Theorem X5_get_element_at_index_refines {E : Type} (h : list (Heap.DoublyLink E))
    (head : nat) (links : list nat) (s : list E) (fuel : nat) (index : Z) :
  Heap.ring h head links -> Heap.elements h links = map Some s ->
  (List.length links < fuel)%nat ->
  Heap.get_element_at_index fuel h head index
  = Some (match DoublyLinkedListSequence.get_element_at_index s index with
          | Ret e => Ret (Some e)
          | Raise e => Raise e
          end).
Proof. apply get_element_refines. Qed.

Lemma X5_witness :
  let h := snd (Heap.init [1; 2; 3] []) in
  Heap.ring h 0 [3; 2; 1]%nat /\
  Heap.elements h [3; 2; 1]%nat = map Some [3; 2; 1] /\
  Heap.get_element_at_index 4 h 0 2 = Some (Ret (Some 1)).
Proof.
  intros h.
  assert (Heap.ring h 0 [3; 2; 1]%nat) as Hring by ring_evaluate.
  assert (Heap.elements h [3; 2; 1]%nat = map Some [3; 2; 1]) as Hel
    by reflexivity.
  split; [exact Hring|]. split; [exact Hel|].
  apply (X5_get_element_at_index_refines h 0 [3; 2; 1]%nat [3; 2; 1] 4 2 Hring Hel).
  simpl. lia.
Defined.

(** X6.  On a well-formed sequence [set_at_index] ends and does what the
    list model does: at an index of the sequence it replaces the element
    there, keeps the links and every other element, and touches no
    object outside the sequence; at any other index it raises the
    [IndexError] of [get_link_at_index] and changes nothing. *)
Theorem X6_set_at_index_refines {E : Type} (h : list (Heap.DoublyLink E))
    (head : nat) (links : list nat) (s : list E) (fuel : nat) (index : Z)
    (x : E) :
  Heap.ring h head links -> Heap.elements h links = map Some s ->
  (List.length links < fuel)%nat ->
  match DoublyLinkedListSequence.set_at_index s index x with
  | Ret s' =>
      exists h', Heap.set_at_index fuel head index x h = Some (Ret tt, h') /\
                 Heap.ring h' head links /\
                 Heap.elements h' links = map Some s' /\
                 List.length h' = List.length h /\
                 (forall a, ~ In a links -> h' !! a = h !! a)
  | Raise e => Heap.set_at_index fuel head index x h = Some (Raise e, h)
  end.
Proof. apply set_at_index_refines. Qed.

Lemma X6_witness :
  let h := snd (Heap.init [1; 2; 3] []) in
  Heap.ring h 0 [3; 2; 1]%nat /\
  Heap.elements h [3; 2; 1]%nat = map Some [3; 2; 1] /\
  exists h', Heap.set_at_index 4 0 1 7 h = Some (Ret tt, h') /\
             Heap.elements h' [3; 2; 1]%nat = map Some [3; 7; 1].
Proof.
  intros h.
  assert (Heap.ring h 0 [3; 2; 1]%nat) as Hring by ring_evaluate.
  assert (Heap.elements h [3; 2; 1]%nat = map Some [3; 2; 1]) as Hel
    by reflexivity.
  split; [exact Hring|]. split; [exact Hel|].
  destruct (X6_set_at_index_refines h 0 [3; 2; 1]%nat [3; 2; 1] 4 1 7 Hring Hel)
    as (h' & Hset & _ & Hel' & _); [simpl; lia|].
  exists h'. by split.
Defined.

(** X7.  What [set_at_index] stores at an index of a well-formed
    sequence, [get_element_at_index] reads back at that index, and at
    every other index it reads what it read before. *)
Theorem X7_set_then_get {E : Type} (h : list (Heap.DoublyLink E))
    (head : nat) (links : list nat) (s : list E) (fuel : nat) (index : Z)
    (x : E) :
  Heap.ring h head links -> Heap.elements h links = map Some s ->
  (List.length links < fuel)%nat ->
  0 <= index < Z.of_nat (List.length links) ->
  exists h',
    Heap.set_at_index fuel head index x h = Some (Ret tt, h') /\
    Heap.get_element_at_index fuel h' head index = Some (Ret (Some x)) /\
    (forall j, j <> index ->
       Heap.get_element_at_index fuel h' head j
       = Heap.get_element_at_index fuel h head j).
Proof.
  intros Hring Hel Hfuel Hindex.
  pose proof (elements_length _ _ _ Hel) as Hlen.
  pose proof (set_at_index_refines h head links s fuel index x Hring Hel Hfuel)
    as Hset.
  unfold DoublyLinkedListSequence.set_at_index,
    DoublyLinkedListSequence.get_link_at_index in Hset.
  unfold DoublyLinkedListSequence.t in Hset.
  rewrite (proj2 (Z.ltb_ge index 0)) in Hset by lia.
  destruct (s !! Z.to_nat index) as [e|] eqn:He;
    [|apply lookup_ge_None_1 in He; lia].
  destruct Hset as (h' & Hrun & Hring' & Hel' & _).
  simpl in Hel'.
  exists h'. split; [done|].
  split.
  - rewrite (get_element_refines h' head links _ fuel index Hring' Hel' Hfuel).
    unfold DoublyLinkedListSequence.get_element_at_index,
      DoublyLinkedListSequence.get_link_at_index.
    unfold DoublyLinkedListSequence.t.
    rewrite (proj2 (Z.ltb_ge index 0)) by lia.
    rewrite list_lookup_insert_eq by lia. simpl.
    unfold DoublyLinkedListSequence.t.
    by rewrite list_lookup_insert_eq by lia.
  - intros j Hj.
    rewrite (get_element_refines h' head links _ fuel j Hring' Hel' Hfuel).
    rewrite (get_element_refines h head links s fuel j Hring Hel Hfuel).
    unfold DoublyLinkedListSequence.get_element_at_index,
      DoublyLinkedListSequence.get_link_at_index.
    unfold DoublyLinkedListSequence.t.
    destruct (Z.ltb_spec j 0) as [Hneg|Hpos]; [done|].
    rewrite list_lookup_insert_ne by lia.
    destruct (s !! Z.to_nat j) as [ej|] eqn:Hej; [|done]. simpl.
    unfold DoublyLinkedListSequence.t.
    by rewrite list_lookup_insert_ne, Hej by lia.
Qed.

Lemma X7_witness :
  let h := snd (Heap.init [1; 2; 3] []) in
  Heap.ring h 0 [3; 2; 1]%nat /\
  Heap.elements h [3; 2; 1]%nat = map Some [3; 2; 1] /\
  exists h', Heap.set_at_index 4 0 1 7 h = Some (Ret tt, h') /\
             Heap.get_element_at_index 4 h' 0 1 = Some (Ret (Some 7)).
Proof.
  intros h.
  assert (Heap.ring h 0 [3; 2; 1]%nat) as Hring by ring_evaluate.
  assert (Heap.elements h [3; 2; 1]%nat = map Some [3; 2; 1]) as Hel
    by reflexivity.
  split; [exact Hring|]. split; [exact Hel|].
  destruct (X7_set_then_get h 0 [3; 2; 1]%nat [3; 2; 1] 4 1 7 Hring Hel)
    as (h' & Hset & Hget & _); [simpl; lia..|].
  exists h'. by split.
Defined.

(** X8.  [insert_after(link, x)] on the head or a link of a well-formed
    sequence allocates one link with element [x] and hooks it in right
    after [link]: the sequence is well-formed again, stands for the list
    that the list model gives, and no object outside the sequence has
    changed. *)
Theorem X8_insert_after_refines {E : Type} (h : list (Heap.DoublyLink E))
    (head : nat) (links : list nat) (s : list E)
    (l : DoublyLinkedListSequence.link) (link : nat) (x : E) :
  Heap.ring h head links -> Heap.elements h links = map Some s ->
  Heap.link_at head links l = Some link ->
  exists h',
    Heap.insert_after (Some link) x h = (Ret tt, h') /\
    List.length h' = S (List.length h) /\
    Heap.ring h' head
      (DoublyLinkedListSequence.insert_after links l (List.length h)) /\
    Heap.elements h'
      (DoublyLinkedListSequence.insert_after links l (List.length h))
    = map Some (DoublyLinkedListSequence.insert_after s l x) /\
    (forall a, (a < List.length h)%nat -> ~ In a (head :: links) ->
               h' !! a = h !! a).
Proof. apply insert_after_refines. Qed.

Lemma X8_witness :
  let h := snd (Heap.init [1; 2; 3] []) in
  Heap.ring h 0 [3; 2; 1]%nat /\
  Heap.elements h [3; 2; 1]%nat = map Some [3; 2; 1] /\
  exists h', Heap.insert_after (Some 2%nat) 7 h = (Ret tt, h') /\
             Heap.ring h' 0 [3; 2; 4; 1]%nat /\
             Heap.elements h' [3; 2; 4; 1]%nat = map Some [3; 2; 7; 1].
Proof.
  intros h.
  assert (Heap.ring h 0 [3; 2; 1]%nat) as Hring by ring_evaluate.
  assert (Heap.elements h [3; 2; 1]%nat = map Some [3; 2; 1]) as Hel
    by reflexivity.
  split; [exact Hring|]. split; [exact Hel|].
  destruct (X8_insert_after_refines h 0 [3; 2; 1]%nat [3; 2; 1]
              (DoublyLinkedListSequence.Link 1) 2 7 Hring Hel)
    as (h' & Hrun & _ & Hring' & Hel' & _); [reflexivity|].
  exists h'. split; [exact Hrun|]. split; [exact Hring'|exact Hel'].
Defined.

(** X9.  [insert_list_after_link(link, seq.head.next, seq.head.previous)],
    the call that [insert_te] makes, with [link] the head or a link of a
    well-formed sequence and [seq] a second well-formed sequence that
    shares no link with the first: when [seq] is not empty, all its
    links are hooked in after [link] in their order and no element
    changes, as in the list model; when [seq] is empty, its
    [head.previous] is [None] and the call raises [AttributeError]
    without having changed anything.  The head of the second sequence
    keeps its attributes. *)
Theorem X9_insert_list_after_link_refines {E : Type}
    (h : list (Heap.DoublyLink E)) (head head2 : nat) (links mid : list nat)
    (s chain : list E) (l : DoublyLinkedListSequence.link) (link : nat)
    (o2 : Heap.DoublyLink E) :
  Heap.ring h head links -> Heap.elements h links = map Some s ->
  Heap.link_at head links l = Some link ->
  Heap.ring h head2 mid -> Heap.elements h mid = map Some chain ->
  (forall a, In a mid -> ~ In a (head :: links)) ->
  h !! head2 = Some o2 ->
  match chain with
  | [] =>
      Heap.insert_list_after_link (Some link) (Heap.next o2) (Heap.previous o2) h
      = (Raise AttributeError, h)
  | _ :: _ =>
      exists h',
        Heap.insert_list_after_link (Some link) (Heap.next o2) (Heap.previous o2) h
        = (Ret tt, h') /\
        List.length h' = List.length h /\
        Heap.ring h' head
          (DoublyLinkedListSequence.insert_list_after_link links l mid) /\
        Heap.elements h'
          (DoublyLinkedListSequence.insert_list_after_link links l mid)
        = map Some (DoublyLinkedListSequence.insert_list_after_link s l chain) /\
        (~ In head2 (head :: links) -> h' !! head2 = Some o2)
  end.
Proof. apply insert_list_after_link_refines. Qed.

(** The sequence of [[1; 2; 3]], and after it in the heap the sequence
    of [[10; 20]], which is hooked in after the first link of the
    other. *)
Lemma X9_witness :
  let h := snd (Heap.init [10; 20] (snd (Heap.init [1; 2; 3] []))) in
  Heap.ring h 0 [3; 2; 1]%nat /\
  Heap.elements h [3; 2; 1]%nat = map Some [3; 2; 1] /\
  Heap.ring h 4 [6; 5]%nat /\
  Heap.elements h [6; 5]%nat = map Some [20; 10] /\
  exists h',
    Heap.insert_list_after_link (Some 3%nat) (Some 6%nat) (Some 5%nat) h
    = (Ret tt, h') /\
    Heap.ring h' 0 [3; 6; 5; 2; 1]%nat /\
    Heap.elements h' [3; 6; 5; 2; 1]%nat = map Some [3; 20; 10; 2; 1].
Proof.
  intros h.
  assert (Heap.ring h 0 [3; 2; 1]%nat) as Hring by ring_evaluate.
  assert (Heap.elements h [3; 2; 1]%nat = map Some [3; 2; 1]) as Hel
    by reflexivity.
  assert (Heap.ring h 4 [6; 5]%nat) as Hring2 by ring_evaluate.
  assert (Heap.elements h [6; 5]%nat = map Some [20; 10]) as Hel2
    by reflexivity.
  split; [exact Hring|]. split; [exact Hel|].
  split; [exact Hring2|]. split; [exact Hel2|].
  destruct (X9_insert_list_after_link_refines h 0 4 [3; 2; 1]%nat [6; 5]%nat
              [3; 2; 1] [20; 10] (DoublyLinkedListSequence.Link 0) 3
              (Heap.mkLink None (Some 5%nat) (Some 6%nat) (Some 4%nat))
              Hring Hel eq_refl Hring2 Hel2)
    as (h' & Hrun & _ & Hring' & Hel' & _).
  - intros a Ha Hb. simpl in Ha, Hb. lia.
  - reflexivity.
  - exists h'. split; [exact Hrun|]. split; [exact Hring'|exact Hel'].
Defined.

(** ** The two realizations of the genome *)

(** X10.  As long as every call meets its precondition and [copy_te]
    and [disable_te] are applied to Active TEs only, [ListGenome] and
    [LinkedListGenome] cannot be told apart: started with the same
    length and given the same calls, they return the same values call
    by call, no call raises, and at the end they have the same length,
    the same string and the same list of Active TEs. *)
Theorem X10_realizations_agree_on_active (n : Z) (cs : list call) :
  Realizations.all_on_active cs (ListGenome.init n) ->
  let l := snd (ListGenome.run cs (ListGenome.init n)) in
  let k := snd (LinkedListGenome.run cs (LinkedListGenome.init n)) in
  fst (LinkedListGenome.run cs (LinkedListGenome.init n))
    = fst (ListGenome.run cs (ListGenome.init n)) /\
  Forall (fun o => is_ret o = true) (fst (ListGenome.run cs (ListGenome.init n))) /\
  LinkedListGenome.len k = ListGenome.len l /\
  LinkedListGenome.str k = ListGenome.str l /\
  LinkedListGenome.active_tes k = ListGenome.active_tes l.
Proof.
  intros Hcs l k.
  destruct (realizations_agree_on_active n cs Hcs) as (H1 & H2 & H3 & H4).
  split; [done|]. split; [|done].
  apply list_run_on_active_returns; [apply list_wf_init|done].
Qed.

(** Two insertions, the second into the first, a copy and a
    [disable_te] of the copy, on a genome of 20 positions. *)
Lemma X10_witness :
  let cs := [Insert_te 5 10; Insert_te 10 10; Copy_te 2 20; Disable_te 3;
             Active_tes; Len; Str] in
  Realizations.all_on_active cs (ListGenome.init 20) /\
  fst (LinkedListGenome.run cs (LinkedListGenome.init 20))
    = fst (ListGenome.run cs (ListGenome.init 20)) /\
  LinkedListGenome.str (snd (LinkedListGenome.run cs (LinkedListGenome.init 20)))
    = ListGenome.str (snd (ListGenome.run cs (ListGenome.init 20))).
Proof.
  intros cs.
  assert (Realizations.all_on_active cs (ListGenome.init 20)) as Hcs
    by (vm_compute; repeat split; discriminate).
  split; [exact Hcs|].
  destruct (X10_realizations_agree_on_active 20 cs Hcs) as (H1 & _ & _ & H3 & _).
  split; [exact H1|exact H3].
Defined.

(** X11.  In every state that valid calls reach on [ListGenome], whether
    they returned or raised, the data model holds: the Active TEs have
    distinct ids that the counter has handed out, the range of each lies
    in the genome and holds the Active symbol of its TE at every
    position, every Active symbol lies in the range of the Active record
    of its TE, and no two Active ranges intersect. *)
Theorem X11_list_data_model (self : ListGenome.t) :
  ListGenomeSpec.reachable self ->
  ListGenomeSpec.wf self /\
  no_overlap (ListGenome.len self) (ListGenomeSpec.active_records self).
Proof.
  intros Hr. split; [by apply list_reachable_wf|].
  by apply list_reachable_no_overlap.
Qed.

Lemma X11_witness :
  let cs := [Insert_te 5 10; Insert_te 10 10; Copy_te 2 20; Disable_te 1] in
  let self := snd (ListGenome.run cs (ListGenome.init 20)) in
  ListGenomeSpec.reachable self /\
  no_overlap (ListGenome.len self) (ListGenomeSpec.active_records self).
Proof.
  intros cs self.
  assert (ListGenomeSpec.reachable self) as Hr.
  { apply list_reachable_run; [by constructor|].
    vm_compute. repeat split; first [discriminate | (left; reflexivity)
                                     | (right; reflexivity)]. }
  split; [exact Hr|]. exact (proj2 (X11_list_data_model self Hr)).
Defined.

(** ** [insert_te] and [disable_te] call by call *)

Section ListCalls.
Import ListGenome ListGenomeSpec.

(** X12.  [ListGenome.insert_te(pos, length)] at a position of the
    genome whose symbol is not Active, for an id that is not yet a key
    of [active_TEs], disables nothing: it returns the next id, appends
    that id to the Active TEs, leaves [inactive_TEs] alone, makes the
    genome [length] longer, keeps every symbol that was there (in place
    before [pos], [length] places to the right from [pos] on) and puts
    the Active symbol of the new TE at the [length] positions from
    [pos]. *)
Theorem X12_list_insert_te_free_position (self : t) (pos length : Z)
    (c : ascii) (k : Z) :
  0 <= pos < len self -> 0 <= length ->
  symbol_at self pos = Some (c, k) -> c <> "A"%char ->
  ~ In (number_of_TEs self + 1) (Py.dict_keys (active_TEs self)) ->
  let id := number_of_TEs self + 1 in
  exists self',
    insert_te pos length self = (Ret id, self') /\
    active_tes self' = active_tes self ++ [id] /\
    Py.dict_get (active_TEs self') id = Some (pos, length) /\
    inactive_TEs self' = inactive_TEs self /\
    number_of_TEs self' = id /\
    len self' = len self + length /\
    (forall i, 0 <= i < len self ->
       symbol_at self' (moved pos length i) = symbol_at self i) /\
    (forall i, in_range (pos, length) i ->
       symbol_at self' i = Some ("A"%char, id)).
Proof.
  intros Hpos Hlength Hsym Hc Hfresh id.
  rewrite list_insert_te_unfold. cbv zeta.
  rewrite list_getitem_symbol_at, Hsym by done.
  unfold collide. cbn [fst].
  destruct (Ascii.eqb_spec c "A"%char) as [->|_]; [done|].
  unfold ret. cbn [active_TEs inactive_TEs genome number_of_TEs
                   set_number_of_TEs].
  eexists. split; [reflexivity|].
  unfold active_tes, len in *. cbn [active_TEs inactive_TEs genome number_of_TEs].
  assert (Z.of_nat (List.length (repeat ("A"%char, id) (Z.to_nat length)))
          = length) as Hrep by (rewrite repeat_length; lia).
  split.
  { rewrite dict_keys_shift, dict_set_fresh by done.
    unfold Py.dict_keys. by rewrite map_app. }
  split.
  { rewrite (dict_get_map _ (fun _ r => (shifted pos length (fst r), snd r))).
    - rewrite dict_get_set_eq. simpl. unfold shifted.
      by rewrite Z.ltb_irrefl.
    - intros k' [s0 l0]. unfold shift_record, shifted. simpl.
      by destruct (pos <? s0). }
  split; [done|]. split; [done|]. split.
  { rewrite length_slice_insert, repeat_length. lia. }
  split.
  - intros i Hi.
    rewrite list_symbol_at_nonneg by (apply moved_nonneg; lia).
    rewrite list_symbol_at_nonneg by lia. cbn [genome].
    rewrite <- Hrep at 1. apply lookup_slice_insert_moved; lia.
  - intros i Hi. unfold in_range in Hi. simpl in Hi.
    rewrite list_symbol_at_nonneg by lia. cbn [genome]. fold id.
    rewrite lookup_slice_insert_new by (rewrite ?Hrep; lia).
    apply lookup_repeat. lia.
Qed.

Lemma X12_witness :
  let self := snd (insert_te 5 10 (init 20)) in
  0 <= 2 < len self /\ symbol_at self 2 = Some ("-"%char, 0) /\
  exists self',
    insert_te 2 3 self = (Ret 2, self') /\
    active_tes self' = [1; 2].
Proof.
  intros self.
  assert (0 <= 2 < len self) as Hpos by (vm_compute; split; [discriminate|reflexivity]).
  assert (symbol_at self 2 = Some ("-"%char, 0)) as Hsym by reflexivity.
  split; [exact Hpos|]. split; [exact Hsym|].
  destruct (X12_list_insert_te_free_position self 2 3 "-"%char 0 Hpos
              ltac:(lia) Hsym ltac:(discriminate))
    as (self' & Hrun & Hact & _).
  - vm_compute. intros [H|[]]. discriminate.
  - exists self'. split; [exact Hrun|exact Hact].
Defined.

(** X13.  [ListGenome.disable_te(te)] on an Active TE whose range lies
    in the genome returns, moves the record of [te] from [active_TEs] to
    [inactive_TEs] unchanged, leaves every other record, the counter and
    the length alone, turns the symbol at every position of the range
    into the Inactive symbol of [te] and keeps every other symbol. *)
Theorem X13_list_disable_te_active (self : t) (te start len0 : Z) :
  Py.dict_get (active_TEs self) te = Some (start, len0) ->
  0 <= start -> start + len0 <= len self ->
  exists self',
    disable_te te self = (Ret tt, self') /\
    Py.dict_get (active_TEs self') te = None /\
    Py.dict_get (inactive_TEs self') te = Some (start, len0) /\
    (forall j, j <> te ->
       Py.dict_get (active_TEs self') j = Py.dict_get (active_TEs self) j /\
       Py.dict_get (inactive_TEs self') j = Py.dict_get (inactive_TEs self) j) /\
    number_of_TEs self' = number_of_TEs self /\
    len self' = len self /\
    (forall i, in_range (start, len0) i ->
       symbol_at self' i = Some ("x"%char, te)) /\
    (forall i, ~ in_range (start, len0) i ->
       symbol_at self' i = symbol_at self i).
Proof.
  intros Hrec Hstart Hend.
  destruct (list_disable_te_ok te start len0 self Hrec Hstart Hend)
    as (g' & Hrun & Hlen & Hin & Hout).
  eexists. split; [exact Hrun|].
  cbn [active_TEs inactive_TEs genome number_of_TEs].
  split; [apply dict_get_remove_eq|].
  split; [apply dict_get_set_eq|].
  split.
  { intros j Hj. split.
    - by apply dict_get_remove_ne.
    - by apply dict_get_set_ne. }
  split; [done|]. split; [unfold len; simpl; by rewrite Hlen|].
  split.
  - intros i Hi. pose proof Hi as Hi'. unfold in_range in Hi'. simpl in Hi'.
    rewrite list_symbol_at_nonneg by lia. by apply Hin.
  - intros i Hi. unfold symbol_at. destruct (Z.ltb_spec i 0); [done|].
    by apply Hout.
Qed.

Lemma X13_witness :
  let self := snd (insert_te 5 10 (init 20)) in
  Py.dict_get (active_TEs self) 1 = Some (5, 10) /\
  exists self',
    disable_te 1 self = (Ret tt, self') /\
    str self' = "-----xxxxxxxxxx---------------"%string.
Proof.
  intros self.
  assert (Py.dict_get (active_TEs self) 1 = Some (5, 10)) as Hrec
    by reflexivity.
  split; [exact Hrec|].
  destruct (X13_list_disable_te_active self 1 5 10 Hrec)
    as (self' & Hrun & _); [lia|vm_compute; discriminate|].
  exists self'. split; [exact Hrun|].
  assert (self' = snd (disable_te 1 self)) as -> by (by rewrite Hrun).
  reflexivity.
Defined.

End ListCalls.

Section LinkedCalls.
Import LinkedListGenome LinkedListGenomeSpec.

(** X14.  [LinkedListGenome.disable_te(te)] for an id [te >= 1] whose
    record [tes[te - 1]] has its range in the genome returns, whatever
    the status of the record.  It sets the status of that record to
    Inactive and changes nothing else of [tes]; the nucleotide at every
    position of the range gets the symbol [x] and keeps its id, every
    other nucleotide and the length of the genome stay as they were. *)
Theorem X14_linked_disable_te_in_range (self : t) (te : Z) (r : TE) :
  1 <= te -> tes self !! Z.to_nat (te - 1) = Some r ->
  0 <= te_pos r -> te_pos r + te_length r <= len self ->
  exists self',
    disable_te te self = (Ret tt, self') /\
    tes self' = alter disable_record (Z.to_nat (te - 1)) (tes self) /\
    len self' = len self /\
    (forall i, in_range (te_pos r, te_length r) i ->
       symbol_at self' i
       = (fun e => mkNucleotide "x"%char (id e)) <$> symbol_at self i) /\
    (forall i, ~ in_range (te_pos r, te_length r) i ->
       symbol_at self' i = symbol_at self i).
Proof.
  intros Hte Hr Hstart Hend.
  pose proof (lookup_lt_Some _ _ _ Hr) as Hlt.
  assert (Py.norm_index (List.length (tes self)) (te - 1)
          = Some (Z.to_nat (te - 1))) as Hidx
    by (apply norm_index_nonneg; lia).
  destruct (linked_symbol_loop_ok
              (Py.range (te_pos r) (te_pos r + te_length r)) "x"%char self)
    as (g' & Hloop & Hlen & Hin & Hout).
  { intros n Hn. apply elem_of_range in Hn. lia. }
  exists (mk g' (alter disable_record (Z.to_nat (te - 1)) (tes self))).
  split.
  { unfold disable_te.
    rewrite (bind_ret_l _ _ self self r)
      by (unfold tes_getitem, Py.getitem; by rewrite Hidx, Hr).
    rewrite (bind_ret_l _ _ _ _ _ Hloop).
    unfold tes_set_inactive. cbn [tes]. by rewrite Hidx. }
  split; [done|].
  split; [unfold len, DLL.len; simpl; by rewrite Hlen|].
  split.
  - intros i Hi. pose proof Hi as Hi'. unfold in_range in Hi'. simpl in Hi'.
    rewrite !linked_symbol_at_nonneg by lia. cbn [genome].
    apply Hin. apply elem_of_range. lia.
  - intros i Hi. unfold symbol_at. destruct (Z.ltb_spec i 0); [done|].
    cbn [genome]. apply Hout. rewrite elem_of_range.
    unfold in_range in Hi. simpl in Hi. lia.
Qed.

Lemma X14_witness :
  let self := snd (insert_te 5 10 (init 20)) in
  tes self !! Z.to_nat (1 - 1) = Some (mkTE 1 5 10 active) /\
  exists self',
    disable_te 1 self = (Ret tt, self') /\
    tes self' = [mkTE 1 5 10 inactive].
Proof.
  intros self.
  assert (tes self !! Z.to_nat (1 - 1) = Some (mkTE 1 5 10 active)) as Hr
    by reflexivity.
  split; [exact Hr|].
  destruct (X14_linked_disable_te_in_range self 1 (mkTE 1 5 10 active)
              ltac:(lia) Hr)
    as (self' & Hrun & Htes & _);
    [simpl; lia|vm_compute; discriminate|].
  exists self'. split; [exact Hrun|]. rewrite Htes. reflexivity.
Defined.

End LinkedCalls.

(** X15.  A [disable_te] that directly follows a [disable_te] of the
    same TE that returned changes nothing on either realization, but
    on [ListGenome] it raises [KeyError] and on [LinkedListGenome] it
    returns. *)
Theorem X15_disable_te_twice :
  (forall (self self1 : ListGenome.t) (te : Z),
      ListGenome.disable_te te self = (Ret tt, self1) ->
      ListGenome.disable_te te self1 = (Raise (KeyError te), self1)) /\
  (forall (self self1 : LinkedListGenome.t) (te : Z),
      LinkedListGenome.disable_te te self = (Ret tt, self1) ->
      LinkedListGenome.disable_te te self1 = (Ret tt, self1)).
Proof.
  split.
  - apply list_disable_te_twice.
  - apply linked_disable_te_twice.
Qed.

Lemma X15_witness :
  let l := snd (ListGenome.insert_te 5 10 (ListGenome.init 20)) in
  let k := snd (LinkedListGenome.insert_te 5 10 (LinkedListGenome.init 20)) in
  let l1 := snd (ListGenome.disable_te 1 l) in
  let k1 := snd (LinkedListGenome.disable_te 1 k) in
  ListGenome.disable_te 1 l1 = (Raise (KeyError 1), l1) /\
  LinkedListGenome.disable_te 1 k1 = (Ret tt, k1).
Proof.
  intros l k l1 k1. split.
  - apply (proj1 X15_disable_te_twice l l1 1). reflexivity.
  - apply (proj2 X15_disable_te_twice k k1 1). reflexivity.
Defined.

(** X16.  On [LinkedListGenome], after a run from a fresh genome in
    which every call met its precondition and [copy_te] and
    [disable_te] were applied to Active TEs only, no two Active TEs
    have intersecting ranges. *)
Theorem X16_linked_no_overlap_on_active (n : Z) (cs : list call) :
  Realizations.all_on_active cs (ListGenome.init n) ->
  let k := snd (LinkedListGenome.run cs (LinkedListGenome.init n)) in
  no_overlap (LinkedListGenome.len k) (LinkedListGenomeSpec.active_records k).
Proof. apply linked_no_overlap_on_active. Qed.

Lemma X16_witness :
  let cs := [Insert_te 5 10; Insert_te 10 10; Copy_te 2 20; Disable_te 3] in
  let k := snd (LinkedListGenome.run cs (LinkedListGenome.init 20)) in
  Realizations.all_on_active cs (ListGenome.init 20) /\
  no_overlap (LinkedListGenome.len k) (LinkedListGenomeSpec.active_records k).
Proof.
  intros cs k.
  assert (Realizations.all_on_active cs (ListGenome.init 20)) as Hcs
    by (vm_compute; repeat split; discriminate).
  split; [exact Hcs|]. exact (X16_linked_no_overlap_on_active 20 cs Hcs).
Defined.

(** ** What every run keeps, valid or not *)

Lemma bind_snd {S A B} (P : S -> Prop) (m : M S A) (k : A -> M S B) (s : S) :
  P (snd (m s)) -> (forall a s', P s' -> P (snd (k a s'))) ->
  P (snd (bind m k s)).
Proof.
  intros Hm Hk. unfold bind. destruct (m s) as [[a|e] s']; simpl in *; auto.
Qed.

Section LinkedAllRuns.
Import LinkedListGenome LinkedListGenomeSpec Invariants.

Lemma tes_set_inactive_tes (i : Z) (self : t) :
  tes (snd (tes_set_inactive i self)) = tes self \/
  exists k, tes (snd (tes_set_inactive i self)) = alter disable_record k (tes self).
Proof.
  unfold tes_set_inactive. destruct (Py.norm_index _ _) as [k|]; simpl.
  - right. by exists k.
  - by left.
Qed.

(** The collision test, whether it returns or raises, changes no record
    but for the status of one. *)
Lemma linked_collide_tes_any (nucleotide : Nucleotide) (self : t) :
  tes (snd (collide nucleotide self)) = tes self \/
  exists k, tes (snd (collide nucleotide self)) = alter disable_record k (tes self).
Proof.
  set (self' := snd (collide nucleotide self)).
  assert (self' = snd (collide nucleotide self)) as Hs by done.
  clearbody self'. revert Hs.
  unfold collide. destruct (Ascii.eqb _ _); [|intros ->; by left].
  unfold bind at 1. destruct (id nucleotide) as [k|]; [|intros ->; by left].
  unfold ret at 1. unfold bind at 1.
  destruct (tes_getitem (k - 1) self) as [[te_old|e] self0] eqn:Hget;
    apply tes_getitem_state in Hget as ->; [|intros ->; by left].
  unfold bind.
  pose proof (set_loop_frame
    (Py.range (te_pos te_old) (te_pos te_old + te_length te_old))
    (mkNucleotide "x"%char (Some k)) self) as [F1 F2].
  destruct (for_each _ _ self) as [[[]|e] self1]; simpl in F1, F2;
    [|intros ->; left; by simpl].
  intros ->. rewrite <- F1. apply tes_set_inactive_tes.
Qed.

Lemma linked_disable_te_tes (te : Z) (self : t) :
  tes (snd (disable_te te self)) = tes self \/
  exists k, tes (snd (disable_te te self)) = alter disable_record k (tes self).
Proof.
  set (self' := snd (disable_te te self)).
  assert (self' = snd (disable_te te self)) as Hs by done.
  clearbody self'. revert Hs.
  unfold disable_te, bind.
  destruct (tes_getitem (te - 1) self) as [[r|e] self0] eqn:Hget;
    apply tes_getitem_state in Hget as ->; [|intros ->; by left].
  pose proof (symbol_loop_frame (Py.range (te_pos r) (te_pos r + te_length r))
                "x"%char self) as [F1 F2].
  destruct (for_each _ _ self) as [[[]|e] self1]; simpl in F1, F2;
    [|intros ->; left; by simpl].
  intros ->. rewrite <- F1. apply tes_set_inactive_tes.
Qed.

(** What [insert_te] does to the records, whether it returns or raises:
    at most one record is disabled, and when it returns the record of
    the new TE is appended and the starts are shifted. *)
Lemma linked_insert_te_tes (pos length : Z) (self : t) :
  exists tes1,
    (tes1 = tes self \/ exists k, tes1 = alter disable_record k (tes self)) /\
    (tes (snd (insert_te pos length self)) = tes1 \/
     tes (snd (insert_te pos length self))
     = map (shift_record pos length)
         (tes1 ++ [mkTE (Z.of_nat (List.length (tes self)) + 1) pos length active])).
Proof.
  set (self' := snd (insert_te pos length self)).
  assert (self' = snd (insert_te pos length self)) as Hs by done.
  clearbody self'. revert Hs.
  rewrite linked_insert_te_unfold. cbv zeta.
  destruct (DLL.get_element_at_index (genome self) pos) as [nucleotide|e].
  2: { intros ->. exists (tes self). split; [by left|by left]. }
  pose proof (linked_collide_tes_any nucleotide self) as Hc.
  destruct (collide nucleotide self) as [[[]|e] self1]; simpl in Hc.
  2: { intros ->. exists (tes self1). split; [done|by left]. }
  intros ->. exists (tes self1). split; [done|].
  destruct (if negb (pos =? 0) then _ else _) as [link|e]; [|by left].
  destruct (DLL.head_previous _); [|by left].
  by right.
Qed.

Lemma linked_step_tes (c : call) (self : t) :
  exists tes1,
    (tes1 = tes self \/ exists k, tes1 = alter disable_record k (tes self)) /\
    (tes (snd (step c self)) = tes1 \/
     exists pos length,
       tes (snd (step c self))
       = map (shift_record pos length)
           (tes1 ++ [mkTE (Z.of_nat (List.length (tes self)) + 1) pos length active])).
Proof.
  destruct c as [pos length|te offset|te| | |]; simpl.
  - destruct (linked_insert_te_tes pos length self) as (tes1 & H1 & H2).
    exists tes1. split; [done|].
    unfold bind. destruct (insert_te pos length self) as [[i|e] self'];
      simpl in *; destruct H2 as [H2|H2]; eauto.
  - unfold bind. rewrite linked_copy_te_unfold.
    destruct (Py.getitem (tes self) (te - 1)) as [r|];
      [|exists (tes self); split; by left].
    destruct (is_active r); [|exists (tes self); split; by left].
    destruct (len self =? 0); [exists (tes self); split; by left|].
    destruct (linked_insert_te_tes ((offset + te_pos r) mod len self)
                (te_length r) self) as (tes1 & H1 & H2).
    exists tes1. split; [done|].
    destruct (insert_te _ _ self) as [[i|e] self'];
      simpl in *; destruct H2 as [H2|H2]; eauto.
  - pose proof (linked_disable_te_tes te self) as H.
    exists (tes (snd (disable_te te self))). split; [done|]. left.
    unfold bind. by destruct (disable_te te self) as [[[]|e] self'].
  - exists (tes self). split; by left.
  - exists (tes self). split; by left.
  - exists (tes self). split; by left.
Qed.

Lemma continues_refl (l : list TE) : continues l l.
Proof. intros i te Hi. by exists te. Qed.

Lemma continues_trans (l1 l2 l3 : list TE) :
  continues l1 l2 -> continues l2 l3 -> continues l1 l3.
Proof.
  intros H12 H23 i te Hi.
  destruct (H12 i te Hi) as (te2 & H2 & Hid2 & Hlen2 & Hst2).
  destruct (H23 i te2 H2) as (te3 & H3 & Hid3 & Hlen3 & Hst3).
  exists te3. split; [done|]. split; [congruence|]. split; [congruence|].
  auto.
Qed.

Lemma continues_disable (l : list TE) (k : nat) :
  continues l (alter disable_record k l).
Proof.
  intros i te Hi. destruct (decide (k = i)) as [->|Hne].
  - exists (disable_record te). by rewrite list_lookup_alter_eq, Hi.
  - exists te. by rewrite list_lookup_alter_ne.
Qed.

Lemma continues_insert (l : list TE) (pos length : Z) (te : TE) :
  continues l (map (shift_record pos length) (l ++ [te])).
Proof.
  intros i te0 Hi. exists (shift_record pos length te0).
  rewrite list_lookup_fmap, lookup_app_l by (by eapply lookup_lt_Some).
  rewrite Hi. simpl.
  destruct (linked_shift_record_fields pos length te0) as (G1 & G2 & G3 & _).
  simpl in *. repeat split; congruence.
Qed.

(** No call, valid or not, returning or raising, removes a record,
    changes the id or the length of one, or makes an Inactive TE Active
    again. *)
Lemma linked_step_continues (c : call) (self : t) :
  continues (tes self) (tes (snd (step c self))).
Proof.
  destruct (linked_step_tes c self) as (tes1 & H1 & H2).
  assert (continues (tes self) tes1) as C1.
  { destruct H1 as [->|[k ->]]; [apply continues_refl|apply continues_disable]. }
  destruct H2 as [->|(pos & length & ->)]; [done|].
  eapply continues_trans; [exact C1|apply continues_insert].
Qed.

Lemma linked_run_continues (cs : list call) (self : t) :
  continues (tes self) (tes (snd (run cs self))).
Proof.
  revert self. induction cs as [|c cs IH]; intros self.
  - apply continues_refl.
  - rewrite linked_run_cons. simpl.
    eapply continues_trans; [apply linked_step_continues|apply IH].
Qed.

Lemma ids_in_order_disable (l : list TE) (k : nat) :
  (forall (i : nat) te, l !! i = Some te -> te_id te = Z.of_nat i + 1) ->
  forall (i : nat) te, alter disable_record k l !! i = Some te ->
                       te_id te = Z.of_nat i + 1.
Proof.
  intros Hl i te. destruct (decide (k = i)) as [->|Hne].
  - rewrite list_lookup_alter_eq. destruct (l !! i) as [te0|] eqn:Hi; [|done].
    intros [= <-]. simpl. by apply Hl.
  - rewrite list_lookup_alter_ne by done. apply Hl.
Qed.

(** Ids are handed out in the order of the records: no call breaks
    this. *)
Lemma linked_step_ids (c : call) (self : t) :
  ids_in_order self -> ids_in_order (snd (step c self)).
Proof.
  intros Hids. unfold ids_in_order in *.
  destruct (linked_step_tes c self) as (tes1 & H1 & H2).
  assert (forall (i : nat) te, tes1 !! i = Some te -> te_id te = Z.of_nat i + 1)
    as Hids1.
  { destruct H1 as [->|[k ->]]; [done|by apply ids_in_order_disable]. }
  assert (List.length tes1 = List.length (tes self)) as Hlen1.
  { destruct H1 as [->|[k ->]]; [done|by rewrite length_alter]. }
  destruct H2 as [->|(pos & length & ->)]; [done|].
  intros i te. rewrite list_lookup_fmap.
  destruct ((tes1 ++ [mkTE (Z.of_nat (List.length (tes self)) + 1) pos length
                        active]) !! i) as [te0|] eqn:Hi; [|done].
  intros [= <-].
  destruct (linked_shift_record_fields pos length te0) as (G1 & _).
  simpl in G1. rewrite G1.
  destruct (decide (i < List.length tes1)%nat) as [Hlt|Hge].
  - rewrite lookup_app_l in Hi by done. by apply Hids1.
  - rewrite lookup_app_r in Hi by lia.
    destruct (i - List.length tes1)%nat as [|j] eqn:Hj; [|by destruct j].
    injection Hi as <-. simpl. lia.
Qed.

Lemma linked_run_ids (cs : list call) (self : t) :
  ids_in_order self -> ids_in_order (snd (run cs self)).
Proof.
  revert self. induction cs as [|c cs IH]; intros self Hids; [done|].
  rewrite linked_run_cons. simpl. by apply IH, linked_step_ids.
Qed.

(** The ids of the records that a test selects, when ids are in the
    order of the records, are strictly increasing. *)
Lemma sorted_ids (P : TE -> bool) (l : list TE) (base : Z) :
  (forall (i : nat) te, l !! i = Some te -> te_id te = base + Z.of_nat i + 1) ->
  StronglySorted Z.lt (map te_id (filter (fun te => P te = true) l)) /\
  Forall (fun k => base < k) (map te_id (filter (fun te => P te = true) l)).
Proof.
  revert base. induction l as [|te l IH]; intros base Hl.
  - split; constructor.
  - destruct (IH (base + 1)) as [Hsorted Hall].
    { intros i te' Hi. rewrite (Hl (S i) te' Hi). lia. }
    assert (te_id te = base + 1) as Hte by (rewrite (Hl 0%nat te eq_refl); lia).
    assert (Forall (fun k => base < k)
              (map te_id (filter (fun te0 => P te0 = true) l))) as Hall'.
    { eapply Forall_impl; [|exact Hall]. simpl. intros. lia. }
    rewrite filter_cons. destruct (decide (P te = true)); [|done].
    simpl. split.
    + constructor; [done|]. by rewrite Hte.
    + constructor; [lia|done].
Qed.

End LinkedAllRuns.

(** X17.  On [LinkedListGenome], after any run of calls from a fresh
    genome, valid or not, returning or raising, ids are in the order of
    the records: the record of the TE [k] is [tes[k - 1]].  So
    [active_tes()] is strictly increasing, and an [insert_te] that
    returns gives an id that no record had before, the number of
    records plus one, and stores the Active record of the new TE with
    its [pos] and [length] at [tes[id - 1]]. *)
Theorem X17_linked_ids_in_order (n : Z) (cs : list call) :
  let self := snd (LinkedListGenome.run cs (LinkedListGenome.init n)) in
  LinkedListGenomeSpec.ids_in_order self /\
  StronglySorted Z.lt (LinkedListGenome.active_tes self) /\
  forall pos length id self',
    LinkedListGenome.insert_te pos length self = (Ret id, self') ->
    id = Z.of_nat (List.length (LinkedListGenome.tes self)) + 1 /\
    ~ In id (map LinkedListGenome.te_id (LinkedListGenome.tes self)) /\
    LinkedListGenome.tes self' !! Z.to_nat (id - 1)
    = Some (LinkedListGenome.mkTE id pos length LinkedListGenome.active).
Proof.
  intros self.
  assert (LinkedListGenomeSpec.ids_in_order self) as Hids.
  { apply linked_run_ids. intros i te Hi. done. }
  split; [done|]. split.
  - apply (sorted_ids LinkedListGenome.is_active (LinkedListGenome.tes self) 0).
    intros i te Hi. rewrite (Hids i te Hi). lia.
  - intros pos length id self' Hrun.
    destruct (linked_insert_te_records pos length id self self' Hrun)
      as (Hid & Hnew & _).
    split; [done|]. split.
    + intros Hin. apply in_map_iff in Hin as (te & Hte & Hin).
      apply list_elem_of_In, list_elem_of_lookup_1 in Hin as [i Hi].
      pose proof (lookup_lt_Some _ _ _ Hi) as Hlt.
      rewrite (Hids i te Hi) in Hte. lia.
    + replace (Z.to_nat (id - 1)) with (List.length (LinkedListGenome.tes self))
        by lia. done.
Qed.

(** X18.  On [LinkedListGenome] no run of calls, valid or not, from any
    state, removes a record, moves it to another index, changes its id
    or its length, or makes an Inactive TE Active again. *)
Theorem X18_linked_records_persist (cs : list call) (self : LinkedListGenome.t) :
  Invariants.continues (LinkedListGenome.tes self)
    (LinkedListGenome.tes (snd (LinkedListGenome.run cs self))) /\
  (List.length (LinkedListGenome.tes self)
   <= List.length (LinkedListGenome.tes (snd (LinkedListGenome.run cs self))))%nat.
Proof.
  pose proof (linked_run_continues cs self) as Hc. split; [done|].
  destruct (LinkedListGenome.tes self) as [|te l] eqn:Hl using rev_ind;
    [simpl; lia|].
  destruct (Hc (List.length l) te) as (te' & Hte' & _).
  { by rewrite lookup_app_r, Nat.sub_diag by lia. }
  apply lookup_lt_Some in Hte'. rewrite length_app. simpl. lia.
Qed.

Section ListAllRuns.
Import ListGenome ListGenomeSpec Invariants.

Lemma keys_remove_In {V} (d : Py.dict V) (k j : Z) :
  In j (Py.dict_keys (Py.dict_remove d k)) -> In j (Py.dict_keys d) /\ j <> k.
Proof.
  intros Hin. apply in_map_iff in Hin as ([j' w] & <- & Hin).
  apply In_dict_remove in Hin as [Hin Hne]. split; [|done].
  by eapply In_dict_keys.
Qed.

Lemma keys_remove_Forall {V} (P : Z -> Prop) (d : Py.dict V) (k : Z) :
  Forall P (Py.dict_keys d) -> Forall P (Py.dict_keys (Py.dict_remove d k)).
Proof.
  rewrite !List.Forall_forall. intros H j Hj.
  apply keys_remove_In in Hj as [Hj _]. by apply H.
Qed.

Lemma keys_remove_sorted {V} (d : Py.dict V) (k : Z) :
  StronglySorted Z.lt (Py.dict_keys d) ->
  StronglySorted Z.lt (Py.dict_keys (Py.dict_remove d k)).
Proof.
  induction d as [|[k' v'] d IH]; simpl; [done|].
  intros Hs. apply StronglySorted_inv in Hs as [Hs Hall].
  destruct (Z.eqb_spec k' k) as [->|Hne]; [by apply IH|].
  simpl. constructor; [by apply IH|]. by apply keys_remove_Forall.
Qed.

Lemma keys_set_mem {V} (d : Py.dict V) (k : Z) (v : V) :
  In k (Py.dict_keys d) -> Py.dict_keys (Py.dict_set d k v) = Py.dict_keys d.
Proof.
  induction d as [|[k' v'] d IH]; simpl; [done|].
  intros [->|Hin].
  - by rewrite Z.eqb_refl.
  - destruct (Z.eqb_spec k' k) as [->|Hne]; [done|]. simpl.
    f_equal. by apply IH.
Qed.

Lemma keys_set_In {V} (d : Py.dict V) (k j : Z) (v : V) :
  In j (Py.dict_keys (Py.dict_set d k v)) -> In j (Py.dict_keys d) \/ j = k.
Proof.
  destruct (in_dec Z.eq_dec k (Py.dict_keys d)) as [Hk|Hk].
  - rewrite keys_set_mem by done. by left.
  - rewrite dict_set_fresh by done. unfold Py.dict_keys. rewrite map_app.
    intros [Hj|[<-|[]]]%in_app_or; [by left|by right].
Qed.

Lemma sorted_snoc (l : list Z) (x : Z) :
  StronglySorted Z.lt l -> Forall (fun k => k < x) l ->
  StronglySorted Z.lt (l ++ [x]).
Proof.
  induction l as [|a l IH]; simpl; intros Hs Hall.
  - repeat constructor.
  - apply StronglySorted_inv in Hs as [Hs Ha].
    apply Forall_cons_iff in Hall as [Hax Hall].
    constructor; [by apply IH|].
    apply Forall_app. split; [done|]. by constructor.
Qed.

(** What [disable_te] does to the two dicts and the counter, whether it
    returns or raises: nothing, or the move of the record of [te]. *)
Lemma list_disable_te_dicts (te : Z) (self : t) :
  number_of_TEs (snd (disable_te te self)) = number_of_TEs self /\
  ((active_TEs (snd (disable_te te self)) = active_TEs self /\
    inactive_TEs (snd (disable_te te self)) = inactive_TEs self) \/
   (exists r, Py.dict_get (active_TEs self) te = Some r /\
      active_TEs (snd (disable_te te self))
      = Py.dict_remove (active_TEs self) te /\
      inactive_TEs (snd (disable_te te self))
      = Py.dict_set (inactive_TEs self) te r)).
Proof.
  rewrite list_disable_te_unfold.
  destruct (Py.dict_get (active_TEs self) te) as [r|] eqn:Hr;
    [|split; [done|by left]].
  pose proof (flip_loop_frame (Py.range (fst r) (fst r + snd r))
                ("x"%char, te) self) as (F1 & F2 & F3 & F4).
  destruct (for_each _ _ self) as [[[]|e] self1]; simpl in *.
  - split; [done|]. right. by exists r.
  - split; [done|]. by left.
Qed.

(** The move of a record from [active_TEs] to [inactive_TEs] keeps the
    ids below a bound, the order of the Active ids, and the two dicts
    apart. *)
Lemma move_record_bounded (B : Z) (a i : Py.dict (Z * Z)) (te : Z) (r : Z * Z) :
  Py.dict_get a te = Some r ->
  Forall (fun k => 1 <= k <= B) (Py.dict_keys a) ->
  Forall (fun k => 1 <= k <= B) (Py.dict_keys i) ->
  StronglySorted Z.lt (Py.dict_keys a) ->
  (forall k, In k (Py.dict_keys a) -> ~ In k (Py.dict_keys i)) ->
  Forall (fun k => 1 <= k <= B) (Py.dict_keys (Py.dict_remove a te)) /\
  Forall (fun k => 1 <= k <= B) (Py.dict_keys (Py.dict_set i te r)) /\
  StronglySorted Z.lt (Py.dict_keys (Py.dict_remove a te)) /\
  (forall k, In k (Py.dict_keys (Py.dict_remove a te)) ->
             ~ In k (Py.dict_keys (Py.dict_set i te r))).
Proof.
  intros Hr Ha Hi Hs Hapart.
  assert (In te (Py.dict_keys a)) as Hte
    by (eapply In_dict_keys; by apply dict_get_In).
  split; [by apply keys_remove_Forall|]. split.
  { rewrite List.Forall_forall in *. intros j Hj.
    apply keys_set_In in Hj as [Hj| ->]; [by apply Hi|by apply Ha]. }
  split; [by apply keys_remove_sorted|].
  intros k Hk Hk'. apply keys_remove_In in Hk as [Hk Hne].
  apply keys_set_In in Hk' as [Hk'| ->]; [|done]. by apply (Hapart k).
Qed.

(** The four facts about the dicts, for a bound [B], across
    [disable_te]. *)
Lemma list_disable_te_bounded (B : Z) (te : Z) (self : t) :
  Forall (fun k => 1 <= k <= B) (Py.dict_keys (active_TEs self)) ->
  Forall (fun k => 1 <= k <= B) (Py.dict_keys (inactive_TEs self)) ->
  StronglySorted Z.lt (Py.dict_keys (active_TEs self)) ->
  (forall k, In k (Py.dict_keys (active_TEs self)) ->
             ~ In k (Py.dict_keys (inactive_TEs self))) ->
  let self' := snd (disable_te te self) in
  Forall (fun k => 1 <= k <= B) (Py.dict_keys (active_TEs self')) /\
  Forall (fun k => 1 <= k <= B) (Py.dict_keys (inactive_TEs self')) /\
  StronglySorted Z.lt (Py.dict_keys (active_TEs self')) /\
  (forall k, In k (Py.dict_keys (active_TEs self')) ->
             ~ In k (Py.dict_keys (inactive_TEs self'))).
Proof.
  intros Ha Hi Hs Hapart self'.
  destruct (list_disable_te_dicts te self) as [_ [[E1 E2]|(r & Hr & E1 & E2)]];
    unfold self'; rewrite E1, E2; [done|].
  by apply move_record_bounded.
Qed.

Lemma counted_disable_te (te : Z) (self : t) :
  counted self -> counted (snd (disable_te te self)).
Proof.
  intros [H0 Ha Hi Hs Hapart].
  destruct (list_disable_te_dicts te self) as [Hn _].
  destruct (list_disable_te_bounded (number_of_TEs self) te self Ha Hi Hs Hapart)
    as (Ha' & Hi' & Hs' & Hapart').
  constructor; rewrite ?Hn; done.
Qed.

Lemma counted_insert_te (pos length : Z) (self : t) :
  counted self -> counted (snd (insert_te pos length self)).
Proof.
  intros [H0 Ha Hi Hs Hapart].
  rewrite list_insert_te_unfold. cbv zeta.
  set (self1 := set_number_of_TEs (fun c => c + 1) self).
  assert (forall l, Forall (fun k => 1 <= k <= number_of_TEs self) l ->
                    Forall (fun k => 1 <= k <= number_of_TEs self + 1) l)
    as Hweak.
  { intros l Hl. eapply Forall_impl; [|exact Hl]. simpl. intros. lia. }
  destruct (Py.getitem (genome self) pos) as [nuc|].
  2: { simpl. constructor; simpl; auto. lia. }
  assert (number_of_TEs (snd (collide nuc self1)) = number_of_TEs self + 1 /\
          Forall (fun k => 1 <= k <= number_of_TEs self)
            (Py.dict_keys (active_TEs (snd (collide nuc self1)))) /\
          Forall (fun k => 1 <= k <= number_of_TEs self)
            (Py.dict_keys (inactive_TEs (snd (collide nuc self1)))) /\
          StronglySorted Z.lt (Py.dict_keys (active_TEs (snd (collide nuc self1)))) /\
          (forall k, In k (Py.dict_keys (active_TEs (snd (collide nuc self1)))) ->
                     ~ In k (Py.dict_keys (inactive_TEs (snd (collide nuc self1))))))
    as (Hn2 & Ha2 & Hi2 & Hs2 & Hapart2).
  { unfold collide. destruct (Ascii.eqb _ _); [|done].
    destruct (list_disable_te_dicts (snd nuc) self1) as [Hn _].
    split; [by rewrite Hn|].
    by apply (list_disable_te_bounded (number_of_TEs self) (snd nuc) self1). }
  destruct (collide nuc self1) as [[[]|e] self2]; simpl in *.
  - assert (~ In (number_of_TEs self + 1) (Py.dict_keys (active_TEs self2)))
      as Hfresh.
    { intros Hin. rewrite List.Forall_forall in Ha2. apply Ha2 in Hin. lia. }
    constructor; simpl.
    + lia.
    + rewrite dict_keys_shift, dict_set_fresh by done.
      unfold Py.dict_keys. rewrite map_app. apply Forall_app. split.
      * rewrite Hn2. by apply Hweak.
      * constructor; [|done]. simpl. lia.
    + rewrite Hn2. by apply Hweak.
    + rewrite dict_keys_shift, dict_set_fresh by done.
      unfold Py.dict_keys. rewrite map_app. apply sorted_snoc; [done|].
      eapply Forall_impl; [|exact Ha2]. simpl. intros. lia.
    + rewrite dict_keys_shift, dict_set_fresh by done.
      unfold Py.dict_keys at 1. rewrite map_app.
      intros k [Hk|[<-|[]]]%in_app_or; [by apply Hapart2|].
      intros Hin. rewrite List.Forall_forall in Hi2. apply Hi2 in Hin. simpl in Hin. lia.
  - constructor; rewrite ?Hn2; auto. lia.
Qed.

Lemma counted_step (c : call) (self : t) :
  counted self -> counted (snd (step c self)).
Proof.
  intros Hc. destruct c as [pos length|te offset|te| | |]; simpl; try done.
  - apply (bind_snd counted); [by apply counted_insert_te|done].
  - apply (bind_snd counted); [|done].
    rewrite list_copy_te_unfold.
    destruct (Py.dict_get (active_TEs self) te) as [r|]; [|done].
    destruct (len self =? 0); [done|].
    pose proof (counted_insert_te ((fst r + offset) mod len self) (snd r) self Hc)
      as Hi.
    by destruct (insert_te _ _ self) as [[i|e] self'].
  - apply (bind_snd counted); [by apply counted_disable_te|done].
Qed.

Lemma counted_run (cs : list call) (self : t) :
  counted self -> counted (snd (run cs self)).
Proof.
  revert self. induction cs as [|c cs IH]; intros self Hc; [done|].
  rewrite list_run_cons. simpl. by apply IH, counted_step.
Qed.

Lemma counted_init (n : Z) : counted (init n).
Proof. constructor; simpl; try done; constructor. Qed.

End ListAllRuns.

Section ListInactiveFinal.
Import ListGenome ListGenomeSpec Invariants.

(** What a call does to [inactive_TEs], whether it returns or raises:
    nothing, or the entry of the record of an Active TE. *)
Lemma list_step_inactive (c : call) (self : t) :
  inactive_TEs (snd (step c self)) = inactive_TEs self \/
  exists te r, Py.dict_get (active_TEs self) te = Some r /\
               inactive_TEs (snd (step c self))
               = Py.dict_set (inactive_TEs self) te r.
Proof.
  assert (forall pos length,
    inactive_TEs (snd (insert_te pos length self)) = inactive_TEs self \/
    exists te r, Py.dict_get (active_TEs self) te = Some r /\
                 inactive_TEs (snd (insert_te pos length self))
                 = Py.dict_set (inactive_TEs self) te r) as Hinsert.
  { intros pos length. rewrite list_insert_te_unfold. cbv zeta.
    destruct (Py.getitem (genome self) pos) as [nuc|]; [|by left].
    assert (inactive_TEs (snd (collide nuc (set_number_of_TEs (fun c => c + 1) self)))
            = inactive_TEs self \/
            exists te r, Py.dict_get (active_TEs self) te = Some r /\
              inactive_TEs (snd (collide nuc (set_number_of_TEs (fun c => c + 1) self)))
              = Py.dict_set (inactive_TEs self) te r) as Hc.
    { unfold collide. destruct (Ascii.eqb _ _); [|by left].
      destruct (list_disable_te_dicts (snd nuc)
                  (set_number_of_TEs (fun c => c + 1) self))
        as [_ [[_ E]|(r & Hr & _ & E)]]; [by left|].
      right. by exists (snd nuc), r. }
    by destruct (collide nuc _) as [[[]|e] self2]. }
  destruct c as [pos length|te offset|te| | |]; simpl; try by left.
  - unfold bind. specialize (Hinsert pos length).
    by destruct (insert_te pos length self) as [[i|e] self'].
  - unfold bind. rewrite list_copy_te_unfold.
    destruct (Py.dict_get (active_TEs self) te) as [r|]; [|by left].
    destruct (len self =? 0); [by left|].
    specialize (Hinsert ((fst r + offset) mod len self) (snd r)).
    by destruct (insert_te _ _ self) as [[i|e] self'].
  - unfold bind.
    destruct (list_disable_te_dicts te self) as [_ [[_ E]|(r & Hr & _ & E)]].
    + left. by destruct (disable_te te self) as [[[]|e] self'].
    + right. exists te, r. split; [done|].
      by destruct (disable_te te self) as [[[]|e] self'].
Qed.

Lemma list_step_inactive_final (c : call) (self : t) (k : Z) (r : Z * Z) :
  counted self ->
  Py.dict_get (inactive_TEs self) k = Some r ->
  Py.dict_get (inactive_TEs (snd (step c self))) k = Some r.
Proof.
  intros Hc Hk.
  destruct (list_step_inactive c self) as [->|(te & r' & Hte & ->)]; [done|].
  rewrite dict_get_set_ne; [done|]. intros ->.
  apply (counted_apart self Hc k).
  - eapply In_dict_keys. by apply dict_get_In.
  - eapply In_dict_keys. by apply dict_get_In.
Qed.

Lemma list_run_inactive_final (cs : list call) (self : t) (k : Z) (r : Z * Z) :
  counted self ->
  Py.dict_get (inactive_TEs self) k = Some r ->
  Py.dict_get (inactive_TEs (snd (run cs self))) k = Some r.
Proof.
  revert self. induction cs as [|c cs IH]; intros self Hc Hk; [done|].
  rewrite list_run_cons. simpl.
  apply IH; [by apply counted_step|by apply list_step_inactive_final].
Qed.

End ListInactiveFinal.

(** X19.  On [ListGenome], after any run of calls from a fresh genome,
    valid or not, returning or raising, the ids of all records are ids
    that the counter has handed out, [active_tes()] is strictly
    increasing, and no id is both Active and Inactive.  So an
    [insert_te] that returns gives an id that no record had before, the
    counter plus one, and stores the Active record of the new TE with
    its [pos] and [length]. *)
Theorem X19_list_ids_counted (n : Z) (cs : list call) :
  let self := snd (ListGenome.run cs (ListGenome.init n)) in
  Invariants.counted self /\
  StronglySorted Z.lt (ListGenome.active_tes self) /\
  forall pos length id self',
    ListGenome.insert_te pos length self = (Ret id, self') ->
    id = ListGenome.number_of_TEs self + 1 /\
    ~ ListGenomeSpec.known self id /\
    Py.dict_get (ListGenome.active_TEs self') id = Some (pos, length).
Proof.
  intros self.
  assert (Invariants.counted self) as Hc by apply counted_run, counted_init.
  split; [done|]. split; [by apply (Invariants.counted_sorted self)|].
  intros pos length id self' Hrun.
  destruct (list_insert_te_records pos length id self self' Hrun)
    as (Hid & Hnew & _).
  split; [done|]. split; [|done].
  pose proof (Invariants.counted_active self Hc) as Ha.
  pose proof (Invariants.counted_inactive self Hc) as Hi.
  rewrite List.Forall_forall in Ha, Hi.
  intros [Hk|Hk]; apply dict_mem_get in Hk as [r Hr];
    apply dict_get_In, In_dict_keys in Hr.
  - apply Ha in Hr. lia.
  - apply Hi in Hr. lia.
Qed.

(** X20.  On [ListGenome], Inactive is final: once a run of calls from a
    fresh genome has left a TE Inactive, no further calls, valid or not,
    change its record or make it Active again. *)
Theorem X20_list_inactive_is_final (n : Z) (cs cs' : list call) (k : Z)
    (r : Z * Z) :
  let self := snd (ListGenome.run cs (ListGenome.init n)) in
  let self' := snd (ListGenome.run cs' self) in
  Py.dict_get (ListGenome.inactive_TEs self) k = Some r ->
  Py.dict_get (ListGenome.inactive_TEs self') k = Some r /\
  Py.dict_get (ListGenome.active_TEs self') k = None.
Proof.
  intros self self' Hk.
  assert (Invariants.counted self) as Hc by apply counted_run, counted_init.
  assert (Invariants.counted self') as Hc' by (by apply counted_run).
  pose proof (list_run_inactive_final cs' self k r Hc Hk) as Hk'.
  split; [done|].
  destruct (Py.dict_get (ListGenome.active_TEs self') k) as [r'|] eqn:Ha; [|done].
  exfalso. apply (Invariants.counted_apart self' Hc' k).
  - eapply In_dict_keys. by apply dict_get_In.
  - eapply In_dict_keys. by apply dict_get_In.
Qed.

(** TE 1 is disabled by the insertion of TE 2 into it; the calls that
    follow name it again and again. *)
Lemma X20_witness :
  let cs := [Insert_te 5 10; Insert_te 10 10] in
  let cs' := [Copy_te 1 3; Disable_te 1; Insert_te 7 2; Copy_te 2 30] in
  let self := snd (ListGenome.run cs (ListGenome.init 20)) in
  let self' := snd (ListGenome.run cs' self) in
  Py.dict_get (ListGenome.inactive_TEs self) 1 = Some (5, 10) /\
  Py.dict_get (ListGenome.inactive_TEs self') 1 = Some (5, 10) /\
  Py.dict_get (ListGenome.active_TEs self') 1 = None.
Proof.
  intros cs cs' self self'.
  assert (Py.dict_get (ListGenome.inactive_TEs self) 1 = Some (5, 10)) as Hk
    by reflexivity.
  split; [exact Hk|].
  exact (X20_list_inactive_is_final 20 cs cs' 1 (5, 10) Hk).
Defined.

(** ** The symbols of the genome *)

Section ListAlphabet.
Import ListGenome Invariants.

Lemma list_setitem_alphabet (n : Z) (x : ascii * Z) (self : t) :
  is_symbol (fst x) ->
  Forall (fun nuc => is_symbol (fst nuc)) (genome self) ->
  Forall (fun nuc => is_symbol (fst nuc)) (genome (snd (genome_setitem n x self))).
Proof.
  intros Hx Hg. unfold genome_setitem, Py.setitem.
  destruct (Py.norm_index _ _) as [k|]; simpl; [|done].
  by apply Forall_insert.
Qed.

Lemma list_disable_te_alphabet (te : Z) (self : t) :
  Forall (fun nuc => is_symbol (fst nuc)) (genome self) ->
  Forall (fun nuc => is_symbol (fst nuc)) (genome (snd (disable_te te self))).
Proof.
  intros Hg. rewrite list_disable_te_unfold.
  destruct (Py.dict_get (active_TEs self) te) as [r|]; [|done].
  pose proof (for_each_invariant
    (fun s => Forall (fun nuc => is_symbol (fst nuc)) (genome s))
    (Py.range (fst r) (fst r + snd r))
    (fun n => genome_setitem n ("x"%char, te))) as Hloop.
  specialize (Hloop ltac:(intros n s Hs; apply list_setitem_alphabet;
                          [right; by right|done]) self Hg).
  by destruct (for_each _ _ self) as [[[]|e] self1].
Qed.

Lemma list_insert_te_alphabet (pos length : Z) (self : t) :
  Forall (fun nuc => is_symbol (fst nuc)) (genome self) ->
  Forall (fun nuc => is_symbol (fst nuc)) (genome (snd (insert_te pos length self))).
Proof.
  intros Hg. rewrite list_insert_te_unfold. cbv zeta.
  destruct (Py.getitem (genome self) pos) as [nuc|]; [|done].
  assert (Forall (fun nuc => is_symbol (fst nuc))
            (genome (snd (collide nuc (set_number_of_TEs (fun c => c + 1) self)))))
    as Hc.
  { unfold collide. destruct (Ascii.eqb _ _); [|done].
    by apply list_disable_te_alphabet. }
  destruct (collide nuc _) as [[[]|e] self2]; simpl in *; [|done].
  unfold Py.slice_insert. apply Forall_app. split; [by apply Forall_take|].
  apply Forall_app. split; [|by apply Forall_drop].
  apply List.Forall_forall. intros x Hx. apply repeat_spec in Hx as ->.
  right. by left.
Qed.

Lemma list_step_alphabet (c : call) (self : t) :
  Forall (fun nuc => is_symbol (fst nuc)) (genome self) ->
  Forall (fun nuc => is_symbol (fst nuc)) (genome (snd (step c self))).
Proof.
  intros Hg. destruct c as [pos length|te offset|te| | |]; simpl; try done.
  - apply (bind_snd (fun s => Forall _ (genome s)));
      [by apply list_insert_te_alphabet|done].
  - apply (bind_snd (fun s => Forall _ (genome s))); [|done].
    rewrite list_copy_te_unfold.
    destruct (Py.dict_get (active_TEs self) te) as [r|]; [|done].
    destruct (len self =? 0); [done|].
    pose proof (list_insert_te_alphabet ((fst r + offset) mod len self) (snd r)
                  self Hg) as Hi.
    by destruct (insert_te _ _ self) as [[i|e] self'].
  - apply (bind_snd (fun s => Forall _ (genome s)));
      [by apply list_disable_te_alphabet|done].
Qed.

Lemma list_run_alphabet (cs : list call) (self : t) :
  Forall (fun nuc => is_symbol (fst nuc)) (genome self) ->
  Forall (fun nuc => is_symbol (fst nuc)) (genome (snd (run cs self))).
Proof.
  revert self. induction cs as [|c cs IH]; intros self Hg; [done|].
  rewrite list_run_cons. simpl. by apply IH, list_step_alphabet.
Qed.

End ListAlphabet.

Section LinkedAlphabet.
Import LinkedListGenome Invariants.

Lemma linked_set_at_index_alphabet (n : Z) (x : Nucleotide) (self : t) :
  is_symbol (symbol x) ->
  Forall (fun e => is_symbol (symbol e)) (genome self) ->
  Forall (fun e => is_symbol (symbol e))
         (genome (snd (genome_set_at_index n x self))).
Proof.
  intros Hx Hg. unfold genome_set_at_index, DLL.set_at_index.
  destruct (DLL.get_link_at_index (genome self) n) as [[|i]|e]; simpl; [done| |done].
  by apply Forall_insert.
Qed.

Lemma linked_set_symbol_alphabet (n : Z) (c : ascii) (self : t) :
  is_symbol c ->
  Forall (fun e => is_symbol (symbol e)) (genome self) ->
  Forall (fun e => is_symbol (symbol e))
         (genome (snd (genome_set_symbol_at_index n c self))).
Proof.
  intros Hc Hg. unfold genome_set_symbol_at_index.
  destruct (DLL.get_element_at_index (genome self) n) as [e|e]; [|done].
  by apply linked_set_at_index_alphabet.
Qed.

Lemma linked_collide_alphabet (nucleotide : Nucleotide) (self : t) :
  Forall (fun e => is_symbol (symbol e)) (genome self) ->
  Forall (fun e => is_symbol (symbol e)) (genome (snd (collide nucleotide self))).
Proof.
  intros Hg. unfold collide. destruct (Ascii.eqb _ _); [|done].
  apply (bind_snd (fun s => Forall _ (genome s)));
    [by destruct (id nucleotide)|].
  intros k s Hs.
  apply (bind_snd (fun s => Forall _ (genome s))).
  { unfold tes_getitem. by destruct (Py.getitem _ _). }
  intros te_old s' Hs'.
  apply (bind_snd (fun s => Forall _ (genome s))).
  { apply (for_each_invariant
             (fun s => Forall (fun e => is_symbol (symbol e)) (genome s)));
      [|done].
    intros n s0 Hs0. apply linked_set_at_index_alphabet; [|done].
    right. by right. }
  intros _ s'' Hs''.
  destruct (tes_set_inactive_frame (k - 1) s'') as [G _]. simpl in G.
  by rewrite G.
Qed.

Lemma linked_insert_te_alphabet (pos length : Z) (self : t) :
  Forall (fun e => is_symbol (symbol e)) (genome self) ->
  Forall (fun e => is_symbol (symbol e)) (genome (snd (insert_te pos length self))).
Proof.
  intros Hg. rewrite linked_insert_te_unfold. cbv zeta.
  destruct (DLL.get_element_at_index (genome self) pos) as [nucleotide|e]; [|done].
  pose proof (linked_collide_alphabet nucleotide self Hg) as Hc.
  destruct (collide nucleotide self) as [[[]|e] self1]; simpl in Hc; [|done].
  destruct (if negb (pos =? 0) then _ else _) as [link|e]; [|done].
  destruct (DLL.head_previous _); [|done].
  simpl. rewrite new_seq_repeat.
  assert (Forall (fun e => is_symbol (symbol e))
            (repeat (mkNucleotide "A"%char
                       (Some (Z.of_nat (List.length (tes self)) + 1)))
                    (Z.to_nat length))) as Hnew.
  { apply List.Forall_forall. intros x Hx. apply repeat_spec in Hx as ->.
    right. by left. }
  destruct link as [|i]; simpl.
  - by apply Forall_app.
  - apply Forall_app. split; [by apply Forall_take|].
    apply Forall_app. split; [done|by apply Forall_drop].
Qed.

Lemma linked_disable_te_alphabet (te : Z) (self : t) :
  Forall (fun e => is_symbol (symbol e)) (genome self) ->
  Forall (fun e => is_symbol (symbol e)) (genome (snd (disable_te te self))).
Proof.
  intros Hg. unfold disable_te.
  apply (bind_snd (fun s => Forall _ (genome s))).
  { unfold tes_getitem. by destruct (Py.getitem _ _). }
  intros r s Hs.
  apply (bind_snd (fun s => Forall _ (genome s))).
  { apply (for_each_invariant
             (fun s => Forall (fun e => is_symbol (symbol e)) (genome s)));
      [|done].
    intros n s0 Hs0. apply linked_set_symbol_alphabet; [|done].
    right. by right. }
  intros _ s' Hs'.
  destruct (tes_set_inactive_frame (te - 1) s') as [G _]. simpl in G.
  by rewrite G.
Qed.

Lemma linked_step_alphabet (c : call) (self : t) :
  Forall (fun e => is_symbol (symbol e)) (genome self) ->
  Forall (fun e => is_symbol (symbol e)) (genome (snd (step c self))).
Proof.
  intros Hg. destruct c as [pos length|te offset|te| | |]; simpl; try done.
  - apply (bind_snd (fun s => Forall _ (genome s)));
      [by apply linked_insert_te_alphabet|done].
  - apply (bind_snd (fun s => Forall _ (genome s))); [|done].
    rewrite linked_copy_te_unfold.
    destruct (Py.getitem (tes self) (te - 1)) as [r|]; [|done].
    destruct (is_active r); [|done].
    destruct (len self =? 0); [done|].
    pose proof (linked_insert_te_alphabet ((offset + te_pos r) mod len self)
                  (te_length r) self Hg) as Hi.
    by destruct (insert_te _ _ self) as [[i|e] self'].
  - apply (bind_snd (fun s => Forall _ (genome s)));
      [by apply linked_disable_te_alphabet|done].
Qed.

Lemma linked_run_alphabet (cs : list call) (self : t) :
  Forall (fun e => is_symbol (symbol e)) (genome self) ->
  Forall (fun e => is_symbol (symbol e)) (genome (snd (run cs self))).
Proof.
  revert self. induction cs as [|c cs IH]; intros self Hg; [done|].
  rewrite linked_run_cons. simpl. by apply IH, linked_step_alphabet.
Qed.

End LinkedAlphabet.

(** X21.  Whatever calls are made on a fresh genome, valid or not,
    returning or raising, the string of the genome is written in the
    three symbols [-], [A] and [x], on both realizations. *)
Theorem X21_str_alphabet (n : Z) (cs : list call) :
  Forall Invariants.is_symbol
    (list_ascii_of_string
       (ListGenome.str (snd (ListGenome.run cs (ListGenome.init n))))) /\
  Forall Invariants.is_symbol
    (list_ascii_of_string
       (LinkedListGenome.str
          (snd (LinkedListGenome.run cs (LinkedListGenome.init n))))).
Proof.
  unfold ListGenome.str, LinkedListGenome.str.
  rewrite !list_ascii_of_string_of_list_ascii. split.
  - apply Forall_map. apply list_run_alphabet. simpl.
    apply List.Forall_forall. intros x Hx. apply repeat_spec in Hx as ->.
    by left.
  - apply Forall_map. apply linked_run_alphabet. rewrite init_genome.
    apply List.Forall_forall. intros x Hx. apply repeat_spec in Hx as ->.
    by left.
Qed.

(** ** The empty genome *)

Section EmptyGenome.

Lemma list_step_empty (c : call) (self : ListGenome.t) :
  ListGenome.genome self = [] -> ListGenome.active_TEs self = [] ->
  ListGenome.inactive_TEs self = [] ->
  is_ret (fst (ListGenome.step c self))
  = match c with Insert_te _ _ | Copy_te _ _ | Disable_te _ => false | _ => true end /\
  ListGenome.genome (snd (ListGenome.step c self)) = [] /\
  ListGenome.active_TEs (snd (ListGenome.step c self)) = [] /\
  ListGenome.inactive_TEs (snd (ListGenome.step c self)) = [].
Proof.
  intros Hg Ha Hi. destruct c as [pos length|te offset|te| | |]; simpl; try done.
  - unfold bind. rewrite list_insert_te_unfold. cbv zeta. rewrite Hg.
    unfold Py.getitem. simpl.
    by destruct (Py.norm_index 0 pos) as [[|k]|].
  - unfold bind. rewrite list_copy_te_unfold, Ha. done.
  - unfold bind. rewrite list_disable_te_unfold, Ha. done.
Qed.

Lemma list_run_empty (cs : list call) (self : ListGenome.t) :
  ListGenome.genome self = [] -> ListGenome.active_TEs self = [] ->
  ListGenome.inactive_TEs self = [] ->
  ListGenome.genome (snd (ListGenome.run cs self)) = [] /\
  ListGenome.active_TEs (snd (ListGenome.run cs self)) = [] /\
  ListGenome.inactive_TEs (snd (ListGenome.run cs self)) = [].
Proof.
  revert self. induction cs as [|c cs IH]; intros self Hg Ha Hi; [done|].
  rewrite list_run_cons. simpl.
  destruct (list_step_empty c self Hg Ha Hi) as (_ & Hg' & Ha' & Hi').
  by apply IH.
Qed.

Lemma linked_step_empty (c : call) (self : LinkedListGenome.t) :
  LinkedListGenome.genome self = [] -> LinkedListGenome.tes self = [] ->
  is_ret (fst (LinkedListGenome.step c self))
  = match c with Insert_te _ _ | Copy_te _ _ | Disable_te _ => false | _ => true end /\
  snd (LinkedListGenome.step c self) = self.
Proof.
  intros Hg Ht. destruct c as [pos length|te offset|te| | |]; simpl; try done.
  - unfold bind. rewrite linked_insert_te_unfold. cbv zeta. rewrite Hg.
    unfold LinkedListGenome.DLL.get_element_at_index,
      LinkedListGenome.DLL.get_link_at_index.
    destruct (pos <? 0); [done|]. by rewrite lookup_nil.
  - unfold bind. rewrite linked_copy_te_unfold, Ht.
    unfold Py.getitem. simpl.
    by destruct (Py.norm_index 0 (te - 1)) as [[|k]|].
  - unfold bind, LinkedListGenome.disable_te, bind,
      LinkedListGenome.tes_getitem.
    rewrite Ht. unfold Py.getitem. simpl.
    by destruct (Py.norm_index 0 (te - 1)) as [[|k]|].
Qed.

Lemma linked_run_empty (cs : list call) (self : LinkedListGenome.t) :
  LinkedListGenome.genome self = [] -> LinkedListGenome.tes self = [] ->
  snd (LinkedListGenome.run cs self) = self.
Proof.
  revert self. induction cs as [|c cs IH]; intros self Hg Ht; [done|].
  rewrite linked_run_cons. simpl.
  destruct (linked_step_empty c self Hg Ht) as [_ ->]. by apply IH.
Qed.

End EmptyGenome.

(** X22.  A genome made with [n <= 0] is empty and stays empty: after
    any run of calls its length is 0 and it has no Active TE, on both
    realizations, and every [insert_te], [copy_te] and [disable_te]
    raises, whatever its arguments.  On [LinkedListGenome] such a call
    changes nothing at all. *)
Theorem X22_empty_genome_stays_empty (n : Z) (cs : list call) :
  n <= 0 ->
  let l := snd (ListGenome.run cs (ListGenome.init n)) in
  let k := snd (LinkedListGenome.run cs (LinkedListGenome.init n)) in
  ListGenome.len l = 0 /\ ListGenome.active_tes l = [] /\
  LinkedListGenome.len k = 0 /\ LinkedListGenome.active_tes k = [] /\
  k = LinkedListGenome.init n /\
  forall c,
    match c with Insert_te _ _ | Copy_te _ _ | Disable_te _ => True | _ => False end ->
    is_ret (fst (ListGenome.step c l)) = false /\
    is_ret (fst (LinkedListGenome.step c k)) = false /\
    snd (LinkedListGenome.step c k) = k.
Proof.
  intros Hn l k.
  assert (Z.to_nat n = 0%nat) as Hz by lia.
  assert (ListGenome.genome (ListGenome.init n) = []) as Hg0
    by (simpl; by rewrite Hz).
  assert (LinkedListGenome.genome (LinkedListGenome.init n) = []) as Hk0
    by (rewrite init_genome; by rewrite Hz).
  destruct (list_run_empty cs (ListGenome.init n) Hg0 eq_refl eq_refl)
    as (Hg & Ha & Hi).
  pose proof (linked_run_empty cs (LinkedListGenome.init n) Hk0 eq_refl) as Hk.
  fold l in Hg, Ha, Hi. fold k in Hk.
  split; [unfold ListGenome.len; by rewrite Hg|].
  split; [unfold ListGenome.active_tes; by rewrite Ha|].
  split; [rewrite Hk; unfold LinkedListGenome.len, LinkedListGenome.DLL.len;
          by rewrite Hk0|].
  split; [by rewrite Hk|]. split; [done|].
  intros c Hc.
  destruct (list_step_empty c l Hg Ha Hi) as (Hl & _).
  destruct (linked_step_empty c k) as (Hr & Hs); [by rewrite Hk..|].
  rewrite Hl, Hr. by destruct c.
Qed.

Lemma X22_witness :
  let cs := [Insert_te 0 3; Insert_te (-1) 2; Copy_te 1 1; Disable_te 0; Len] in
  ListGenome.len (snd (ListGenome.run cs (ListGenome.init 0))) = 0 /\
  LinkedListGenome.len (snd (LinkedListGenome.run cs (LinkedListGenome.init 0))) = 0.
Proof.
  intros cs.
  destruct (X22_empty_genome_stays_empty 0 cs ltac:(lia)) as (H1 & _ & H2 & _).
  split; [exact H1|exact H2].
Defined.

(** ** A TE of no length *)

(** X23.  With [length <= 0] the two realizations part.
    [LinkedListGenome.insert_te] never returns: whatever the state and
    [pos], it raises, adds no record and leaves the genome as long as it
    was; at a position of the genome whose symbol is not Active the
    exception is [AttributeError] and nothing has changed.
    [ListGenome.insert_te] at such a position returns the next id,
    leaves the symbols of the genome as they are, and stores an Active
    record [(pos, length)] that holds no position. *)
Theorem X23_insert_te_without_length (pos length : Z) :
  length <= 0 ->
  (forall self : LinkedListGenome.t,
     is_ret (fst (LinkedListGenome.insert_te pos length self)) = false /\
     List.length (LinkedListGenome.tes (snd (LinkedListGenome.insert_te pos length self)))
     = List.length (LinkedListGenome.tes self) /\
     LinkedListGenome.len (snd (LinkedListGenome.insert_te pos length self))
     = LinkedListGenome.len self) /\
  (forall (self : LinkedListGenome.t) (e : LinkedListGenome.Nucleotide),
     LinkedListGenomeSpec.symbol_at self pos = Some e ->
     LinkedListGenome.symbol e <> "A"%char ->
     LinkedListGenome.insert_te pos length self = (Raise AttributeError, self)) /\
  (forall (self : ListGenome.t) (c : ascii) (k : Z),
     0 <= pos < ListGenome.len self ->
     ListGenomeSpec.symbol_at self pos = Some (c, k) -> c <> "A"%char ->
     exists self',
       ListGenome.insert_te pos length self
       = (Ret (ListGenome.number_of_TEs self + 1), self') /\
       ListGenome.genome self' = ListGenome.genome self /\
       Py.dict_get (ListGenome.active_TEs self') (ListGenome.number_of_TEs self + 1)
       = Some (pos, length)).
Proof.
  intros Hlength.
  assert (forall id, LinkedListGenome.DLL.head_previous
                       (LinkedListGenome.new_seq id length) = None) as Hprev
    by (intros id; by apply head_previous_new_seq).
  split; [|split].
  - intros self.
    pose proof (linked_insert_te_len pos length self) as Hlen.
    assert (is_ret (fst (LinkedListGenome.insert_te pos length self)) = false /\
            List.length (LinkedListGenome.tes
                           (snd (LinkedListGenome.insert_te pos length self)))
            = List.length (LinkedListGenome.tes self)) as [Hret Htes].
    { rewrite linked_insert_te_unfold. cbv zeta.
      destruct (LinkedListGenome.DLL.get_element_at_index _ pos)
        as [nucleotide|e]; [|done].
      pose proof (linked_collide_frame nucleotide self) as [_ F].
      destruct (LinkedListGenome.collide nucleotide self) as [[[]|e] self1];
        simpl in F; [|done].
      destruct (if negb (pos =? 0) then _ else _) as [link|e]; [|done].
      by rewrite Hprev. }
    split; [done|]. split; [done|].
    destruct (LinkedListGenome.insert_te pos length self) as [o self'].
    simpl in *. rewrite Hret in Hlen. lia.
  - intros self e Hsym He.
    assert (0 <= pos) as Hpos.
    { unfold LinkedListGenomeSpec.symbol_at in Hsym.
      destruct (Z.ltb_spec pos 0); [done|lia]. }
    rewrite linked_symbol_at_nonneg in Hsym by done.
    rewrite linked_insert_te_unfold. cbv zeta.
    rewrite (get_element_at_index_ok _ _ e) by done.
    unfold LinkedListGenome.collide.
    destruct (Ascii.eqb_spec (LinkedListGenome.symbol e) "A"%char); [done|].
    unfold ret. rewrite Hprev.
    destruct (Z.eqb_spec pos 0) as [->|Hne]; simpl; [done|].
    rewrite get_link_at_index_ok; [done|].
    apply lookup_lt_Some in Hsym. unfold LinkedListGenome.DLL.len. lia.
  - intros self c k Hpos Hsym Hc.
    rewrite list_insert_te_unfold. cbv zeta.
    rewrite list_getitem_symbol_at, Hsym by done.
    unfold ListGenome.collide. cbn [fst].
    destruct (Ascii.eqb_spec c "A"%char) as [->|_]; [done|].
    unfold ret. eexists. split; [reflexivity|]. simpl.
    replace (Z.to_nat length) with 0%nat by lia. simpl. split.
    + unfold Py.slice_insert. simpl. apply take_drop.
    + rewrite (dict_get_map _ (fun _ r => (shifted pos length (fst r), snd r))).
      * rewrite dict_get_set_eq. simpl. unfold shifted.
        by rewrite Z.ltb_irrefl.
      * intros k' [s0 l0]. unfold ListGenome.shift_record, shifted. simpl.
        by destruct (pos <? s0).
Qed.

(** [insert_te(5, 0)] on a fresh genome of 20 positions. *)
Lemma X23_witness :
  LinkedListGenome.insert_te 5 0 (LinkedListGenome.init 20)
  = (Raise AttributeError, LinkedListGenome.init 20) /\
  fst (ListGenome.insert_te 5 0 (ListGenome.init 20)) = Ret 1 /\
  ListGenome.active_tes (snd (ListGenome.insert_te 5 0 (ListGenome.init 20))) = [1].
Proof.
  destruct (X23_insert_te_without_length 5 0 ltac:(lia)) as (_ & Hk & Hl).
  split.
  - apply (Hk (LinkedListGenome.init 20) (LinkedListGenome.mkNucleotide "-"%char None));
      [reflexivity|discriminate].
  - destruct (Hl (ListGenome.init 20) "-"%char 0) as (self' & Hrun & _);
      [vm_compute; split; [discriminate|reflexivity]|reflexivity|discriminate|].
    split; reflexivity.
Defined.

(** ** The sequence of a TE after the splice *)

Section HeapNeverEnds.
Context {E : Type}.
Import Heap.

Lemma chained_In_next (R : nat -> nat -> Prop) (path : list nat) (a : nat) :
  chained R path -> In a (removelast path) -> exists b, R a b /\ In b (tl path).
Proof.
  induction path as [|x rest IH]; [done|].
  destruct rest as [|y rest]; [done|].
  rewrite chained_cons. intros [Hxy Hrest] Ha.
  change (removelast (x :: y :: rest)) with (x :: removelast (y :: rest)) in Ha.
  destruct Ha as [<-|Ha].
  - exists y. split; [done|by left].
  - destruct (IH Hrest Ha) as (b & Hb & Hin). exists b. split; [done|].
    simpl. right. exact Hin.
Qed.

(** The [next] of a link of a ring is a link of the ring. *)
Lemma ring_next_in_ring (h : list (DoublyLink E)) (head : nat)
    (links : list nat) (a : nat) :
  ring h head links -> In a (head :: links) ->
  exists o b, h !! a = Some o /\ next o = Some b /\ In b (head :: links).
Proof.
  intros [_ Hfw _ _] Ha.
  destruct (chained_In_next _ _ a Hfw) as (b & Hb & Hin).
  { change (head :: links ++ [head]) with ((head :: links) ++ [head]).
    by rewrite removelast_snoc. }
  apply fmap_Some_inv in Hb as (o & Ho & Hn).
  exists o, b. split; [done|]. split; [done|].
  simpl in Hin. apply in_app_or in Hin as [Hin|[<-|[]]]; [by right|by left].
Qed.

(** A walk that starts in a ring and looks for a link that is not in it
    has not ended after any number of rounds. *)
Lemma len_loop_never (h : list (DoublyLink E)) (head head2 : nat)
    (links : list nat) :
  ring h head links -> ~ In head2 (head :: links) ->
  forall (fuel : nat) (a : nat) (acc : Z),
    In a (head :: links) -> len_loop fuel h head2 (Some a) acc = None.
Proof.
  intros Hring Hhead2. induction fuel as [|fuel IH]; intros a acc Ha; [done|].
  destruct (ring_next_in_ring h head links a Hring Ha) as (o & b & Ho & Hn & Hb).
  cbn [len_loop]. rewrite decide_False by (intros [= ->]; done).
  rewrite (deref_ok a h o Ho). cbn [fst]. rewrite Hn. by apply IH.
Qed.

Lemma str_loop_never (str_of : option E -> string) (h : list (DoublyLink E))
    (head head2 : nat) (links : list nat) :
  ring h head links -> ~ In head2 (head :: links) ->
  forall (fuel : nat) (a : nat) (lst : list string),
    In a (head :: links) -> str_loop str_of fuel h head2 (Some a) lst = None.
Proof.
  intros Hring Hhead2. induction fuel as [|fuel IH]; intros a lst Ha; [done|].
  destruct (ring_next_in_ring h head links a Hring Ha) as (o & b & Ho & Hn & Hb).
  cbn [str_loop]. rewrite decide_False by (intros [= ->]; done).
  rewrite (deref_ok a h o Ho). cbn [fst]. rewrite Hn. by apply IH.
Qed.

End HeapNeverEnds.

(** X24.  After [insert_list_after_link(link, seq.head.next,
    seq.head.previous)] has hooked the links of a sequence [seq] that is
    not empty into another sequence, as [insert_te] does with the
    sequence of the new TE, [seq] itself is no ring any more: its head
    still has the first of its links as [next], but from there [next]
    leads round the other sequence and never back to the head of [seq].
    So the loops of [__len__] and [__str__] on [seq], which [len(te.seq)]
    and the [repr] of the TE run, have not ended after any number of
    rounds. *)
Theorem X24_spliced_sequence_never_ends {E : Type}
    (str_of : option E -> string)
    (h h' : list (Heap.DoublyLink E)) (head head2 : nat) (links mid : list nat)
    (s chain : list E) (l : DoublyLinkedListSequence.link) (link : nat)
    (o2 : Heap.DoublyLink E) :
  Heap.ring h head links -> Heap.elements h links = map Some s ->
  Heap.link_at head links l = Some link ->
  Heap.ring h head2 mid -> Heap.elements h mid = map Some chain ->
  (forall a, In a mid -> ~ In a (head :: links)) ->
  ~ In head2 (head :: links) ->
  h !! head2 = Some o2 ->
  Heap.insert_list_after_link (Some link) (Heap.next o2) (Heap.previous o2) h
  = (Ret tt, h') ->
  forall fuel : nat,
    Heap.len fuel h' head2 = None /\ Heap.str str_of fuel h' head2 = None.
Proof.
  intros Hring Hel Hl Hring2 Hel2 Hdisj Hhead2 Ho2 Hrun fuel.
  pose proof (insert_list_after_link_refines h head head2 links mid s chain l
                link o2 Hring Hel Hl Hring2 Hel2 Hdisj Ho2) as Hspec.
  destruct chain as [|c chain]; [by rewrite Hrun in Hspec|].
  destruct Hspec as (h'' & Hrun' & _ & Hring' & _ & Ho2').
  rewrite Hrun in Hrun'. injection Hrun' as <-.
  specialize (Ho2' Hhead2).
  destruct mid as [|b midt] eqn:Hb.
  { apply elements_length in Hel2. done. }
  assert (Heap.next o2 = Some b) as Hnext.
  { pose proof (Heap.ring_forward _ _ _ Hring2) as Hfw.
    simpl in Hfw. destruct Hfw as [Hfw _].
    unfold Heap.next_is in Hfw. rewrite Ho2 in Hfw. by injection Hfw as ->. }
  set (links' := DoublyLinkedListSequence.insert_list_after_link links l
                   (b :: midt)) in *.
  assert (In b (head :: links')) as Hbin.
  { right. unfold links'. rewrite list_insert_list_cut.
    apply in_or_app. right. by left. }
  assert (~ In head2 (head :: links')) as Hout.
  { intros [->|Hin]; [apply Hhead2; by left|].
    unfold links' in Hin. rewrite list_insert_list_cut in Hin.
    apply in_app_or in Hin as [Hin|[Hin|Hin]%in_app_or].
    - apply Hhead2. right.
      rewrite <- (take_drop (Heap.cut_after l) links). apply in_or_app. by left.
    - pose proof (Heap.ring_nodup _ _ _ Hring2) as Hnd.
      apply list.NoDup_cons in Hnd as [Hnd _]. by apply Hnd, list_elem_of_In.
    - apply Hhead2. right.
      rewrite <- (take_drop (Heap.cut_after l) links). apply in_or_app. by right. }
  split.
  - unfold Heap.len. rewrite (deref_ok head2 h' o2 Ho2'). cbn [fst].
    rewrite Hnext. by apply (len_loop_never h' head head2 links').
  - unfold Heap.str. rewrite (deref_ok head2 h' o2 Ho2'). cbn [fst].
    rewrite Hnext.
    by rewrite (str_loop_never str_of h' head head2 links' Hring' Hout).
Qed.

(** The sequence of [[10; 20]] after it has been hooked into the
    sequence of [[1; 2; 3]]. *)
Lemma X24_witness :
  let h := snd (Heap.init [10; 20] (snd (Heap.init [1; 2; 3] []))) in
  let h' := snd (Heap.insert_list_after_link (Some 3%nat) (Some 6%nat)
                   (Some 5%nat) h) in
  Heap.ring h 0 [3; 2; 1]%nat /\ Heap.ring h 4 [6; 5]%nat /\
  Heap.len 1000 h' 4 = None.
Proof.
  intros h h'.
  assert (Heap.ring h 0 [3; 2; 1]%nat) as Hring by ring_evaluate.
  assert (Heap.ring h 4 [6; 5]%nat) as Hring2 by ring_evaluate.
  split; [exact Hring|]. split; [exact Hring2|].
  apply (X24_spliced_sequence_never_ends (fun _ => EmptyString) h h' 0 4
           [3; 2; 1]%nat [6; 5]%nat [3; 2; 1] [20; 10]
           (DoublyLinkedListSequence.Link 0) 3
           (Heap.mkLink None (Some 5%nat) (Some 6%nat) (Some 4%nat))
           Hring eq_refl eq_refl Hring2 eq_refl).
  - intros a Ha Hb. simpl in Ha, Hb. lia.
  - intros Hin. simpl in Hin. lia.
  - reflexivity.
  - reflexivity.
Defined.

(** ** The sequence of a new TE, link by link *)

Section HeapNewSeq.
Context {E A : Type}.
Import Heap.

(** The loop [for _ in range(length): insert_after(seq.head, x)]: after
    [k] rounds the links are the [k] objects made after the head, the
    newest first. *)
Lemma insert_at_head_loop (head : nat) (x : E) (xs : list A) :
  forall (k : nat) (h : list (DoublyLink E)),
  ring h head (rev (List.seq (S head) k)) ->
  List.length h = (S head + k)%nat ->
  exists h',
    for_each xs (fun _ => insert_after (Some head) x) h = (Ret tt, h') /\
    List.length h' = (S head + k + List.length xs)%nat /\
    ring h' head (rev (List.seq (S head) (k + List.length xs))) /\
    elements h' (rev (List.seq (S head) (k + List.length xs)))
    = repeat (Some x) (List.length xs) ++ elements h (rev (List.seq (S head) k)) /\
    (forall a, (a < head)%nat -> h' !! a = h !! a).
Proof.
  induction xs as [|y xs IH]; intros k h Hring Hlen.
  - exists h. simpl. rewrite !Nat.add_0_r. done.
  - set (links := rev (List.seq (S head) k)) in *.
    destruct (links ++ [head]) as [|s post] eqn:Hs; [by destruct links|].
    destruct (insert_after_ring h head [] links [] post head s x)
      as (h1 & Hrun & Hlen1 & Hring1 & Hnew & Hel & Hframe); [done..|].
    assert (In s (links ++ [head])) as Hsin by (rewrite Hs; by left).
    assert (head <= s)%nat as Hsge.
    { apply in_app_or in Hsin as [Hin|[<-|[]]]; [|lia].
      unfold links in Hin. apply in_rev, in_seq in Hin. lia. }
    simpl in Hring1. rewrite Hlen in Hring1, Hnew.
    rewrite <- rev_seq_S in Hring1.
    destruct (IH (S k) h1) as (h' & Hrun' & Hlen' & Hring' & Helems & Hfr);
      [done|lia|].
    exists h'. split.
    { cbn [for_each]. by rewrite (bind_ret_l _ _ h h1 tt). }
    cbn [List.length].
    replace (k + S (List.length xs))%nat with (S k + List.length xs)%nat by lia.
    split; [lia|]. split; [done|]. split.
    { rewrite Helems, rev_seq_S. fold links.
      change (elements h1 ((S head + k)%nat :: links))
        with ((h1 !! (S head + k)%nat ≫= element) :: elements h1 links).
      apply fmap_Some_inv in Hnew as (on & -> & Hon). simpl. rewrite Hon.
      rewrite (elements_ext h h1 links).
      - by rewrite repeat_middle.
      - intros a Ha. apply Hel.
        apply (ring_lookup h head links); [done|]. by right. }
    intros a Ha. rewrite Hfr by done. apply Hframe; lia.
Qed.

End HeapNewSeq.

(** X25.  The sequence that [insert_te] makes for a new TE, an empty
    [DoublyLinkedListSequence()] and then [insert_after(seq.head,
    Nucleotide('A', id))] for each of [range(length)], is a
    well-formed ring beside the objects that were there: its elements
    are the nucleotides of the list model's [new_seq], and its
    [head.previous] is [None] exactly when the list model's
    [head_previous] is, that is when [length <= 0]. *)
Theorem X25_new_te_sequence (id length : Z)
    (h : list (Heap.DoublyLink LinkedListGenome.Nucleotide)) :
  let head := List.length h in
  let x := LinkedListGenome.mkNucleotide "A"%char (Some id) in
  let links := rev (List.seq (S head) (Z.to_nat length)) in
  exists h0 h',
    Heap.init [] h = (Ret head, h0) /\
    for_each (Py.range 0 length) (fun _ => Heap.insert_after (Some head) x) h0
    = (Ret tt, h') /\
    Heap.ring h' head links /\
    Heap.elements h' links = map Some (LinkedListGenome.new_seq id length) /\
    (Heap.previous <$> h' !! head = Some None <->
     DoublyLinkedListSequence.head_previous (LinkedListGenome.new_seq id length)
     = None) /\
    (Heap.previous <$> h' !! head = Some None <-> length <= 0) /\
    (forall a, (a < head)%nat -> h' !! a = h !! a).
Proof.
  intros head x links.
  destruct (init_ring (E := LinkedListGenome.Nucleotide) [] h)
    as (h0 & Hinit & Hlen0 & Hring0 & _ & _ & Hframe0).
  fold head in Hinit, Hlen0, Hring0, Hframe0. simpl in Hlen0, Hring0.
  destruct (insert_at_head_loop head x (Py.range 0 length) 0 h0)
    as (h' & Hloop & Hlen' & Hring' & Hel' & Hframe'); [done|lia|].
  rewrite length_range, Z.sub_0_r in Hlen', Hring', Hel'.
  simpl in Hring', Hel'. rewrite app_nil_r in Hel'.
  assert (Heap.previous <$> h' !! head = Some None <-> length <= 0) as Hprev.
  { fold links in Hring'. destruct (Z.to_nat length) as [|m] eqn:Hm.
    - split; [lia|]. intros _. by apply (Heap.ring_empty _ _ _ Hring').
    - split; [|lia]. intros Hnone.
      pose proof (Heap.ring_backward _ _ _ Hring') as Hbw.
      unfold links in Hbw. rewrite rev_seq_S in Hbw.
      specialize (Hbw ltac:(done)). unfold Heap.backward in Hbw.
      assert (exists midi e,
                (S head + m)%nat :: rev (List.seq (S head) m) = midi ++ [e])
        as (midi & e & Hsnoc).
      { destruct (list_snoc_cases ((S head + m)%nat :: rev (List.seq (S head) m)))
          as [Hnil|Hsnoc]; [done|exact Hsnoc]. }
      rewrite Hsnoc in Hbw.
      replace (head :: (midi ++ [e]) ++ [head])
        with ((head :: midi) ++ e :: [head]) in Hbw
        by (simpl; by rewrite <- app_assoc).
      apply chained_app in Hbw as [_ [Hbw _]].
      unfold Heap.previous_is in Hbw. rewrite Hnone in Hbw. done. }
  exists h0, h'. split; [done|]. split; [done|]. split; [done|].
  split.
  { unfold links. rewrite Hel', new_seq_repeat.
    generalize (Z.to_nat length). intros m.
    induction m as [|m IH]; simpl; [done|]. by rewrite IH. }
  split; [by rewrite Hprev, head_previous_new_seq|]. split; [done|].
  intros a Ha. rewrite Hframe' by done. by apply Hframe0.
Qed.

(** * What every run keeps, and what the rejected calls do *)

(** ** The invariant of [LinkedListGenome] *)

Section LinkedWf.
Import LinkedListGenome LinkedListGenomeSpec Invariants.

Lemma linked_wf_init (n : Z) : linked_wf (init n).
Proof.
  split.
  - rewrite init_genome. apply List.Forall_forall. intros x Hx.
    apply repeat_spec in Hx as ->. done.
  - by apply Forall_nil.
Qed.

Lemma linked_wf_set_at_index (n : Z) (x : Nucleotide) (self : t) :
  symbol x <> "A"%char ->
  linked_wf self -> linked_wf (snd (genome_set_at_index n x self)).
Proof.
  intros Hx [Htags Hranges]. unfold genome_set_at_index, DLL.set_at_index.
  destruct (DLL.get_link_at_index (genome self) n) as [[|i]|e]; simpl;
    [by split|  |by split].
  split; simpl.
  - by apply Forall_insert.
  - unfold len, DLL.len. simpl. by rewrite length_insert.
Qed.

Lemma linked_wf_set_symbol (n : Z) (self : t) :
  linked_wf self -> linked_wf (snd (genome_set_symbol_at_index n "x"%char self)).
Proof.
  intros Hwf. unfold genome_set_symbol_at_index.
  destruct (DLL.get_element_at_index (genome self) n) as [e|e]; [|done].
  by apply linked_wf_set_at_index.
Qed.

Lemma linked_wf_set_inactive (i : Z) (self : t) :
  linked_wf self -> linked_wf (snd (tes_set_inactive i self)).
Proof.
  intros [Htags Hranges]. unfold tes_set_inactive.
  destruct (Py.norm_index _ i) as [k|]; [|by split].
  split; simpl.
  - by rewrite length_alter.
  - apply Forall_alter; [done|]. by intros te _ H.
Qed.

Lemma linked_wf_collide (nucleotide : Nucleotide) (self : t) :
  linked_wf self -> linked_wf (snd (collide nucleotide self)).
Proof.
  intros Hwf. unfold collide. destruct (Ascii.eqb _ _); [|done].
  apply (bind_snd linked_wf); [by destruct (id nucleotide)|].
  intros k s Hs.
  apply (bind_snd linked_wf).
  { unfold tes_getitem. by destruct (Py.getitem _ _). }
  intros te_old s' Hs'.
  apply (bind_snd linked_wf).
  { apply (for_each_invariant linked_wf); [|done].
    intros n s0 Hs0. by apply linked_wf_set_at_index. }
  intros _ s'' Hs''. by apply linked_wf_set_inactive.
Qed.

Lemma linked_wf_disable_te (te : Z) (self : t) :
  linked_wf self -> linked_wf (snd (disable_te te self)).
Proof.
  intros Hwf. unfold disable_te.
  apply (bind_snd linked_wf).
  { unfold tes_getitem. by destruct (Py.getitem _ _). }
  intros r s Hs.
  apply (bind_snd linked_wf).
  { apply (for_each_invariant linked_wf); [|done].
    intros n s0 Hs0. by apply linked_wf_set_symbol. }
  intros _ s' Hs'. by apply linked_wf_set_inactive.
Qed.

Lemma get_element_at_index_inv {E} (s : DLL.t E) (index : Z) (e : E) :
  DLL.get_element_at_index s index = Ret e ->
  0 <= index /\ s !! Z.to_nat index = Some e.
Proof.
  unfold DLL.get_element_at_index, DLL.get_link_at_index.
  destruct (Z.ltb_spec index 0); [done|].
  destruct (s !! Z.to_nat index) as [x|] eqn:Hx; [|done].
  simpl. rewrite Hx. intros [= ->]. by split.
Qed.

Lemma linked_wf_insert_te (pos length : Z) (self : t) :
  linked_wf self -> linked_wf (snd (insert_te pos length self)).
Proof.
  intros Hwf. rewrite linked_insert_te_unfold. cbv zeta.
  destruct (DLL.get_element_at_index (genome self) pos) as [nucleotide|e] eqn:Hget;
    [|done].
  apply get_element_at_index_inv in Hget as [Hpos Hget].
  apply lookup_lt_Some in Hget.
  pose proof (linked_wf_collide nucleotide self Hwf) as Hc.
  pose proof (linked_collide_frame nucleotide self) as [Fg Ft].
  destruct (collide nucleotide self) as [[[]|e] self1]; simpl in Hc, Fg, Ft; [|done].
  destruct (if negb (pos =? 0) then _ else _) as [link|e]; [|done].
  destruct (DLL.head_previous _) as [l|] eqn:Hprev; [|done].
  assert (1 <= length) as Hlength.
  { destruct (Z.le_gt_cases length 0) as [H|H]; [|lia].
    apply (proj2 (head_previous_new_seq (Z.of_nat (List.length (tes self)) + 1)
                    length)) in H.
    by rewrite H in Hprev. }
  destruct Hc as [Htags Hranges].
  split; cbn [snd genome tes].
  - rewrite length_map, length_app. cbn [List.length].
    assert (Forall (fun e => symbol e = "A"%char ->
                exists k, id e = Some k /\
                  1 <= k <= Z.of_nat (List.length (tes self1) + 1))
              (genome self1)) as Hold.
    { eapply List.Forall_impl; [|exact Htags]. intros e He HA.
      destruct (He HA) as (k & Hk & Hb). exists k. split; [done|lia]. }
    assert (Forall (fun e => symbol e = "A"%char ->
                exists k, id e = Some k /\
                  1 <= k <= Z.of_nat (List.length (tes self1) + 1))
              (new_seq (Z.of_nat (List.length (tes self)) + 1) length)) as Hnew.
    { rewrite new_seq_repeat. apply List.Forall_forall. intros x Hx.
      apply repeat_spec in Hx as ->. intros _. eexists. split; [done|]. lia. }
    destruct link as [|i]; simpl.
    + by apply Forall_app.
    + apply Forall_app. split; [by apply Forall_take|].
      apply Forall_app. split; [done|by apply Forall_drop].
  - unfold len, DLL.len. cbn [genome].
    rewrite length_insert_list_after_link, new_seq_repeat, repeat_length.
    apply Forall_map, Forall_app. split.
    + eapply List.Forall_impl; [|exact Hranges]. intros te (H1 & H2 & H3).
      unfold len, DLL.len in H3.
      unfold shift_record. destruct (pos <? te_pos te); simpl; lia.
    + apply Forall_singleton. unfold shift_record. simpl.
      rewrite Z.ltb_irrefl. simpl. lia.
Qed.

Lemma linked_wf_step (c : call) (self : t) :
  linked_wf self -> linked_wf (snd (step c self)).
Proof.
  intros Hwf. destruct c as [pos length|te offset|te| | |]; simpl; try done.
  - apply (bind_snd linked_wf); [by apply linked_wf_insert_te|done].
  - apply (bind_snd linked_wf); [|done].
    rewrite linked_copy_te_unfold.
    destruct (Py.getitem (tes self) (te - 1)) as [r|]; [|done].
    destruct (is_active r); [|done].
    destruct (len self =? 0); [done|].
    pose proof (linked_wf_insert_te ((offset + te_pos r) mod len self)
                  (te_length r) self Hwf) as Hi.
    by destruct (insert_te _ _ self) as [[i|e] self'].
  - apply (bind_snd linked_wf); [by apply linked_wf_disable_te|done].
Qed.

Lemma linked_wf_run (cs : list call) (self : t) :
  linked_wf self -> linked_wf (snd (run cs self)).
Proof.
  revert self. induction cs as [|c cs IH]; intros self Hwf; [done|].
  rewrite linked_run_cons. simpl. by apply IH, linked_wf_step.
Qed.

Lemma linked_reachable_wf (self : t) : reachable self -> linked_wf self.
Proof.
  induction 1 as [n _|c self _ IH _]; [apply linked_wf_init|by apply linked_wf_step].
Qed.

End LinkedWf.

(** ** Calls under the invariant *)

Section LinkedWfCalls.
Import LinkedListGenome LinkedListGenomeSpec Invariants.

(** Under the invariant the collision test of [insert_te] returns,
    whatever symbol it is given from the genome. *)
Lemma linked_wf_collide_returns (self : t) (i : nat) (nucleotide : Nucleotide) :
  linked_wf self -> genome self !! i = Some nucleotide ->
  exists self1,
    collide nucleotide self = (Ret tt, self1) /\
    len self1 = len self /\
    (symbol nucleotide <> "A"%char -> self1 = self) /\
    (forall k, nucleotide = mkNucleotide "A"%char (Some k) ->
               tes self1 = alter disable_record (Z.to_nat (k - 1)) (tes self)).
Proof.
  intros [Htags Hranges] Hi.
  destruct (Ascii.eqb_spec (symbol nucleotide) "A"%char) as [HA|HA].
  - destruct (proj1 (Forall_lookup _ _) Htags i nucleotide Hi HA) as (k & Hk & Hb).
    destruct nucleotide as [c o]. simpl in HA, Hk. subst c o.
    destruct (lookup_lt_is_Some_2 (tes self) (Z.to_nat (k - 1))) as [te_old Hold];
      [lia|].
    destruct (proj1 (Forall_lookup _ _) Hranges _ _ Hold) as (H1 & H2 & H3).
    destruct (linked_collide_ok self k te_old) as (g' & Hc & Hlen & _);
      [lia|done|done|done|].
    eexists. split; [exact Hc|].
    split; [unfold len, DLL.len; simpl; by rewrite Hlen|].
    split; [done|]. by intros k' [= <-].
  - exists self. unfold collide.
    rewrite (proj2 (Ascii.eqb_neq _ _) HA).
    split; [done|]. split; [done|]. split; [done|].
    intros k ->. done.
Qed.

(** A valid [insert_te] returns in every state that keeps the
    invariant. *)
Lemma linked_wf_insert_te_returns (self : t) (pos length : Z) :
  linked_wf self -> 0 <= pos < len self -> 1 <= length ->
  exists self',
    insert_te pos length self
    = (Ret (Z.of_nat (List.length (tes self)) + 1), self') /\
    len self' = len self + length /\
    tes self' !! List.length (tes self)
    = Some (mkTE (Z.of_nat (List.length (tes self)) + 1) pos length active).
Proof.
  intros Hwf Hpos Hlength.
  destruct (lookup_lt_is_Some_2 (genome self) (Z.to_nat pos)) as [nucleotide Hn].
  { unfold len, DLL.len in Hpos. lia. }
  destruct (linked_wf_collide_returns self _ nucleotide Hwf Hn)
    as (self1 & Hc & _).
  pose proof (linked_insert_te_ok self self1 pos length nucleotide
                Hpos Hlength Hn Hc) as Hrun.
  cbv zeta in Hrun. eexists. split; [exact Hrun|].
  pose proof (linked_insert_te_len pos length self) as Hlen.
  rewrite Hrun in Hlen. simpl in Hlen. split; [lia|].
  by destruct (linked_insert_te_records _ _ _ _ _ Hrun) as (_ & Hnew & _).
Qed.

(** With [length <= 0], at a position of the genome: the collision test
    is made, and then the call raises [AttributeError]. *)
Lemma linked_wf_insert_te_no_length (self : t) (pos length : Z)
    (nucleotide : Nucleotide) :
  linked_wf self -> 0 <= pos -> length <= 0 ->
  genome self !! Z.to_nat pos = Some nucleotide ->
  exists self1,
    insert_te pos length self = (Raise AttributeError, self1) /\
    len self1 = len self /\
    (symbol nucleotide <> "A"%char -> self1 = self) /\
    (forall k, nucleotide = mkNucleotide "A"%char (Some k) ->
               tes self1 = alter disable_record (Z.to_nat (k - 1)) (tes self)).
Proof.
  intros Hwf Hpos Hlength Hn.
  destruct (linked_wf_collide_returns self _ nucleotide Hwf Hn)
    as (self1 & Hc & Hlen & Hsame & Hdis).
  exists self1. split; [|done].
  rewrite linked_insert_te_unfold. cbv zeta.
  rewrite (get_element_at_index_ok _ _ nucleotide) by done.
  rewrite Hc.
  rewrite (proj2 (head_previous_new_seq _ length) Hlength).
  destruct (Z.eqb_spec pos 0) as [->|Hne]; simpl; [done|].
  rewrite get_link_at_index_ok; [done|].
  apply lookup_lt_Some in Hn. unfold len, DLL.len in Hlen. unfold DLL.len. lia.
Qed.

(** [disable_te] of an id that [self.tes[id - 1]] resolves, to the
    record at index [k]. *)
Lemma linked_wf_disable_te_ok (self : t) (te : Z) (k : nat) (r : TE) :
  linked_wf self ->
  Py.norm_index (List.length (tes self)) (te - 1) = Some k ->
  tes self !! k = Some r ->
  exists self',
    disable_te te self = (Ret tt, self') /\
    tes self' = alter disable_record k (tes self) /\
    len self' = len self /\
    (forall i, in_range (te_pos r, te_length r) i ->
       symbol_at self' i
       = (fun e => mkNucleotide "x"%char (id e)) <$> symbol_at self i) /\
    (forall i, ~ in_range (te_pos r, te_length r) i ->
       symbol_at self' i = symbol_at self i).
Proof.
  intros [_ Hranges] Hidx Hr.
  destruct (proj1 (Forall_lookup _ _) Hranges _ _ Hr) as (Hstart & _ & Hend).
  destruct (linked_symbol_loop_ok
              (Py.range (te_pos r) (te_pos r + te_length r)) "x"%char self)
    as (g' & Hloop & Hlen & Hin & Hout).
  { intros n Hn. apply elem_of_range in Hn. lia. }
  exists (mk g' (alter disable_record k (tes self))).
  split.
  { unfold disable_te.
    rewrite (bind_ret_l _ _ self self r)
      by (unfold tes_getitem, Py.getitem; by rewrite Hidx, Hr).
    rewrite (bind_ret_l _ _ _ _ _ Hloop).
    unfold tes_set_inactive. cbn [tes]. by rewrite Hidx. }
  split; [done|].
  split; [unfold len, DLL.len; simpl; by rewrite Hlen|].
  split.
  - intros i Hi. pose proof Hi as Hi'. unfold in_range in Hi'. simpl in Hi'.
    rewrite !linked_symbol_at_nonneg by lia. cbn [genome].
    apply Hin. apply elem_of_range. lia.
  - intros i Hi. unfold symbol_at. destruct (Z.ltb_spec i 0); [done|].
    cbn [genome]. apply Hout. rewrite elem_of_range.
    unfold in_range in Hi. simpl in Hi. lia.
Qed.

(** [copy_te] of an id that [self.tes[id - 1]] resolves to an Active
    record. *)
Lemma linked_wf_copy_te_active (self : t) (te offset : Z) (r : TE) :
  linked_wf self ->
  Py.getitem (tes self) (te - 1) = Some r -> is_active r = true ->
  let id_new := Z.of_nat (List.length (tes self)) + 1 in
  let start_pos_copy := (offset + te_pos r) mod len self in
  exists self',
    copy_te te offset self = (Ret (Some id_new), self') /\
    insert_te start_pos_copy (te_length r) self = (Ret id_new, self') /\
    0 <= start_pos_copy < len self /\
    len self' = len self + te_length r /\
    tes self' !! List.length (tes self)
    = Some (mkTE id_new start_pos_copy (te_length r) active).
Proof.
  intros Hwf Hget Hact id_new start_pos_copy.
  assert (exists k, tes self !! k = Some r) as [k Hk].
  { unfold Py.getitem in Hget. destruct (Py.norm_index _ _) as [k|]; [|done].
    by exists k. }
  destruct (proj1 (Forall_lookup _ _) (lwf_ranges _ Hwf) _ _ Hk) as (H1 & H2 & H3).
  assert (0 <= start_pos_copy < len self) as Hpos
    by (apply Z.mod_pos_bound; lia).
  destruct (linked_wf_insert_te_returns self start_pos_copy (te_length r)
              Hwf Hpos H2) as (self' & Hrun & Hlen & Hnew).
  exists self'. split; [|done].
  rewrite linked_copy_te_unfold, Hget, Hact.
  destruct (Z.eqb_spec (len self) 0) as [H0|_]; [lia|].
  fold start_pos_copy. by rewrite Hrun.
Qed.

(** An id [te] with [te <= -len(tes)] or [te > len(tes)]:
    [self.tes[te - 1]] raises [IndexError]. *)
Lemma linked_getitem_unknown (self : t) (te : Z) :
  te <= - Z.of_nat (List.length (tes self)) \/
  Z.of_nat (List.length (tes self)) < te ->
  Py.getitem (tes self) (te - 1) = None.
Proof.
  intros H. unfold Py.getitem. rewrite norm_index_out; [done|lia].
Qed.

Lemma linked_unknown_raises (self : t) (te offset : Z) :
  te <= - Z.of_nat (List.length (tes self)) \/
  Z.of_nat (List.length (tes self)) < te ->
  copy_te te offset self = (Raise (IndexError "list index out of range"), self) /\
  disable_te te self = (Raise (IndexError "list index out of range"), self).
Proof.
  intros H. apply linked_getitem_unknown in H. split.
  - by rewrite linked_copy_te_unfold, H.
  - unfold disable_te, bind, tes_getitem. by rewrite H.
Qed.

(** An id [te] with [-len(tes) < te <= 0]: [self.tes[te - 1]] is the
    record of the id [te + len(tes)]. *)
Lemma linked_norm_index_wraps (n : nat) (te : Z) :
  - Z.of_nat n < te <= 0 ->
  Py.norm_index n (te - 1) = Some (Z.to_nat (te + Z.of_nat n - 1)) /\
  Py.norm_index n (te + Z.of_nat n - 1) = Some (Z.to_nat (te + Z.of_nat n - 1)).
Proof.
  intros H. split.
  - rewrite norm_index_negative by lia. f_equal. lia.
  - apply norm_index_nonneg. lia.
Qed.

Lemma linked_id_wraps (self : t) (te offset : Z) :
  - Z.of_nat (List.length (tes self)) < te <= 0 ->
  disable_te te self
  = disable_te (te + Z.of_nat (List.length (tes self))) self /\
  copy_te te offset self
  = copy_te (te + Z.of_nat (List.length (tes self))) offset self.
Proof.
  intros H.
  destruct (linked_norm_index_wraps _ _ H) as [H1 H2].
  assert (Py.getitem (tes self) (te - 1)
          = Py.getitem (tes self) (te + Z.of_nat (List.length (tes self)) - 1))
    as Hget by (unfold Py.getitem; by rewrite H1, H2).
  split; [|by rewrite !linked_copy_te_unfold, Hget].
  unfold disable_te, bind, tes_getitem. rewrite <- Hget.
  destruct (Py.getitem (tes self) (te - 1)) as [r|]; [|done].
  pose proof (symbol_loop_frame
    (Py.range (te_pos r) (te_pos r + te_length r)) "x"%char self) as [Htes _].
  destruct (for_each _ _ self) as [[[]|e] self''] eqn:Hloop; [|done].
  simpl in Htes. unfold tes_set_inactive. rewrite Htes. by rewrite H1, H2.
Qed.

End LinkedWfCalls.

(** ** The length after a run of valid calls *)

Section LinkedValidRuns.
Import LinkedListGenome LinkedListGenomeSpec Invariants.

Lemma linked_valid_step_len (c : call) (self : t) :
  linked_wf self -> precondition c self ->
  len (snd (step c self)) =
  len self + match Insertions.linked_inserted c self with
             | Some l => l
             | None => 0
             end.
Proof.
  intros Hwf Hpre. rewrite linked_step_len.
  destruct c as [pos length|te offset|te| | |]; try done.
  - destruct Hpre as [Hpos Hlength].
    destruct (linked_wf_insert_te_returns self pos length Hwf Hpos Hlength)
      as (self' & Hrun & _).
    unfold spliced, step. rewrite (bind_ret_l _ _ _ _ _ Hrun). simpl. lia.
  - unfold spliced, Insertions.linked_inserted.
    destruct (fst (step (Copy_te te offset) self)) as [[]|]; try done.
    destruct (Py.getitem (tes self) (te - 1)) as [r|] eqn:Hget; [|done].
    simpl.
    assert (exists k, tes self !! k = Some r) as [k Hk].
    { unfold Py.getitem in Hget. destruct (Py.norm_index _ _) as [k|]; [|done].
      by exists k. }
    destruct (proj1 (Forall_lookup _ _) (lwf_ranges _ Hwf) _ _ Hk) as (_ & H2 & _).
    lia.
Qed.

Lemma linked_valid_run_len (cs : list call) (self : t) :
  linked_wf self -> preconditions_hold cs self ->
  len (snd (run cs self)) = len self + sum (Insertions.linked_insertions cs self).
Proof.
  revert self. induction cs as [|c cs IH]; intros self Hwf Hpre.
  - simpl. lia.
  - destruct Hpre as [Hc Hcs]. rewrite linked_run_cons. cbn [snd].
    rewrite IH by (done || by apply linked_wf_step).
    rewrite linked_valid_step_len by done.
    cbn [Insertions.linked_insertions].
    destruct (Insertions.linked_inserted c self); simpl; lia.
Qed.

End LinkedValidRuns.

Section ListValidRuns.
Import ListGenome ListGenomeSpec.

Lemma list_reachable_insert_te_len (self : t) (pos length : Z) :
  reachable self -> 0 <= pos < len self -> 1 <= length ->
  exists self',
    insert_te pos length self = (Ret (number_of_TEs self + 1), self') /\
    len self' = len self + length.
Proof.
  intros Hreach Hpos Hlength.
  pose proof (list_reachable_insert_te_returns self pos length
                Hreach Hpos Hlength) as Hret.
  pose proof (list_insert_te_len pos length self) as Hlen.
  destruct (insert_te pos length self) as [o self']. simpl in Hret. subst o.
  exists self'. split; [done|]. simpl in Hlen. lia.
Qed.

Lemma list_valid_step_len (c : call) (self : t) :
  reachable self -> precondition c self ->
  len (snd (step c self)) =
  len self + match Insertions.list_inserted c self with
             | Some l => l
             | None => 0
             end.
Proof.
  intros Hreach Hpre. rewrite list_step_len.
  destruct c as [pos length|te offset|te| | |]; try done.
  - destruct Hpre as [Hpos Hlength].
    destruct (list_reachable_insert_te_len self pos length Hreach Hpos Hlength)
      as (self' & Hrun & _).
    unfold spliced, step. rewrite (bind_ret_l _ _ _ _ _ Hrun). simpl. lia.
  - unfold spliced, Insertions.list_inserted.
    destruct (fst (step (Copy_te te offset) self)) as [[]|]; try done.
    destruct (Py.dict_get (active_TEs self) te) as [[start len0]|] eqn:Hget;
      [|done].
    simpl. apply dict_get_In in Hget.
    destruct (wf_range _ (list_reachable_wf _ Hreach) _ _ _ Hget) as (_ & H2 & _).
    lia.
Qed.

Lemma list_valid_run_len (cs : list call) (self : t) :
  reachable self -> preconditions_hold cs self ->
  len (snd (run cs self)) = len self + sum (Insertions.list_insertions cs self).
Proof.
  revert self. induction cs as [|c cs IH]; intros self Hreach Hpre.
  - simpl. lia.
  - destruct Hpre as [Hc Hcs]. rewrite list_run_cons. cbn [snd].
    rewrite IH by (done || by constructor).
    rewrite list_valid_step_len by done.
    cbn [Insertions.list_insertions].
    destruct (Insertions.list_inserted c self); simpl; lia.
Qed.

End ListValidRuns.

(** ** Arguments that the specification rejects *)

Section ListRejected.
Import ListGenome ListGenomeSpec.

(** An id that was never allocated is in neither dict. *)
Lemma list_unknown_raises (self : t) (te offset : Z) :
  ~ known self te ->
  copy_te te offset self = (Raise (KeyError te), self) /\
  disable_te te self = (Raise (KeyError te), self).
Proof.
  intros Hnk.
  assert (Py.dict_get (active_TEs self) te = None) as Hget.
  { destruct (Py.dict_get (active_TEs self) te) as [r|] eqn:H; [|done].
    exfalso. apply Hnk. left. unfold Py.dict_mem. by rewrite H. }
  split; [by apply list_copy_te_not_active|by apply list_disable_te_not_active].
Qed.

(** A negative [pos] that Python's indexing accepts, on a symbol that
    is not Active: the TE goes in before that symbol, and its record
    keeps the negative start. *)
Lemma list_insert_te_negative_pos (self : t) (pos length : Z) (c : ascii) (k : Z) :
  - len self <= pos < 0 ->
  genome self !! Z.to_nat (pos + len self) = Some (c, k) -> c <> "A"%char ->
  let id := number_of_TEs self + 1 in
  let at_ := Z.to_nat (pos + len self) in
  exists self',
    insert_te pos length self = (Ret id, self') /\
    genome self'
    = take at_ (genome self) ++ repeat ("A"%char, id) (Z.to_nat length)
        ++ drop at_ (genome self) /\
    Py.dict_get (active_TEs self') id = Some (pos, length).
Proof.
  intros Hpos Hsym Hc id at_.
  rewrite list_insert_te_unfold. cbv zeta.
  unfold Py.getitem. unfold len in Hpos.
  rewrite norm_index_negative by lia.
  unfold len in Hsym. rewrite Hsym.
  unfold collide. cbn [fst].
  destruct (Ascii.eqb_spec c "A"%char) as [->|_]; [done|].
  unfold ret. eexists. split; [reflexivity|]. simpl. split.
  - unfold Py.slice_insert, Py.slice_index.
    destruct (Z.ltb_spec pos 0); [|lia].
    unfold at_, len. by rewrite Z.max_r by lia.
  - rewrite (dict_get_map _ (fun _ r => (shifted pos length (fst r), snd r))).
    + rewrite dict_get_set_eq. simpl. unfold shifted.
      by rewrite Z.ltb_irrefl.
    + intros k' [s0 l0]. unfold shift_record, shifted. simpl.
      by destruct (pos <? s0).
Qed.

(** [length <= 0] at a position whose symbol is not Active: nothing is
    spliced in, and an Active record that holds no position is
    stored. *)
Lemma list_insert_te_no_length (self : t) (pos length : Z) (c : ascii) (k : Z) :
  length <= 0 -> 0 <= pos < len self ->
  genome self !! Z.to_nat pos = Some (c, k) -> c <> "A"%char ->
  exists self',
    insert_te pos length self = (Ret (number_of_TEs self + 1), self') /\
    genome self' = genome self /\
    inactive_TEs self' = inactive_TEs self /\
    Py.dict_get (active_TEs self') (number_of_TEs self + 1) = Some (pos, length).
Proof.
  intros Hlength Hpos Hsym Hc.
  rewrite list_insert_te_unfold. cbv zeta.
  rewrite list_getitem_symbol_at by done.
  rewrite list_symbol_at_nonneg by lia. rewrite Hsym.
  unfold collide. cbn [fst].
  destruct (Ascii.eqb_spec c "A"%char) as [->|_]; [done|].
  unfold ret. eexists. split; [reflexivity|]. simpl.
  replace (Z.to_nat length) with 0%nat by lia. simpl. split.
  - unfold Py.slice_insert. simpl. apply take_drop.
  - split; [done|].
    rewrite (dict_get_map _ (fun _ r => (shifted pos length (fst r), snd r))).
    + rewrite dict_get_set_eq. simpl. unfold shifted.
      by rewrite Z.ltb_irrefl.
    + intros k' [s0 l0]. unfold shift_record, shifted. simpl.
      by destruct (pos <? s0).
Qed.

End ListRejected.

Section LinkedRejected.
Import LinkedListGenome LinkedListGenomeSpec.

(** With [length <= 0], [insert_te] does not return, in any state. *)
Lemma linked_insert_te_no_length_raises (self : t) (pos length : Z) :
  length <= 0 ->
  is_ret (fst (insert_te pos length self)) = false /\
  List.length (tes (snd (insert_te pos length self))) = List.length (tes self) /\
  len (snd (insert_te pos length self)) = len self.
Proof.
  intros Hlength.
  pose proof (linked_insert_te_len pos length self) as Hlen.
  assert (is_ret (fst (insert_te pos length self)) = false /\
          List.length (tes (snd (insert_te pos length self)))
          = List.length (tes self)) as [Hret Htes].
  { rewrite linked_insert_te_unfold. cbv zeta.
    destruct (DLL.get_element_at_index _ pos) as [nucleotide|e]; [|done].
    pose proof (linked_collide_frame nucleotide self) as [_ F].
    destruct (collide nucleotide self) as [[[]|e] self1]; simpl in F; [|done].
    destruct (if negb (pos =? 0) then _ else _) as [link|e]; [|done].
    by rewrite (proj2 (head_previous_new_seq _ length) Hlength). }
  split; [done|]. split; [done|].
  destruct (insert_te pos length self) as [o self'].
  simpl in *. rewrite Hret in Hlen. lia.
Qed.

End LinkedRejected.

(** * The claims of the specification *)

(** C1.  [insert_te(5, 10)], [disable_te(1)], [copy_te(1, 3)] on a genome
    of 20 positions: every call meets its precondition on both
    realizations, the first two calls return the same values and leave
    the same string, length and active TEs, and the third raises
    [KeyError(1)] on [ListGenome] and returns [None] on
    [LinkedListGenome]. *)
Theorem C1_realizations_diverge :
  let cs := [Insert_te 5 10; Disable_te 1; Copy_te 1 3] in
  ListGenomeSpec.preconditions_hold cs (ListGenome.init 20) /\
  LinkedListGenomeSpec.preconditions_hold cs (LinkedListGenome.init 20) /\
  fst (ListGenome.run cs (ListGenome.init 20)) =
    [Ret (VInt 1); Ret VNone; Raise (KeyError 1)] /\
  fst (LinkedListGenome.run cs (LinkedListGenome.init 20)) =
    [Ret (VInt 1); Ret VNone; Ret VNone].
Proof.
  intros cs. repeat split; evaluate.
Qed.

(** C2.  [ListGenome(20)], [insert_te(5, 10)], [disable_te(1)]: the
    record of TE 1 exists and is Inactive, yet [copy_te(1, 3)] raises
    [KeyError(1)], the very failure that [copy_te(7, 3)] gives for the id
    7 that was never created; it does leave the genome as it was.  On
    [LinkedListGenome] the same call returns [None]. *)
Theorem C2_list_copy_te_of_inactive_raises :
  let cs := [Insert_te 5 10; Disable_te 1] in
  let self := snd (ListGenome.run cs (ListGenome.init 20)) in
  let linked := snd (LinkedListGenome.run cs (LinkedListGenome.init 20)) in
  Py.dict_get (ListGenome.inactive_TEs self) 1 = Some (5, 10) /\
  ListGenome.copy_te 1 3 self = (Raise (KeyError 1), self) /\
  ListGenome.copy_te 7 3 self = (Raise (KeyError 7), self) /\
  LinkedListGenome.copy_te 1 3 linked = (Ret None, linked) /\
  LinkedListGenome.copy_te 7 3 linked =
    (Raise (IndexError "list index out of range"), linked).
Proof.
  intros cs self linked.
  split; [reflexivity|].
  split; [by apply list_copy_te_not_active|].
  split; [by apply list_copy_te_not_active|].
  split.
  - by apply (linked_copy_te_inactive linked 1 3
                (LinkedListGenome.mkTE 1 5 10 LinkedListGenome.inactive)).
  - apply linked_copy_te_unknown. vm_compute. reflexivity.
Qed.

(** Calls that violate a precondition of the specification, on a genome
    of 3 positions.  On [ListGenome], [insert_te(3, 2)] raises
    [IndexError] but has advanced the id counter; [insert_te(-1, 2)]
    returns the id 1 and has spliced the TE in before the last
    position; [insert_te(1, 0)] returns the id 1.  On
    [LinkedListGenome], [insert_te(1, 0)] raises [AttributeError]; and
    after [insert_te(1, 2)], [disable_te(0)] returns and has disabled
    TE 1, and [insert_te(1, 0)] raises [AttributeError] and has disabled
    TE 1. *)
Lemma C3_counterexample :
  (fst (ListGenome.insert_te 3 2 (ListGenome.init 3))
     = Raise (IndexError "list index out of range") /\
   ListGenome.number_of_TEs (snd (ListGenome.insert_te 3 2 (ListGenome.init 3))) = 1 /\
   snd (ListGenome.insert_te 3 2 (ListGenome.init 3)) <> ListGenome.init 3) /\
  (fst (ListGenome.insert_te (-1) 2 (ListGenome.init 3)) = Ret 1 /\
   ListGenome.str (snd (ListGenome.insert_te (-1) 2 (ListGenome.init 3)))
     = "--AA-"%string) /\
  fst (ListGenome.insert_te 1 0 (ListGenome.init 3)) = Ret 1 /\
  fst (LinkedListGenome.insert_te 1 0 (LinkedListGenome.init 3)) = Raise AttributeError /\
  (let self := snd (LinkedListGenome.insert_te 1 2 (LinkedListGenome.init 3)) in
   fst (LinkedListGenome.disable_te 0 self) = Ret tt /\
   LinkedListGenome.str self = "-AA--"%string /\
   LinkedListGenome.str (snd (LinkedListGenome.disable_te 0 self)) = "-xx--"%string) /\
  (let self := snd (LinkedListGenome.insert_te 1 2 (LinkedListGenome.init 3)) in
   fst (LinkedListGenome.insert_te 1 0 self) = Raise AttributeError /\
   LinkedListGenome.active_tes self = [1] /\
   LinkedListGenome.active_tes (snd (LinkedListGenome.insert_te 1 0 self)) = [] /\
   LinkedListGenome.str (snd (LinkedListGenome.insert_te 1 0 self)) = "-xx--"%string).
Proof.
  repeat split; evaluate.
Qed.

(** C3 (amended).  No argument is validated: a call fails where
    Python's list indexing, dict lookup or attribute access fails.

    On [LinkedListGenome], whose states all keep the invariant:
    [insert_te] with [pos] outside [[0, length)] raises [IndexError] and
    leaves the state as it was.  [insert_te] with [length <= 0] never
    returns, adds no record and keeps the length of the genome; at a
    position of the genome it raises [AttributeError] once its collision
    test is made, which leaves the state as it was when the symbol there
    is not Active and has disabled the TE [k] when the symbol is Active
    and tagged [k].  [copy_te] and [disable_te] with an id
    [te > len(tes)] or [te <= -len(tes)] raise [IndexError] and leave
    the state as it was.  With [-len(tes) < te <= 0] they are the call
    on the id [te + len(tes)] and are not rejected: [disable_te] returns
    and sets the status of that record to Inactive, [copy_te] of an
    Active record returns the id of the copy, and [copy_te] of an
    Inactive record returns [None].

    On [ListGenome]: [copy_te] and [disable_te] with an id that was
    never allocated, a key of neither dict, raise [KeyError] and leave
    the state as it was.  [insert_te] with [pos >= length] or
    [pos < -length] raises [IndexError] and leaves the symbols and both
    dicts of records as they were, but has advanced the id counter.
    [insert_te] with [-length <= pos < 0] on a symbol that is not
    Active returns the next id, with the TE spliced in before the
    position [length + pos] and its record stored with the start [pos].
    [insert_te] with [length <= 0] at a position whose symbol is not
    Active returns the next id, leaves the symbols as they were and
    stores the Active record [(pos, length)]. *)
Theorem C3_rejected_calls :
  (forall (n : Z) (cs : list call),
      Invariants.linked_wf (snd (LinkedListGenome.run cs (LinkedListGenome.init n)))) /\
  (forall (self : LinkedListGenome.t) (pos length : Z),
      pos < 0 \/ LinkedListGenome.len self <= pos ->
      exists msg,
        LinkedListGenome.insert_te pos length self = (Raise (IndexError msg), self)) /\
  (forall (self : LinkedListGenome.t) (pos length : Z),
      length <= 0 ->
      is_ret (fst (LinkedListGenome.insert_te pos length self)) = false /\
      List.length (LinkedListGenome.tes (snd (LinkedListGenome.insert_te pos length self)))
      = List.length (LinkedListGenome.tes self) /\
      LinkedListGenome.len (snd (LinkedListGenome.insert_te pos length self))
      = LinkedListGenome.len self) /\
  (forall (self : LinkedListGenome.t) (pos length : Z)
          (nucleotide : LinkedListGenome.Nucleotide),
      Invariants.linked_wf self ->
      length <= 0 ->
      LinkedListGenomeSpec.symbol_at self pos = Some nucleotide ->
      exists self1,
        LinkedListGenome.insert_te pos length self = (Raise AttributeError, self1) /\
        LinkedListGenome.len self1 = LinkedListGenome.len self /\
        (LinkedListGenome.symbol nucleotide <> "A"%char -> self1 = self) /\
        (forall k,
            nucleotide = LinkedListGenome.mkNucleotide "A"%char (Some k) ->
            LinkedListGenome.tes self1
            = alter LinkedListGenome.disable_record (Z.to_nat (k - 1))
                (LinkedListGenome.tes self))) /\
  (forall (self : LinkedListGenome.t) (te offset : Z),
      te <= - Z.of_nat (List.length (LinkedListGenome.tes self)) \/
      Z.of_nat (List.length (LinkedListGenome.tes self)) < te ->
      LinkedListGenome.copy_te te offset self
        = (Raise (IndexError "list index out of range"), self) /\
      LinkedListGenome.disable_te te self
        = (Raise (IndexError "list index out of range"), self)) /\
  (forall (self : LinkedListGenome.t) (te offset : Z) (r : LinkedListGenome.TE),
      Invariants.linked_wf self ->
      - Z.of_nat (List.length (LinkedListGenome.tes self)) < te <= 0 ->
      let named := te + Z.of_nat (List.length (LinkedListGenome.tes self)) in
      LinkedListGenome.tes self !! Z.to_nat (named - 1) = Some r ->
      LinkedListGenome.disable_te te self = LinkedListGenome.disable_te named self /\
      LinkedListGenome.copy_te te offset self
      = LinkedListGenome.copy_te named offset self /\
      (exists self',
          LinkedListGenome.disable_te te self = (Ret tt, self') /\
          LinkedListGenome.tes self'
          = alter LinkedListGenome.disable_record (Z.to_nat (named - 1))
              (LinkedListGenome.tes self)) /\
      (LinkedListGenome.is_active r = true ->
       exists self',
         LinkedListGenome.copy_te te offset self
         = (Ret (Some (Z.of_nat (List.length (LinkedListGenome.tes self)) + 1)), self') /\
         LinkedListGenome.len self'
         = LinkedListGenome.len self + LinkedListGenome.te_length r) /\
      (LinkedListGenome.is_active r = false ->
       LinkedListGenome.copy_te te offset self = (Ret None, self))) /\
  (forall (self : ListGenome.t) (te offset : Z),
      ~ ListGenomeSpec.known self te ->
      ListGenome.copy_te te offset self = (Raise (KeyError te), self) /\
      ListGenome.disable_te te self = (Raise (KeyError te), self)) /\
  (forall (self : ListGenome.t) (pos length : Z),
      pos < - ListGenome.len self \/ ListGenome.len self <= pos ->
      exists self',
        ListGenome.insert_te pos length self
          = (Raise (IndexError "list index out of range"), self') /\
        ListGenome.genome self' = ListGenome.genome self /\
        ListGenome.active_TEs self' = ListGenome.active_TEs self /\
        ListGenome.inactive_TEs self' = ListGenome.inactive_TEs self /\
        ListGenome.number_of_TEs self' = ListGenome.number_of_TEs self + 1) /\
  (forall (self : ListGenome.t) (pos length : Z) (c : ascii) (k : Z),
      - ListGenome.len self <= pos < 0 ->
      ListGenomeSpec.symbol_at self (pos + ListGenome.len self) = Some (c, k) ->
      c <> "A"%char ->
      let id := ListGenome.number_of_TEs self + 1 in
      let before := Z.to_nat (pos + ListGenome.len self) in
      exists self',
        ListGenome.insert_te pos length self = (Ret id, self') /\
        ListGenome.genome self'
        = take before (ListGenome.genome self)
            ++ repeat ("A"%char, id) (Z.to_nat length)
            ++ drop before (ListGenome.genome self) /\
        Py.dict_get (ListGenome.active_TEs self') id = Some (pos, length)) /\
  (forall (self : ListGenome.t) (pos length : Z) (c : ascii) (k : Z),
      length <= 0 -> 0 <= pos < ListGenome.len self ->
      ListGenomeSpec.symbol_at self pos = Some (c, k) -> c <> "A"%char ->
      exists self',
        ListGenome.insert_te pos length self
        = (Ret (ListGenome.number_of_TEs self + 1), self') /\
        ListGenome.genome self' = ListGenome.genome self /\
        ListGenome.inactive_TEs self' = ListGenome.inactive_TEs self /\
        Py.dict_get (ListGenome.active_TEs self') (ListGenome.number_of_TEs self + 1)
        = Some (pos, length)).
Proof.
  split; [intros n cs; apply linked_wf_run, linked_wf_init|].
  split; [exact linked_insert_te_out_of_range|].
  split; [intros self pos length; apply linked_insert_te_no_length_raises|].
  split.
  { intros self pos length nucleotide Hwf Hlength Hsym.
    assert (0 <= pos) as Hpos.
    { unfold LinkedListGenomeSpec.symbol_at in Hsym.
      destruct (Z.ltb_spec pos 0); [done|lia]. }
    rewrite linked_symbol_at_nonneg in Hsym by done.
    by apply linked_wf_insert_te_no_length. }
  split; [exact linked_unknown_raises|].
  split.
  { intros self te offset r Hwf Hte named Hr.
    destruct (linked_id_wraps self te offset Hte) as [Hd Hc].
    destruct (linked_norm_index_wraps _ _ Hte) as [Hidx _].
    split; [exact Hd|]. split; [exact Hc|]. split.
    - destruct (linked_wf_disable_te_ok self te _ r Hwf Hidx Hr)
        as (self' & Hrun & Htes & _).
      by exists self'.
    - assert (Py.getitem (LinkedListGenome.tes self) (te - 1) = Some r) as Hget
        by (unfold Py.getitem; by rewrite Hidx).
      split; intros Hact.
      + destruct (linked_wf_copy_te_active self te offset r Hwf Hget Hact) as
          (self' & Hrun & _ & _ & Hlen & _).
        by exists self'.
      + by apply (linked_copy_te_inactive self te offset r). }
  split; [exact list_unknown_raises|].
  split.
  { intros self pos length H. eexists. split.
    - by apply list_insert_te_out_of_range.
    - done. }
  split.
  { intros self pos length c k Hpos Hsym Hc.
    rewrite list_symbol_at_nonneg in Hsym by lia.
    by apply (list_insert_te_negative_pos self pos length c k). }
  intros self pos length c k Hlength Hpos Hsym Hc.
  rewrite list_symbol_at_nonneg in Hsym by lia.
  by apply (list_insert_te_no_length self pos length c k).
Qed.

(** The rejected calls on the genome of the specification's scenario
    after [insert_te(5, 10)]: 30 positions and one TE. *)
Lemma C3_witness :
  let self := snd (ListGenome.run [Insert_te 5 10] (ListGenome.init 20)) in
  let linked := snd (LinkedListGenome.run [Insert_te 5 10] (LinkedListGenome.init 20)) in
  (exists msg,
      LinkedListGenome.insert_te 30 4 linked = (Raise (IndexError msg), linked)) /\
  is_ret (fst (LinkedListGenome.insert_te 5 0 linked)) = false /\
  LinkedListGenome.insert_te 2 0 linked = (Raise AttributeError, linked) /\
  (exists self1,
      LinkedListGenome.insert_te 5 0 linked = (Raise AttributeError, self1) /\
      LinkedListGenome.tes self1
      = [LinkedListGenome.mkTE 1 5 10 LinkedListGenome.inactive]) /\
  (LinkedListGenome.copy_te 2 0 linked
     = (Raise (IndexError "list index out of range"), linked) /\
   LinkedListGenome.disable_te 2 linked
     = (Raise (IndexError "list index out of range"), linked)) /\
  (LinkedListGenome.copy_te (-1) 0 linked
     = (Raise (IndexError "list index out of range"), linked) /\
   LinkedListGenome.disable_te (-1) linked
     = (Raise (IndexError "list index out of range"), linked)) /\
  (exists self',
      LinkedListGenome.disable_te 0 linked = (Ret tt, self') /\
      LinkedListGenome.tes self'
      = [LinkedListGenome.mkTE 1 5 10 LinkedListGenome.inactive]) /\
  (exists self',
      LinkedListGenome.copy_te 0 7 linked = (Ret (Some 2), self') /\
      LinkedListGenome.len self' = 40) /\
  (ListGenome.copy_te 2 0 self = (Raise (KeyError 2), self) /\
   ListGenome.disable_te 2 self = (Raise (KeyError 2), self)) /\
  (exists self',
      ListGenome.insert_te 30 4 self
        = (Raise (IndexError "list index out of range"), self') /\
      ListGenome.genome self' = ListGenome.genome self /\
      ListGenome.active_TEs self' = ListGenome.active_TEs self /\
      ListGenome.inactive_TEs self' = ListGenome.inactive_TEs self /\
      ListGenome.number_of_TEs self' = 2) /\
  (exists self',
      ListGenome.insert_te (-1) 4 self = (Ret 2, self') /\
      ListGenome.str self' = "-----AAAAAAAAAA--------------AAAA-"%string /\
      Py.dict_get (ListGenome.active_TEs self') 2 = Some (-1, 4)) /\
  (exists self',
      ListGenome.insert_te 2 0 self = (Ret 2, self') /\
      ListGenome.genome self' = ListGenome.genome self /\
      Py.dict_get (ListGenome.active_TEs self') 2 = Some (2, 0)).
Proof.
  intros self linked.
  destruct C3_rejected_calls
    as (Hwf & H1 & H2 & H3 & H4 & H5 & H6 & H7 & H8 & H9).
  pose proof (Hwf 20 [Insert_te 5 10]) as Hlinked. fold linked in Hlinked.
  split; [apply H1; right; evaluate|].
  split; [apply (H2 linked 5 0); lia|].
  split.
  { destruct (H3 linked 2 0 (LinkedListGenome.mkNucleotide "-"%char None)
                Hlinked ltac:(lia) eq_refl) as (self1 & Hrun & _ & Hsame & _).
    rewrite Hrun. f_equal. by apply Hsame. }
  split.
  { destruct (H3 linked 5 0 (LinkedListGenome.mkNucleotide "A"%char (Some 1))
                Hlinked ltac:(lia) eq_refl) as (self1 & Hrun & _ & _ & Hdis).
    exists self1. split; [exact Hrun|]. by rewrite (Hdis 1 eq_refl). }
  split; [apply H4; right; evaluate|].
  split; [apply H4; left; evaluate|].
  destruct (H5 linked 0 7 (LinkedListGenome.mkTE 1 5 10 LinkedListGenome.active)
              Hlinked) as (_ & _ & Hdis & Hcopy & _);
    [simpl; lia|reflexivity|].
  split.
  { destruct Hdis as (self' & Hrun & Htes). exists self'.
    split; [exact Hrun|]. by rewrite Htes. }
  split.
  { destruct (Hcopy eq_refl) as (self' & Hrun & Hlen). exists self'.
    split; [exact Hrun|]. rewrite Hlen. reflexivity. }
  split.
  { apply H6. intros [H|H]; vm_compute in H; discriminate. }
  split.
  { destruct (H7 self 30 4) as (self' & Hrun & Hg & Ha & Hi & Hn);
      [right; evaluate|].
    exists self'. split; [exact Hrun|]. split; [exact Hg|]. split; [exact Ha|].
    split; [exact Hi|]. rewrite Hn. reflexivity. }
  split.
  { destruct (H8 self (-1) 4 "-"%char 0) as (self' & Hrun & Hg & Hr);
      [evaluate|reflexivity|discriminate|].
    exists self'. split; [exact Hrun|]. split; [|exact Hr].
    unfold ListGenome.str. rewrite Hg. reflexivity. }
  destruct (H9 self 2 0 "-"%char 0) as (self' & Hrun & Hg & _ & Hr);
    [lia|evaluate|reflexivity|discriminate|].
  exists self'. split; [exact Hrun|]. split; [exact Hg|exact Hr].
Defined.

(** C4.  Two runs on [LinkedListGenome(20)] in which every call meets
    its precondition and returns, and the last call is a valid
    [insert_te] on a position whose symbol is Active.

    After [insert_te(5, 10)], [insert_te(5, 3)], [disable_te(1)],
    [insert_te(6, 2)], position 6 holds the Active symbol of TE 3, and
    [insert_te(6, 1)] returns the id 4 and disables TE 3; but TE 2 with
    the range (5, 3) is Active too, so TE 4 is not the sole Active
    occupant of its range (6, 1).

    After [insert_te(5, 3)], [insert_te(5, 10)], [disable_te(1)],
    [insert_te(5, 2)], position 16 holds the Active symbol of TE 2,
    whose record (5, 10) is stale: its symbols are at 7..16.
    [insert_te(16, 1)] returns the id 4 and sets the record of TE 2 to
    Inactive, but it flips the positions 5..14 of the record: the
    positions 15 and 17 still hold the Active symbol of TE 2, and the
    positions 5 and 6 of TE 3, which stays Active, hold [x]. *)
Theorem C4_linked_collision_on_stale_record :
  let cs := [Insert_te 5 10; Insert_te 5 3; Disable_te 1; Insert_te 6 2] in
  let self := snd (LinkedListGenome.run cs (LinkedListGenome.init 20)) in
  let self' := snd (LinkedListGenome.insert_te 6 1 self) in
  let cs2 := [Insert_te 5 3; Insert_te 5 10; Disable_te 1; Insert_te 5 2] in
  let self2 := snd (LinkedListGenome.run cs2 (LinkedListGenome.init 20)) in
  let self2' := snd (LinkedListGenome.insert_te 16 1 self2) in
  (LinkedListGenomeSpec.preconditions_hold (cs ++ [Insert_te 6 1])
     (LinkedListGenome.init 20) /\
   LinkedListGenomeSpec.reachable self /\
   fst (LinkedListGenome.run cs (LinkedListGenome.init 20))
   = [Ret (VInt 1); Ret (VInt 2); Ret VNone; Ret (VInt 3)] /\
   LinkedListGenomeSpec.symbol_at self 6
   = Some (LinkedListGenome.mkNucleotide "A"%char (Some 3)) /\
   fst (LinkedListGenome.insert_te 6 1 self) = Ret 4 /\
   LinkedListGenomeSpec.active_records self' = [(2, (5, 3)); (4, (6, 1))] /\
   ~ sole_occupant 4 (6, 1) (LinkedListGenomeSpec.active_records self') /\
   ~ no_overlap (LinkedListGenome.len self')
       (LinkedListGenomeSpec.active_records self')) /\
  (LinkedListGenomeSpec.preconditions_hold (cs2 ++ [Insert_te 16 1])
     (LinkedListGenome.init 20) /\
   LinkedListGenomeSpec.reachable self2 /\
   fst (LinkedListGenome.run cs2 (LinkedListGenome.init 20))
   = [Ret (VInt 1); Ret (VInt 2); Ret VNone; Ret (VInt 3)] /\
   LinkedListGenome.str self2 = "-----AAxxxAAAAAAAxxx---------------"%string /\
   LinkedListGenomeSpec.symbol_at self2 16
   = Some (LinkedListGenome.mkNucleotide "A"%char (Some 2)) /\
   fst (LinkedListGenome.insert_te 16 1 self2) = Ret 4 /\
   LinkedListGenome.tes self2'
   = [LinkedListGenome.mkTE 1 5 3 LinkedListGenome.inactive;
      LinkedListGenome.mkTE 2 5 10 LinkedListGenome.inactive;
      LinkedListGenome.mkTE 3 5 2 LinkedListGenome.active;
      LinkedListGenome.mkTE 4 16 1 LinkedListGenome.active] /\
   LinkedListGenome.str self2' = "-----xxxxxxxxxxAAAxxx---------------"%string /\
   LinkedListGenomeSpec.symbol_at self2' 15
   = Some (LinkedListGenome.mkNucleotide "A"%char (Some 2)) /\
   LinkedListGenomeSpec.symbol_at self2' 17
   = Some (LinkedListGenome.mkNucleotide "A"%char (Some 2)) /\
   LinkedListGenomeSpec.symbol_at self2' 5
   = Some (LinkedListGenome.mkNucleotide "x"%char (Some 2))).
Proof.
  intros cs self self' cs2 self2 self2'.
  assert (LinkedListGenomeSpec.preconditions_hold (cs ++ [Insert_te 6 1])
            (LinkedListGenome.init 20)) as Hpre by (repeat split; evaluate).
  assert (LinkedListGenomeSpec.preconditions_hold (cs2 ++ [Insert_te 16 1])
            (LinkedListGenome.init 20)) as Hpre2 by (repeat split; evaluate).
  assert (LinkedListGenomeSpec.active_records self' = [(2, (5, 3)); (4, (6, 1))])
    as Hact by reflexivity.
  split.
  - split; [exact Hpre|].
    split.
    { apply linked_reachable_run; [by constructor|]. repeat split; evaluate. }
    split; [reflexivity|]. split; [reflexivity|]. split; [reflexivity|].
    split; [exact Hact|]. rewrite Hact. split.
    + intros [_ Hsole].
      apply (Hsole 2 (5, 3) ltac:(by left) ltac:(lia) 6);
        unfold in_range; simpl; lia.
    + intros Hno.
      apply (Hno 2 (5, 3) 4 (6, 1)); [by left | by right; left | lia |].
      exists 6, 6. unfold in_range. simpl. repeat split; lia.
  - split; [exact Hpre2|].
    split.
    { apply linked_reachable_run; [by constructor|]. repeat split; evaluate. }
    repeat split; reflexivity.
Qed.

(** C5.  [LinkedListGenome(20)], [insert_te(5, 10)], [insert_te(5, 3)],
    [disable_te(1)], [insert_te(6, 2)]: every call meets its
    precondition and returns.  The second call disables TE 1, whose
    record keeps the start 5 while its symbols move to 8..17; the third
    call flips the positions 5..14 of that stale record, and with them
    the symbols of the Active TE 2; the fourth call finds [x] at
    position 6 and does not disable TE 2.  TE 2 with range (5, 3) and
    TE 3 with range (6, 2) are then both Active and both hold positions
    6 and 7. *)
Theorem C5_linked_active_ranges_overlap :
  let cs := [Insert_te 5 10; Insert_te 5 3; Disable_te 1; Insert_te 6 2] in
  let self := snd (LinkedListGenome.run cs (LinkedListGenome.init 20)) in
  LinkedListGenomeSpec.preconditions_hold cs (LinkedListGenome.init 20) /\
  LinkedListGenomeSpec.reachable self /\
  fst (LinkedListGenome.run cs (LinkedListGenome.init 20)) =
    [Ret (VInt 1); Ret (VInt 2); Ret VNone; Ret (VInt 3)] /\
  LinkedListGenomeSpec.active_records self = [(2, (5, 3)); (3, (6, 2))] /\
  ~ no_overlap (LinkedListGenome.len self) (LinkedListGenomeSpec.active_records self).
Proof.
  intros cs self.
  assert (LinkedListGenomeSpec.preconditions_hold cs (LinkedListGenome.init 20))
    as Hpre by (repeat split; evaluate).
  assert (LinkedListGenomeSpec.active_records self = [(2, (5, 3)); (3, (6, 2))])
    as Hact by reflexivity.
  split; [exact Hpre|].
  split.
  { apply linked_reachable_run; [|exact Hpre]. by constructor. }
  split; [reflexivity|].
  split; [exact Hact|].
  rewrite Hact. intros Hno.
  apply (Hno 2 (5, 3) 3 (6, 2)); [by left | by right; left | lia |].
  exists 6, 6. unfold in_range. simpl. repeat split; lia.
Qed.

(** C6.  [ListGenome(20)], [insert_te(5, 10)], [disable_te(1)],
    [disable_te(1)]: all three calls meet their preconditions, and the
    second [disable_te(1)] raises [KeyError(1)] where the claim has a
    call that does nothing and does not fail.  On [LinkedListGenome] the
    call on an Inactive TE does not fail but is no no-op either: after
    [insert_te(5, 10)] and [insert_te(5, 3)], TE 1 is Inactive and
    [disable_te(1)] turns the three symbols of the Active TE 2 into
    [x]. *)
Theorem C6_disable_te_of_inactive :
  let cs := [Insert_te 5 10; Disable_te 1] in
  let self := snd (ListGenome.run cs (ListGenome.init 20)) in
  let cs' := [Insert_te 5 10; Insert_te 5 3] in
  let linked := snd (LinkedListGenome.run cs' (LinkedListGenome.init 20)) in
  (ListGenomeSpec.preconditions_hold (cs ++ [Disable_te 1]) (ListGenome.init 20) /\
   ListGenome.disable_te 1 self = (Raise (KeyError 1), self)) /\
  (LinkedListGenomeSpec.preconditions_hold (cs' ++ [Disable_te 1])
     (LinkedListGenome.init 20) /\
   LinkedListGenome.active_tes linked = [2] /\
   LinkedListGenome.str linked = "-----AAAxxxxxxxxxx---------------"%string /\
   fst (LinkedListGenome.disable_te 1 linked) = Ret tt /\
   LinkedListGenome.active_tes (snd (LinkedListGenome.disable_te 1 linked)) = [2] /\
   LinkedListGenome.str (snd (LinkedListGenome.disable_te 1 linked)) =
     "-----xxxxxxxxxxxxx---------------"%string).
Proof.
  intros cs self cs' linked. split.
  - split; [repeat split; evaluate|].
    by apply list_disable_te_not_active.
  - split; [repeat split; evaluate|].
    repeat split; evaluate.
Qed.

(** The call that the specification makes legal on an empty genome,
    [insert_te(0, 3)] on a genome of 0 positions, raises [IndexError]
    on both realizations, and the genome stays empty: its length is 0
    after one valid insertion of length 3. *)
Lemma C7_counterexample :
  (Insertions.legal_insert_te (ListGenome.len (ListGenome.init 0)) 0 3 /\
   fst (ListGenome.insert_te 0 3 (ListGenome.init 0))
   = Raise (IndexError "list index out of range") /\
   ListGenome.len (snd (ListGenome.run [Insert_te 0 3] (ListGenome.init 0))) = 0) /\
  (Insertions.legal_insert_te (LinkedListGenome.len (LinkedListGenome.init 0)) 0 3 /\
   LinkedListGenome.insert_te 0 3 (LinkedListGenome.init 0)
   = (Raise (IndexError "Index out of range"), LinkedListGenome.init 0) /\
   LinkedListGenome.len
     (snd (LinkedListGenome.run [Insert_te 0 3] (LinkedListGenome.init 0))) = 0).
Proof.
  split; (split; [split; [right; split; reflexivity|lia]|split; reflexivity]).
Qed.

(** C7 (amended).  The precondition of [insert_te(pos, length)] is
    [0 <= pos < len] and [length >= 1], so that no [insert_te] is valid
    on an empty genome.  From a fresh genome of [n] positions, after any
    run of calls that meet their preconditions, the length of the genome
    is [n + l1 + ... + lk], where the [li] are the lengths of all the
    [insert_te] calls of the run and, for every [copy_te] that returns
    an id, the length of the record that it copies.  A valid
    [insert_te] returns, in every state that valid calls reach, with
    the genome [length] longer; and no call, valid or not, returning or
    raising, makes the genome shorter. *)
Theorem C7_length_invariant :
  (forall (n : Z) (cs : list call),
      0 <= n ->
      ListGenomeSpec.preconditions_hold cs (ListGenome.init n) ->
      ListGenome.len (snd (ListGenome.run cs (ListGenome.init n)))
      = n + sum (Insertions.list_insertions cs (ListGenome.init n))) /\
  (forall (n : Z) (cs : list call),
      0 <= n ->
      LinkedListGenomeSpec.preconditions_hold cs (LinkedListGenome.init n) ->
      LinkedListGenome.len (snd (LinkedListGenome.run cs (LinkedListGenome.init n)))
      = n + sum (Insertions.linked_insertions cs (LinkedListGenome.init n))) /\
  (forall (self : ListGenome.t) (pos length : Z),
      ListGenomeSpec.reachable self ->
      0 <= pos < ListGenome.len self -> 1 <= length ->
      exists self',
        ListGenome.insert_te pos length self
        = (Ret (ListGenome.number_of_TEs self + 1), self') /\
        ListGenome.len self' = ListGenome.len self + length) /\
  (forall (self : LinkedListGenome.t) (pos length : Z),
      LinkedListGenomeSpec.reachable self ->
      0 <= pos < LinkedListGenome.len self -> 1 <= length ->
      exists self',
        LinkedListGenome.insert_te pos length self
        = (Ret (Z.of_nat (List.length (LinkedListGenome.tes self)) + 1), self') /\
        LinkedListGenome.len self' = LinkedListGenome.len self + length) /\
  (forall (c : call) (self : ListGenome.t),
      ListGenome.len self <= ListGenome.len (snd (ListGenome.step c self))) /\
  (forall (c : call) (self : LinkedListGenome.t),
      LinkedListGenome.len self
      <= LinkedListGenome.len (snd (LinkedListGenome.step c self))).
Proof.
  split; [|split; [|split; [|split; [|split]]]].
  - intros n cs Hn Hpre.
    rewrite list_valid_run_len; [|by constructor|done].
    by rewrite list_len_init.
  - intros n cs Hn Hpre.
    rewrite linked_valid_run_len; [|apply linked_wf_init|done].
    by rewrite linked_len_init.
  - exact list_reachable_insert_te_len.
  - intros self pos length Hreach Hpos Hlength.
    destruct (linked_wf_insert_te_returns self pos length
                (linked_reachable_wf _ Hreach) Hpos Hlength)
      as (self' & Hrun & Hlen & _).
    by exists self'.
  - intros c self. rewrite list_step_len.
    destruct (ListGenomeSpec.spliced c self); lia.
  - intros c self. rewrite linked_step_len.
    destruct (LinkedListGenomeSpec.spliced c self); lia.
Qed.

(** The run of the demonstration script: every call meets its
    precondition, the four insertions have length 10, and the genome
    of 20 positions ends with 60. *)
Lemma C7_witness :
  let cs := [Insert_te 5 10; Insert_te 10 10; Copy_te 2 20; Copy_te 2 (-15);
             Copy_te 1 3; Disable_te 3; Str] in
  (ListGenomeSpec.preconditions_hold cs (ListGenome.init 20) /\
   Insertions.list_insertions cs (ListGenome.init 20) = [10; 10; 10; 10] /\
   ListGenome.len (snd (ListGenome.run cs (ListGenome.init 20))) = 60) /\
  (LinkedListGenomeSpec.preconditions_hold cs (LinkedListGenome.init 20) /\
   Insertions.linked_insertions cs (LinkedListGenome.init 20) = [10; 10; 10; 10] /\
   LinkedListGenome.len (snd (LinkedListGenome.run cs (LinkedListGenome.init 20)))
   = 60).
Proof.
  intros cs.
  assert (ListGenomeSpec.preconditions_hold cs (ListGenome.init 20)) as P1
    by (repeat split; evaluate).
  assert (LinkedListGenomeSpec.preconditions_hold cs (LinkedListGenome.init 20))
    as P2 by (repeat split; evaluate).
  assert (Insertions.list_insertions cs (ListGenome.init 20) = [10; 10; 10; 10])
    as H1 by reflexivity.
  assert (Insertions.linked_insertions cs (LinkedListGenome.init 20)
          = [10; 10; 10; 10]) as H2 by reflexivity.
  split.
  - split; [exact P1|]. split; [exact H1|].
    rewrite (proj1 C7_length_invariant 20 cs); [by rewrite H1|lia|exact P1].
  - split; [exact P2|]. split; [exact H2|].
    rewrite (proj1 (proj2 C7_length_invariant) 20 cs); [by rewrite H2|lia|exact P2].
Defined.

(** C8.  [copy_te] of an Active TE on a genome that is not empty inserts
    at [(start + offset) mod len], a position of the genome whatever the
    sign and the size of [offset], and is the call of [insert_te] at
    that position with the length of the record, whose id it returns. *)
Theorem C8_copy_te_wraps_around :
  (forall (self : ListGenome.t) (te offset start length : Z),
      Py.dict_get (ListGenome.active_TEs self) te = Some (start, length) ->
      0 < ListGenome.len self ->
      let pos := (start + offset) mod ListGenome.len self in
      0 <= pos < ListGenome.len self /\
      ListGenome.copy_te te offset self =
        bind (ListGenome.insert_te pos length)
             (fun id_new => ret (Some id_new)) self) /\
  (forall (self : LinkedListGenome.t) (te offset : Z) (r : LinkedListGenome.TE),
      Py.getitem (LinkedListGenome.tes self) (te - 1) = Some r ->
      LinkedListGenome.is_active r = true ->
      0 < LinkedListGenome.len self ->
      let pos := (LinkedListGenome.te_pos r + offset) mod LinkedListGenome.len self in
      0 <= pos < LinkedListGenome.len self /\
      LinkedListGenome.copy_te te offset self =
        bind (LinkedListGenome.insert_te pos (LinkedListGenome.te_length r))
             (fun id_new => ret (Some id_new)) self).
Proof.
  split.
  - intros self te offset start length Hrec Hlen pos.
    split; [apply Z.mod_pos_bound; lia|].
    unfold ListGenome.copy_te, ListGenome.active_TEs_getitem.
    unfold bind at 1. rewrite Hrec. unfold bind at 1, gets. simpl fst; simpl snd.
    fold (ListGenome.len self).
    destruct (Z.eqb_spec (ListGenome.len self) 0) as [E|_]; [lia|].
    reflexivity.
  - intros self te offset r Hrec Hact Hlen pos.
    split; [apply Z.mod_pos_bound; lia|].
    unfold LinkedListGenome.copy_te, LinkedListGenome.tes_getitem.
    unfold bind at 1. rewrite Hrec, Hact. unfold bind at 1, gets.
    fold (LinkedListGenome.len self).
    destruct (Z.eqb_spec (LinkedListGenome.len self) 0) as [E|_]; [lia|].
    unfold pos. by rewrite (Z.add_comm offset).
Qed.

(** The copies of the demonstration script: TE 2 of the 40 positions
    genome, by 20 and by -15. *)
Lemma C8_witness :
  let cs := [Insert_te 5 10; Insert_te 10 10] in
  let self := snd (ListGenome.run cs (ListGenome.init 20)) in
  let linked := snd (LinkedListGenome.run cs (LinkedListGenome.init 20)) in
  ListGenome.copy_te 2 20 self =
    bind (ListGenome.insert_te 30 10) (fun id_new => ret (Some id_new)) self /\
  LinkedListGenome.copy_te 2 (-15) linked =
    bind (LinkedListGenome.insert_te 35 10) (fun id_new => ret (Some id_new)) linked.
Proof.
  intros cs self linked. split.
  - refine (proj2 (proj1 C8_copy_te_wraps_around self 2 20 10 10 _ _));
      vm_compute; reflexivity.
  - refine (proj2 (proj2 C8_copy_te_wraps_around linked 2 (-15)
              (LinkedListGenome.mkTE 2 10 10 LinkedListGenome.active) _ _ _));
      vm_compute; reflexivity.
Defined.

(** [ListGenome(20)], [insert_te(10, 5)], [disable_te(1)], then the valid
    call [insert_te(3, 2)]: the record of the Inactive TE 1 starts at
    10, which is greater than 3, and still starts at 10, not at 12,
    when the call has returned. *)
Lemma C9_counterexample :
  let self := snd (ListGenome.run [Insert_te 10 5; Disable_te 1] (ListGenome.init 20)) in
  let self' := snd (ListGenome.insert_te 3 2 self) in
  ListGenomeSpec.precondition (Insert_te 3 2) self /\
  fst (ListGenome.insert_te 3 2 self) = Ret 2 /\
  ListGenomeSpec.record_of self 1 = Some (10, 5) /\
  3 < 10 /\
  ListGenomeSpec.record_of self' 1 = Some (10, 5) /\
  ListGenomeSpec.record_of self' 1 <> Some (10 + 2, 5).
Proof.
  intros self self'. repeat split; evaluate.
Qed.

(** C9 (amended).  When [insert_te(pos, length)] returns the new id,
    every other record that was Active before the call and is not the
    one that the call disables is Active with its start moved by
    [length] when the start was strictly greater than [pos], and with
    its start unchanged otherwise, also when it was equal to [pos].  On
    [LinkedListGenome] the same holds for every record of [tes], Active
    or Inactive.  On [ListGenome] the record that the call disables goes
    to [inactive_TEs] with the start it had, and the records of
    [inactive_TEs] keep theirs whatever it is. *)
Theorem C9_insert_te_shifts_records :
  (forall (self self' : ListGenome.t) (pos length id : Z),
      ListGenome.insert_te pos length self = (Ret id, self') ->
      (forall te start len,
          te <> id ->
          Py.dict_get (ListGenome.active_TEs self) te = Some (start, len) ->
          Py.dict_get (ListGenome.active_TEs self') te
            = Some (shifted pos length start, len) \/
          (Py.dict_get (ListGenome.active_TEs self') te = None /\
           Py.dict_get (ListGenome.inactive_TEs self') te = Some (start, len))) /\
      (forall te r,
          Py.dict_get (ListGenome.active_TEs self) te = None ->
          Py.dict_get (ListGenome.inactive_TEs self) te = Some r ->
          Py.dict_get (ListGenome.inactive_TEs self') te = Some r)) /\
  (forall (self self' : LinkedListGenome.t) (pos length id : Z),
      LinkedListGenome.insert_te pos length self = (Ret id, self') ->
      forall (i : nat) (te : LinkedListGenome.TE),
        LinkedListGenome.tes self !! i = Some te ->
        exists te',
          LinkedListGenome.tes self' !! i = Some te' /\
          LinkedListGenome.te_id te' = LinkedListGenome.te_id te /\
          LinkedListGenome.te_length te' = LinkedListGenome.te_length te /\
          LinkedListGenome.te_pos te'
            = shifted pos length (LinkedListGenome.te_pos te)).
Proof.
  split.
  - intros self self' pos length id Hcall.
    apply list_insert_te_records in Hcall as (_ & _ & Hact & Hin). done.
  - intros self self' pos length id Hcall.
    apply linked_insert_te_records in Hcall as (_ & _ & _ & Hrec). done.
Qed.

(** [insert_te(3, 2)] after [insert_te(10, 5)] on a genome of 20
    positions: the record of TE 1 moves from 10 to 12; and after
    [insert_te(10, 5)], [disable_te(1)] on [LinkedListGenome], where TE 1
    is then Inactive, it moves from 10 to 12 as well. *)
Lemma C9_witness :
  let self := snd (ListGenome.run [Insert_te 10 5] (ListGenome.init 20)) in
  let linked :=
    snd (LinkedListGenome.run [Insert_te 10 5; Disable_te 1] (LinkedListGenome.init 20)) in
  (Py.dict_get (ListGenome.active_TEs (snd (ListGenome.insert_te 3 2 self))) 1
     = Some (12, 5) \/
   (Py.dict_get (ListGenome.active_TEs (snd (ListGenome.insert_te 3 2 self))) 1 = None /\
    Py.dict_get (ListGenome.inactive_TEs (snd (ListGenome.insert_te 3 2 self))) 1
      = Some (10, 5))) /\
  (exists te',
      LinkedListGenome.tes (snd (LinkedListGenome.insert_te 3 2 linked)) !! 0%nat
        = Some te' /\
      LinkedListGenome.te_id te' = 1 /\
      LinkedListGenome.te_length te' = 5 /\
      LinkedListGenome.te_pos te' = 12).
Proof.
  intros self linked. split.
  - refine (proj1 (proj1 C9_insert_te_shifts_records self
                     (snd (ListGenome.insert_te 3 2 self)) 3 2 2 _) 1 10 5 _ _);
      evaluate.
  - refine (proj2 C9_insert_te_shifts_records linked
              (snd (LinkedListGenome.insert_te 3 2 linked)) 3 2 2 _ 0%nat
              (LinkedListGenome.mkTE 1 10 5 LinkedListGenome.inactive) _);
      evaluate.
Defined.

(** C10.  On [LinkedListGenome] with at least one TE, the id 0 is not an
    unknown id.  Every state that calls from a fresh genome reach,
    valid or not, returning or raising, keeps the invariant and has its
    ids in the order of the records.  In such a state [self.tes[0 - 1]]
    is the most recently created TE, whose id is [len(self.tes)], and
    [disable_te(0)] and [copy_te(0, offset)] are the same call that
    names that TE by its id, and they do this: [disable_te(0)] returns,
    sets the status of that record and of no other to Inactive, gives
    the symbol [x] to the nucleotide at every position of the range of
    that record and leaves every other nucleotide and the length of the
    genome as they were; [copy_te(0, offset)] of an Active newest TE
    returns the next id, being the [insert_te] at
    [(offset + start) mod len] of the length of that record, which
    returns, makes the genome that much longer and stores the Active
    record of the copy; of an Inactive newest TE it returns [None] and
    changes nothing. *)
Theorem C10_linked_id_zero_is_newest_te :
  (forall (n : Z) (cs : list call),
      let self := snd (LinkedListGenome.run cs (LinkedListGenome.init n)) in
      Invariants.linked_wf self /\ LinkedListGenomeSpec.ids_in_order self) /\
  (forall (self : LinkedListGenome.t) (offset : Z),
      Invariants.linked_wf self -> LinkedListGenomeSpec.ids_in_order self ->
      LinkedListGenome.tes self <> [] ->
      let newest := Z.of_nat (List.length (LinkedListGenome.tes self)) in
      exists te,
        list.last (LinkedListGenome.tes self) = Some te /\
        LinkedListGenome.te_id te = newest /\
        LinkedListGenome.tes_getitem (0 - 1) self = (Ret te, self) /\
        LinkedListGenome.disable_te 0 self
        = LinkedListGenome.disable_te newest self /\
        LinkedListGenome.copy_te 0 offset self
        = LinkedListGenome.copy_te newest offset self /\
        (exists self',
            LinkedListGenome.disable_te 0 self = (Ret tt, self') /\
            LinkedListGenome.tes self'
            = alter LinkedListGenome.disable_record
                (pred (List.length (LinkedListGenome.tes self)))
                (LinkedListGenome.tes self) /\
            LinkedListGenome.len self' = LinkedListGenome.len self /\
            (forall i,
                in_range (LinkedListGenome.te_pos te, LinkedListGenome.te_length te) i ->
                LinkedListGenomeSpec.symbol_at self' i
                = (fun e => LinkedListGenome.mkNucleotide "x"%char
                              (LinkedListGenome.id e))
                    <$> LinkedListGenomeSpec.symbol_at self i) /\
            (forall i,
                ~ in_range (LinkedListGenome.te_pos te, LinkedListGenome.te_length te) i ->
                LinkedListGenomeSpec.symbol_at self' i
                = LinkedListGenomeSpec.symbol_at self i)) /\
        (LinkedListGenome.is_active te = true ->
         let start_pos_copy :=
           (offset + LinkedListGenome.te_pos te) mod LinkedListGenome.len self in
         exists self',
           LinkedListGenome.copy_te 0 offset self = (Ret (Some (newest + 1)), self') /\
           LinkedListGenome.insert_te start_pos_copy (LinkedListGenome.te_length te) self
           = (Ret (newest + 1), self') /\
           LinkedListGenome.len self'
           = LinkedListGenome.len self + LinkedListGenome.te_length te /\
           LinkedListGenome.tes self' !! List.length (LinkedListGenome.tes self)
           = Some (LinkedListGenome.mkTE (newest + 1) start_pos_copy
                     (LinkedListGenome.te_length te) LinkedListGenome.active)) /\
        (LinkedListGenome.is_active te = false ->
         LinkedListGenome.copy_te 0 offset self = (Ret None, self))).
Proof.
  split.
  { intros n cs self. split.
    - apply linked_wf_run, linked_wf_init.
    - apply linked_run_ids. intros i te Hi. done. }
  intros self offset Hwf Hids Hne newest.
  destruct (tes_getitem_minus_one self Hne) as (te & Hlast & Hget).
  assert (LinkedListGenome.tes self !! pred (List.length (LinkedListGenome.tes self))
          = Some te) as Hat by (by rewrite <- last_lookup).
  pose proof (lookup_lt_Some _ _ _ Hat) as Hlt.
  assert (Py.norm_index (List.length (LinkedListGenome.tes self)) (0 - 1)
          = Some (pred (List.length (LinkedListGenome.tes self)))) as Hidx.
  { rewrite norm_index_negative by lia. f_equal. lia. }
  assert (Py.getitem (LinkedListGenome.tes self) (0 - 1) = Some te) as Hitem
    by (unfold Py.getitem; by rewrite Hidx).
  destruct (linked_id_wraps self 0 offset) as [Hd Hc]; [lia|].
  exists te.
  split; [done|].
  split; [rewrite (Hids _ _ Hat); unfold newest; lia|].
  split; [done|].
  split; [exact Hd|].
  split; [exact Hc|].
  split; [by apply (linked_wf_disable_te_ok self 0 _ te)|].
  split.
  - intros Hact start_pos_copy.
    destruct (linked_wf_copy_te_active self 0 offset te Hwf Hitem Hact)
      as (self' & H1 & H2 & _ & H3 & H4).
    by exists self'.
  - intros Hact. by apply (linked_copy_te_inactive self 0 offset te).
Qed.

(** The genome of the specification's scenario after its first call,
    [insert_te(5, 10)] on a fresh genome of 20 positions: TE 1 is the
    newest, [disable_te(0)] disables it, and [copy_te(0, 7)] copies it
    to position 12 as TE 2. *)
Lemma C10_witness :
  let self := snd (LinkedListGenome.run [Insert_te 5 10] (LinkedListGenome.init 20)) in
  LinkedListGenome.tes self <> [] /\
  (exists self',
      LinkedListGenome.disable_te 0 self = (Ret tt, self') /\
      LinkedListGenome.tes self'
      = [LinkedListGenome.mkTE 1 5 10 LinkedListGenome.inactive]) /\
  (exists self',
      LinkedListGenome.copy_te 0 7 self = (Ret (Some 2), self') /\
      LinkedListGenome.len self' = 40 /\
      LinkedListGenome.tes self' !! 1%nat
      = Some (LinkedListGenome.mkTE 2 12 10 LinkedListGenome.active)).
Proof.
  intros self.
  assert (LinkedListGenome.tes self <> []) as Hne by (vm_compute; discriminate).
  split; [exact Hne|].
  destruct (proj1 C10_linked_id_zero_is_newest_te 20 [Insert_te 5 10])
    as [Hwf Hids].
  destruct (proj2 C10_linked_id_zero_is_newest_te self 7 Hwf Hids Hne)
    as (te & Hlast & _ & _ & _ & _ & Hdisable & Hcopy & _).
  assert (te = LinkedListGenome.mkTE 1 5 10 LinkedListGenome.active) as ->
    by (vm_compute in Hlast; congruence).
  split.
  - destruct Hdisable as (self' & Hrun & Htes & _).
    exists self'. split; [exact Hrun|]. rewrite Htes. reflexivity.
  - destruct (Hcopy eq_refl) as (self' & Hrun & _ & Hlen & Hnew).
    exists self'. split; [exact Hrun|]. split; [exact Hlen|exact Hnew].
Defined.
